(** * Arena shooter: simulation core

    A shallow embedding of the repository's three implementations of the
    same game, and the properties of its specification checked on them.

    - [Registry]: src/js/core.js, gameplay.js (the entity and weapon classes
      with the enemy and weapon registries) and src/js/main.js (the [Game]
      driver with its [GameStateMachine]).
    - [Modular]: src/js/utils.js, src/js/entities.js, src/js/game.js and
      src/js/gameState.js.
    - [Monolith]: src/main.js.

    JavaScript numbers are idealised: coordinates, speeds and times are
    rationals ([Q]); health, damage, ammunition and counters are integers
    ([Z]).  The timers that the code adds up frame by frame and compares
    with a threshold are given a second time in doubles (the definitions
    named [...64], built on [Num.round64]), since there the rounding of
    each addition decides on which side of the threshold a sum falls.
    [Math.sqrt], [Math.atan2], [Math.cos] and [Math.sin] are
    section variables, [Date.now()] and [Math.random()] are explicit
    inputs.  Rendering, audio and DOM code is not modelled; where a
    transition has a user-visible side effect it is recorded in a log. *)

From Stdlib Require Import ZArith QArith Qround Qabs Qpower Bool List Lia Lqa.
Import ListNotations.
Open Scope Q_scope.

(** ** Numbers *)

Module Num.

(** [a < b], [a > b], [a >= b], [a === b] on numbers. *)
Definition ltb (a b : Q) : bool := negb (Qle_bool b a).
Definition leb (a b : Q) : bool := Qle_bool a b.
Definition gtb (a b : Q) : bool := ltb b a.
Definition geb (a b : Q) : bool := Qle_bool b a.
Definition eqb (a b : Q) : bool := Qeq_bool a b.

(** [Math.max], [Math.min], [Math.abs], [Math.floor]. *)
Definition max (a b : Q) : Q := if Qle_bool a b then b else a.
Definition min (a b : Q) : Q := if Qle_bool a b then a else b.
Definition abs (a : Q) : Q := if Qle_bool 0 a then a else - a.
Definition floor (a : Q) : Z := Qfloor a.

(** A computable square root, exact on squares of numbers with at most six
    decimals; it instantiates [Math.sqrt] in the concrete scenarios. *)
Definition sqrt6 (q : Q) : Q :=
  (Z.sqrt (Qnum q * 1000000000000 / Z.pos (Qden q)) # 1000000).

(** Doubles.  A JavaScript number is an IEEE 754 binary64 value, and the
    result of [+] and [-] is the double nearest to the exact result, the
    one with the even significand when two are equally near.  [pow2 k] is
    2 to the power [k]. *)
Definition pow2 (k : Z) : Q := Qpower 2 k.

(** The integer nearest to [q], the even one at a tie. *)
Definition roundHalfEven (q : Q) : Z :=
  let f := Qfloor q in
  let r := q - inject_Z f in
  if Qle_bool r (1 # 2)
  then if Qle_bool (1 # 2) r
       then (if Z.even f then f else f + 1)%Z
       else f
  else (f + 1)%Z.

(** The exponent of the binade of [a] (for [a] not negative): the floor of
    the binary logarithm, and -1022 throughout the subnormal range. *)
Definition exponent64 (a : Q) : Z :=
  Z.max (Z.log2 (Qfloor (a * pow2 1074)) - 1074) (-1022).

(** The double nearest to [x]: 53 significant bits, the doubles of one
    binade being 2 ^ (e - 52) apart.  Overflow to [Infinity] (from
    2 ^ 1024 on) is not represented; the times of the game are far below
    it. *)
Definition round64 (x : Q) : Q :=
  let a := Qabs x in
  let e := exponent64 a in
  let m := roundHalfEven (a * pow2 (52 - e)) in
  let r := inject_Z m * pow2 (e - 52) in
  if Qle_bool 0 x then r else - r.

(** A source of [Math.random()] results: the [n]-th call returns
    [draws n]. *)
Record Rng := mkRng { draws : nat -> Q; pos : nat }.

Definition next (r : Rng) : Q * Rng :=
  (draws r (pos r), mkRng (draws r) (S (pos r))).

End Num.

(** ** The registry implementation *)

Module Registry.

(** Constants of gameplay.js. *)
Definition PLAYER_SPEED : Q := 220.
Definition PLAYER_RADIUS : Q := 16.
Definition PLAYER_MAX_HP : Z := 3.
Definition PLAYER_IFRAME_DURATION : Q := 0.8.
Definition ASSASSIN_SPEED : Q := 150.
Definition ASSASSIN_RADIUS : Q := 15.
Definition SHOOTER_SPEED : Q := 120.
Definition SHOOTER_RADIUS : Q := 20.
Definition SHOOTER_MOVE_DURATION : Q := 2.
Definition SHOOTER_FIRE_RATE : Q := 2.
Definition SHOOTER_SPREAD_ANGLE : Q := 4.
Definition SHOOTER_BULLET_SPEED : Q := 400.
Definition SHOOTER_BULLET_RADIUS : Q := 4.
Definition SHOOTER_BULLET_LIFETIME : Q := 2.5.
Definition TANK_SPEED : Q := 120.
Definition TANK_RADIUS : Q := 25.
Definition TANK_HP : Z := 3.
Definition TANK_CONTACT_COOLDOWN : Q := 0.7.
Definition TANK_KNOCKBACK : Q := 8.
Definition TANK_FLASH_DURATION : Q := 0.1.
Definition BULLET_SPEED : Q := 600.
Definition BULLET_RADIUS : Q := 3.
Definition PISTOL_FIRE_RATE : Q := 1.
Definition MACHINE_GUN_FIRE_RATE : Q := 0.5.
Definition MACHINE_GUN_AMMO : Z := 50.

(** Constants of core.js and main.js. *)
Definition COLLISION_EPSILON : Q := 0.001.
Definition ARENA_WIDTH : Q := 1200.
Definition ARENA_HEIGHT : Q := 800.
Definition ENEMY_SPAWN_INTERVAL : Q := 2.
Definition SPAWN_SAFETY_DISTANCE : Q := 150.

Record Bounds := mkBounds { width : Q; height : Q }.

(** The state of [InputManager] that the game reads in one tick. *)
Record Input := mkInput {
  moveVector : Q * Q;
  fire : bool;
  switchWeapon : bool;
  creatorModeToggle : bool;
  mouseX : Q;
  mouseY : Q
}.

(** *** core.js: Utils *)

Module Utils.

Definition clamp (value min max : Q) : Q :=
  Num.min (Num.max value min) max.

Definition lerp (a b t : Q) : Q := a + (b - a) * t.

(** [randomRange] and [randomInt] applied to one result [r] of
    [Math.random()]. *)
Definition randomRange (min max r : Q) : Q := r * (max - min) + min.

Definition randomInt (min max : Z) (r : Q) : Z :=
  (Num.floor (r * inject_Z (max - min + 1)) + min)%Z.

Section Sqrt.
Variable sqrt : Q -> Q.

Definition distance (x1 y1 x2 y2 : Q) : Q :=
  let dx := x2 - x1 in
  let dy := y2 - y1 in
  sqrt (dx * dx + dy * dy).

Definition normalize (x y : Q) : Q * Q :=
  let length := sqrt (x * x + y * y) in
  if Num.eqb length 0 then (0, 0) else (x / length, y / length).

End Sqrt.
End Utils.

(** *** gameplay.js: Entity *)

Module Entity.

Record t := mk {
  x : Q; y : Q; radius : Q;
  vx : Q; vy : Q;
  hp : Z; maxHp : Z;
  alive : bool
}.

Definition new (x0 y0 r : Q) : t := mk x0 y0 r 0 0 1 1 true.

Definition set_pos (e : t) (x' y' : Q) : t :=
  mk x' y' (radius e) (vx e) (vy e) (hp e) (maxHp e) (alive e).

Definition set_vel (e : t) (vx' vy' : Q) : t :=
  mk (x e) (y e) (radius e) vx' vy' (hp e) (maxHp e) (alive e).

Definition set_hp (e : t) (hp' : Z) : t :=
  mk (x e) (y e) (radius e) (vx e) (vy e) hp' (maxHp e) (alive e).

Definition set_maxHp (e : t) (m : Z) : t :=
  mk (x e) (y e) (radius e) (vx e) (vy e) (hp e) m (alive e).

Definition set_alive (e : t) (a : bool) : t :=
  mk (x e) (y e) (radius e) (vx e) (vy e) (hp e) (maxHp e) a.

(** [update(deltaTime)]: apply velocity to position. *)
Definition update (e : t) (deltaTime : Q) : t :=
  set_pos e (x e + vx e * deltaTime) (y e + vy e * deltaTime).

(** [takeDamage(damage)]. *)
Definition takeDamage (e : t) (damage : Z) : t :=
  let e1 := set_hp e (hp e - damage)%Z in
  if (hp e1 <=? 0)%Z then set_alive e1 false else e1.

Definition isAlive (e : t) : bool := alive e.

End Entity.

(** *** core.js: CollisionSystem *)

Module CollisionSystem.
Section Sqrt.
Variable sqrt : Q -> Q.

Definition checkCircleCollision (obj1 obj2 : Entity.t) : bool :=
  let dx := Entity.x obj2 - Entity.x obj1 in
  let dy := Entity.y obj2 - Entity.y obj1 in
  let distance := sqrt (dx * dx + dy * dy) in
  let minDistance := Entity.radius obj1 + Entity.radius obj2 in
  Num.ltb distance (minDistance + COLLISION_EPSILON).

End Sqrt.
End CollisionSystem.

(** *** core.js: EventBus *)

Module EventBus.
Section Bus.

(** Event names and callbacks, with [===] on each. *)
Variables E C : Type.
Variable E_eqb : E -> E -> bool.
Variable C_eqb : C -> C -> bool.

(** [listeners]: the Map from event names to arrays of callbacks. *)
Definition t := list (E * list C).

Definition new : t := [].

(** [listeners.get(event)], [listeners.has(event)] and
    [listeners.set(event, callbacks)]. *)
Fixpoint get (bus : t) (event : E) : option (list C) :=
  match bus with
  | [] => None
  | (e, callbacks) :: rest =>
      if E_eqb e event then Some callbacks else get rest event
  end.

Definition has (bus : t) (event : E) : bool :=
  match get bus event with Some _ => true | None => false end.

Fixpoint set (bus : t) (event : E) (callbacks : list C) : t :=
  match bus with
  | [] => [(event, callbacks)]
  | (e, old) :: rest =>
      if E_eqb e event then (e, callbacks) :: rest
      else (e, old) :: set rest event callbacks
  end.

(** [on(event, callback)]. *)
Definition on (bus : t) (event : E) (callback : C) : t :=
  let bus := if negb (has bus event) then set bus event [] else bus in
  match get bus event with
  | Some callbacks => set bus event (callbacks ++ [callback])
  | None => bus
  end.

(** [callbacks.splice(callbacks.indexOf(callback), 1)] when the index is
    above -1: the first occurrence is removed. *)
Fixpoint remove_first (callback : C) (callbacks : list C) : list C :=
  match callbacks with
  | [] => []
  | c :: rest =>
      if C_eqb c callback then rest else c :: remove_first callback rest
  end.

(** [off(event, callback)]. *)
Definition off (bus : t) (event : E) (callback : C) : t :=
  if negb (has bus event) then bus
  else match get bus event with
       | Some callbacks => set bus event (remove_first callback callbacks)
       | None => bus
       end.

(** [emit(event, data)]: the callbacks called with [data], in order.
    What a callback does is outside the bus. *)
Definition emit (bus : t) (event : E) : list C :=
  if negb (has bus event) then []
  else match get bus event with
       | Some callbacks => callbacks
       | None => []
       end.

Definition clear (bus : t) : t := [].

End Bus.
End EventBus.

(** *** core.js: InputManager and KeyboardMouseProvider *)

Module InputManager.

(** The input state; the provider table holds the keyboard and mouse
    provider, which is the active one. *)
Record t := mk {
  moveVector : Q * Q;
  fire : bool;
  switchWeapon : bool;
  lastWeaponSwitchTime : Q;
  creatorMode : bool;
  lastCreatorModeToggleTime : Q;
  mouseX : Q;
  mouseY : Q
}.

Definition weaponSwitchCooldown : Q := 0.2.
Definition creatorModeToggleCooldown : Q := 0.2.

Definition new : t := mk (0, 0) false false 0 false 0 0 0.

(** [clearWeaponSwitch()] and [clearCreatorModeToggle()], with [now] the
    value of [Date.now() / 1000]. *)
Definition clearWeaponSwitch (im : t) (now : Q) : t :=
  mk (moveVector im) (fire im) false now (creatorMode im)
     (lastCreatorModeToggleTime im) (mouseX im) (mouseY im).

Definition clearCreatorModeToggle (im : t) (now : Q) : t :=
  mk (moveVector im) (fire im) (switchWeapon im) (lastWeaponSwitchTime im)
     false now (mouseX im) (mouseY im).

Definition canSwitchWeapon (im : t) (now : Q) : bool :=
  Num.geb (now - lastWeaponSwitchTime im) weaponSwitchCooldown.

Definition canToggleCreatorMode (im : t) (now : Q) : bool :=
  Num.geb (now - lastCreatorModeToggleTime im) creatorModeToggleCooldown.

Definition getMoveVector (im : t) : Q * Q := moveVector im.
Definition isFiring (im : t) : bool := fire im.
Definition getWeaponSwitch (im : t) : bool := switchWeapon im.
Definition getCreatorModeToggle (im : t) : bool := creatorMode im.
Definition getMousePosition (im : t) : Q * Q := (mouseX im, mouseY im).

End InputManager.

Module KeyboardMouseProvider.

(** The actions of [keyMap]: 'up', 'down', 'left', 'right',
    'switchWeapon' and 'creatorMode'. *)
Inductive Action :=
| A_up | A_down | A_left | A_right | A_switchWeapon | A_creatorMode.

Definition Action_eqb (a b : Action) : bool :=
  match a, b with
  | A_up, A_up | A_down, A_down | A_left, A_left | A_right, A_right
  | A_switchWeapon, A_switchWeapon | A_creatorMode, A_creatorMode => true
  | _, _ => false
  end.

(** [event.code]: the codes of [keyMap], and any other. *)
Inductive Code :=
| KeyW | KeyS | KeyA | KeyD
| ArrowUp | ArrowDown | ArrowLeft | ArrowRight
| KeyR | KeyG
| OtherCode.

Definition keyMap (code : Code) : option Action :=
  match code with
  | KeyW | ArrowUp => Some A_up
  | KeyS | ArrowDown => Some A_down
  | KeyA | ArrowLeft => Some A_left
  | KeyD | ArrowRight => Some A_right
  | KeyR => Some A_switchWeapon
  | KeyG => Some A_creatorMode
  | OtherCode => None
  end.

(** The Sets [keys] (of actions) and [mouseButtons] (of button numbers),
    in insertion order. *)
Record t := mk { keys : list Action; mouseButtons : list Z }.

Definition new : t := mk [] [].

Definition keys_has (p : t) (a : Action) : bool :=
  existsb (Action_eqb a) (keys p).

Definition keys_add (p : t) (a : Action) : t :=
  if keys_has p a then p else mk (keys p ++ [a]) (mouseButtons p).

Definition keys_delete (p : t) (a : Action) : t :=
  mk (filter (fun b => negb (Action_eqb a b)) (keys p)) (mouseButtons p).

Definition mouseButtons_has (p : t) (b : Z) : bool :=
  existsb (Z.eqb b) (mouseButtons p).

Section Sqrt.
Variable sqrt : Q -> Q.

(** [update(deltaTime)] of the provider registered with the manager
    [im]. *)
Definition update (p : t) (im : InputManager.t) : InputManager.t :=
  let x := 0 in
  let y := 0 in
  let x := if keys_has p A_left then x - 1 else x in
  let x := if keys_has p A_right then x + 1 else x in
  let y := if keys_has p A_up then y - 1 else y in
  let y := if keys_has p A_down then y + 1 else y in
  let '(x, y) :=
    if negb (Num.eqb x 0) && negb (Num.eqb y 0) then
      let length := sqrt (x * x + y * y) in
      (x / length, y / length)
    else (x, y) in
  InputManager.mk (x, y) (mouseButtons_has p 0)
    (InputManager.switchWeapon im) (InputManager.lastWeaponSwitchTime im)
    (InputManager.creatorMode im) (InputManager.lastCreatorModeToggleTime im)
    (InputManager.mouseX im) (InputManager.mouseY im).

End Sqrt.

(** [handleKeyDown(event)], with [now] the value of [Date.now() / 1000]
    that [canSwitchWeapon()] or [canToggleCreatorMode()] reads. *)
Definition handleKeyDown (p : t) (im : InputManager.t) (code : Code)
    (now : Q) : t * InputManager.t :=
  match keyMap code with
  | Some A_switchWeapon =>
      if negb (InputManager.switchWeapon im)
         && InputManager.canSwitchWeapon im now
      then (p, InputManager.mk (InputManager.moveVector im)
                 (InputManager.fire im) true
                 (InputManager.lastWeaponSwitchTime im)
                 (InputManager.creatorMode im)
                 (InputManager.lastCreatorModeToggleTime im)
                 (InputManager.mouseX im) (InputManager.mouseY im))
      else (p, im)
  | Some A_creatorMode =>
      if negb (InputManager.creatorMode im)
         && InputManager.canToggleCreatorMode im now
      then (p, InputManager.mk (InputManager.moveVector im)
                 (InputManager.fire im) (InputManager.switchWeapon im)
                 (InputManager.lastWeaponSwitchTime im) true
                 (InputManager.lastCreatorModeToggleTime im)
                 (InputManager.mouseX im) (InputManager.mouseY im))
      else (p, im)
  | Some action => (keys_add p action, im)
  | None => (p, im)
  end.

(** [handleKeyUp(event)]. *)
Definition handleKeyUp (p : t) (code : Code) : t :=
  match keyMap code with
  | Some A_switchWeapon | Some A_creatorMode | None => p
  | Some action => keys_delete p action
  end.

(** [handleMouseDown(event)] and [handleMouseUp(event)]. *)
Definition handleMouseDown (p : t) (button : Z) : t :=
  if mouseButtons_has p button then p
  else mk (keys p) (mouseButtons p ++ [button]).

Definition handleMouseUp (p : t) (button : Z) : t :=
  mk (keys p) (filter (fun b => negb (Z.eqb button b)) (mouseButtons p)).

End KeyboardMouseProvider.

(** *** gameplay.js: Player *)

Inductive WeaponKey := pistol | machine_gun.

Module Player.

(** The animation constants set by the constructor. *)
Definition anim_frames : Z := 6.
Definition anim_frameDuration : Q := 0.03.
Definition anim_idleFrame : Z := 0.

(** [weapon] is a reference into the game's weapon table; [creatorMode]
    is absent (falsy) until the driver sets it. *)
Record t := mk {
  ent : Entity.t;
  speed : Q;
  iframeTimer : Q;
  flashTimer : Q;
  weapon : option WeaponKey;
  creatorMode : bool;
  anim_frame : Z;
  anim_timer : Q;
  isMoving : bool;
  _prevX : Q;
  _prevY : Q
}.

Definition new (x0 y0 : Q) : t :=
  mk (Entity.set_maxHp (Entity.set_hp (Entity.new x0 y0 PLAYER_RADIUS)
                                      PLAYER_MAX_HP) PLAYER_MAX_HP)
     PLAYER_SPEED 0 0 None false 0 0 false x0 y0.

Definition set_ent (p : t) (e : Entity.t) : t :=
  mk e (speed p) (iframeTimer p) (flashTimer p) (weapon p) (creatorMode p)
     (anim_frame p) (anim_timer p) (isMoving p) (_prevX p) (_prevY p).

Definition set_timers (p : t) (i f : Q) : t :=
  mk (ent p) (speed p) i f (weapon p) (creatorMode p)
     (anim_frame p) (anim_timer p) (isMoving p) (_prevX p) (_prevY p).

Definition set_weapon (p : t) (w : option WeaponKey) : t :=
  mk (ent p) (speed p) (iframeTimer p) (flashTimer p) w (creatorMode p)
     (anim_frame p) (anim_timer p) (isMoving p) (_prevX p) (_prevY p).

Definition set_creatorMode (p : t) (c : bool) : t :=
  mk (ent p) (speed p) (iframeTimer p) (flashTimer p) (weapon p) c
     (anim_frame p) (anim_timer p) (isMoving p) (_prevX p) (_prevY p).

Definition set_anim (p : t) (fr : Z) (tm : Q) (mv : bool) (px py : Q) : t :=
  mk (ent p) (speed p) (iframeTimer p) (flashTimer p) (weapon p)
     (creatorMode p) fr tm mv px py.

Definition isAlive (p : t) : bool := Entity.isAlive (ent p).

(** [update(deltaTime, inputManager, bounds)]; the weapon's [update] is
    empty in every weapon class. *)
Definition update (p : t) (deltaTime : Q) (inputManager : Input)
    (bounds : Bounds) : t :=
  let moveVector := moveVector inputManager in
  let e := ent p in
  let e := Entity.set_vel e (fst moveVector * speed p)
                            (snd moveVector * speed p) in
  let newX := Entity.x e + Entity.vx e * deltaTime in
  let newY := Entity.y e + Entity.vy e * deltaTime in
  let newX := Utils.clamp newX (Entity.radius e)
                          (width bounds - Entity.radius e) in
  let newY := Utils.clamp newY (Entity.radius e)
                          (height bounds - Entity.radius e) in
  let e := Entity.set_pos e newX newY in
  let i := if Num.gtb (iframeTimer p) 0
           then iframeTimer p - deltaTime else iframeTimer p in
  let f := if Num.gtb (flashTimer p) 0
           then flashTimer p - deltaTime else flashTimer p in
  let p := set_timers (set_ent p e) i f in
  let movedDist := Num.abs (Entity.x e - _prevX p)
                   + Num.abs (Entity.y e - _prevY p) in
  let moving := Num.gtb movedDist 0.1 in
  let '(fr, tm) :=
    if moving then
      let tm := anim_timer p + deltaTime in
      if Num.geb tm anim_frameDuration
      then (((anim_frame p + 1) mod anim_frames)%Z, 0)
      else (anim_frame p, tm)
    else (anim_idleFrame, 0) in
  set_anim p fr tm moving (Entity.x e) (Entity.y e).

(** [takeDamage(damage)]: the returned flag and the player afterwards. *)
Definition takeDamage (p : t) (damage : Z) : bool * t :=
  if Num.gtb (iframeTimer p) 0 then (false, p)
  else if creatorMode p then
    (true, set_timers p PLAYER_IFRAME_DURATION 0.1)
  else
    let p := set_ent p (Entity.takeDamage (ent p) damage) in
    (true, set_timers p PLAYER_IFRAME_DURATION 0.1).

Definition canTakeDamage (p : t) : bool := Num.leb (iframeTimer p) 0.

(** The two timers in doubles.  [takeDamage64] is [takeDamage] with the
    number literals as the doubles they denote; [update64] is [update]
    with [this.iframeTimer -= deltaTime] and [this.flashTimer -= deltaTime]
    rounded to the nearest double.  No other field of [update] reads the
    timers. *)
Definition takeDamage64 (p : t) (damage : Z) : bool * t :=
  if Num.gtb (iframeTimer p) 0 then (false, p)
  else if creatorMode p then
    (true, set_timers p (Num.round64 PLAYER_IFRAME_DURATION)
                        (Num.round64 0.1))
  else
    let p := set_ent p (Entity.takeDamage (ent p) damage) in
    (true, set_timers p (Num.round64 PLAYER_IFRAME_DURATION)
                        (Num.round64 0.1)).

Definition update64 (p : t) (deltaTime : Q) (inputManager : Input)
    (bounds : Bounds) : t :=
  let i := if Num.gtb (iframeTimer p) 0
           then Num.round64 (iframeTimer p - deltaTime)
           else iframeTimer p in
  let f := if Num.gtb (flashTimer p) 0
           then Num.round64 (flashTimer p - deltaTime)
           else flashTimer p in
  set_timers (update p deltaTime inputManager bounds) i f.

(** [setWeapon(weapon)]; the back reference [weapon.owner] is never read
    and is left out. *)
Definition setWeapon (p : t) (w : option WeaponKey) : t := set_weapon p w.

End Player.

(** *** gameplay.js: Projectile and ShooterBullet *)

Module Projectile.

(** The [owner] tag: the string 'player', the [Shooter] that fired, or
    [null]. *)
Inductive Owner := OwnerPlayer | OwnerShooter | OwnerNull.

Definition is_player (o : Owner) : bool :=
  match o with OwnerPlayer => true | _ => false end.

Definition is_null (o : Owner) : bool :=
  match o with OwnerNull => true | _ => false end.

Record t := mk {
  ent : Entity.t;
  damage : Z;
  owner : Owner;
  lifetime : Q;
  age : Q
}.

Definition new (x0 y0 vx0 vy0 r : Q) (dmg : Z) (o : Owner) : t :=
  mk (Entity.set_vel (Entity.new x0 y0 r) vx0 vy0) dmg o 3 0.

(** [ShooterBullet] overrides the lifetime only. *)
Definition new_ShooterBullet (x0 y0 vx0 vy0 r : Q) (dmg : Z) (o : Owner)
    : t :=
  let p := new x0 y0 vx0 vy0 r dmg o in
  mk (ent p) (damage p) (owner p) SHOOTER_BULLET_LIFETIME (age p).

Definition set_ent (p : t) (e : Entity.t) : t :=
  mk e (damage p) (owner p) (lifetime p) (age p).

Definition set_alive (p : t) (a : bool) : t :=
  set_ent p (Entity.set_alive (ent p) a).

Definition isAlive (p : t) : bool := Entity.isAlive (ent p).

(** [update(deltaTime, bounds)]. *)
Definition update (p : t) (deltaTime : Q) (bounds : Bounds) : t :=
  let e := Entity.update (ent p) deltaTime in
  let age' := age p + deltaTime in
  let p := mk e (damage p) (owner p) (lifetime p) age' in
  if Num.geb age' (lifetime p)
     || Num.ltb (Entity.x e) (- Entity.radius e)
     || Num.gtb (Entity.x e) (width bounds + Entity.radius e)
     || Num.ltb (Entity.y e) (- Entity.radius e)
     || Num.gtb (Entity.y e) (height bounds + Entity.radius e)
  then set_alive p false
  else p.

(** [update] with [this.age += deltaTime] rounded to the nearest double. *)
Definition update64 (p : t) (deltaTime : Q) (bounds : Bounds) : t :=
  let e := Entity.update (ent p) deltaTime in
  let age' := Num.round64 (age p + deltaTime) in
  let p := mk e (damage p) (owner p) (lifetime p) age' in
  if Num.geb age' (lifetime p)
     || Num.ltb (Entity.x e) (- Entity.radius e)
     || Num.gtb (Entity.x e) (width bounds + Entity.radius e)
     || Num.ltb (Entity.y e) (- Entity.radius e)
     || Num.gtb (Entity.y e) (height bounds + Entity.radius e)
  then set_alive p false
  else p.

End Projectile.

(** *** gameplay.js: Weapon, Pistol, MachineGun *)

Module Weapon.

Inductive Class := Pistol | MachineGun.

(** [ammo] is [-1] for an unlimited weapon. *)
Record t := mk {
  class : Class;
  fireRate : Q;
  ammo : Z;
  currentAmmo : Z;
  lastFireTime : Q
}.

Definition new (c : Class) (rate : Q) (a : Z) : t := mk c rate a a 0.

Definition new_Pistol : t := new Pistol PISTOL_FIRE_RATE (-1).
Definition new_MachineGun : t :=
  new MachineGun MACHINE_GUN_FIRE_RATE MACHINE_GUN_AMMO.

Definition set_fireRate (w : t) (r : Q) : t :=
  mk (class w) r (ammo w) (currentAmmo w) (lastFireTime w).

(** [canFire()], with [now] the value of [Date.now() / 1000]; [MachineGun]
    overrides the method of the base class. *)
Definition canFire (w : t) (now : Q) : bool :=
  match class w with
  | Pistol =>
      let timeSinceLastFire := now - lastFireTime w in
      Num.geb timeSinceLastFire (fireRate w)
      && ((ammo w =? -1)%Z || (currentAmmo w >? 0)%Z)
  | MachineGun =>
      let canFireByTime := Num.geb (now - lastFireTime w) (fireRate w) in
      let hasAmmo := (currentAmmo w >? 0)%Z in
      canFireByTime && hasAmmo
  end.

Section Sqrt.
Variable sqrt : Q -> Q.

Definition createProjectile (w : t) (fromX fromY targetX targetY : Q)
    : option Projectile.t :=
  let dx := targetX - fromX in
  let dy := targetY - fromY in
  let distance := sqrt (dx * dx + dy * dy) in
  if Num.eqb distance 0 then None
  else match class w with
  | Pistol =>
      let normalized := Utils.normalize sqrt dx dy in
      Some (Projectile.new fromX fromY
              (fst normalized * BULLET_SPEED) (snd normalized * BULLET_SPEED)
              BULLET_RADIUS 1 Projectile.OwnerPlayer)
  | MachineGun =>
      let vx := (dx / distance) * BULLET_SPEED in
      let vy := (dy / distance) * BULLET_SPEED in
      Some (Projectile.new fromX fromY vx vy
              BULLET_RADIUS 1 Projectile.OwnerPlayer)
  end.

(** [fire(fromX, fromY, targetX, targetY, projectiles)]: the returned flag,
    the weapon and the projectile list afterwards.  Both clock reads of one
    call see the same [now]. *)
Definition fire (w : t) (now fromX fromY targetX targetY : Q)
    (projectiles : list Projectile.t) : bool * t * list Projectile.t :=
  if negb (canFire w now) then (false, w, projectiles)
  else match createProjectile w fromX fromY targetX targetY with
  | Some projectile =>
      let w1 := mk (class w) (fireRate w) (ammo w)
                   (if (ammo w >? 0)%Z then (currentAmmo w - 1)%Z
                    else currentAmmo w)
                   now in
      (true, w1, projectiles ++ [projectile])
  | None => (false, w, projectiles)
  end.

End Sqrt.

Definition reload (w : t) : t :=
  if (ammo w >? 0)%Z
  then mk (class w) (fireRate w) (ammo w) (ammo w) (lastFireTime w)
  else w.

End Weapon.

(** *** gameplay.js: Enemy, Assassin, Shooter, Tank *)

Module Enemy.

Record ShooterState := mkShooter {
  moveTimer : Q;
  fireTimer : Q;
  isMoving : bool;
  centerX : Q;
  centerY : Q
}.

Record TankState := mkTank {
  contactCooldown : Q;
  flashTimer : Q;
  isFlashing : bool;
  lastContactTime : Q
}.

(** The class of an enemy with the fields its constructor adds. *)
Inductive Kind :=
| Assassin
| Shooter (s : ShooterState)
| Tank (k : TankState).

Record t := mk {
  ent : Entity.t;
  damage : Z;
  speed : Q;
  kind : Kind
}.

Definition base (x0 y0 r : Q) (hp0 : Z) : Entity.t :=
  Entity.set_maxHp (Entity.set_hp (Entity.new x0 y0 r) hp0) hp0.

Definition new_Assassin (x0 y0 : Q) : t :=
  mk (base x0 y0 ASSASSIN_RADIUS 1) 1 ASSASSIN_SPEED Assassin.

Definition new_Shooter (x0 y0 : Q) : t :=
  mk (base x0 y0 SHOOTER_RADIUS 1) 1 SHOOTER_SPEED
     (Shooter (mkShooter 0 0 true 0 0)).

Definition new_Tank (x0 y0 : Q) : t :=
  mk (base x0 y0 TANK_RADIUS TANK_HP) 1 TANK_SPEED
     (Tank (mkTank 0 0 false 0)).

Definition set_ent (e : t) (en : Entity.t) : t :=
  mk en (damage e) (speed e) (kind e).

Definition set_kind (e : t) (k : Kind) : t :=
  mk (ent e) (damage e) (speed e) k.

Definition isAlive (e : t) : bool := Entity.isAlive (ent e).

(** [takeDamage(damage)]: [Tank] overrides it to start the hit flash. *)
Definition takeDamage (e : t) (dmg : Z) : t :=
  match kind e with
  | Tank k =>
      let e := set_ent e (Entity.takeDamage (ent e) dmg) in
      set_kind e (Tank (mkTank (contactCooldown k) TANK_FLASH_DURATION true
                               (lastContactTime k)))
  | _ => set_ent e (Entity.takeDamage (ent e) dmg)
  end.

(** The base class [Enemy.update]: the parent [Entity.update]. *)
Definition update_base (e : t) (deltaTime : Q) : t :=
  set_ent e (Entity.update (ent e) deltaTime).

Definition clamp_to (e : t) (bounds : Bounds) : t :=
  let en := ent e in
  set_ent e
    (Entity.set_pos en
       (Utils.clamp (Entity.x en) (Entity.radius en)
                    (width bounds - Entity.radius en))
       (Utils.clamp (Entity.y en) (Entity.radius en)
                    (height bounds - Entity.radius en))).

Section Math.
Variable sqrt : Q -> Q.
Variable atan2 : Q -> Q -> Q.
Variables cos sin : Q -> Q.
Variable PI : Q.

(** [Assassin.update(deltaTime, player, bounds)]. *)
Definition update_Assassin (e : t) (deltaTime : Q) (player : Player.t)
    (bounds : Bounds) : t :=
  if negb (Player.isAlive player) then e
  else
    let en := ent e in
    let pe := Player.ent player in
    let dx := Entity.x pe - Entity.x en in
    let dy := Entity.y pe - Entity.y en in
    let distance := Utils.distance sqrt (Entity.x en) (Entity.y en)
                                   (Entity.x pe) (Entity.y pe) in
    let en := if Num.gtb distance 0
              then Entity.set_vel en ((dx / distance) * speed e)
                                     ((dy / distance) * speed e)
              else en in
    clamp_to (update_base (set_ent e en) deltaTime) bounds.

(** [Shooter.fireAtPlayer(player, projectiles)], with [r] the result of its
    call of [Math.random()]. *)
Definition fireAtPlayer (e : t) (player : Player.t)
    (projectiles : list Projectile.t) (r : Q) : list Projectile.t :=
  let en := ent e in
  let pe := Player.ent player in
  let dx := Entity.x pe - Entity.x en in
  let dy := Entity.y pe - Entity.y en in
  let baseAngle := atan2 dy dx in
  let spreadRadians := SHOOTER_SPREAD_ANGLE * PI / 180 in
  let randomSpread := (r - 0.5) * 2 * spreadRadians in
  let finalAngle := baseAngle + randomSpread in
  let bulletVx := cos finalAngle * SHOOTER_BULLET_SPEED in
  let bulletVy := sin finalAngle * SHOOTER_BULLET_SPEED in
  let bullet := Projectile.new_ShooterBullet (Entity.x en) (Entity.y en)
                  bulletVx bulletVy SHOOTER_BULLET_RADIUS 1
                  Projectile.OwnerShooter in
  projectiles ++ [bullet].

(** [Shooter.update(deltaTime, player, bounds, projectiles)]. *)
Definition update_Shooter (e : t) (s : ShooterState) (deltaTime : Q)
    (player : Player.t) (bounds : Bounds) (projectiles : list Projectile.t)
    (rng : Num.Rng) : t * list Projectile.t * Num.Rng :=
  if negb (Player.isAlive player) then (e, projectiles, rng)
  else
    let '(cx, cy) :=
      if Num.eqb (centerX s) 0 && Num.eqb (centerY s) 0
      then (width bounds / 2, height bounds / 2)
      else (centerX s, centerY s) in
    let moveTimer' := moveTimer s + deltaTime in
    let fireTimer' := fireTimer s + deltaTime in
    let en := ent e in
    let '(en, moving) :=
      if isMoving s && Num.ltb moveTimer' SHOOTER_MOVE_DURATION then
        let dx := cx - Entity.x en in
        let dy := cy - Entity.y en in
        let distance := Utils.distance sqrt (Entity.x en) (Entity.y en)
                                       cx cy in
        if Num.gtb distance 5 then
          let normalized := Utils.normalize sqrt dx dy in
          (Entity.set_vel en (fst normalized * speed e)
                             (snd normalized * speed e), true)
        else (Entity.set_vel en 0 0, false)
      else (Entity.set_vel en 0 0, false) in
    let e := set_ent e en in
    let '(projectiles, fireTimer', rng) :=
      if Num.geb fireTimer' SHOOTER_FIRE_RATE then
        let '(r, rng) := Num.next rng in
        (fireAtPlayer e player projectiles r, 0, rng)
      else (projectiles, fireTimer', rng) in
    let e := set_kind e (Shooter (mkShooter moveTimer' fireTimer' moving
                                            cx cy)) in
    (clamp_to (update_base e deltaTime) bounds, projectiles, rng).

(** [Tank.dealContactDamage(player)]. *)
Definition dealContactDamage (e : t) (k : TankState) (player : Player.t)
    : t * Player.t :=
  let player := snd (Player.takeDamage player 1) in
  let e := set_kind e (Tank (mkTank TANK_CONTACT_COOLDOWN (flashTimer k)
                                    (isFlashing k) (lastContactTime k))) in
  let en := ent e in
  let pe := Player.ent player in
  let dx := Entity.x pe - Entity.x en in
  let dy := Entity.y pe - Entity.y en in
  let distance := Utils.distance sqrt (Entity.x en) (Entity.y en)
                                 (Entity.x pe) (Entity.y pe) in
  if Num.gtb distance 0 then
    let normalized := Utils.normalize sqrt dx dy in
    (e, Player.set_ent player
          (Entity.set_pos pe (Entity.x pe + fst normalized * TANK_KNOCKBACK)
                             (Entity.y pe + snd normalized * TANK_KNOCKBACK)))
  else (e, player).

(** [Tank.update(deltaTime, player, bounds)]. *)
Definition update_Tank (e : t) (k : TankState) (deltaTime : Q)
    (player : Player.t) (bounds : Bounds) : t * Player.t :=
  if negb (Player.isAlive player) then (e, player)
  else
    let cooldown := contactCooldown k - deltaTime in
    let flash := flashTimer k - deltaTime in
    let flashing := if Num.leb flash 0 then false else isFlashing k in
    let k := mkTank cooldown flash flashing (lastContactTime k) in
    let en := ent e in
    let pe := Player.ent player in
    let dx := Entity.x pe - Entity.x en in
    let dy := Entity.y pe - Entity.y en in
    let distance := Utils.distance sqrt (Entity.x en) (Entity.y en)
                                   (Entity.x pe) (Entity.y pe) in
    let en :=
      if Num.gtb distance 0 then
        let normalized := Utils.normalize sqrt dx dy in
        Entity.set_vel en (fst normalized * speed e)
                          (snd normalized * speed e)
      else Entity.set_vel en 0 0 in
    let e := set_kind (set_ent e en) (Tank k) in
    let e := clamp_to (update_base e deltaTime) bounds in
    if Num.leb (contactCooldown k) 0 && Player.canTakeDamage player then
      let playerDistance :=
        Utils.distance sqrt (Entity.x (ent e)) (Entity.y (ent e))
                       (Entity.x pe) (Entity.y pe) in
      if Num.ltb playerDistance (Entity.radius (ent e) + Entity.radius pe)
      then dealContactDamage e k player
      else (e, player)
    else (e, player).

(** The call [enemy.update(...)] of the driver, dispatched on the class;
    only a [Shooter] receives the projectile list. *)
Definition update (e : t) (deltaTime : Q) (player : Player.t)
    (bounds : Bounds) (projectiles : list Projectile.t) (rng : Num.Rng)
    : t * Player.t * list Projectile.t * Num.Rng :=
  match kind e with
  | Assassin =>
      (update_Assassin e deltaTime player bounds, player, projectiles, rng)
  | Shooter s =>
      let '(e, projectiles, rng) :=
        update_Shooter e s deltaTime player bounds projectiles rng in
      (e, player, projectiles, rng)
  | Tank k =>
      let '(e, player) := update_Tank e k deltaTime player bounds in
      (e, player, projectiles, rng)
  end.

End Math.

End Enemy.

(** *** main.js: GAME_STATES and GameStateMachine *)

Inductive GameState :=
| BOOT | MENU | PLAYING | PAUSED | UPGRADE_PICK | GAME_OVER.

Definition GameState_eqb (a b : GameState) : bool :=
  match a, b with
  | BOOT, BOOT | MENU, MENU | PLAYING, PLAYING | PAUSED, PAUSED
  | UPGRADE_PICK, UPGRADE_PICK | GAME_OVER, GAME_OVER => true
  | _, _ => false
  end.

Module GameStateMachine.

(** [emitted] records the 'stateChanged' events handed to the machine's
    event bus, oldest first. *)
Record t := mk {
  currentState : GameState;
  previousState : option GameState;
  emitted : list (GameState * GameState)
}.

Definition new : t := mk BOOT None [].

Definition setState (sm : t) (newState : GameState) : t :=
  if GameState_eqb (currentState sm) newState then sm
  else mk newState (Some (currentState sm))
          (emitted sm ++ [(currentState sm, newState)]).

Definition getState (sm : t) : GameState := currentState sm.

Definition isState (sm : t) (s : GameState) : bool :=
  GameState_eqb (currentState sm) s.

End GameStateMachine.

(** *** main.js: Game *)

Module Game.

(** What the driver asks of the HUD when the state changes. *)
Inductive UiEvent :=
| GameOverScreenShown (finalScore : Z)
| GameOverScreenHidden
| Toast_GameOver
| Toast_Switched (k : WeaponKey).

(** The game after [init()]: the player exists, and the player's weapon is
    an entry of the table [weapons]. *)
Record t := mk {
  stateMachine : GameStateMachine.t;
  player : Player.t;
  enemies : list Enemy.t;
  projectiles : list Projectile.t;
  weapons_pistol : Weapon.t;
  weapons_machine_gun : Weapon.t;
  currentWeaponKey : WeaponKey;
  killCount : Z;
  enemySpawnTimer : Q;
  creatorMode : bool;
  originalPistolFireRate : option Q;
  ui : list UiEvent
}.

Definition set_stateMachine (g : t) (sm : GameStateMachine.t) : t :=
  mk sm (player g) (enemies g) (projectiles g) (weapons_pistol g)
     (weapons_machine_gun g) (currentWeaponKey g) (killCount g)
     (enemySpawnTimer g) (creatorMode g) (originalPistolFireRate g) (ui g).

Definition set_player (g : t) (p : Player.t) : t :=
  mk (stateMachine g) p (enemies g) (projectiles g) (weapons_pistol g)
     (weapons_machine_gun g) (currentWeaponKey g) (killCount g)
     (enemySpawnTimer g) (creatorMode g) (originalPistolFireRate g) (ui g).

Definition set_enemies (g : t) (es : list Enemy.t) : t :=
  mk (stateMachine g) (player g) es (projectiles g) (weapons_pistol g)
     (weapons_machine_gun g) (currentWeaponKey g) (killCount g)
     (enemySpawnTimer g) (creatorMode g) (originalPistolFireRate g) (ui g).

Definition set_projectiles (g : t) (ps : list Projectile.t) : t :=
  mk (stateMachine g) (player g) (enemies g) ps (weapons_pistol g)
     (weapons_machine_gun g) (currentWeaponKey g) (killCount g)
     (enemySpawnTimer g) (creatorMode g) (originalPistolFireRate g) (ui g).

Definition set_weapons (g : t) (wp wm : Weapon.t) : t :=
  mk (stateMachine g) (player g) (enemies g) (projectiles g) wp wm
     (currentWeaponKey g) (killCount g)
     (enemySpawnTimer g) (creatorMode g) (originalPistolFireRate g) (ui g).

Definition set_currentWeaponKey (g : t) (k : WeaponKey) : t :=
  mk (stateMachine g) (player g) (enemies g) (projectiles g)
     (weapons_pistol g) (weapons_machine_gun g) k (killCount g)
     (enemySpawnTimer g) (creatorMode g) (originalPistolFireRate g) (ui g).

Definition set_killCount (g : t) (k : Z) : t :=
  mk (stateMachine g) (player g) (enemies g) (projectiles g)
     (weapons_pistol g) (weapons_machine_gun g) (currentWeaponKey g) k
     (enemySpawnTimer g) (creatorMode g) (originalPistolFireRate g) (ui g).

Definition set_enemySpawnTimer (g : t) (tm : Q) : t :=
  mk (stateMachine g) (player g) (enemies g) (projectiles g)
     (weapons_pistol g) (weapons_machine_gun g) (currentWeaponKey g)
     (killCount g) tm (creatorMode g) (originalPistolFireRate g) (ui g).

Definition set_creatorMode (g : t) (c : bool) (o : option Q) : t :=
  mk (stateMachine g) (player g) (enemies g) (projectiles g)
     (weapons_pistol g) (weapons_machine_gun g) (currentWeaponKey g)
     (killCount g) (enemySpawnTimer g) c o (ui g).

Definition push_ui (g : t) (e : UiEvent) : t :=
  mk (stateMachine g) (player g) (enemies g) (projectiles g)
     (weapons_pistol g) (weapons_machine_gun g) (currentWeaponKey g)
     (killCount g) (enemySpawnTimer g) (creatorMode g)
     (originalPistolFireRate g) (ui g ++ [e]).

(** [this.weapons[key]]. *)
Definition weapons (g : t) (k : WeaponKey) : Weapon.t :=
  match k with
  | pistol => weapons_pistol g
  | machine_gun => weapons_machine_gun g
  end.

Definition set_weapon_at (g : t) (k : WeaponKey) (w : Weapon.t) : t :=
  match k with
  | pistol => set_weapons g w (weapons_machine_gun g)
  | machine_gun => set_weapons g (weapons_pistol g) w
  end.

(** [initGameObjects()]. *)
Definition initGameObjects (g : t) : t :=
  mk (stateMachine g)
     (Player.setWeapon (Player.new (ARENA_WIDTH / 2) (ARENA_HEIGHT / 2))
                       (Some pistol))
     [] [] Weapon.new_Pistol Weapon.new_MachineGun pistol 0 0
     (creatorMode g) (originalPistolFireRate g) (ui g).

(** The game as [init()] leaves it. *)
Definition init : t :=
  let g := mk GameStateMachine.new (Player.new 0 0) [] []
              Weapon.new_Pistol Weapon.new_MachineGun pistol 0 0
              false None [] in
  let g := initGameObjects g in
  set_stateMachine g (GameStateMachine.setState (stateMachine g) PLAYING).

(** [restart()]. *)
Definition restart (g : t) : t :=
  let g := initGameObjects g in
  let g := set_stateMachine g
             (GameStateMachine.setState (stateMachine g) PLAYING) in
  push_ui g GameOverScreenHidden.

(** [toggleWeapon()]. *)
Definition toggleWeapon (g : t) : t :=
  let k := match currentWeaponKey g with
           | pistol => machine_gun
           | machine_gun => pistol
           end in
  let g := set_currentWeaponKey g k in
  let g := set_player g (Player.setWeapon (player g) (Some k)) in
  push_ui g (Toast_Switched k).

(** Truthiness of [this.originalPistolFireRate]. *)
Definition truthy (o : option Q) : bool :=
  match o with
  | Some q => negb (Num.eqb q 0)
  | None => false
  end.

Definition applyCreatorModeModifications (g : t) : t :=
  let o := if truthy (originalPistolFireRate g)
           then originalPistolFireRate g
           else Some (Weapon.fireRate (weapons_pistol g)) in
  let g := set_creatorMode g (creatorMode g) o in
  match o with
  | Some q => set_weapon_at g pistol
                (Weapon.set_fireRate (weapons_pistol g) (q / 5))
  | None => g
  end.

Definition revertCreatorModeModifications (g : t) : t :=
  match originalPistolFireRate g with
  | Some q =>
      if truthy (Some q)
      then set_weapon_at g pistol (Weapon.set_fireRate (weapons_pistol g) q)
      else g
  | None => g
  end.

Definition toggleCreatorMode (g : t) : t :=
  let g := set_creatorMode g (negb (creatorMode g))
                           (originalPistolFireRate g) in
  if creatorMode g then applyCreatorModeModifications g
  else revertCreatorModeModifications g.

Section Math.
Variable sqrt : Q -> Q.
Variable atan2 : Q -> Q -> Q.
Variables cos sin : Q -> Q.
Variable PI : Q.

(** [Player.fire(targetX, targetY, projectiles)] on the game's weapon
    table, with [now] the clock in seconds. *)
Definition player_fire (g : t) (now targetX targetY : Q) : t :=
  match Player.weapon (player g) with
  | Some k =>
      let pe := Player.ent (player g) in
      let '(_, w, ps) :=
        Weapon.fire sqrt (weapons g k) now (Entity.x pe) (Entity.y pe)
                    targetX targetY (projectiles g) in
      set_projectiles (set_weapon_at g k w) ps
  | None => g
  end.

(** The point of one arena edge in [spawnEnemy()]; [r] is the call of
    [Math.random()] inside [Utils.randomRange].  An edge outside 0..3
    leaves the coordinates undefined ([None]). *)
Definition edgePoint (edge : Z) (r : Q) : option (Q * Q) :=
  let margin := 50 in
  match edge with
  | 0%Z => Some (Utils.randomRange margin (ARENA_WIDTH - margin) r, - margin)
  | 1%Z => Some (ARENA_WIDTH + margin,
                 Utils.randomRange margin (ARENA_HEIGHT - margin) r)
  | 2%Z => Some (Utils.randomRange margin (ARENA_WIDTH - margin) r,
                 ARENA_HEIGHT + margin)
  | 3%Z => Some (- margin,
                 Utils.randomRange margin (ARENA_HEIGHT - margin) r)
  | _ => None
  end.

(** [ENEMY_REGISTRY[enemyTypes[i]]]. *)
Definition enemyClass (i : Z) : option (Q -> Q -> Enemy.t) :=
  match i with
  | 0%Z => Some Enemy.new_Assassin
  | 1%Z => Some Enemy.new_Shooter
  | 2%Z => Some Enemy.new_Tank
  | _ => None
  end.

(** [spawnEnemy()].  [Math.random()] is below 1, so the type index and the
    edge are in range; outside that range no enemy is added here. *)
Definition spawnEnemy (g : t) (rng : Num.Rng) : t * Num.Rng :=
  let '(r1, rng) := Num.next rng in
  let enemyType := Utils.randomInt 0 2 r1 in
  let '(r2, rng) := Num.next rng in
  let edge := Utils.randomInt 0 3 r2 in
  let '(r3, rng) := Num.next rng in
  let pt := edgePoint edge r3 in
  let pe := Player.ent (player g) in
  let tooClose :=
    match pt with
    | Some (x, y) =>
        Num.ltb (Utils.distance sqrt x y (Entity.x pe) (Entity.y pe))
                SPAWN_SAFETY_DISTANCE
    | None => false
    end in
  let '(pt, rng) :=
    if tooClose then
      let alternativeEdge := ((edge + 2) mod 4)%Z in
      let '(r4, rng) := Num.next rng in
      (edgePoint alternativeEdge r4, rng)
    else (pt, rng) in
  match enemyClass enemyType, pt with
  | Some EnemyClass, Some (x, y) =>
      (set_enemies g (enemies g ++ [EnemyClass x y]), rng)
  | _, _ => (g, rng)
  end.

(** The loop [this.enemies.forEach(enemy => enemy.update(...))]: the
    player and the projectile list are shared by all the calls. *)
Fixpoint updateEnemies (es : list Enemy.t) (deltaTime : Q)
    (player : Player.t) (bounds : Bounds) (projectiles : list Projectile.t)
    (rng : Num.Rng)
    : list Enemy.t * Player.t * list Projectile.t * Num.Rng :=
  match es with
  | [] => ([], player, projectiles, rng)
  | e :: rest =>
      let '(e, player, projectiles, rng) :=
        Enemy.update sqrt atan2 cos sin PI e deltaTime player bounds
                     projectiles rng in
      let '(rest, player, projectiles, rng) :=
        updateEnemies rest deltaTime player bounds projectiles rng in
      (e :: rest, player, projectiles, rng)
  end.

(** First loop of [handleCollisions()]: player against enemies. *)
Fixpoint collidePlayerEnemies (player : Player.t) (es : list Enemy.t)
    : Player.t :=
  match es with
  | [] => player
  | enemy :: rest =>
      let player :=
        if CollisionSystem.checkCircleCollision sqrt (Player.ent player)
                                                 (Enemy.ent enemy)
        then if Player.canTakeDamage player
             then snd (Player.takeDamage player (Enemy.damage enemy))
             else player
        else player in
      collidePlayerEnemies player rest
  end.

(** Inner loop of the second: one projectile against every enemy. *)
Fixpoint collideProjectileEnemies (projectile : Projectile.t)
    (es : list Enemy.t) (kills : Z)
    : Projectile.t * list Enemy.t * Z :=
  match es with
  | [] => (projectile, [], kills)
  | enemy :: rest =>
      let '(projectile, enemy, kills) :=
        if CollisionSystem.checkCircleCollision sqrt
             (Projectile.ent projectile) (Enemy.ent enemy)
        then
          let enemy := Enemy.takeDamage enemy (Projectile.damage projectile) in
          let projectile := Projectile.set_alive projectile false in
          (projectile, enemy,
           if negb (Enemy.isAlive enemy) then (kills + 1)%Z else kills)
        else (projectile, enemy, kills) in
      let '(projectile, rest, kills) :=
        collideProjectileEnemies projectile rest kills in
      (projectile, enemy :: rest, kills)
  end.

(** Second loop: the player's projectiles against enemies. *)
Fixpoint collideProjectilesEnemies (ps : list Projectile.t)
    (es : list Enemy.t) (kills : Z)
    : list Projectile.t * list Enemy.t * Z :=
  match ps with
  | [] => ([], es, kills)
  | projectile :: rest =>
      let '(projectile, es, kills) :=
        if Projectile.is_player (Projectile.owner projectile)
        then collideProjectileEnemies projectile es kills
        else (projectile, es, kills) in
      let '(rest, es, kills) := collideProjectilesEnemies rest es kills in
      (projectile :: rest, es, kills)
  end.

(** Third loop: the other projectiles against the player. *)
Fixpoint collideProjectilesPlayer (ps : list Projectile.t)
    (player : Player.t) : list Projectile.t * Player.t :=
  match ps with
  | [] => ([], player)
  | projectile :: rest =>
      let '(projectile, player) :=
        if negb (Projectile.is_player (Projectile.owner projectile))
           && negb (Projectile.is_null (Projectile.owner projectile))
        then
          if CollisionSystem.checkCircleCollision sqrt
               (Projectile.ent projectile) (Player.ent player)
          then if Player.canTakeDamage player
               then (Projectile.set_alive projectile false,
                     snd (Player.takeDamage player
                            (Projectile.damage projectile)))
               else (projectile, player)
          else (projectile, player)
        else (projectile, player) in
      let '(rest, player) := collideProjectilesPlayer rest player in
      (projectile :: rest, player)
  end.

(** [handleCollisions()]. *)
Definition handleCollisions (g : t) : t :=
  let g := set_player g (collidePlayerEnemies (player g) (enemies g)) in
  let '(ps, es, kills) :=
    collideProjectilesEnemies (projectiles g) (enemies g) (killCount g) in
  let g := set_killCount (set_enemies (set_projectiles g ps) es) kills in
  let '(ps, p) := collideProjectilesPlayer (projectiles g) (player g) in
  set_player (set_projectiles g ps) p.

(** What one call of [update] reads from outside the game: the frame time,
    the input state, and the clock in seconds. *)
Record Tick := mkTick { deltaTime : Q; input : Input; now : Q }.

(** The blocks of [updatePlaying(deltaTime)], in the order of the source.
    Update player with creator mode state: *)
Definition updatePlayer (g : t) (tk : Tick) : t :=
  let bounds := mkBounds ARENA_WIDTH ARENA_HEIGHT in
  let p := Player.set_creatorMode (player g) (creatorMode g) in
  set_player g (Player.update p (deltaTime tk) (input tk) bounds).

(** Handle player firing, weapon switching and the creator mode toggle;
    clearing the flags afterwards concerns the input manager only. *)
Definition handleFiring (g : t) (tk : Tick) : t :=
  if fire (input tk)
  then player_fire g (now tk) (mouseX (input tk)) (mouseY (input tk))
  else g.

Definition handleWeaponSwitch (g : t) (tk : Tick) : t :=
  if switchWeapon (input tk) then toggleWeapon g else g.

Definition handleCreatorModeToggle (g : t) (tk : Tick) : t :=
  if creatorModeToggle (input tk) then toggleCreatorMode g else g.

(** Spawn enemies. *)
Definition spawnEnemies (g : t) (tk : Tick) (rng : Num.Rng) : t * Num.Rng :=
  let g := set_enemySpawnTimer g (enemySpawnTimer g + deltaTime tk) in
  if Num.geb (enemySpawnTimer g) ENEMY_SPAWN_INTERVAL then
    let '(g, rng) := spawnEnemy g rng in
    (set_enemySpawnTimer g 0, rng)
  else (g, rng).

(** Update enemies. *)
Definition updateAllEnemies (g : t) (tk : Tick) (rng : Num.Rng)
    : t * Num.Rng :=
  let bounds := mkBounds ARENA_WIDTH ARENA_HEIGHT in
  let '(es, p, ps, rng) :=
    updateEnemies (enemies g) (deltaTime tk) (player g) bounds
                  (projectiles g) rng in
  (set_player (set_projectiles (set_enemies g es) ps) p, rng).

(** Update projectiles. *)
Definition updateProjectiles (g : t) (tk : Tick) : t :=
  let bounds := mkBounds ARENA_WIDTH ARENA_HEIGHT in
  set_projectiles g
    (map (fun projectile =>
            Projectile.update projectile (deltaTime tk) bounds)
         (projectiles g)).

(** Remove dead objects. *)
Definition removeDead (g : t) : t :=
  let g := set_enemies g (filter Enemy.isAlive (enemies g)) in
  set_projectiles g (filter Projectile.isAlive (projectiles g)).

(** Check game over. *)
Definition checkGameOver (g : t) : t :=
  if negb (Player.isAlive (player g)) then
    let g := set_stateMachine g
               (GameStateMachine.setState (stateMachine g) GAME_OVER) in
    push_ui g (GameOverScreenShown (killCount g))
  else g.

(** [updatePlaying(deltaTime)]. *)
Definition updatePlaying (g : t) (tk : Tick) (rng : Num.Rng)
    : t * Num.Rng :=
  let g := updatePlayer g tk in
  let g := handleFiring g tk in
  let g := handleWeaponSwitch g tk in
  let g := handleCreatorModeToggle g tk in
  let '(g, rng) := spawnEnemies g tk rng in
  let '(g, rng) := updateAllEnemies g tk rng in
  let g := updateProjectiles g tk in
  let g := handleCollisions g in
  let g := removeDead g in
  (checkGameOver g, rng).

(** [updateGameOver(deltaTime)]: waiting for restart. *)
Definition updateGameOver (g : t) (deltaTime : Q) : t := g.

(** The check of the game over condition at the end of [update]. *)
Definition checkGameOverCondition (g : t) : t :=
  if negb (Player.isAlive (player g))
     && GameState_eqb (GameStateMachine.getState (stateMachine g)) PLAYING
  then
    let g := set_stateMachine g
               (GameStateMachine.setState (stateMachine g) GAME_OVER) in
    push_ui g Toast_GameOver
  else g.

(** [update(deltaTime)].  The input manager's own update produces the
    [input] of the tick; [updateHUD()] only writes to the page. *)
Definition update (g : t) (tk : Tick) (rng : Num.Rng) : t * Num.Rng :=
  let '(g, rng) :=
    match GameStateMachine.getState (stateMachine g) with
    | PLAYING => updatePlaying g tk rng
    | GAME_OVER => (updateGameOver g (deltaTime tk), rng)
    | _ => (g, rng)
    end in
  let g := handleCollisions g in
  (checkGameOverCondition g, rng).

(** Successive frames of [gameLoop()]. *)
Fixpoint run (g : t) (tks : list Tick) (rng : Num.Rng) : t * Num.Rng :=
  match tks with
  | [] => (g, rng)
  | tk :: rest => let '(g, rng) := update g tk rng in run g rest rng
  end.

End Math.


End Game.

End Registry.

(** ** The modular implementation *)

Module Modular.

(** config.js; times are in milliseconds. *)
Module CONFIG.
Definition arenaWidth : Q := 1200.
Definition arenaHeight : Q := 800.
Definition player_radius : Q := 20.
Definition player_speed : Q := 300.
Definition player_maxHealth : Z := 3.
Definition player_startX : Q := 600.
Definition player_startY : Q := 400.
Definition player_invulnerabilityDuration : Q := 800.
Definition player_flashDuration : Q := 100.
Definition enemy_radius : Q := 15.
Definition enemy_speed : Q := 150.
Definition enemy_health : Z := 1.
Definition enemy_damage : Z := 1.
Definition enemy_spawnInterval : Q := 2000.
Definition enemy_minDistanceFromPlayer : Q := 100.
Definition machineGun_fireRate : Q := 500.
Definition machineGun_bulletSpeed : Q := 600.
Definition machineGun_damage : Z := 1.
Definition bullet_radius : Q := 4.
Definition bullet_speed : Q := 600.
Definition bullet_maxDistance : Q := 1000.
End CONFIG.

(** *** utils.js *)

Section Sqrt.
Variable sqrt : Q -> Q.

Definition normalizeVector (x y : Q) : Q * Q :=
  let length := sqrt (x * x + y * y) in
  if Num.eqb length 0 then (0, 0) else (x / length, y / length).

Definition vectorDistance (x1 y1 x2 y2 : Q) : Q :=
  let dx := x2 - x1 in
  let dy := y2 - y1 in
  sqrt (dx * dx + dy * dy).

Definition checkCircleCollision (x1 y1 r1 x2 y2 r2 : Q) : bool :=
  let distance := vectorDistance x1 y1 x2 y2 in
  Num.ltb distance (r1 + r2).

End Sqrt.

Definition clampToBounds (x y minX minY maxX maxY : Q) : Q * Q :=
  (Num.max minX (Num.min maxX x), Num.max minY (Num.min maxY y)).

Definition randomFloat (min max r : Q) : Q := r * (max - min) + min.

Definition randomInt (min max : Z) (r : Q) : Z :=
  (Num.floor (r * inject_Z (max - min + 1)) + min)%Z.

(** [getRandomEdgePosition(arenaWidth, arenaHeight, margin)]: two calls of
    [Math.random()], none for the second in the default branch. *)
Definition getRandomEdgePosition (arenaWidth arenaHeight margin : Q)
    (rng : Num.Rng) : (Q * Q) * Num.Rng :=
  let '(r1, rng) := Num.next rng in
  let edge := randomInt 0 3 r1 in
  match edge with
  | 0%Z => let '(r, rng) := Num.next rng in
           ((randomFloat margin (arenaWidth - margin) r, margin), rng)
  | 1%Z => let '(r, rng) := Num.next rng in
           ((arenaWidth - margin,
             randomFloat margin (arenaHeight - margin) r), rng)
  | 2%Z => let '(r, rng) := Num.next rng in
           ((randomFloat margin (arenaWidth - margin) r,
             arenaHeight - margin), rng)
  | 3%Z => let '(r, rng) := Num.next rng in
           ((margin, randomFloat margin (arenaHeight - margin) r), rng)
  | _ => ((arenaWidth / 2, arenaHeight / 2), rng)
  end.

(** [createTimer(duration)] and the methods of the object it returns. *)
Module Timer.

Record t := mk { duration : Q; elapsed : Q; isComplete : bool }.

Definition createTimer (d : Q) : t := mk d 0 false.

Definition update (tm : t) (dt : Q) : t :=
  if negb (isComplete tm) then
    let el := elapsed tm + dt in
    if Num.geb el (duration tm)
    then mk (duration tm) (duration tm) true
    else mk (duration tm) el false
  else tm.

Definition reset (tm : t) : t := mk (duration tm) 0 false.

(** [update] with [this.elapsed += dt] rounded to the nearest double. *)
Definition update64 (tm : t) (dt : Q) : t :=
  if negb (isComplete tm) then
    let el := Num.round64 (elapsed tm + dt) in
    if Num.geb el (duration tm)
    then mk (duration tm) (duration tm) true
    else mk (duration tm) el false
  else tm.

End Timer.

(** *** entities.js: Entity *)

Module Entity.

Record t := mk {
  x : Q; y : Q; radius : Q;
  health : Z; maxHealth : Z;
  active : bool
}.

Definition new (x0 y0 : Q) : t := mk x0 y0 10 1 1 true.

Definition set_pos (e : t) (x' y' : Q) : t :=
  mk x' y' (radius e) (health e) (maxHealth e) (active e).

Definition set_active (e : t) (a : bool) : t :=
  mk (x e) (y e) (radius e) (health e) (maxHealth e) a.

Definition takeDamage (e : t) (amount : Z) : t :=
  let h := (health e - amount)%Z in
  mk (x e) (y e) (radius e) h (maxHealth e)
     (if (h <=? 0)%Z then false else active e).

Definition isActive (e : t) : bool := active e.

End Entity.

(** *** entities.js: Bullet *)

Module Bullet.

Record t := mk {
  ent : Entity.t;
  dirX : Q; dirY : Q;
  speed : Q;
  distanceTraveled : Q;
  maxDistance : Q
}.

Definition new (x0 y0 dx dy spd : Q) : t :=
  mk (Entity.mk x0 y0 CONFIG.bullet_radius 1 1 true) dx dy spd 0
     CONFIG.bullet_maxDistance.

Definition set_ent (b : t) (e : Entity.t) : t :=
  mk e (dirX b) (dirY b) (speed b) (distanceTraveled b) (maxDistance b).

Definition set_active (b : t) (a : bool) : t :=
  set_ent b (Entity.set_active (ent b) a).

Definition isActive (b : t) : bool := Entity.isActive (ent b).

(** [update(dt)]. *)
Definition update (b : t) (dt : Q) : t :=
  let distance := speed b * dt / 1000 in
  let e := ent b in
  let e := Entity.set_pos e (Entity.x e + dirX b * distance)
                            (Entity.y e + dirY b * distance) in
  let traveled := distanceTraveled b + distance in
  let b := mk e (dirX b) (dirY b) (speed b) traveled (maxDistance b) in
  if Num.gtb traveled (maxDistance b)
     || Num.ltb (Entity.x e) 0 || Num.gtb (Entity.x e) CONFIG.arenaWidth
     || Num.ltb (Entity.y e) 0 || Num.gtb (Entity.y e) CONFIG.arenaHeight
  then set_active b false
  else b.

Section Sqrt.
Variable sqrt : Q -> Q.

Definition checkCollision (b : t) (entity : Entity.t) : bool :=
  checkCircleCollision sqrt
    (Entity.x (ent b)) (Entity.y (ent b)) (Entity.radius (ent b))
    (Entity.x entity) (Entity.y entity) (Entity.radius entity).

End Sqrt.
End Bullet.

(** *** entities.js: Player *)

(** [weapon.ammo]: [Infinity] or a number of rounds. *)
Inductive Ammo := Infinity | Rounds (n : Z).

(** An entry of [player.weapons]: the configuration with [lastFireTime];
    the display name is left out. *)
Record Weapon := mkWeapon {
  fireRate : Q;
  bulletSpeed : Q;
  ammo : Ammo;
  damage : Z;
  lastFireTime : Q
}.

Definition CONFIG_machineGun (a : Ammo) : Weapon :=
  mkWeapon CONFIG.machineGun_fireRate CONFIG.machineGun_bulletSpeed a
           CONFIG.machineGun_damage 0.

Module Player.

(** The table [weapons] has the single key 'machineGun', which
    [currentWeapon] always names. *)
Record t := mk {
  ent : Entity.t;
  speed : Q;
  weapons_machineGun : Weapon;
  invulnerable : bool;
  invulnerabilityTimer : Timer.t;
  flashTimer : Timer.t;
  isDamaged : bool;
  velocity : Q * Q
}.

(** The constructor, for a configuration whose machine gun holds [a]. *)
Definition new_with (a : Ammo) (x0 y0 : Q) : t :=
  mk (Entity.mk x0 y0 CONFIG.player_radius CONFIG.player_maxHealth
                CONFIG.player_maxHealth true)
     CONFIG.player_speed
     (CONFIG_machineGun a)
     false
     (Timer.createTimer CONFIG.player_invulnerabilityDuration)
     (Timer.createTimer CONFIG.player_flashDuration)
     false (0, 0).

Definition new : Q -> Q -> t := new_with Infinity.

Definition set_ent (p : t) (e : Entity.t) : t :=
  mk e (speed p) (weapons_machineGun p) (invulnerable p)
     (invulnerabilityTimer p) (flashTimer p) (isDamaged p) (velocity p).

Definition set_weapon (p : t) (w : Weapon) : t :=
  mk (ent p) (speed p) w (invulnerable p)
     (invulnerabilityTimer p) (flashTimer p) (isDamaged p) (velocity p).

(** [update(dt, inputManager)], reading [inputManager.moveVector]. *)
Definition update (p : t) (dt : Q) (moveVector : Q * Q) : t :=
  let it := Timer.update (invulnerabilityTimer p) dt in
  let ft := Timer.update (flashTimer p) dt in
  let inv := if Timer.isComplete it then false else invulnerable p in
  let dmg := negb (Timer.isComplete ft) in
  if negb (Num.eqb (fst moveVector) 0) || negb (Num.eqb (snd moveVector) 0)
  then
    let v := (fst moveVector * speed p, snd moveVector * speed p) in
    let e := ent p in
    let x1 := Entity.x e + fst v * dt / 1000 in
    let y1 := Entity.y e + snd v * dt / 1000 in
    let bounds := clampToBounds x1 y1 (Entity.radius e) (Entity.radius e)
                    (CONFIG.arenaWidth - Entity.radius e)
                    (CONFIG.arenaHeight - Entity.radius e) in
    mk (Entity.set_pos e (fst bounds) (snd bounds)) (speed p)
       (weapons_machineGun p) inv it ft dmg v
  else
    mk (ent p) (speed p) (weapons_machineGun p) inv it ft dmg (velocity p).

(** [update] with the two timers in doubles ([Timer.update64]); the
    movement does not read them. *)
Definition update64 (p : t) (dt : Q) (moveVector : Q * Q) : t :=
  let it := Timer.update64 (invulnerabilityTimer p) dt in
  let ft := Timer.update64 (flashTimer p) dt in
  let inv := if Timer.isComplete it then false else invulnerable p in
  let dmg := negb (Timer.isComplete ft) in
  let q := update p dt moveVector in
  mk (ent q) (speed q) (weapons_machineGun q) inv it ft dmg (velocity q).

Section Sqrt.
Variable sqrt : Q -> Q.

(** [tryFire(mouseX, mouseY)], with [now] the value of [Date.now()]: the
    bullet or [null], and the player afterwards. *)
Definition tryFire (p : t) (now mouseX mouseY : Q) : option Bullet.t * t :=
  let weapon := weapons_machineGun p in
  if Num.ltb (now - lastFireTime weapon) (fireRate weapon) then (None, p)
  else
    let outOfAmmo := match ammo weapon with
                     | Infinity => false
                     | Rounds n => (n <=? 0)%Z
                     end in
    if outOfAmmo then (None, p)
    else
      let e := ent p in
      let dx := mouseX - Entity.x e in
      let dy := mouseY - Entity.y e in
      let direction := normalizeVector sqrt dx dy in
      let bullet := Bullet.new (Entity.x e + fst direction * Entity.radius e)
                               (Entity.y e + snd direction * Entity.radius e)
                               (fst direction) (snd direction)
                               (bulletSpeed weapon) in
      let ammo' := match ammo weapon with
                   | Infinity => Infinity
                   | Rounds n => Rounds (n - 1)
                   end in
      (Some bullet,
       set_weapon p (mkWeapon (fireRate weapon) (bulletSpeed weapon) ammo'
                              (damage weapon) now)).

End Sqrt.

(** [takeDamage(amount)]: the returned flag and the player afterwards. *)
Definition takeDamage (p : t) (amount : Z) : bool * t :=
  if invulnerable p then (false, p)
  else
    (true,
     mk (Entity.takeDamage (ent p) amount) (speed p) (weapons_machineGun p)
        true (Timer.reset (invulnerabilityTimer p))
        (Timer.reset (flashTimer p)) true (velocity p)).

(** [reset()], for a configuration whose machine gun holds [a]. *)
Definition reset_with (a : Ammo) (p : t) : t :=
  let e := ent p in
  let w := weapons_machineGun p in
  mk (Entity.mk CONFIG.player_startX CONFIG.player_startY (Entity.radius e)
                (Entity.maxHealth e) (Entity.maxHealth e) true)
     (speed p)
     (mkWeapon (fireRate w) (bulletSpeed w)
               (match ammo w with Infinity => Infinity | Rounds _ => a end)
               (damage w) 0)
     false (Timer.reset (invulnerabilityTimer p))
     (Timer.reset (flashTimer p)) false (0, 0).

Definition reset : t -> t := reset_with Infinity.

End Player.

(** *** entities.js: Enemy *)

Module Enemy.

Record t := mk {
  ent : Entity.t;
  speed : Q;
  damage : Z;
  velocity : Q * Q;
  targetX : Q;
  targetY : Q
}.

Definition new (x0 y0 : Q) : t :=
  mk (Entity.mk x0 y0 CONFIG.enemy_radius CONFIG.enemy_health 1 true)
     CONFIG.enemy_speed CONFIG.enemy_damage (0, 0) 0 0.

Definition set_ent (e : t) (en : Entity.t) : t :=
  mk en (speed e) (damage e) (velocity e) (targetX e) (targetY e).

Definition set_active (e : t) (a : bool) : t :=
  set_ent e (Entity.set_active (ent e) a).

Definition isActive (e : t) : bool := Entity.isActive (ent e).

Definition takeDamage (e : t) (amount : Z) : t :=
  set_ent e (Entity.takeDamage (ent e) amount).

Section Sqrt.
Variable sqrt : Q -> Q.

(** [update(dt, playerX, playerY)]. *)
Definition update (e : t) (dt playerX playerY : Q) : t :=
  let en := ent e in
  let dx := playerX - Entity.x en in
  let dy := playerY - Entity.y en in
  let direction := normalizeVector sqrt dx dy in
  let v := (fst direction * speed e, snd direction * speed e) in
  let x1 := Entity.x en + fst v * dt / 1000 in
  let y1 := Entity.y en + snd v * dt / 1000 in
  let bounds := clampToBounds x1 y1 (Entity.radius en) (Entity.radius en)
                  (CONFIG.arenaWidth - Entity.radius en)
                  (CONFIG.arenaHeight - Entity.radius en) in
  mk (Entity.set_pos en (fst bounds) (snd bounds)) (speed e) (damage e) v
     playerX playerY.

Definition canDamagePlayer (e : t) (player : Entity.t) : bool :=
  checkCircleCollision sqrt
    (Entity.x (ent e)) (Entity.y (ent e)) (Entity.radius (ent e))
    (Entity.x player) (Entity.y player) (Entity.radius player).

(** The do-while loop of [Enemy.spawn], with [more] further attempts
    allowed after this one. *)
Fixpoint spawn_loop (more : nat) (playerX playerY : Q) (rng : Num.Rng)
    : (Q * Q) * Num.Rng :=
  let '(position, rng) :=
    getRandomEdgePosition CONFIG.arenaWidth CONFIG.arenaHeight 50 rng in
  match more with
  | O => (position, rng)
  | S more =>
      if Num.ltb (vectorDistance sqrt (fst position) (snd position)
                                 playerX playerY)
                 CONFIG.enemy_minDistanceFromPlayer
      then spawn_loop more playerX playerY rng
      else (position, rng)
  end.

(** [Enemy.spawn(playerX, playerY)], at most ten attempts. *)
Definition spawn (playerX playerY : Q) (rng : Num.Rng) : t * Num.Rng :=
  let '(position, rng) := spawn_loop 9 playerX playerY rng in
  (new (fst position) (snd position), rng).

End Sqrt.
End Enemy.

(** *** gameState.js *)

Inductive GameState :=
| BOOT | MENU | PLAYING | PAUSED | UPGRADE_PICK | GAME_OVER.

Definition GameState_eqb (a b : GameState) : bool :=
  match a, b with
  | BOOT, BOOT | MENU, MENU | PLAYING, PLAYING | PAUSED, PAUSED
  | UPGRADE_PICK, UPGRADE_PICK | GAME_OVER, GAME_OVER => true
  | _, _ => false
  end.

(** The [data] object of [setState]: each property may be absent. *)
Record StateData := mkData {
  data_killCount : option Z;
  data_finalScore : option Z;
  data_resetKillCount : option bool
}.

Definition no_data : StateData := mkData None None None.

(** The lines the state code writes to the console. *)
Inductive LogLine :=
| EnteredPlaying
| ExitedPlaying
| GameOverLine (finalScore killCount : Z)
| ExitedGameOver
| StateChanged (previous : option GameState) (current : GameState).

Module PlayingState.
Record t := mk { enemySpawnTimer : Q; killCount : Z }.
Definition new : t := mk 0 0.

(** [enter(stateMachine, data)]. *)
Definition enter (s : t) (data : StateData) : t :=
  mk 0 (match data_resetKillCount data with
        | Some false => killCount s
        | _ => 0%Z
        end).

Definition addKill (s : t) : t := mk (enemySpawnTimer s) (killCount s + 1)%Z.
Definition getKillCount (s : t) : Z := killCount s.
End PlayingState.

Module GameOverState.
Record t := mk { finalScore : Z; killCount : Z }.
Definition new : t := mk 0 0.

(** [enter(stateMachine, data)]; [v || 0] is [v] for a number and [0] for
    an absent property. *)
Definition enter (s : t) (data : StateData) : t :=
  mk (match data_finalScore data with Some v => v | None => 0%Z end)
     (match data_killCount data with Some v => v | None => 0%Z end).
End GameOverState.

Module GameStateMachine.

(** The machine with its two handlers; [playing] is also the object that
    [playingStateInstance] names. *)
Record t := mk {
  currentState : GameState;
  previousState : option GameState;
  stateStartTime : Q;
  stateData : StateData;
  playing : PlayingState.t;
  gameOver : GameOverState.t;
  console : list LogLine
}.

Definition new (now : Q) : t :=
  mk PLAYING None now no_data PlayingState.new GameOverState.new [].

Definition set_playing (sm : t) (s : PlayingState.t) : t :=
  mk (currentState sm) (previousState sm) (stateStartTime sm) (stateData sm)
     s (gameOver sm) (console sm).

Definition say (sm : t) (l : LogLine) : t :=
  mk (currentState sm) (previousState sm) (stateStartTime sm) (stateData sm)
     (playing sm) (gameOver sm) (console sm ++ [l]).

(** The [exit] method of the handler of state [s], if there is one. *)
Definition exit_handler (sm : t) (s : GameState) : t :=
  match s with
  | PLAYING => say sm ExitedPlaying
  | GAME_OVER => say sm ExitedGameOver
  | _ => sm
  end.

(** The [enter] method of the handler of state [s], if there is one. *)
Definition enter_handler (sm : t) (s : GameState) (data : StateData) : t :=
  match s with
  | PLAYING =>
      say (set_playing sm (PlayingState.enter (playing sm) data))
          EnteredPlaying
  | GAME_OVER =>
      let s := GameOverState.enter (gameOver sm) data in
      say (mk (currentState sm) (previousState sm) (stateStartTime sm)
              (stateData sm) (playing sm) s (console sm))
          (GameOverLine (GameOverState.finalScore s)
                        (GameOverState.killCount s))
  | _ => sm
  end.

(** [setState(newState, data)], with [now] the value of [Date.now()]. *)
Definition setState (sm : t) (newState : GameState) (data : StateData)
    (now : Q) : t :=
  if GameState_eqb (currentState sm) newState then sm
  else
    let sm := exit_handler sm (currentState sm) in
    let sm := mk newState (Some (currentState sm)) now data
                 (playing sm) (gameOver sm) (console sm) in
    let sm := enter_handler sm (currentState sm) data in
    say sm (StateChanged (previousState sm) (currentState sm)).

Definition isState (sm : t) (s : GameState) : bool :=
  GameState_eqb (currentState sm) s.

End GameStateMachine.

(** *** game.js: Game *)


Module Game.

(** The game with the state machine it owns.  The object pools never hold
    a live entity (nothing is taken from them), so releasing into them has
    no effect and they are left out, as are audio and the frame counters. *)
Record t := mk {
  player : Player.t;
  enemies : list Enemy.t;
  bullets : list Bullet.t;
  stateMachine : GameStateMachine.t;
  isPaused : bool;
  gameTime : Q
}.

Definition new (now : Q) : t :=
  mk (Player.new CONFIG.player_startX CONFIG.player_startY) [] []
     (GameStateMachine.new now) false 0.

Definition set_player (g : t) (p : Player.t) : t :=
  mk p (enemies g) (bullets g) (stateMachine g) (isPaused g) (gameTime g).

Definition set_enemies (g : t) (es : list Enemy.t) : t :=
  mk (player g) es (bullets g) (stateMachine g) (isPaused g) (gameTime g).

Definition set_bullets (g : t) (bs : list Bullet.t) : t :=
  mk (player g) (enemies g) bs (stateMachine g) (isPaused g) (gameTime g).

Definition set_stateMachine (g : t) (sm : GameStateMachine.t) : t :=
  mk (player g) (enemies g) (bullets g) sm (isPaused g) (gameTime g).

Definition set_gameTime (g : t) (tm : Q) : t :=
  mk (player g) (enemies g) (bullets g) (stateMachine g) (isPaused g) tm.

(** [playingStateInstance.addKill()]. *)
Definition addKill (g : t) : t :=
  let sm := stateMachine g in
  set_stateMachine g
    (GameStateMachine.set_playing sm
       (PlayingState.addKill (GameStateMachine.playing sm))).

Definition cleanupEntities (g : t) : t :=
  let g := set_bullets g (filter Bullet.isActive (bullets g)) in
  set_enemies g (filter Enemy.isActive (enemies g)).


(** [reset()]. *)
Definition reset (g : t) : t :=
  mk (Player.reset (player g)) [] [] (stateMachine g) false 0.

(** [updateBullets(dt)]: every bullet is updated and the inactive ones
    are spliced out; the bullets do not interact, so the downward index
    order of the loop is immaterial. *)
Definition updateBullets (g : t) (dt : Q) : t :=
  set_bullets g
    (filter Bullet.isActive (map (fun b => Bullet.update b dt) (bullets g))).

Section Sqrt.
Variable sqrt : Q -> Q.

(** [updateEnemies(dt)], likewise. *)
Definition updateEnemies (g : t) (dt : Q) : t :=
  let pe := Player.ent (player g) in
  set_enemies g
    (filter Enemy.isActive
       (map (fun e => Enemy.update sqrt e dt (Entity.x pe) (Entity.y pe))
            (enemies g))).

(** The inner loop of the first part of [handleCollisions()]: one bullet
    against the enemies taken from the last index down, left at the first
    hit.  The list [es] is in that visiting order. *)
Fixpoint bulletVsEnemies (bullet : Bullet.t) (es : list Enemy.t)
    (kills : nat) : Bullet.t * list Enemy.t * nat :=
  match es with
  | [] => (bullet, [], kills)
  | enemy :: rest =>
      if Bullet.checkCollision sqrt bullet (Enemy.ent enemy) then
        let bullet := Bullet.set_active bullet false in
        let enemy := Enemy.takeDamage enemy 1 in
        (bullet, enemy :: rest,
         if negb (Enemy.isActive enemy) then S kills else kills)
      else
        let '(bullet, rest, kills) := bulletVsEnemies bullet rest kills in
        (bullet, enemy :: rest, kills)
  end.

(** The outer loop, over the bullets in visiting order; [kills] counts the
    calls of [addKill]. *)
Fixpoint bulletsVsEnemies (bs : list Bullet.t) (es : list Enemy.t)
    (kills : nat) : list Bullet.t * list Enemy.t * nat :=
  match bs with
  | [] => ([], es, kills)
  | bullet :: rest =>
      let '(bullet, es, kills) := bulletVsEnemies bullet es kills in
      let '(rest, es, kills) := bulletsVsEnemies rest es kills in
      (bullet :: rest, es, kills)
  end.

(** The second part: enemies against the player, in visiting order. *)
Fixpoint enemiesVsPlayer (es : list Enemy.t) (player : Player.t)
    : list Enemy.t * Player.t :=
  match es with
  | [] => ([], player)
  | enemy :: rest =>
      let '(enemy, player) :=
        if Enemy.canDamagePlayer sqrt enemy (Player.ent player) then
          let '(damaged, player) :=
            Player.takeDamage player (Enemy.damage enemy) in
          if damaged then (Enemy.set_active enemy false, player)
          else (enemy, player)
        else (enemy, player) in
      let '(rest, player) := enemiesVsPlayer rest player in
      (enemy :: rest, player)
  end.

(** [handleCollisions()]: both loops run from the last index down. *)
Definition handleCollisions (g : t) : t :=
  let '(bs, es, kills) :=
    bulletsVsEnemies (rev (bullets g)) (rev (enemies g)) 0 in
  let g := set_enemies (set_bullets g (rev bs)) (rev es) in
  let g := Nat.iter kills addKill g in
  let '(es, p) := enemiesVsPlayer (rev (enemies g)) (player g) in
  set_player (set_enemies g (rev es)) p.

(** [spawnEnemy()]. *)
Definition spawnEnemy (g : t) (rng : Num.Rng) : t * Num.Rng :=
  let pe := Player.ent (player g) in
  let '(enemy, rng) := Enemy.spawn sqrt (Entity.x pe) (Entity.y pe) rng in
  (set_enemies g (enemies g ++ [enemy]), rng).

(** [Game.update(dt)] with the methods it reaches through the state
    machine: [GameStateMachine.update] hands over to the handler of the
    current state, and [PlayingState.update] calls [game.update(dt)]
    again.  [fuel] bounds the depth of calls; [None] means it ran out.
    [moveVector] is absent when the game has no input manager, [now] is
    the value of [Date.now()]. *)
Fixpoint update (fuel : nat) (g : t) (dt : Q) (moveVector : option (Q * Q))
    (now : Q) (rng : Num.Rng) : option (t * Num.Rng) :=
  match fuel with
  | O => None
  | S fuel =>
      if isPaused g then Some (g, rng)
      else
        let g := set_gameTime g (gameTime g + dt) in
        let g := match moveVector with
                 | Some mv => set_player g (Player.update (player g) dt mv)
                 | None => g
                 end in
        let g := updateEnemies g dt in
        let g := updateBullets g dt in
        let g := handleCollisions g in
        let g := cleanupEntities g in
        match GameStateMachine.currentState (stateMachine g) with
        | PLAYING =>
            let sm := stateMachine g in
            let ps := GameStateMachine.playing sm in
            let timer := PlayingState.enemySpawnTimer ps + dt in
            let set_timer g v :=
              let sm := stateMachine g in
              set_stateMachine g
                (GameStateMachine.set_playing sm
                   (PlayingState.mk v
                      (PlayingState.killCount (GameStateMachine.playing sm))))
            in
            let g := set_timer g timer in
            let '(g, rng) :=
              if Num.geb timer CONFIG.enemy_spawnInterval then
                let '(g, rng) := spawnEnemy g rng in
                (set_timer g 0, rng)
              else (g, rng) in
            match update fuel g dt moveVector now rng with
            | None => None
            | Some (g, rng) =>
                if (Entity.health (Player.ent (player g)) <=? 0)%Z then
                  let kills :=
                    PlayingState.killCount
                      (GameStateMachine.playing (stateMachine g)) in
                  Some (set_stateMachine g
                          (GameStateMachine.setState (stateMachine g)
                             GAME_OVER
                             (mkData (Some kills) (Some (kills * 100)%Z)
                                     None)
                             now),
                        rng)
                else Some (g, rng)
            end
        | GAME_OVER => Some (g, rng)
        | _ => Some (g, rng)
        end
  end.

(** The two stretches of code between one call of [game.update(dt)] and
    the next one nested in it: [Game.update] up to its call of
    [this.stateMachine.update(dt, this)], for a game that is not paused,
    and [PlayingState.update] up to its call of [game.update(dt)]. *)
Definition update_entities (g : t) (dt : Q) (moveVector : option (Q * Q))
    : t :=
  let g := set_gameTime g (gameTime g + dt) in
  let g := match moveVector with
           | Some mv => set_player g (Player.update (player g) dt mv)
           | None => g
           end in
  let g := updateEnemies g dt in
  let g := updateBullets g dt in
  let g := handleCollisions g in
  cleanupEntities g.

Definition update_spawnTimer (g : t) (dt : Q) (rng : Num.Rng)
    : t * Num.Rng :=
  let sm := stateMachine g in
  let ps := GameStateMachine.playing sm in
  let timer := PlayingState.enemySpawnTimer ps + dt in
  let set_timer g v :=
    let sm := stateMachine g in
    set_stateMachine g
      (GameStateMachine.set_playing sm
         (PlayingState.mk v
            (PlayingState.killCount (GameStateMachine.playing sm))))
  in
  let g := set_timer g timer in
  if Num.geb timer CONFIG.enemy_spawnInterval then
    let '(g, rng) := spawnEnemy g rng in
    (set_timer g 0, rng)
  else (g, rng).

(** The game and the random source with which the call of [update] nested
    [n] deep in a first call starts, for a game in PLAYING that is not
    paused. *)
Fixpoint nested (n : nat) (g : t) (dt : Q) (moveVector : option (Q * Q))
    (rng : Num.Rng) : t * Num.Rng :=
  match n with
  | O => (g, rng)
  | S n =>
      let '(g, rng) := nested n g dt moveVector rng in
      update_spawnTimer (update_entities g dt moveVector) dt rng
  end.

End Sqrt.

(** [GameOverState.restart(game, stateMachine)]. *)
Definition restart (g : t) (now : Q) : t :=
  let g := reset g in
  set_stateMachine g
    (GameStateMachine.setState (stateMachine g) PLAYING
       (mkData None None (Some true)) now).




End Game.

End Modular.

(** ** The single-file implementation *)

Module Monolith.

(** [CONFIG]; times are in milliseconds, [dt] is in seconds. *)
Module CONFIG.
Definition canvasWidth : Q := 1200.
Definition canvasHeight : Q := 800.
Definition playerRadius : Q := 16.
Definition playerSpeed : Q := 220.
Definition playerHealth : Z := 3.
Definition playerInvulnerabilityTime : Q := 800.
Definition enemySpawnInterval : Q := 2000.
Definition enemySpawnMinDistance : Q := 150.
Definition enemyContactDamageCooldown : Q := 700.
Definition assassin_radius : Q := 14.
Definition assassin_speed : Q := 200.
Definition assassin_health : Z := 1.
Definition shooter_radius : Q := 14.
Definition shooter_telegraphTime : Q := 350.
Definition shooter_fireInterval : Q := 2000.
Definition shooter_bulletSpeed : Q := 400.
Definition shooter_bulletRadius : Q := 4.
Definition shooter_bulletLifetime : Q := 2500.
Definition shooter_bulletSpread : Q := 4.
Definition tank_radius : Q := 20.
Definition tank_speed : Q := 120.
Definition tank_health : Z := 3.
Definition tank_knockback : Q := 8.
Definition tank_flashTime : Q := 100.
Definition machineGunFireRate : Q := 500.
Definition pistolFireRate : Q := 1000.
Definition machineGunAmmo : Z := 30.
Definition bulletSpeed : Q := 600.
Definition bulletRadius : Q := 4.
End CONFIG.

Inductive State :=
| BOOT | MENU | PLAYING | PAUSED | UPGRADE_PICK | GAME_OVER.

Definition State_eqb (a b : State) : bool :=
  match a, b with
  | BOOT, BOOT | MENU, MENU | PLAYING, PLAYING | PAUSED, PAUSED
  | UPGRADE_PICK, UPGRADE_PICK | GAME_OVER, GAME_OVER => true
  | _, _ => false
  end.

Inductive WeaponName := MachineGun | Pistol.

(** The state of the input manager read in one frame. *)
Record Input := mkInput {
  moveVector : Q * Q;
  mousePosition : Q * Q;
  fire : bool;
  switchWeapon : bool
}.

Record Player := mkPlayer {
  p_x : Q; p_y : Q;
  p_radius : Q;
  p_speed : Q;
  p_health : Z;
  isInvulnerable : bool;
  invulnerabilityTimer : Q;
  currentWeapon : WeaponName;
  machineGunAmmo : Z;
  p_lastFireTime : Q
}.

Definition new_Player (x y : Q) : Player :=
  mkPlayer x y CONFIG.playerRadius CONFIG.playerSpeed CONFIG.playerHealth
           false 0 MachineGun CONFIG.machineGunAmmo 0.

Record Bullet := mkBullet {
  b_x : Q; b_y : Q; b_dirX : Q; b_dirY : Q; b_radius : Q; b_speed : Q
}.

Definition new_Bullet (x y dx dy : Q) : Bullet :=
  mkBullet x y dx dy CONFIG.bulletRadius CONFIG.bulletSpeed.

Record EnemyBullet := mkEnemyBullet {
  eb_x : Q; eb_y : Q; eb_dirX : Q; eb_dirY : Q; eb_radius : Q;
  eb_speed : Q; creationTime : Q
}.

Definition new_EnemyBullet (x y dx dy now : Q) : EnemyBullet :=
  mkEnemyBullet x y dx dy CONFIG.shooter_bulletRadius
                CONFIG.shooter_bulletSpeed now.

(** The class of an enemy with the fields its constructor adds; a
    [Shooter] has no speed. *)
Inductive Kind :=
| Assassin
| Shooter (telegraphing : bool) (telegraphTimer lastFireTime : Q)
| Tank (isFlashing : bool) (flashTimer : Q).

Record Enemy := mkEnemy {
  e_x : Q; e_y : Q;
  lastDamageTime : Q;
  e_radius : Q;
  e_speed : Q;
  e_health : Z;
  kind : Kind
}.

Definition new_Assassin (x y : Q) : Enemy :=
  mkEnemy x y 0 CONFIG.assassin_radius CONFIG.assassin_speed
          CONFIG.assassin_health Assassin.

Definition new_Shooter (x y : Q) : Enemy :=
  mkEnemy x y 0 CONFIG.shooter_radius 0 1 (Shooter false 0 0).

Definition new_Tank (x y : Q) : Enemy :=
  mkEnemy x y 0 CONFIG.tank_radius CONFIG.tank_speed CONFIG.tank_health
          (Tank false 0).

(** What the game asks of the page. *)
Inductive Effect :=
| Message_Switch (w : WeaponName)
| Message_OutOfAmmo
| GameOverShown
| GameOverHidden.

(** The global [gameState], with the page effects so far. *)
Record GameStateRec := mkGS {
  currentState : State;
  player : Player;
  enemies : list Enemy;
  bullets : list Bullet;
  enemyBullets : list EnemyBullet;
  score : Z;
  lastEnemySpawnTime : Q;
  effects : list Effect
}.

Definition set_player (gs : GameStateRec) (p : Player) : GameStateRec :=
  mkGS (currentState gs) p (enemies gs) (bullets gs) (enemyBullets gs)
       (score gs) (lastEnemySpawnTime gs) (effects gs).

Definition set_enemies (gs : GameStateRec) (es : list Enemy) : GameStateRec :=
  mkGS (currentState gs) (player gs) es (bullets gs) (enemyBullets gs)
       (score gs) (lastEnemySpawnTime gs) (effects gs).

Definition set_bullets (gs : GameStateRec) (bs : list Bullet) : GameStateRec :=
  mkGS (currentState gs) (player gs) (enemies gs) bs (enemyBullets gs)
       (score gs) (lastEnemySpawnTime gs) (effects gs).

Definition set_enemyBullets (gs : GameStateRec) (bs : list EnemyBullet)
    : GameStateRec :=
  mkGS (currentState gs) (player gs) (enemies gs) (bullets gs) bs
       (score gs) (lastEnemySpawnTime gs) (effects gs).

Definition set_score (gs : GameStateRec) (n : Z) : GameStateRec :=
  mkGS (currentState gs) (player gs) (enemies gs) (bullets gs)
       (enemyBullets gs) n (lastEnemySpawnTime gs) (effects gs).

Definition set_state (gs : GameStateRec) (st : State) : GameStateRec :=
  mkGS st (player gs) (enemies gs) (bullets gs) (enemyBullets gs)
       (score gs) (lastEnemySpawnTime gs) (effects gs).

Definition set_lastEnemySpawnTime (gs : GameStateRec) (tm : Q)
    : GameStateRec :=
  mkGS (currentState gs) (player gs) (enemies gs) (bullets gs)
       (enemyBullets gs) (score gs) tm (effects gs).

Definition effect (gs : GameStateRec) (e : Effect) : GameStateRec :=
  mkGS (currentState gs) (player gs) (enemies gs) (bullets gs)
       (enemyBullets gs) (score gs) (lastEnemySpawnTime gs)
       (effects gs ++ [e]).

Section Math.
Variable sqrt : Q -> Q.
Variable atan2 : Q -> Q -> Q.
Variables cos sin : Q -> Q.
Variable PI : Q.

Definition normalizeVector (v : Q * Q) : Q * Q :=
  let length := sqrt (fst v * fst v + snd v * snd v) in
  if Num.eqb length 0 then (0, 0) else (fst v / length, snd v / length).

(** [checkCollision(obj1, obj2)] on the positions and radii. *)
Definition checkCollision (x1 y1 r1 x2 y2 r2 : Q) : bool :=
  let dx := x1 - x2 in
  let dy := y1 - y2 in
  let distance := sqrt (dx * dx + dy * dy) in
  Num.ltb distance (r1 + r2).

(** [Player.switchWeapon()]. *)
Definition Player_switchWeapon (gs : GameStateRec) : GameStateRec :=
  let p := player gs in
  let w := match currentWeapon p with
           | MachineGun => Pistol
           | Pistol => MachineGun
           end in
  effect (set_player gs
            (mkPlayer (p_x p) (p_y p) (p_radius p) (p_speed p) (p_health p)
                      (isInvulnerable p) (invulnerabilityTimer p) w
                      (machineGunAmmo p) (p_lastFireTime p)))
         (Message_Switch w).

(** [Player.tryToFire(targetPosition)], with [currentTime] the value of
    [Date.now()]. *)
Definition Player_tryToFire (gs : GameStateRec) (targetPosition : Q * Q)
    (currentTime : Q) : GameStateRec :=
  let p := player gs in
  let fireRate := match currentWeapon p with
                  | MachineGun => CONFIG.machineGunFireRate
                  | Pistol => CONFIG.pistolFireRate
                  end in
  if Num.geb (currentTime - p_lastFireTime p) fireRate then
    match currentWeapon p with
    | MachineGun =>
        if (machineGunAmmo p <=? 0)%Z then
          effect (set_player gs
                    (mkPlayer (p_x p) (p_y p) (p_radius p) (p_speed p)
                              (p_health p) (isInvulnerable p)
                              (invulnerabilityTimer p) Pistol
                              (machineGunAmmo p) (p_lastFireTime p)))
                 Message_OutOfAmmo
        else
          let dx := fst targetPosition - p_x p in
          let dy := snd targetPosition - p_y p in
          let direction := normalizeVector (dx, dy) in
          let gs := set_bullets gs
                      (bullets gs ++
                       [new_Bullet (p_x p + fst direction * (p_radius p + 5))
                                   (p_y p + snd direction * (p_radius p + 5))
                                   (fst direction) (snd direction)]) in
          set_player gs
            (mkPlayer (p_x p) (p_y p) (p_radius p) (p_speed p) (p_health p)
                      (isInvulnerable p) (invulnerabilityTimer p)
                      (currentWeapon p) (machineGunAmmo p - 1)%Z currentTime)
    | Pistol =>
        let dx := fst targetPosition - p_x p in
        let dy := snd targetPosition - p_y p in
        let direction := normalizeVector (dx, dy) in
        let gs := set_bullets gs
                    (bullets gs ++
                     [new_Bullet (p_x p + fst direction * (p_radius p + 5))
                                 (p_y p + snd direction * (p_radius p + 5))
                                 (fst direction) (snd direction)]) in
        set_player gs
          (mkPlayer (p_x p) (p_y p) (p_radius p) (p_speed p) (p_health p)
                    (isInvulnerable p) (invulnerabilityTimer p)
                    (currentWeapon p) (machineGunAmmo p) currentTime)
    end
  else gs.

(** [Player.takeDamage()]. *)
Definition Player_takeDamage (gs : GameStateRec) : GameStateRec :=
  let p := player gs in
  if negb (isInvulnerable p) then
    let h := (p_health p - 1)%Z in
    let gs := set_player gs
                (mkPlayer (p_x p) (p_y p) (p_radius p) (p_speed p) h true
                          CONFIG.playerInvulnerabilityTime (currentWeapon p)
                          (machineGunAmmo p) (p_lastFireTime p)) in
    if (h <=? 0)%Z then effect (set_state gs GAME_OVER) GameOverShown
    else gs
  else gs.

(** [Player.update(dt, inputManager)]. *)
Definition Player_update (gs : GameStateRec) (dt : Q) (inputManager : Input)
    (currentTime : Q) : GameStateRec :=
  let p := player gs in
  let normalizedVector := normalizeVector (moveVector inputManager) in
  let x := p_x p + fst normalizedVector * p_speed p * dt in
  let y := p_y p + snd normalizedVector * p_speed p * dt in
  let x := Num.max (p_radius p)
                   (Num.min (CONFIG.canvasWidth - p_radius p) x) in
  let y := Num.max (p_radius p)
                   (Num.min (CONFIG.canvasHeight - p_radius p) y) in
  let '(inv, timer) :=
    if isInvulnerable p then
      let timer := invulnerabilityTimer p - dt * 1000 in
      (if Num.leb timer 0 then false else true, timer)
    else (false, invulnerabilityTimer p) in
  let gs := set_player gs
              (mkPlayer x y (p_radius p) (p_speed p) (p_health p) inv timer
                        (currentWeapon p) (machineGunAmmo p)
                        (p_lastFireTime p)) in
  let gs := if switchWeapon inputManager then Player_switchWeapon gs
            else gs in
  if fire inputManager
  then Player_tryToFire gs (mousePosition inputManager) currentTime
  else gs.

Definition set_e_pos (e : Enemy) (x y : Q) : Enemy :=
  mkEnemy x y (lastDamageTime e) (e_radius e) (e_speed e) (e_health e)
          (kind e).

Definition set_e_kind (e : Enemy) (k : Kind) : Enemy :=
  mkEnemy (e_x e) (e_y e) (lastDamageTime e) (e_radius e) (e_speed e)
          (e_health e) k.

(** [Enemy.canDamagePlayer()]: the answer and the enemy afterwards. *)
Definition canDamagePlayer (e : Enemy) (currentTime : Q) : bool * Enemy :=
  if Num.geb (currentTime - lastDamageTime e)
             CONFIG.enemyContactDamageCooldown
  then (true, mkEnemy (e_x e) (e_y e) currentTime (e_radius e) (e_speed e)
                      (e_health e) (kind e))
  else (false, e).

(** [takeDamage(amount)] of the enemy classes: whether the enemy died, and
    the enemy afterwards.  [Tank] overrides it with a flash and a push
    away from the player. *)
Definition Enemy_takeDamage (e : Enemy) (amount : Z) (p : Player)
    : bool * Enemy :=
  let h := (e_health e - amount)%Z in
  match kind e with
  | Tank _ _ =>
      let dx := e_x e - p_x p in
      let dy := e_y e - p_y p in
      let direction := normalizeVector (dx, dy) in
      ((h <=? 0)%Z,
       mkEnemy (e_x e + fst direction * CONFIG.tank_knockback)
               (e_y e + snd direction * CONFIG.tank_knockback)
               (lastDamageTime e) (e_radius e) (e_speed e) h
               (Tank true CONFIG.tank_flashTime))
  | _ =>
      ((h <=? 0)%Z,
       mkEnemy (e_x e) (e_y e) (lastDamageTime e) (e_radius e) (e_speed e) h
               (kind e))
  end.

(** [Shooter.fire()], with [r] its call of [Math.random()]. *)
Definition Shooter_fire (e : Enemy) (p : Player) (r currentTime : Q)
    : EnemyBullet :=
  let dx := p_x p - e_x e in
  let dy := p_y p - e_y e in
  let angle := atan2 dy dx in
  let spreadRadians :=
    (r * CONFIG.shooter_bulletSpread * 2 - CONFIG.shooter_bulletSpread)
    * PI / 180 in
  let finalAngle := angle + spreadRadians in
  new_EnemyBullet (e_x e) (e_y e) (cos finalAngle) (sin finalAngle)
                  currentTime.

(** [update(dt)] of the three enemy classes, reading the global player:
    the enemy afterwards and the enemy bullets it pushed. *)
Definition Enemy_update (e : Enemy) (dt : Q) (p : Player) (currentTime : Q)
    (rng : Num.Rng) : Enemy * list EnemyBullet * Num.Rng :=
  match kind e with
  | Assassin =>
      let dx := p_x p - e_x e in
      let dy := p_y p - e_y e in
      let direction := normalizeVector (dx, dy) in
      (set_e_pos e (e_x e + fst direction * e_speed e * dt)
                   (e_y e + snd direction * e_speed e * dt), [], rng)
  | Shooter telegraphing telegraphTimer lastFireTime =>
      if telegraphing then
        let timer := telegraphTimer - dt * 1000 in
        if Num.leb timer 0 then
          let '(r, rng) := Num.next rng in
          (set_e_kind e (Shooter false timer currentTime),
           [Shooter_fire e p r currentTime], rng)
        else (set_e_kind e (Shooter true timer lastFireTime), [], rng)
      else if Num.geb (currentTime - lastFireTime)
                      CONFIG.shooter_fireInterval
      then (set_e_kind e (Shooter true CONFIG.shooter_telegraphTime
                                  lastFireTime), [], rng)
      else (e, [], rng)
  | Tank isFlashing flashTimer =>
      let dx := p_x p - e_x e in
      let dy := p_y p - e_y e in
      let direction := normalizeVector (dx, dy) in
      let e := set_e_pos e (e_x e + fst direction * e_speed e * dt)
                           (e_y e + snd direction * e_speed e * dt) in
      if isFlashing then
        let timer := flashTimer - dt * 1000 in
        (set_e_kind e (Tank (if Num.leb timer 0 then false else true) timer),
         [], rng)
      else (e, [], rng)
  end.

Definition Bullet_update (b : Bullet) (dt : Q) : Bullet :=
  mkBullet (b_x b + b_dirX b * b_speed b * dt)
           (b_y b + b_dirY b * b_speed b * dt)
           (b_dirX b) (b_dirY b) (b_radius b) (b_speed b).

Definition Bullet_isOutOfBounds (b : Bullet) : bool :=
  Num.ltb (b_x b) (- b_radius b)
  || Num.gtb (b_x b) (CONFIG.canvasWidth + b_radius b)
  || Num.ltb (b_y b) (- b_radius b)
  || Num.gtb (b_y b) (CONFIG.canvasHeight + b_radius b).

Definition EnemyBullet_update (b : EnemyBullet) (dt : Q) : EnemyBullet :=
  mkEnemyBullet (eb_x b + eb_dirX b * eb_speed b * dt)
                (eb_y b + eb_dirY b * eb_speed b * dt)
                (eb_dirX b) (eb_dirY b) (eb_radius b) (eb_speed b)
                (creationTime b).

Definition EnemyBullet_isExpired (b : EnemyBullet) (currentTime : Q) : bool :=
  Num.gtb (currentTime - creationTime b) CONFIG.shooter_bulletLifetime.

Definition EnemyBullet_isOutOfBounds (b : EnemyBullet) : bool :=
  Num.ltb (eb_x b) (- eb_radius b)
  || Num.gtb (eb_x b) (CONFIG.canvasWidth + eb_radius b)
  || Num.ltb (eb_y b) (- eb_radius b)
  || Num.gtb (eb_y b) (CONFIG.canvasHeight + eb_radius b).

(** [spawnEnemy()]; a side outside 0..3 leaves the coordinates undefined,
    and no enemy is added here then. *)
Definition spawnEnemy (gs : GameStateRec) (rng : Num.Rng)
    : GameStateRec * Num.Rng :=
  let '(r1, rng) := Num.next rng in
  let side := Num.floor (r1 * 4) in
  let '(pt, rng) :=
    match side with
    | 0%Z => let '(r, rng) := Num.next rng in
             (Some (r * CONFIG.canvasWidth, 0), rng)
    | 1%Z => let '(r, rng) := Num.next rng in
             (Some (CONFIG.canvasWidth, r * CONFIG.canvasHeight), rng)
    | 2%Z => let '(r, rng) := Num.next rng in
             (Some (r * CONFIG.canvasWidth, CONFIG.canvasHeight), rng)
    | 3%Z => let '(r, rng) := Num.next rng in
             (Some (0, r * CONFIG.canvasHeight), rng)
    | _ => (None, rng)
    end in
  match pt with
  | None => (gs, rng)
  | Some (x, y) =>
      let dx := x - p_x (player gs) in
      let dy := y - p_y (player gs) in
      let distanceToPlayer := sqrt (dx * dx + dy * dy) in
      if Num.ltb distanceToPlayer CONFIG.enemySpawnMinDistance
      then (gs, rng)
      else
        let '(enemyType, rng) := Num.next rng in
        let e := if Num.ltb enemyType 0.5 then new_Assassin x y
                 else if Num.ltb enemyType 0.8 then new_Shooter x y
                 else new_Tank x y in
        (set_enemies gs (enemies gs ++ [e]), rng)
  end.

(** The enemy loop of [update(dt)], over the enemies from the last index
    down ([es] is in that order); the updated enemies are returned in the
    same order. *)
Fixpoint enemiesLoop (es : list Enemy) (gs : GameStateRec) (dt : Q)
    (currentTime : Q) (rng : Num.Rng)
    : list Enemy * GameStateRec * Num.Rng :=
  match es with
  | [] => ([], gs, rng)
  | e :: rest =>
      let '(e, pushed, rng) := Enemy_update e dt (player gs) currentTime rng in
      let gs := set_enemyBullets gs (enemyBullets gs ++ pushed) in
      let p := player gs in
      let '(e, gs) :=
        if checkCollision (e_x e) (e_y e) (e_radius e)
                          (p_x p) (p_y p) (p_radius p)
        then
          let '(can, e) := canDamagePlayer e currentTime in
          if can then (e, Player_takeDamage gs) else (e, gs)
        else (e, gs) in
      let '(rest, gs, rng) := enemiesLoop rest gs dt currentTime rng in
      (e :: rest, gs, rng)
  end.

(** One bullet against the enemies from the last index down: whether it
    hit, the enemies left, and the score. *)
Fixpoint bulletVsEnemies (b : Bullet) (es : list Enemy) (p : Player)
    (score : Z) : bool * list Enemy * Z :=
  match es with
  | [] => (false, [], score)
  | e :: rest =>
      if checkCollision (b_x b) (b_y b) (b_radius b)
                        (e_x e) (e_y e) (e_radius e)
      then
        let '(enemyDied, e) := Enemy_takeDamage e 1 p in
        if enemyDied then (true, rest, (score + 1)%Z)
        else (true, e :: rest, score)
      else
        let '(hit, rest, score) := bulletVsEnemies b rest p score in
        (hit, e :: rest, score)
  end.

(** The bullet loop, over the bullets from the last index down; the
    enemies are kept in the same downward order throughout. *)
Fixpoint bulletsLoop (bs : list Bullet) (es : list Enemy) (p : Player)
    (score : Z) (dt : Q) : list Bullet * list Enemy * Z :=
  match bs with
  | [] => ([], es, score)
  | b :: rest =>
      let b := Bullet_update b dt in
      if Bullet_isOutOfBounds b then bulletsLoop rest es p score dt
      else
        let '(hit, es, score) := bulletVsEnemies b es p score in
        let '(rest, es, score) := bulletsLoop rest es p score dt in
        (if hit then rest else b :: rest, es, score)
  end.

(** The enemy bullet loop, likewise. *)
Fixpoint enemyBulletsLoop (bs : list EnemyBullet) (gs : GameStateRec)
    (dt currentTime : Q) : list EnemyBullet * GameStateRec :=
  match bs with
  | [] => ([], gs)
  | b :: rest =>
      let b := EnemyBullet_update b dt in
      if EnemyBullet_isOutOfBounds b || EnemyBullet_isExpired b currentTime
      then enemyBulletsLoop rest gs dt currentTime
      else
        let p := player gs in
        if checkCollision (eb_x b) (eb_y b) (eb_radius b)
                          (p_x p) (p_y p) (p_radius p)
        then enemyBulletsLoop rest (Player_takeDamage gs) dt currentTime
        else
          let '(rest, gs) := enemyBulletsLoop rest gs dt currentTime in
          (b :: rest, gs)
  end.

(** [update(dt)]; every clock read of one frame sees [currentTime]. *)
Definition update (gs : GameStateRec) (dt : Q) (inputManager : Input)
    (currentTime : Q) (rng : Num.Rng) : GameStateRec * Num.Rng :=
  if negb (State_eqb (currentState gs) PLAYING) then (gs, rng)
  else
    let gs := Player_update gs dt inputManager currentTime in
    let '(gs, rng) :=
      if Num.geb (currentTime - lastEnemySpawnTime gs)
                 CONFIG.enemySpawnInterval
      then let '(gs, rng) := spawnEnemy gs rng in
           (set_lastEnemySpawnTime gs currentTime, rng)
      else (gs, rng) in
    let '(es, gs, rng) :=
      enemiesLoop (rev (enemies gs)) gs dt currentTime rng in
    let gs := set_enemies gs (rev es) in
    let '(bs, es, sc) :=
      bulletsLoop (rev (bullets gs)) (rev (enemies gs)) (player gs)
                  (score gs) dt in
    let gs := set_score (set_enemies (set_bullets gs (rev bs)) (rev es)) sc in
    let '(ebs, gs) :=
      enemyBulletsLoop (rev (enemyBullets gs)) gs dt currentTime in
    (set_enemyBullets gs (rev ebs), rng).

(** [restartGame()]; the enemy bullets are not cleared. *)
Definition restartGame (gs : GameStateRec) (currentTime : Q)
    : GameStateRec :=
  effect (mkGS PLAYING
               (new_Player (CONFIG.canvasWidth / 2) (CONFIG.canvasHeight / 2))
               [] [] (enemyBullets gs) 0 currentTime (effects gs))
         GameOverHidden.

End Math.

End Monolith.

(** ** Sequences of calls *)

Module Calls.

(** Calls on the registry player. *)
Inductive RCall :=
| RUpdate (deltaTime : Q) (inputManager : Registry.Input)
          (bounds : Registry.Bounds)
| RTakeDamage (damage : Z).

(** The calls made in order, the timers in doubles: the flags the
    [takeDamage] calls returned, and the player afterwards. *)
Fixpoint rrun64 (p : Registry.Player.t) (cs : list RCall)
    : list bool * Registry.Player.t :=
  match cs with
  | [] => ([], p)
  | RUpdate dt i b :: rest => rrun64 (Registry.Player.update64 p dt i b) rest
  | RTakeDamage d :: rest =>
      let '(r, p) := Registry.Player.takeDamage64 p d in
      let '(rs, p) := rrun64 p rest in
      (r :: rs, p)
  end.

(** The frame time that passes during the calls. *)
Fixpoint relapsed (cs : list RCall) : Q :=
  match cs with
  | [] => 0
  | RUpdate dt _ _ :: rest => dt + relapsed rest
  | RTakeDamage _ :: rest => relapsed rest
  end.

Fixpoint rforward (cs : list RCall) : Prop :=
  match cs with
  | [] => True
  | RUpdate dt _ _ :: rest => 0 <= dt /\ rforward rest
  | RTakeDamage _ :: rest => rforward rest
  end.

(** The number of [update] calls among them. *)
Fixpoint rupdates (cs : list RCall) : Z :=
  match cs with
  | [] => 0
  | RUpdate _ _ _ :: rest => (1 + rupdates rest)%Z
  | RTakeDamage _ :: rest => rupdates rest
  end.

(** Calls on the modular player. *)
Inductive MCall :=
| MUpdate (dt : Q) (moveVector : Q * Q)
| MTakeDamage (amount : Z).

Fixpoint mrun64 (p : Modular.Player.t) (cs : list MCall)
    : list bool * Modular.Player.t :=
  match cs with
  | [] => ([], p)
  | MUpdate dt mv :: rest => mrun64 (Modular.Player.update64 p dt mv) rest
  | MTakeDamage d :: rest =>
      let '(r, p) := Modular.Player.takeDamage p d in
      let '(rs, p) := mrun64 p rest in
      (r :: rs, p)
  end.

Fixpoint melapsed (cs : list MCall) : Q :=
  match cs with
  | [] => 0
  | MUpdate dt _ :: rest => dt + melapsed rest
  | MTakeDamage _ :: rest => melapsed rest
  end.

Fixpoint mforward (cs : list MCall) : Prop :=
  match cs with
  | [] => True
  | MUpdate dt _ :: rest => 0 <= dt /\ mforward rest
  | MTakeDamage _ :: rest => mforward rest
  end.

Fixpoint mupdates (cs : list MCall) : Z :=
  match cs with
  | [] => 0
  | MUpdate _ _ :: rest => (1 + mupdates rest)%Z
  | MTakeDamage _ :: rest => mupdates rest
  end.

(** One call of [tryFire]: the clock and the aim. *)
Record Shot := mkShot { shot_now : Q; shot_x : Q; shot_y : Q }.

(** The calls of [tryFire] made in order on the modular player: the time
    and the result of each, and the player afterwards. *)
Fixpoint tryFire_all (sqrt : Q -> Q) (p : Modular.Player.t)
    (shots : list Shot)
    : list (Q * option Modular.Bullet.t) * Modular.Player.t :=
  match shots with
  | [] => ([], p)
  | s :: rest =>
      let '(r, p) :=
        Modular.Player.tryFire sqrt p (shot_now s) (shot_x s) (shot_y s) in
      let '(rs, p) := tryFire_all sqrt p rest in
      ((shot_now s, r) :: rs, p)
  end.

(** The times of the successful calls, in order. *)
Fixpoint successes (rs : list (Q * option Modular.Bullet.t)) : list Q :=
  match rs with
  | [] => []
  | (t, Some _) :: rest => t :: successes rest
  | (_, None) :: rest => successes rest
  end.

(** Each time of [ts] is at least [rate] after the one before it, the
    first at least [rate] after [last]. *)
Fixpoint spaced (rate last : Q) (ts : list Q) : Prop :=
  match ts with
  | [] => True
  | t :: rest => rate <= t - last /\ spaced rate t rest
  end.

(** The results of [n] successful calls followed by a failed one. *)
Definition successes_then_failure (n : nat)
    (rs : list (Q * option Modular.Bullet.t)) : Prop :=
  length rs = S n
  /\ (forall i r, (i < n)%nat -> nth_error rs i = Some r -> snd r <> None)
  /\ (forall r, nth_error rs n = Some r -> snd r = None).

(** The frame time of a sequence of ticks of the registry driver. *)
Fixpoint elapsed (tks : list Registry.Game.Tick) : Q :=
  match tks with
  | [] => 0
  | tk :: rest => Registry.Game.deltaTime tk + elapsed rest
  end.

Fixpoint forward (tks : list Registry.Game.Tick) : Prop :=
  match tks with
  | [] => True
  | tk :: rest => 0 <= Registry.Game.deltaTime tk /\ forward rest
  end.

(** The sum of the frame times. *)
Fixpoint total (dts : list Q) : Q :=
  match dts with
  | [] => 0
  | dt :: rest => dt + total rest
  end.

(** The calls [timer.update(dt)] made in order, the sums in doubles. *)
Definition timer_run64 (tm : Modular.Timer.t) (dts : list Q)
    : Modular.Timer.t :=
  fold_left Modular.Timer.update64 dts tm.

(** One call of [Weapon.fire] of the registry game: the clock, the firing
    position and the target. *)
Record RShot := mkRShot {
  rshot_now : Q;
  rshot_fromX : Q;
  rshot_fromY : Q;
  rshot_targetX : Q;
  rshot_targetY : Q
}.

(** The calls of [fire] made in order on one weapon and one projectile
    list: the time and the returned flag of each, the weapon and the list
    afterwards. *)
Fixpoint fire_all (sqrt : Q -> Q) (w : Registry.Weapon.t)
    (shots : list RShot) (projectiles : list Registry.Projectile.t)
    : list (Q * bool) * Registry.Weapon.t * list Registry.Projectile.t :=
  match shots with
  | [] => ([], w, projectiles)
  | s :: rest =>
      let '(r, w, projectiles) :=
        Registry.Weapon.fire sqrt w (rshot_now s) (rshot_fromX s)
          (rshot_fromY s) (rshot_targetX s) (rshot_targetY s) projectiles in
      let '(rs, w, projectiles) := fire_all sqrt w rest projectiles in
      ((rshot_now s, r) :: rs, w, projectiles)
  end.

(** The times of the calls that returned true, in order. *)
Fixpoint fired (rs : list (Q * bool)) : list Q :=
  match rs with
  | [] => []
  | (t, true) :: rest => t :: fired rest
  | (_, false) :: rest => fired rest
  end.

(** The calls [projectile.update(deltaTime, bounds)] of successive
    frames, the age in doubles. *)
Definition projectile_run64 (p : Registry.Projectile.t) (dts : list Q)
    (bounds : Registry.Bounds) : Registry.Projectile.t :=
  fold_left (fun p dt => Registry.Projectile.update64 p dt bounds) dts p.



Section Drivers.
Variable sqrt : Q -> Q.
Variable atan2 : Q -> Q -> Q.
Variables cos sin : Q -> Q.
Variable PI : Q.



End Drivers.

(** Keyboard events of the registry game and the weapon-switch block of
    [updatePlaying] ([getWeaponSwitch()], then [toggleWeapon()] and
    [clearWeaponSwitch()]), each with the clock it reads. *)
Inductive InputStep :=
| IKeyDown (code : Registry.KeyboardMouseProvider.Code) (now : Q)
| IKeyUp (code : Registry.KeyboardMouseProvider.Code)
| ISwitchBlock (now : Q).

(** The steps in order: the times at which [toggleWeapon()] is called, and
    the provider and the manager afterwards. *)
Fixpoint input_run (p : Registry.KeyboardMouseProvider.t)
    (im : Registry.InputManager.t) (steps : list InputStep)
    : list Q * (Registry.KeyboardMouseProvider.t * Registry.InputManager.t) :=
  match steps with
  | [] => ([], (p, im))
  | IKeyDown code now :: rest =>
      let '(p, im) :=
        Registry.KeyboardMouseProvider.handleKeyDown p im code now in
      input_run p im rest
  | IKeyUp code :: rest =>
      input_run (Registry.KeyboardMouseProvider.handleKeyUp p code) im rest
  | ISwitchBlock now :: rest =>
      if Registry.InputManager.getWeaponSwitch im then
        let '(ts, r) :=
          input_run p (Registry.InputManager.clearWeaponSwitch im now)
                    rest in
        (now :: ts, r)
      else input_run p im rest
  end.

(** The clock does not run backwards: each reading is at least the one
    before it, the first at least [c]. *)
Fixpoint clocked (c : Q) (steps : list InputStep) : Prop :=
  match steps with
  | [] => True
  | IKeyDown _ now :: rest => c <= now /\ clocked now rest
  | IKeyUp _ :: rest => clocked c rest
  | ISwitchBlock now :: rest => c <= now /\ clocked now rest
  end.

End Calls.

(** ** Predicates on states *)

Module Inv.

(** The entity's circle lies inside the bounds. *)
Definition registry_within (e : Registry.Entity.t) (b : Registry.Bounds)
    : Prop :=
  Registry.Entity.radius e <= Registry.Entity.x e
  /\ Registry.Entity.x e <= Registry.width b - Registry.Entity.radius e
  /\ Registry.Entity.radius e <= Registry.Entity.y e
  /\ Registry.Entity.y e <= Registry.height b - Registry.Entity.radius e.

(** The bounds are wide and high enough for the entity's circle. *)
Definition registry_fits (e : Registry.Entity.t) (b : Registry.Bounds)
    : Prop :=
  Registry.Entity.radius e <= Registry.width b - Registry.Entity.radius e
  /\ Registry.Entity.radius e
     <= Registry.height b - Registry.Entity.radius e.

Definition modular_within (e : Modular.Entity.t) : Prop :=
  Modular.Entity.radius e <= Modular.Entity.x e
  /\ Modular.Entity.x e
     <= Modular.CONFIG.arenaWidth - Modular.Entity.radius e
  /\ Modular.Entity.radius e <= Modular.Entity.y e
  /\ Modular.Entity.y e
     <= Modular.CONFIG.arenaHeight - Modular.Entity.radius e.

Definition modular_fits (e : Modular.Entity.t) : Prop :=
  Modular.Entity.radius e
  <= Modular.CONFIG.arenaWidth - Modular.Entity.radius e
  /\ Modular.Entity.radius e
     <= Modular.CONFIG.arenaHeight - Modular.Entity.radius e.

(** Every result of [Math.random()] lies in the interval from 0 to 1, 1
    excluded. *)
Definition unit_draws (rng : Num.Rng) : Prop :=
  forall n : nat, 0 <= Num.draws rng n /\ Num.draws rng n < 1.

(** The point lies on the rectangle inset by [margin] in the arena. *)
Definition on_inset_edge (arenaWidth arenaHeight margin : Q)
    (position : Q * Q) : Prop :=
  let '(px, py) := position in
  margin <= px /\ px <= arenaWidth - margin
  /\ margin <= py /\ py <= arenaHeight - margin
  /\ (px == margin \/ px == arenaWidth - margin
      \/ py == margin \/ py == arenaHeight - margin).

(** Where an entity of the modular game is: its centre and radius. *)
Definition modular_place (e : Modular.Entity.t) : Q * Q * Q :=
  (Modular.Entity.x e, Modular.Entity.y e, Modular.Entity.radius e).

Definition enemy_places (es : list Modular.Enemy.t) : list (Q * Q * Q) :=
  map (fun e => modular_place (Modular.Enemy.ent e)) es.

(** Where an entity of the registry game is: its centre and radius. *)
Definition registry_place (e : Registry.Entity.t) : Q * Q * Q :=
  (Registry.Entity.x e, Registry.Entity.y e, Registry.Entity.radius e).

Definition registry_enemy_places (es : list Registry.Enemy.t)
    : list (Q * Q * Q) :=
  map (fun e => registry_place (Registry.Enemy.ent e)) es.

Definition registry_projectile_places (ps : list Registry.Projectile.t)
    : list (Q * Q * Q) :=
  map (fun p => registry_place (Registry.Projectile.ent p)) ps.

(** An entity without health left is not alive. *)
Definition registry_sound (e : Registry.Entity.t) : Prop :=
  (Registry.Entity.hp e <= 0)%Z -> Registry.Entity.alive e = false.

Definition registry_sound_game (g : Registry.Game.t) : Prop :=
  registry_sound (Registry.Player.ent (Registry.Game.player g))
  /\ Forall (fun e => registry_sound (Registry.Enemy.ent e))
            (Registry.Game.enemies g).


(** The player holds the weapon that [currentWeaponKey] names. *)
Definition registry_armed (g : Registry.Game.t) : Prop :=
  Registry.Player.weapon (Registry.Game.player g)
  = Some (Registry.Game.currentWeaponKey g).

(** The point lies 50 outside one side of the registry arena, beside that
    side. *)
Definition registry_off_screen (position : Q * Q) : Prop :=
  let '(px, py) := position in
  (py == - (50) /\ 50 <= px /\ px <= Registry.ARENA_WIDTH - 50)
  \/ (px == Registry.ARENA_WIDTH + 50
      /\ 50 <= py /\ py <= Registry.ARENA_HEIGHT - 50)
  \/ (py == Registry.ARENA_HEIGHT + 50
      /\ 50 <= px /\ px <= Registry.ARENA_WIDTH - 50)
  \/ (px == - (50) /\ 50 <= py /\ py <= Registry.ARENA_HEIGHT - 50).

End Inv.

(** ** Scenarios *)

Module Scenario.

(** The calls of the C3 scenarios: two further hits within 0.7 s, and
    within 700 ms. *)
Definition C3_registry_calls : list Calls.RCall :=
  let inp := Registry.mkInput (1, 0) false false false 0 0 in
  let b := Registry.mkBounds Registry.ARENA_WIDTH Registry.ARENA_HEIGHT in
  [Calls.RUpdate 0.3 inp b; Calls.RTakeDamage 1;
   Calls.RUpdate 0.4 inp b; Calls.RTakeDamage 2].

Definition C3_modular_calls : list Calls.MCall :=
  [Calls.MUpdate 300 (1, 0); Calls.MTakeDamage 1;
   Calls.MUpdate 400 (0, 0); Calls.MTakeDamage 2].

(** C10: a player in creator mode, hit a moment ago. *)
Definition C10_player : Registry.Player.t :=
  Registry.Player.set_timers
    (Registry.Player.set_creatorMode (Registry.Player.new 600 400) true)
    Registry.PLAYER_IFRAME_DURATION 0.1.

(** C5: five calls of [tryFire] at 500, 700, 1000, 1400 and 1500 ms. *)
Definition C5_shots : list Calls.Shot :=
  [Calls.mkShot 500 700 400; Calls.mkShot 700 700 400;
   Calls.mkShot 1000 600 300; Calls.mkShot 1400 0 0;
   Calls.mkShot 1500 600 400].

(** C6: a machine gun holding 30 rounds, and 31 calls of [tryFire], one
    every 500 ms. *)
Definition C6_player : Modular.Player.t :=
  Modular.Player.new_with (Modular.Rounds 30) 600 400.

Definition C6_shots : list Calls.Shot :=
  map (fun i => Calls.mkShot (inject_Z (500 * Z.of_nat i)) 700 400)
      (seq 1 31).

(** C8: a dead player at the arena center in each implementation, and an
    enemy 500 to the left of it. *)
Definition C8_registry_player : Registry.Player.t :=
  snd (Registry.Player.takeDamage (Registry.Player.new 600 400) 3).

Definition C8_modular_game : Modular.Game.t :=
  let g := Modular.Game.new 0 in
  let p := snd (Modular.Player.takeDamage (Modular.Game.player g) 3) in
  Modular.Game.set_enemies (Modular.Game.set_player g p)
                           [Modular.Enemy.new 100 400].

Definition C8_monolith_player : Monolith.Player :=
  Monolith.mkPlayer 600 400 Monolith.CONFIG.playerRadius
                    Monolith.CONFIG.playerSpeed 0 true
                    Monolith.CONFIG.playerInvulnerabilityTime
                    Monolith.MachineGun Monolith.CONFIG.machineGunAmmo 0.

(** Stand-ins for the trigonometric functions where no shot is fired. *)
Definition flat2 (_ _ : Q) : Q := 0.
Definition flat (_ : Q) : Q := 0.
Definition rng0 : Num.Rng := Num.mkRng (fun _ => 0) 0.

(** C1: one projectile of the player overlapping two enemies. *)
Definition C1_registry_game : Registry.Game.t :=
  Registry.Game.set_projectiles
    (Registry.Game.set_enemies Registry.Game.init
       [Registry.Enemy.new_Assassin 100 100;
        Registry.Enemy.new_Assassin 105 100])
    [Registry.Projectile.new 100 100 600 0 Registry.BULLET_RADIUS 1
                             Registry.Projectile.OwnerPlayer].

(** C4: two projectiles of the player overlapping one enemy of health 1,
    in the registry and in the modular implementation. *)
Definition C4_registry_game : Registry.Game.t :=
  Registry.Game.set_projectiles
    (Registry.Game.set_enemies Registry.Game.init
       [Registry.Enemy.new_Assassin 100 100])
    [Registry.Projectile.new 100 100 600 0 Registry.BULLET_RADIUS 1
                             Registry.Projectile.OwnerPlayer;
     Registry.Projectile.new 101 100 600 0 Registry.BULLET_RADIUS 1
                             Registry.Projectile.OwnerPlayer].

Definition C4_modular_game : Modular.Game.t :=
  Modular.Game.set_bullets
    (Modular.Game.set_enemies (Modular.Game.new 0)
       [Modular.Enemy.new 100 100])
    [Modular.Bullet.new 100 100 1 0 600; Modular.Bullet.new 101 100 1 0 600].

(** Records in GAME_OVER with a dead player, built field by field rather
    than by a run.  The modular one has an enemy and a bullet in flight;
    the registry one has a projectile of the player on top of an enemy. *)
Definition C2_modular_game : Modular.Game.t :=
  let g := Modular.Game.new 0 in
  let p := snd (Modular.Player.takeDamage (Modular.Game.player g) 3) in
  let sm := Modular.GameStateMachine.setState (Modular.Game.stateMachine g)
              Modular.GAME_OVER
              (Modular.mkData (Some 0%Z) (Some 0%Z) None) 0 in
  Modular.Game.set_stateMachine
    (Modular.Game.set_bullets
       (Modular.Game.set_enemies (Modular.Game.set_player g p)
          [Modular.Enemy.new 100 400])
       [Modular.Bullet.new 600 200 1 0 600])
    sm.

Definition C2_registry_game : Registry.Game.t :=
  let g := Registry.Game.init in
  let p := snd (Registry.Player.takeDamage (Registry.Game.player g) 3) in
  let sm := Registry.GameStateMachine.setState (Registry.Game.stateMachine g)
              Registry.GAME_OVER in
  Registry.Game.set_stateMachine
    (Registry.Game.set_projectiles
       (Registry.Game.set_enemies (Registry.Game.set_player g p)
          [Registry.Enemy.new_Tank 100 100])
       [Registry.Projectile.new 100 100 600 0 Registry.BULLET_RADIUS 1
                                Registry.Projectile.OwnerPlayer])
    sm.

Definition C2_registry_tick : Registry.Game.Tick :=
  Registry.Game.mkTick (1 / 60)
    (Registry.mkInput (1, 0) true false false 0 0) 10.

(** C7: the registry game in PLAYING, the player down to 1 health and out
    of its invulnerability window, an [Assassin] on top of it; and three
    idle frames. *)
Definition C7_game : Registry.Game.t :=
  let g := Registry.Game.init in
  let p := snd (Registry.Player.takeDamage (Registry.Game.player g) 2) in
  Registry.Game.set_enemies
    (Registry.Game.set_player g (Registry.Player.set_timers p 0 0))
    [Registry.Enemy.new_Assassin 600 400].

Definition idle_tick : Registry.Game.Tick :=
  Registry.Game.mkTick (1 / 60)
    (Registry.mkInput (0, 0) false false false 0 0) 10.

Definition C7_ticks : list Registry.Game.Tick :=
  [idle_tick; idle_tick; idle_tick].

(** C9: the player at the arena center with 3 health, and a fresh [Tank]
    30 to its left, or exactly on it; the registry game with the former. *)
Definition C9_player : Registry.Player.t := Registry.Player.new 600 400.

Definition C9_tank_state : Registry.Enemy.TankState :=
  Registry.Enemy.mkTank 0 0 false 0.

Definition C9_tank_beside : Registry.Enemy.t := Registry.Enemy.new_Tank 570 400.

Definition C9_tank_on_top : Registry.Enemy.t := Registry.Enemy.new_Tank 600 400.

Definition arena : Registry.Bounds :=
  Registry.mkBounds Registry.ARENA_WIDTH Registry.ARENA_HEIGHT.

Definition C9_game : Registry.Game.t :=
  Registry.Game.set_enemies Registry.Game.init [C9_tank_beside].


(** A modular game in GAME_OVER with one enemy outside the arena and a
    stray bullet. *)
Definition over_modular_game : Modular.Game.t :=
  let g := Modular.Game.new 0 in
  let g := Modular.Game.set_enemies g [Modular.Enemy.new (-40) 900] in
  let g := Modular.Game.set_bullets g [Modular.Bullet.new 600 400 1 0 600] in
  Modular.Game.set_stateMachine g
    (Modular.GameStateMachine.setState (Modular.Game.stateMachine g)
       Modular.GAME_OVER (Modular.mkData (Some 4%Z) (Some 400%Z) None) 10).







(** C7: [Math.random()] returning 0 and 1/2 in turn, which spawns every
    enemy of the modular game at the middle of the top edge. *)
Definition C7_rng : Num.Rng :=
  Num.mkRng (fun n => if Nat.even n then 0 else 1 # 2) 0.

End Scenario.

(** * Properties *)

(** ** Comparisons *)

Lemma ltb_true (a b : Q) : Num.ltb a b = true <-> a < b.
Proof.
  unfold Num.ltb. rewrite negb_true_iff.
  destruct (Qle_bool b a) eqn:E.
  - apply Qle_bool_iff in E. split; [discriminate | lra].
  - split; [intros _ | reflexivity].
    apply Qnot_le_lt. intro H. apply Qle_bool_iff in H. congruence.
Qed.

Lemma ltb_false (a b : Q) : Num.ltb a b = false <-> b <= a.
Proof.
  unfold Num.ltb. rewrite negb_false_iff. apply Qle_bool_iff.
Qed.

Lemma gtb_true (a b : Q) : Num.gtb a b = true <-> b < a.
Proof. apply ltb_true. Qed.

Lemma gtb_false (a b : Q) : Num.gtb a b = false <-> a <= b.
Proof. apply ltb_false. Qed.

Lemma leb_true (a b : Q) : Num.leb a b = true <-> a <= b.
Proof. apply Qle_bool_iff. Qed.

Lemma leb_false (a b : Q) : Num.leb a b = false <-> b < a.
Proof.
  unfold Num.leb. destruct (Qle_bool a b) eqn:E.
  - apply Qle_bool_iff in E. split; [discriminate | lra].
  - split; [intros _ | reflexivity].
    apply Qnot_le_lt. intro H. apply Qle_bool_iff in H. congruence.
Qed.

Lemma geb_true (a b : Q) : Num.geb a b = true <-> b <= a.
Proof. apply Qle_bool_iff. Qed.

Lemma geb_false (a b : Q) : Num.geb a b = false <-> a < b.
Proof. apply leb_false. Qed.

(** Splits on every test of the goal. *)
Ltac split_ifs :=
  repeat match goal with
         | |- context [if ?c then _ else _] => destruct c
         end.

(** ** Doubles *)

Lemma pow2_pos (k : Z) : 0 < Num.pow2 k.
Proof. apply Qpower_0_lt. reflexivity. Qed.

Lemma pow2_add (a b : Z) : Num.pow2 (a + b) == Num.pow2 a * Num.pow2 b.
Proof. apply Qpower_plus. discriminate. Qed.

Lemma pow2_le (a b : Z) : (a <= b)%Z -> Num.pow2 a <= Num.pow2 b.
Proof. intros H. apply Qpower_le_compat_l; [exact H | discriminate]. Qed.

Lemma pow2_inject (n : Z) :
  (0 <= n)%Z -> Num.pow2 n == inject_Z (2 ^ n).
Proof.
  intros H. unfold Num.pow2. rewrite Zpower_Qpower by exact H. reflexivity.
Qed.

Lemma pow2_half (k : Z) : Num.pow2 (k - 1) == (1 # 2) * Num.pow2 k.
Proof.
  replace (k - 1)%Z with (k + -1)%Z by lia. rewrite pow2_add.
  unfold Num.pow2 at 2. simpl. field.
Qed.

(** Rounding to an integer moves a number by half a unit at most. *)
Lemma roundHalfEven_close (q : Q) :
  Qabs (inject_Z (Num.roundHalfEven q) - q) <= 1 # 2.
Proof.
  pose proof (Qfloor_le q) as A. pose proof (Qlt_floor q) as B.
  rewrite inject_Z_plus in B. change (inject_Z 1) with 1 in B.
  unfold Num.roundHalfEven. cbv zeta.
  apply Qabs_Qle_condition.
  destruct (Qle_bool (q - inject_Z (Qfloor q)) (1 # 2)) eqn:E1.
  - apply Qle_bool_iff in E1.
    destruct (Qle_bool (1 # 2) (q - inject_Z (Qfloor q))) eqn:E2.
    + apply Qle_bool_iff in E2.
      destruct (Z.even (Qfloor q)).
      * split; lra.
      * rewrite inject_Z_plus. change (inject_Z 1) with 1. split; lra.
    + split; lra.
  - assert (~ q - inject_Z (Qfloor q) <= 1 # 2)
      by (intros X; apply Qle_bool_iff in X; congruence).
    rewrite inject_Z_plus. change (inject_Z 1) with 1. split; lra.
Qed.

Lemma roundHalfEven_nonneg (q : Q) :
  0 <= q -> (0 <= Num.roundHalfEven q)%Z.
Proof.
  intros H.
  assert (F : (0 <= Qfloor q)%Z).
  { change 0%Z with (Qfloor 0). apply Qfloor_resp_le. exact H. }
  unfold Num.roundHalfEven. cbv zeta.
  destruct (Qle_bool _ _); [destruct (Qle_bool _ _);
    [destruct (Z.even _) |] |]; lia.
Qed.

(** Below 2 ^ k the exponent is below [k]. *)
Lemma exponent64_below (a : Q) (k : Z) :
  0 <= a -> a < Num.pow2 k -> (-1021 <= k)%Z ->
  (Num.exponent64 a <= k - 1)%Z.
Proof.
  intros H0 H1 Hk. unfold Num.exponent64.
  apply Z.max_lub; [| lia].
  assert (P := pow2_pos 1074).
  assert (N0 : (0 <= Qfloor (a * Num.pow2 1074))%Z).
  { change 0%Z with (Qfloor 0). apply Qfloor_resp_le.
    apply Qmult_le_0_compat; lra. }
  assert (N1 : (Qfloor (a * Num.pow2 1074) < 2 ^ (k + 1074))%Z).
  { rewrite Zlt_Qlt.
    apply Qle_lt_trans with (a * Num.pow2 1074); [apply Qfloor_le |].
    rewrite <- pow2_inject by lia. rewrite pow2_add.
    apply Qmult_lt_compat_r; assumption. }
  destruct (Z.eq_dec (Qfloor (a * Num.pow2 1074)) 0) as [Z0 | NZ].
  - rewrite Z0. simpl. lia.
  - apply Z.log2_lt_pow2 in N1; lia.
Qed.

Lemma round64_scaled (a : Q) (e : Z) :
  0 <= a ->
  Qabs (inject_Z (Num.roundHalfEven (a * Num.pow2 (52 - e)))
        * Num.pow2 (e - 52) - a)
  <= Num.pow2 (e - 53).
Proof.
  intros H.
  pose proof (roundHalfEven_close (a * Num.pow2 (52 - e))) as C.
  assert (P := pow2_pos (e - 52)).
  assert (U : Num.pow2 (52 - e) * Num.pow2 (e - 52) == 1).
  { rewrite <- pow2_add. replace (52 - e + (e - 52))%Z with 0%Z by lia.
    reflexivity. }
  assert (E : inject_Z (Num.roundHalfEven (a * Num.pow2 (52 - e)))
              * Num.pow2 (e - 52) - a
              == (inject_Z (Num.roundHalfEven (a * Num.pow2 (52 - e)))
                  - a * Num.pow2 (52 - e)) * Num.pow2 (e - 52)).
  { transitivity
      (inject_Z (Num.roundHalfEven (a * Num.pow2 (52 - e)))
       * Num.pow2 (e - 52)
       - a * (Num.pow2 (52 - e) * Num.pow2 (e - 52))); [rewrite U |]; ring. }
  rewrite E, Qabs_Qmult, (Qabs_pos (Num.pow2 (e - 52))) by lra.
  replace (e - 53)%Z with (e - 52 - 1)%Z by lia. rewrite pow2_half.
  apply Qmult_le_compat_r; lra.
Qed.

(** The rounding error of a number below 2 ^ k in absolute value is at
    most 2 ^ (k - 54), half the distance of the doubles just below
    2 ^ k. *)
Lemma round64_close (k : Z) (x : Q) :
  (-1021 <= k)%Z -> Qabs x < Num.pow2 k ->
  Qabs (Num.round64 x - x) <= Num.pow2 (k - 54).
Proof.
  intros Hk Hx.
  pose proof (exponent64_below (Qabs x) k (Qabs_nonneg x) Hx Hk) as He.
  pose proof (round64_scaled (Qabs x) (Num.exponent64 (Qabs x))
                (Qabs_nonneg x)) as S.
  apply Qle_trans with (Num.pow2 (Num.exponent64 (Qabs x) - 53));
    [| apply pow2_le; lia].
  unfold Num.round64. cbv zeta.
  set (r := inject_Z _ * Num.pow2 _) in *.
  destruct (Qle_bool 0 x) eqn:E.
  - apply Qle_bool_iff in E.
    assert (Y : r - x == r - Qabs x).
    { apply Qplus_comp; [reflexivity |]. apply Qopp_comp.
      symmetry. apply Qabs_pos. exact E. }
    rewrite Y. exact S.
  - assert (N : x <= 0).
    { destruct (Qlt_le_dec 0 x) as [L | L]; [| exact L].
      apply Qlt_le_weak in L. apply Qle_bool_iff in L. congruence. }
    assert (Y : - r - x == - (r - Qabs x)).
    { rewrite (Qabs_neg x N). ring. }
    rewrite Y, Qabs_opp. exact S.
Qed.

Lemma round64_nonneg (x : Q) : 0 <= x -> 0 <= Num.round64 x.
Proof.
  intros H. unfold Num.round64. cbv zeta.
  assert (E : Qle_bool 0 x = true) by (apply Qle_bool_iff; exact H).
  rewrite E.
  apply Qmult_le_0_compat; [| apply Qlt_le_weak, pow2_pos].
  change 0 with (inject_Z 0). rewrite <- Zle_Qle.
  apply roundHalfEven_nonneg.
  apply Qmult_le_0_compat; [apply Qabs_nonneg | apply Qlt_le_weak, pow2_pos].
Qed.

(** The two bounds in the form the timers use them. *)
Lemma round64_bounds (k : Z) (x : Q) :
  (-1021 <= k)%Z -> 0 <= x -> x < Num.pow2 k ->
  x - Num.pow2 (k - 54) <= Num.round64 x
  /\ Num.round64 x <= x + Num.pow2 (k - 54).
Proof.
  intros Hk H0 H1.
  assert (A : Qabs x < Num.pow2 k) by (rewrite Qabs_pos; assumption).
  pose proof (round64_close k x Hk A) as C.
  apply Qabs_Qle_condition in C. lra.
Qed.

(** ** The registry player's invulnerability window *)

Lemma registry_takeDamage_shielded (p : Registry.Player.t) (d : Z) :
  0 < Registry.Player.iframeTimer p ->
  Registry.Player.takeDamage p d = (false, p).
Proof.
  intros H. unfold Registry.Player.takeDamage.
  apply gtb_true in H. rewrite H. reflexivity.
Qed.

Lemma registry_canTakeDamage_shielded (p : Registry.Player.t) :
  0 < Registry.Player.iframeTimer p ->
  Registry.Player.canTakeDamage p = false.
Proof.
  intros H. unfold Registry.Player.canTakeDamage. now apply leb_false.
Qed.

Lemma registry_update_hp p dt inp b :
  Registry.Entity.hp (Registry.Player.ent (Registry.Player.update p dt inp b))
  = Registry.Entity.hp (Registry.Player.ent p).
Proof. unfold Registry.Player.update. split_ifs; reflexivity. Qed.

Lemma registry_update_alive p dt inp b :
  Registry.Player.isAlive (Registry.Player.update p dt inp b)
  = Registry.Player.isAlive p.
Proof. unfold Registry.Player.update. split_ifs; reflexivity. Qed.

Lemma registry_update_iframeTimer p dt inp b :
  Registry.Player.iframeTimer (Registry.Player.update p dt inp b)
  = if Num.gtb (Registry.Player.iframeTimer p) 0
    then Registry.Player.iframeTimer p - dt
    else Registry.Player.iframeTimer p.
Proof.
  unfold Registry.Player.update.
  destruct (Num.gtb (Registry.Player.iframeTimer p) 0);
    split_ifs; reflexivity.
Qed.

Lemma relapsed_nonneg (cs : list Calls.RCall) :
  Calls.rforward cs -> 0 <= Calls.relapsed cs.
Proof.
  induction cs as [| [dt i b | d] rest IH]; simpl; intros H.
  - lra.
  - destruct H as [H1 H2]. specialize (IH H2). lra.
  - auto.
Qed.

(** ** The modular player's invulnerability window *)

Lemma modular_takeDamage_shielded (p : Modular.Player.t) (a : Z) :
  Modular.Player.invulnerable p = true ->
  Modular.Player.takeDamage p a = (false, p).
Proof.
  intros H. unfold Modular.Player.takeDamage. rewrite H. reflexivity.
Qed.

Lemma modular_update_health p dt mv :
  Modular.Entity.health (Modular.Player.ent (Modular.Player.update p dt mv))
  = Modular.Entity.health (Modular.Player.ent p).
Proof. unfold Modular.Player.update. split_ifs; reflexivity. Qed.

Lemma melapsed_nonneg (cs : list Calls.MCall) :
  Calls.mforward cs -> 0 <= Calls.melapsed cs.
Proof.
  induction cs as [| [dt mv | d] rest IH]; simpl; intros H.
  - lra.
  - destruct H as [H1 H2]. specialize (IH H2). lra.
  - auto.
Qed.

(** ** The invulnerability window in doubles *)

Lemma registry_takeDamage64_shielded (p : Registry.Player.t) (d : Z) :
  0 < Registry.Player.iframeTimer p ->
  Registry.Player.takeDamage64 p d = (false, p).
Proof.
  intros H. unfold Registry.Player.takeDamage64.
  apply gtb_true in H. rewrite H. reflexivity.
Qed.

(** The double of the literal 0.8 is not below 0.8. *)
Lemma round64_iframe_duration :
  Registry.PLAYER_IFRAME_DURATION
  <= Num.round64 Registry.PLAYER_IFRAME_DURATION
  /\ Num.round64 Registry.PLAYER_IFRAME_DURATION < 1.
Proof. split; vm_compute; [discriminate | reflexivity]. Qed.

Lemma registry_takeDamage64_opens_window (p p1 : Registry.Player.t) (d : Z) :
  Registry.Player.takeDamage64 p d = (true, p1) ->
  Registry.Player.iframeTimer p1
  = Num.round64 Registry.PLAYER_IFRAME_DURATION.
Proof.
  unfold Registry.Player.takeDamage64.
  destruct (Num.gtb _ _); [discriminate |].
  destruct (Registry.Player.creatorMode p); intros H;
    inversion H; reflexivity.
Qed.

Lemma registry_update64_hp p dt inp b :
  Registry.Entity.hp
    (Registry.Player.ent (Registry.Player.update64 p dt inp b))
  = Registry.Entity.hp (Registry.Player.ent p).
Proof.
  unfold Registry.Player.update64. cbv zeta.
  cbn [Registry.Player.ent Registry.Player.set_timers].
  apply registry_update_hp.
Qed.

Lemma registry_update64_iframeTimer p dt inp b :
  Registry.Player.iframeTimer (Registry.Player.update64 p dt inp b)
  = if Num.gtb (Registry.Player.iframeTimer p) 0
    then Num.round64 (Registry.Player.iframeTimer p - dt)
    else Registry.Player.iframeTimer p.
Proof. reflexivity. Qed.

Lemma rupdates_nonneg (cs : list Calls.RCall) : (0 <= Calls.rupdates cs)%Z.
Proof.
  induction cs as [| [dt i b | d] rest IH]; cbn [Calls.rupdates]; lia.
Qed.

Lemma mupdates_nonneg (cs : list Calls.MCall) : (0 <= Calls.mupdates cs)%Z.
Proof.
  induction cs as [| [dt mv | d] rest IH]; cbn [Calls.mupdates]; lia.
Qed.

Lemma allowance_nonneg (n k : Z) :
  (0 <= n)%Z -> 0 <= inject_Z n * Num.pow2 k.
Proof.
  intros H. apply Qmult_le_0_compat.
  - change 0 with (inject_Z 0). rewrite <- Zle_Qle. exact H.
  - apply Qlt_le_weak, pow2_pos.
Qed.

(** The timer stays positive while the frame time of the calls still to
    come, with 2 ^ -53 for the rounding of each subtraction, is below
    it. *)
Lemma registry_window64_holds (cs : list Calls.RCall) :
  forall p : Registry.Player.t,
  Calls.rforward cs ->
  Calls.relapsed cs + inject_Z (Calls.rupdates cs) * Num.pow2 (-53)
  < Registry.Player.iframeTimer p ->
  Registry.Player.iframeTimer p
  + inject_Z (Calls.rupdates cs) * Num.pow2 (-53) < 2 ->
  Forall (fun r => r = false) (fst (Calls.rrun64 p cs))
  /\ Registry.Entity.hp (Registry.Player.ent (snd (Calls.rrun64 p cs)))
     = Registry.Entity.hp (Registry.Player.ent p).
Proof.
  induction cs as [| [dt i b | d] rest IH];
    cbn [Calls.rrun64 Calls.relapsed Calls.rupdates Calls.rforward];
    intros p Hf Hlt Hup.
  - split; [constructor | reflexivity].
  - destruct Hf as [Hdt Hf].
    pose proof (relapsed_nonneg rest Hf) as Hnn.
    pose proof (allowance_nonneg (Calls.rupdates rest) (-53)
                  (rupdates_nonneg rest)) as Ha.
    rewrite inject_Z_plus in Hlt, Hup. change (inject_Z 1) with 1 in *.
    pose proof (pow2_pos (-53)) as He.
    assert (Hpos : 0 < Registry.Player.iframeTimer p) by lra.
    destruct (round64_bounds 1 (Registry.Player.iframeTimer p - dt))
      as [B1 B2]; [lia | lra | change (Num.pow2 1) with 2; lra |].
    change (1 - 54)%Z with (-53)%Z in B1, B2.
    destruct (IH (Registry.Player.update64 p dt i b) Hf) as [H1 H2].
    + rewrite registry_update64_iframeTimer.
      apply gtb_true in Hpos. rewrite Hpos. lra.
    + rewrite registry_update64_iframeTimer.
      apply gtb_true in Hpos. rewrite Hpos. lra.
    + split; [exact H1 |]. rewrite H2. apply registry_update64_hp.
  - pose proof (relapsed_nonneg rest Hf) as Hnn.
    pose proof (allowance_nonneg (Calls.rupdates rest) (-53)
                  (rupdates_nonneg rest)) as Ha.
    assert (Hpos : 0 < Registry.Player.iframeTimer p) by lra.
    rewrite (registry_takeDamage64_shielded p d Hpos).
    destruct (IH p Hf Hlt Hup) as [H1 H2].
    destruct (Calls.rrun64 p rest) as [rs p'] eqn:E. simpl in *.
    split; [constructor; [reflexivity | exact H1] | exact H2].
Qed.

Lemma modular_update64_health p dt mv :
  Modular.Entity.health
    (Modular.Player.ent (Modular.Player.update64 p dt mv))
  = Modular.Entity.health (Modular.Player.ent p).
Proof.
  unfold Modular.Player.update64. cbv zeta. cbn [Modular.Player.ent].
  apply modular_update_health.
Qed.

Lemma timer_update64_running (tm : Modular.Timer.t) (dt : Q) :
  Modular.Timer.isComplete tm = false ->
  Num.round64 (Modular.Timer.elapsed tm + dt) < Modular.Timer.duration tm ->
  Modular.Timer.update64 tm dt
  = Modular.Timer.mk (Modular.Timer.duration tm)
                     (Num.round64 (Modular.Timer.elapsed tm + dt)) false.
Proof.
  intros Hc Hlt. unfold Modular.Timer.update64. rewrite Hc. simpl.
  apply geb_false in Hlt. rewrite Hlt. reflexivity.
Qed.

(** The modular timer stays short of its duration likewise, with 2 ^ -44
    for each addition (the times are milliseconds, below 1024). *)
Lemma modular_window64_holds (cs : list Calls.MCall) :
  forall p : Modular.Player.t,
  Calls.mforward cs ->
  Modular.Player.invulnerable p = true ->
  Modular.Timer.isComplete (Modular.Player.invulnerabilityTimer p) = false ->
  0 <= Modular.Timer.elapsed (Modular.Player.invulnerabilityTimer p) ->
  Modular.Timer.duration (Modular.Player.invulnerabilityTimer p) <= 1024 ->
  Modular.Timer.elapsed (Modular.Player.invulnerabilityTimer p)
  + Calls.melapsed cs + inject_Z (Calls.mupdates cs) * Num.pow2 (-44)
  < Modular.Timer.duration (Modular.Player.invulnerabilityTimer p) ->
  Forall (fun r => r = false) (fst (Calls.mrun64 p cs))
  /\ Modular.Entity.health (Modular.Player.ent (snd (Calls.mrun64 p cs)))
     = Modular.Entity.health (Modular.Player.ent p).
Proof.
  induction cs as [| [dt mv | d] rest IH];
    cbn [Calls.mrun64 Calls.melapsed Calls.mupdates Calls.mforward];
    intros p Hf Hinv Hc H0 Hd Hlt.
  - split; [constructor | reflexivity].
  - destruct Hf as [Hdt Hf].
    pose proof (melapsed_nonneg rest Hf) as Hnn.
    pose proof (allowance_nonneg (Calls.mupdates rest) (-44)
                  (mupdates_nonneg rest)) as Ha.
    rewrite inject_Z_plus in Hlt. change (inject_Z 1) with 1 in *.
    pose proof (pow2_pos (-44)) as He.
    set (tm := Modular.Player.invulnerabilityTimer p) in *.
    destruct (round64_bounds 10 (Modular.Timer.elapsed tm + dt))
      as [B1 B2]; [lia | lra | change (Num.pow2 10) with 1024; lra |].
    change (10 - 54)%Z with (-44)%Z in B1, B2.
    pose proof (round64_nonneg (Modular.Timer.elapsed tm + dt)
                  ltac:(lra)) as B0.
    assert (Hrun : Modular.Timer.update64 tm dt
                   = Modular.Timer.mk (Modular.Timer.duration tm)
                       (Num.round64 (Modular.Timer.elapsed tm + dt)) false)
      by (apply timer_update64_running; [exact Hc | lra]).
    assert (Ht : Modular.Player.invulnerabilityTimer
                   (Modular.Player.update64 p dt mv)
                 = Modular.Timer.update64 tm dt) by reflexivity.
    assert (Hi : Modular.Player.invulnerable
                   (Modular.Player.update64 p dt mv) = true).
    { unfold Modular.Player.update64. cbv zeta.
      cbn [Modular.Player.invulnerable]. fold tm. rewrite Hrun.
      exact Hinv. }
    destruct (IH (Modular.Player.update64 p dt mv) Hf Hi) as [H1 H2].
    + rewrite Ht, Hrun. reflexivity.
    + rewrite Ht, Hrun. exact B0.
    + rewrite Ht, Hrun. exact Hd.
    + rewrite Ht, Hrun.
      cbn [Modular.Timer.elapsed Modular.Timer.duration]. lra.
    + split; [exact H1 |]. rewrite H2. apply modular_update64_health.
  - rewrite (modular_takeDamage_shielded p d Hinv).
    destruct (IH p Hf Hinv Hc H0 Hd Hlt) as [H1 H2].
    destruct (Calls.mrun64 p rest) as [rs p'] eqn:E. simpl in *.
    split; [constructor; [reflexivity | exact H1] | exact H2].
Qed.

(** C3.  With the timers in doubles, in the registry and in the modular
    implementation alike: while the window is open (the timer is positive,
    the flag is set) [takeDamage] returns false and changes nothing; and
    after a successful [takeDamage], every further [takeDamage] call made
    before the frame time passed in [update] reaches the length of the
    window returns false, and the health stays what the successful call
    left.  The frame time counts with 2 ^ -53 s (registry) or 2 ^ -44 ms
    (modular) added for each [update] call, the most that the rounding of
    one subtraction or addition can shorten the window. *)
Theorem C3_invulnerability_window :
  (forall (p : Registry.Player.t) (d : Z),
     0 < Registry.Player.iframeTimer p ->
     Registry.Player.takeDamage64 p d = (false, p))
  /\
  (forall (p : Modular.Player.t) (a : Z),
     Modular.Player.invulnerable p = true ->
     Modular.Player.takeDamage p a = (false, p))
  /\
  (forall (p p1 : Registry.Player.t) (d : Z) (cs : list Calls.RCall),
     Registry.Player.takeDamage64 p d = (true, p1) ->
     Calls.rforward cs ->
     Calls.relapsed cs + inject_Z (Calls.rupdates cs) * Num.pow2 (-53)
     < Registry.PLAYER_IFRAME_DURATION ->
     Forall (fun r => r = false) (fst (Calls.rrun64 p1 cs))
     /\ Registry.Entity.hp (Registry.Player.ent (snd (Calls.rrun64 p1 cs)))
        = Registry.Entity.hp (Registry.Player.ent p1))
  /\
  (forall (p p1 : Modular.Player.t) (a : Z) (cs : list Calls.MCall),
     Modular.Timer.duration (Modular.Player.invulnerabilityTimer p)
     = Modular.CONFIG.player_invulnerabilityDuration ->
     Modular.Player.takeDamage p a = (true, p1) ->
     Calls.mforward cs ->
     Calls.melapsed cs + inject_Z (Calls.mupdates cs) * Num.pow2 (-44)
     < Modular.CONFIG.player_invulnerabilityDuration ->
     Forall (fun r => r = false) (fst (Calls.mrun64 p1 cs))
     /\ Modular.Entity.health
          (Modular.Player.ent (snd (Calls.mrun64 p1 cs)))
        = Modular.Entity.health (Modular.Player.ent p1)).
Proof.
  split; [exact registry_takeDamage64_shielded |].
  split; [exact modular_takeDamage_shielded |].
  split.
  - intros p p1 d cs Hok Hf Hlt.
    pose proof round64_iframe_duration as [R1 R2].
    pose proof (relapsed_nonneg cs Hf) as Hnn.
    apply registry_window64_holds; [exact Hf | |];
      rewrite (registry_takeDamage64_opens_window p p1 d Hok);
      unfold Registry.PLAYER_IFRAME_DURATION in *; lra.
  - intros p p1 a cs Hd Hok Hf Hlt.
    unfold Modular.Player.takeDamage in Hok.
    destruct (Modular.Player.invulnerable p); [discriminate |].
    inversion Hok; subst p1; clear Hok.
    apply modular_window64_holds;
      cbn [Modular.Player.invulnerable Modular.Player.invulnerabilityTimer
           Modular.Timer.reset Modular.Timer.isComplete
           Modular.Timer.elapsed Modular.Timer.duration];
      try reflexivity; try exact Hf; rewrite ?Hd;
      unfold Modular.CONFIG.player_invulnerabilityDuration in *; lra.
Qed.

Lemma C3_invulnerability_window_witness :
  (let p := Registry.Player.new 600 400 in
   let p1 := snd (Registry.Player.takeDamage64 p 1) in
   Registry.Player.takeDamage64 p 1 = (true, p1)
   /\ Registry.Player.takeDamage64 p1 1 = (false, p1)
   /\ fst (Calls.rrun64 p1 Scenario.C3_registry_calls) = [false; false]
   /\ Registry.Entity.hp
        (Registry.Player.ent
           (snd (Calls.rrun64 p1 Scenario.C3_registry_calls)))
      = 2%Z)
  /\
  (let p := Modular.Player.new 600 400 in
   let p1 := snd (Modular.Player.takeDamage p 1) in
   Modular.Player.takeDamage p 1 = (true, p1)
   /\ Modular.Player.takeDamage p1 1 = (false, p1)
   /\ fst (Calls.mrun64 p1 Scenario.C3_modular_calls) = [false; false]
   /\ Modular.Entity.health
        (Modular.Player.ent
           (snd (Calls.mrun64 p1 Scenario.C3_modular_calls)))
      = 2%Z).
Proof.
  destruct C3_invulnerability_window as [HR0 [HM0 [HR HM]]].
  split.
  - intros p p1.
    assert (Hok : Registry.Player.takeDamage64 p 1 = (true, p1))
      by reflexivity.
    assert (Hopen : 0 < Registry.Player.iframeTimer p1)
      by (vm_compute; reflexivity).
    assert (Hf : Calls.rforward Scenario.C3_registry_calls)
      by (simpl; repeat split; lra).
    assert (Hlt : Calls.relapsed Scenario.C3_registry_calls
                  + inject_Z (Calls.rupdates Scenario.C3_registry_calls)
                    * Num.pow2 (-53)
                  < Registry.PLAYER_IFRAME_DURATION)
      by (vm_compute; reflexivity).
    destruct (HR p p1 1%Z Scenario.C3_registry_calls Hok Hf Hlt) as [H1 H2].
    split; [exact Hok |]. split; [exact (HR0 p1 1%Z Hopen) |].
    split; [vm_compute; reflexivity | exact H2].
  - intros p p1.
    assert (Hok : Modular.Player.takeDamage p 1 = (true, p1))
      by reflexivity.
    assert (Hf : Calls.mforward Scenario.C3_modular_calls)
      by (simpl; repeat split; lra).
    assert (Hlt : Calls.melapsed Scenario.C3_modular_calls
                  + inject_Z (Calls.mupdates Scenario.C3_modular_calls)
                    * Num.pow2 (-44)
                  < Modular.CONFIG.player_invulnerabilityDuration)
      by (vm_compute; reflexivity).
    destruct (HM p p1 1%Z Scenario.C3_modular_calls eq_refl Hok Hf Hlt)
      as [H1 H2].
    split; [exact Hok |]. split; [exact (HM0 p1 1%Z eq_refl) |].
    split; [vm_compute; reflexivity | exact H2].
Defined.

(** The allowance is needed: 48 frames of the double of 1/60 s add up to
    less than 0.8 s, and leave the timer that started at the double of 0.8
    just below zero, so that the next call lands. *)
Lemma registry_window64_boundary :
  let dt := Num.round64 (1 / 60) in
  let inp := Registry.mkInput (0, 0) false false false 0 0 in
  let cs := repeat (Calls.RUpdate dt inp Scenario.arena) 48
            ++ [Calls.RTakeDamage 1] in
  let p1 := snd (Registry.Player.takeDamage64 (Registry.Player.new 600 400)
                   1) in
  Calls.relapsed cs < Registry.PLAYER_IFRAME_DURATION
  /\ fst (Calls.rrun64 p1 cs) = [true].
Proof. vm_compute. split; reflexivity. Qed.

(** ** Creator mode *)

(** C10, as stated, fails: in creator mode a hit inside the invulnerability
    window is refused, [takeDamage] returns false. *)
Lemma C10_counterexample :
  Registry.Player.creatorMode Scenario.C10_player = true
  /\ fst (Registry.Player.takeDamage Scenario.C10_player 1) = false.
Proof. split; reflexivity. Qed.

(** C10, amended.  In creator mode, outside an invulnerability window
    [takeDamage] returns true, starts the invulnerability and the flash
    timer and changes nothing else; inside a window it returns false and
    changes nothing.  The health is the same afterwards in both cases, for
    every damage amount. *)
Theorem C10_creator_mode_takeDamage
    (p : Registry.Player.t) (d : Z)
    (Hc : Registry.Player.creatorMode p = true) :
  (Registry.Player.iframeTimer p <= 0 ->
   Registry.Player.takeDamage p d
   = (true, Registry.Player.set_timers p Registry.PLAYER_IFRAME_DURATION 0.1))
  /\ (0 < Registry.Player.iframeTimer p ->
      Registry.Player.takeDamage p d = (false, p))
  /\ Registry.Entity.hp (Registry.Player.ent
                           (snd (Registry.Player.takeDamage p d)))
     = Registry.Entity.hp (Registry.Player.ent p).
Proof.
  unfold Registry.Player.takeDamage. rewrite Hc.
  destruct (Num.gtb (Registry.Player.iframeTimer p) 0) eqn:E.
  - apply gtb_true in E. repeat split; try reflexivity. intros H. lra.
  - apply gtb_false in E. repeat split; try reflexivity. intros H. lra.
Qed.

Lemma C10_creator_mode_takeDamage_witness :
  let p := Registry.Player.set_creatorMode (Registry.Player.new 600 400) true in
  Registry.Player.creatorMode p = true
  /\ Registry.Player.takeDamage p 5
     = (true, Registry.Player.set_timers p Registry.PLAYER_IFRAME_DURATION 0.1)
  /\ Registry.Entity.hp (Registry.Player.ent
                           (snd (Registry.Player.takeDamage p 5))) = 3%Z.
Proof.
  intros p.
  assert (Hc : Registry.Player.creatorMode p = true) by reflexivity.
  destruct (C10_creator_mode_takeDamage p 5%Z Hc) as [H1 [H2 H3]].
  split; [exact Hc | split; [apply H1; simpl; lra | exact H3]].
Defined.

(** ** The modular weapon *)

Lemma tryFire_failure_unchanged (sqrt : Q -> Q) (p : Modular.Player.t)
    (now x y : Q) :
  fst (Modular.Player.tryFire sqrt p now x y) = None ->
  snd (Modular.Player.tryFire sqrt p now x y) = p.
Proof.
  unfold Modular.Player.tryFire.
  destruct (Num.ltb _ _); [reflexivity |].
  destruct (Modular.ammo (Modular.Player.weapons_machineGun p)) as [| n].
  - simpl. discriminate.
  - destruct (n <=? 0)%Z; [reflexivity | simpl; discriminate].
Qed.

Lemma tryFire_success (sqrt : Q -> Q) (p : Modular.Player.t)
    (now x y : Q) (b : Modular.Bullet.t) :
  fst (Modular.Player.tryFire sqrt p now x y) = Some b ->
  let w := Modular.Player.weapons_machineGun p in
  let w' := Modular.Player.weapons_machineGun
              (snd (Modular.Player.tryFire sqrt p now x y)) in
  Modular.fireRate w <= now - Modular.lastFireTime w
  /\ Modular.lastFireTime w' = now
  /\ Modular.fireRate w' = Modular.fireRate w
  /\ Modular.ammo w' = match Modular.ammo w with
                       | Modular.Infinity => Modular.Infinity
                       | Modular.Rounds n => Modular.Rounds (n - 1)
                       end
  /\ match Modular.ammo w with
     | Modular.Infinity => True
     | Modular.Rounds n => (0 < n)%Z
     end.
Proof.
  unfold Modular.Player.tryFire.
  destruct (Num.ltb _ _) eqn:E; [discriminate |].
  apply ltb_false in E.
  destruct (Modular.ammo (Modular.Player.weapons_machineGun p)) as [| n].
  - simpl. intros _. repeat split; auto.
  - destruct (n <=? 0)%Z eqn:En; [discriminate |].
    apply Z.leb_gt in En. simpl. intros _. repeat split; auto.
Qed.

Lemma tryFire_all_spaced (sqrt : Q -> Q) (shots : list Calls.Shot) :
  forall p : Modular.Player.t,
  Calls.spaced (Modular.fireRate (Modular.Player.weapons_machineGun p))
               (Modular.lastFireTime (Modular.Player.weapons_machineGun p))
               (Calls.successes (fst (Calls.tryFire_all sqrt p shots))).
Proof.
  induction shots as [| s rest IH]; intros p; simpl; [exact I |].
  pose proof (tryFire_failure_unchanged sqrt p (Calls.shot_now s)
                (Calls.shot_x s) (Calls.shot_y s)) as Hfail.
  pose proof (tryFire_success sqrt p (Calls.shot_now s)
                (Calls.shot_x s) (Calls.shot_y s)) as Hok.
  destruct (Modular.Player.tryFire sqrt p (Calls.shot_now s)
              (Calls.shot_x s) (Calls.shot_y s)) as [r p1].
  specialize (IH p1).
  destruct (Calls.tryFire_all sqrt p1 rest) as [rs p2]. simpl in *.
  destruct r as [b |].
  - destruct (Hok b eq_refl) as [H1 [H2 [H3 _]]].
    simpl. split; [exact H1 |]. rewrite <- H2, <- H3. exact IH.
  - rewrite (Hfail eq_refl) in IH. exact IH.
Qed.

Lemma spaced_adjacent (rate : Q) (l1 : list Q) :
  forall (last t t' : Q) (l2 : list Q),
  Calls.spaced rate last (l1 ++ t :: t' :: l2) -> rate <= t' - t.
Proof.
  induction l1 as [| a l1 IH]; simpl; intros last t t' l2 H.
  - tauto.
  - destruct H as [_ H]. exact (IH _ _ _ _ H).
Qed.

(** C5.  For every sequence of [tryFire] calls on a player's weapon, with
    whatever clock readings and aims: two consecutive successful calls are
    at least the weapon's fire rate apart (and the first comes at least
    that long after the weapon's last fire), and a call that returns
    [null] leaves the player, the weapon's ammunition and time stamp
    included, as it was. *)
Theorem C5_fire_rate_gate (sqrt : Q -> Q) (p : Modular.Player.t)
    (shots : list Calls.Shot) :
  let w := Modular.Player.weapons_machineGun p in
  let times := Calls.successes (fst (Calls.tryFire_all sqrt p shots)) in
  (forall (l1 l2 : list Q) (t t' : Q),
     times = l1 ++ t :: t' :: l2 -> Modular.fireRate w <= t' - t)
  /\ Calls.spaced (Modular.fireRate w) (Modular.lastFireTime w) times
  /\ (forall (q : Modular.Player.t) (now x y : Q),
        fst (Modular.Player.tryFire sqrt q now x y) = None ->
        snd (Modular.Player.tryFire sqrt q now x y) = q).
Proof.
  intros w times.
  pose proof (tryFire_all_spaced sqrt shots p) as H.
  split; [| split].
  - intros l1 l2 t t' E. fold w in H. fold times in H. rewrite E in H.
    exact (spaced_adjacent _ _ _ _ _ _ H).
  - exact H.
  - intros q now x y. apply tryFire_failure_unchanged.
Qed.

Lemma C5_fire_rate_gate_witness :
  let p := Modular.Player.new 600 400 in
  Calls.successes (fst (Calls.tryFire_all Num.sqrt6 p Scenario.C5_shots))
  = [] ++ 500 :: 1000 :: [1500]
  /\ Modular.fireRate (Modular.Player.weapons_machineGun p) <= 1000 - 500
  /\ fst (Modular.Player.tryFire Num.sqrt6 p 100 0 0) = None
  /\ snd (Modular.Player.tryFire Num.sqrt6 p 100 0 0) = p.
Proof.
  intros p.
  destruct (C5_fire_rate_gate Num.sqrt6 p Scenario.C5_shots)
    as [H1 [_ H3]].
  assert (E : Calls.successes
                (fst (Calls.tryFire_all Num.sqrt6 p Scenario.C5_shots))
              = [] ++ 500 :: 1000 :: [1500]) by reflexivity.
  assert (F : fst (Modular.Player.tryFire Num.sqrt6 p 100 0 0) = None)
    by reflexivity.
  split; [exact E | split; [exact (H1 [] [1500] 500 1000 E) | split]].
  - exact F.
  - exact (H3 p 100 0 0 F).
Defined.

Lemma tryFire_empty (sqrt : Q -> Q) (p : Modular.Player.t) (now x y : Q) :
  Modular.ammo (Modular.Player.weapons_machineGun p) = Modular.Rounds 0 ->
  Modular.Player.tryFire sqrt p now x y = (None, p).
Proof.
  intros H. unfold Modular.Player.tryFire. rewrite H.
  destruct (Num.ltb _ _); reflexivity.
Qed.

Lemma tryFire_loaded (sqrt : Q -> Q) (p : Modular.Player.t) (now x y : Q)
    (n : Z) :
  Modular.ammo (Modular.Player.weapons_machineGun p) = Modular.Rounds n ->
  (0 < n)%Z ->
  Modular.fireRate (Modular.Player.weapons_machineGun p)
  <= now - Modular.lastFireTime (Modular.Player.weapons_machineGun p) ->
  exists b : Modular.Bullet.t,
    fst (Modular.Player.tryFire sqrt p now x y) = Some b
    /\ let w := Modular.Player.weapons_machineGun
                  (snd (Modular.Player.tryFire sqrt p now x y)) in
       Modular.ammo w = Modular.Rounds (n - 1)
       /\ Modular.lastFireTime w = now
       /\ Modular.fireRate w
          = Modular.fireRate (Modular.Player.weapons_machineGun p).
Proof.
  intros Ha Hn Hrate. unfold Modular.Player.tryFire. rewrite Ha.
  apply ltb_false in Hrate. rewrite Hrate.
  apply Z.leb_gt in Hn. rewrite Hn. simpl.
  eexists. split; [reflexivity | repeat split].
Qed.

Lemma tryFire_all_exhausts (sqrt : Q -> Q) (n : nat) :
  forall (shots : list Calls.Shot) (p : Modular.Player.t),
  Modular.ammo (Modular.Player.weapons_machineGun p)
  = Modular.Rounds (Z.of_nat n) ->
  length shots = S n ->
  Calls.spaced (Modular.fireRate (Modular.Player.weapons_machineGun p))
               (Modular.lastFireTime (Modular.Player.weapons_machineGun p))
               (map Calls.shot_now (firstn n shots)) ->
  Calls.successes_then_failure n (fst (Calls.tryFire_all sqrt p shots))
  /\ Modular.ammo (Modular.Player.weapons_machineGun
                     (snd (Calls.tryFire_all sqrt p shots)))
     = Modular.Rounds 0.
Proof.
  induction n as [| n IH]; intros shots p Ha Hlen Hsp.
  - destruct shots as [| s [| s' rest]]; try discriminate. simpl.
    rewrite (tryFire_empty sqrt p _ _ _ Ha). simpl.
    split; [| exact Ha].
    split; [reflexivity | split].
    + intros i r Hi. lia.
    + intros r H. inversion H. reflexivity.
  - destruct shots as [| s rest]; [discriminate |].
    simpl in Hlen. injection Hlen as Hlen.
    simpl in Hsp. destruct Hsp as [Hrate Hsp].
    destruct (tryFire_loaded sqrt p (Calls.shot_now s) (Calls.shot_x s)
                (Calls.shot_y s) (Z.of_nat (S n)) Ha ltac:(lia) Hrate)
      as [b [Hb [Hw1 [Hw2 Hw3]]]].
    simpl.
    destruct (Modular.Player.tryFire sqrt p (Calls.shot_now s)
                (Calls.shot_x s) (Calls.shot_y s)) as [r p1].
    cbn [fst snd] in Hb, Hw1, Hw2, Hw3. subst r.
    assert (Ha1 : Modular.ammo (Modular.Player.weapons_machineGun p1)
                  = Modular.Rounds (Z.of_nat n))
      by (rewrite Hw1; f_equal; lia).
    rewrite <- Hw2, <- Hw3 in Hsp.
    destruct (IH rest p1 Ha1 Hlen Hsp) as [[L [Hs Hf]] Hz].
    destruct (Calls.tryFire_all sqrt p1 rest) as [rs p2]. simpl in *.
    split; [| exact Hz].
    split; [simpl; congruence | split].
    + intros i r Hi Hr. destruct i as [| i]; simpl in Hr.
      * inversion Hr. simpl. discriminate.
      * apply (Hs i r); [lia | exact Hr].
    + intros r Hr. simpl in Hr. exact (Hf r Hr).
Qed.

(** C6.  For a machine gun holding 30 rounds and 31 calls of [tryFire],
    the first 30 of them spaced by at least the fire rate: each of the
    first 30 returns a bullet, the 31st returns [null], and the ammunition
    left is 0. *)
Theorem C6_machine_gun_exhaustion (sqrt : Q -> Q) (p : Modular.Player.t)
    (shots : list Calls.Shot)
    (Hammo : Modular.ammo (Modular.Player.weapons_machineGun p)
             = Modular.Rounds 30)
    (Hlen : length shots = 31%nat)
    (Hspaced :
       Calls.spaced
         (Modular.fireRate (Modular.Player.weapons_machineGun p))
         (Modular.lastFireTime (Modular.Player.weapons_machineGun p))
         (map Calls.shot_now (firstn 30 shots))) :
  Calls.successes_then_failure 30 (fst (Calls.tryFire_all sqrt p shots))
  /\ Modular.ammo (Modular.Player.weapons_machineGun
                     (snd (Calls.tryFire_all sqrt p shots)))
     = Modular.Rounds 0.
Proof.
  exact (tryFire_all_exhausts sqrt 30 shots p Hammo Hlen Hspaced).
Qed.

(** Closes a conjunction of comparisons of rational constants. *)
Ltac spaced_constants :=
  vm_compute;
  repeat match goal with
         | |- _ /\ _ => split
         | |- _ -> False => discriminate
         | |- True => exact I
         end.

Lemma C6_machine_gun_exhaustion_witness :
  Calls.successes_then_failure 30
    (fst (Calls.tryFire_all Num.sqrt6 Scenario.C6_player Scenario.C6_shots))
  /\ Modular.ammo (Modular.Player.weapons_machineGun
                     (snd (Calls.tryFire_all Num.sqrt6 Scenario.C6_player
                                             Scenario.C6_shots)))
     = Modular.Rounds 0.
Proof.
  apply (C6_machine_gun_exhaustion Num.sqrt6 Scenario.C6_player
                                   Scenario.C6_shots).
  - reflexivity.
  - reflexivity.
  - spaced_constants.
Defined.

(** ** The registry collision pass and the player *)

Lemma registry_takeDamage_no_revival (p : Registry.Player.t) (d : Z) :
  Registry.Player.isAlive (snd (Registry.Player.takeDamage p d)) = true ->
  Registry.Player.isAlive p = true.
Proof.
  unfold Registry.Player.takeDamage.
  destruct (Num.gtb _ _); [auto |].
  destruct (Registry.Player.creatorMode p); [auto |].
  unfold Registry.Player.isAlive, Registry.Entity.isAlive,
         Registry.Entity.takeDamage.
  simpl. destruct (_ <=? 0)%Z; simpl; [discriminate | auto].
Qed.

Lemma collidePlayerEnemies_shielded (sqrt : Q -> Q)
    (es : list Registry.Enemy.t) (p : Registry.Player.t) :
  0 < Registry.Player.iframeTimer p ->
  Registry.Game.collidePlayerEnemies sqrt p es = p.
Proof.
  intros H. induction es as [| e rest IH]; simpl; [reflexivity |].
  rewrite (registry_canTakeDamage_shielded p H).
  destruct (Registry.CollisionSystem.checkCircleCollision _ _ _); exact IH.
Qed.

Lemma collidePlayerEnemies_no_revival (sqrt : Q -> Q)
    (es : list Registry.Enemy.t) :
  forall p : Registry.Player.t,
  Registry.Player.isAlive (Registry.Game.collidePlayerEnemies sqrt p es)
  = true ->
  Registry.Player.isAlive p = true.
Proof.
  induction es as [| e rest IH]; simpl; intros p H; [exact H |].
  apply IH in H.
  destruct (Registry.CollisionSystem.checkCircleCollision _ _ _);
    [| exact H].
  destruct (Registry.Player.canTakeDamage p); [| exact H].
  exact (registry_takeDamage_no_revival _ _ H).
Qed.

Lemma collideProjectilesPlayer_shielded (sqrt : Q -> Q)
    (ps : list Registry.Projectile.t) (p : Registry.Player.t) :
  0 < Registry.Player.iframeTimer p ->
  Registry.Game.collideProjectilesPlayer sqrt ps p = (ps, p).
Proof.
  intros H. induction ps as [| pr rest IH]; simpl; [reflexivity |].
  rewrite (registry_canTakeDamage_shielded p H).
  destruct (negb _ && negb _);
    [destruct (Registry.CollisionSystem.checkCircleCollision _ _ _) |];
    rewrite IH; reflexivity.
Qed.

Lemma collideProjectilesPlayer_no_revival (sqrt : Q -> Q)
    (ps : list Registry.Projectile.t) :
  forall p : Registry.Player.t,
  Registry.Player.isAlive
    (snd (Registry.Game.collideProjectilesPlayer sqrt ps p)) = true ->
  Registry.Player.isAlive p = true.
Proof.
  induction ps as [| pr rest IH]; simpl; intros p H; [exact H |].
  destruct (negb _ && negb _).
  - destruct (Registry.CollisionSystem.checkCircleCollision _ _ _).
    + destruct (Registry.Player.canTakeDamage p).
      * destruct (Registry.Game.collideProjectilesPlayer sqrt rest _)
          as [rest' p'] eqn:E.
        simpl in H. apply (registry_takeDamage_no_revival p
                             (Registry.Projectile.damage pr)).
        apply IH. rewrite E. exact H.
      * destruct (Registry.Game.collideProjectilesPlayer sqrt rest p)
          as [rest' p'] eqn:E.
        simpl in H. apply IH. rewrite E. exact H.
    + destruct (Registry.Game.collideProjectilesPlayer sqrt rest p)
        as [rest' p'] eqn:E.
      simpl in H. apply IH. rewrite E. exact H.
  - destruct (Registry.Game.collideProjectilesPlayer sqrt rest p)
      as [rest' p'] eqn:E.
    simpl in H. apply IH. rewrite E. exact H.
Qed.

(** What [handleCollisions] does to each part of the game. *)
Lemma handleCollisions_player (sqrt : Q -> Q) (g : Registry.Game.t) :
  Registry.Game.player (Registry.Game.handleCollisions sqrt g)
  = snd (Registry.Game.collideProjectilesPlayer sqrt
           (fst (fst (Registry.Game.collideProjectilesEnemies sqrt
                        (Registry.Game.projectiles g)
                        (Registry.Game.enemies g)
                        (Registry.Game.killCount g))))
           (Registry.Game.collidePlayerEnemies sqrt
              (Registry.Game.player g) (Registry.Game.enemies g))).
Proof.
  unfold Registry.Game.handleCollisions. simpl.
  destruct (Registry.Game.collideProjectilesEnemies _ _ _ _)
    as [[ps es] k].
  simpl. destruct (Registry.Game.collideProjectilesPlayer _ _ _).
  reflexivity.
Qed.

Lemma handleCollisions_frame (sqrt : Q -> Q) (g : Registry.Game.t) :
  Registry.Game.stateMachine (Registry.Game.handleCollisions sqrt g)
  = Registry.Game.stateMachine g
  /\ Registry.Game.ui (Registry.Game.handleCollisions sqrt g)
     = Registry.Game.ui g.
Proof.
  unfold Registry.Game.handleCollisions. simpl.
  destruct (Registry.Game.collideProjectilesEnemies _ _ _ _)
    as [[ps es] k].
  simpl. destruct (Registry.Game.collideProjectilesPlayer _ _ _).
  split; reflexivity.
Qed.

Lemma handleCollisions_shielded (sqrt : Q -> Q) (g : Registry.Game.t) :
  0 < Registry.Player.iframeTimer (Registry.Game.player g) ->
  Registry.Game.player (Registry.Game.handleCollisions sqrt g)
  = Registry.Game.player g.
Proof.
  intros H. rewrite handleCollisions_player.
  rewrite (collidePlayerEnemies_shielded sqrt _ _ H).
  rewrite (collideProjectilesPlayer_shielded sqrt _ _ H). reflexivity.
Qed.

Lemma handleCollisions_no_revival (sqrt : Q -> Q) (g : Registry.Game.t) :
  Registry.Player.isAlive (Registry.Game.player g) = false ->
  Registry.Player.isAlive
    (Registry.Game.player (Registry.Game.handleCollisions sqrt g)) = false.
Proof.
  intros H. rewrite handleCollisions_player.
  apply not_true_is_false. intros A.
  apply collideProjectilesPlayer_no_revival in A.
  apply collidePlayerEnemies_no_revival in A. congruence.
Qed.

(** ** Enemy updates in the registry implementation *)

Lemma update_Tank_shielded (sqrt : Q -> Q) (e : Registry.Enemy.t)
    (k : Registry.Enemy.TankState) (dt : Q) (p : Registry.Player.t)
    (b : Registry.Bounds) :
  0 < Registry.Player.iframeTimer p ->
  snd (Registry.Enemy.update_Tank sqrt e k dt p b) = p.
Proof.
  intros H. unfold Registry.Enemy.update_Tank.
  destruct (negb (Registry.Player.isAlive p)); [reflexivity |].
  rewrite (registry_canTakeDamage_shielded p H), andb_false_r.
  reflexivity.
Qed.

Lemma Enemy_update_shielded (sqrt : Q -> Q) (atan2 : Q -> Q -> Q)
    (cos sin : Q -> Q) (PI : Q) (e : Registry.Enemy.t) (dt : Q)
    (p : Registry.Player.t) (b : Registry.Bounds)
    (ps : list Registry.Projectile.t) (rng : Num.Rng) :
  0 < Registry.Player.iframeTimer p ->
  snd (fst (fst (Registry.Enemy.update sqrt atan2 cos sin PI e dt p b ps
                                        rng))) = p.
Proof.
  intros H. unfold Registry.Enemy.update.
  destruct (Registry.Enemy.kind e) as [| s | k].
  - reflexivity.
  - destruct (Registry.Enemy.update_Shooter _ _ _ _ _ _ _ _ _ _ _ _)
      as [[e' ps'] rng'].
    reflexivity.
  - pose proof (update_Tank_shielded sqrt e k dt p b H) as E.
    destruct (Registry.Enemy.update_Tank sqrt e k dt p b) as [e' p'].
    simpl in *. exact E.
Qed.

Lemma updateEnemies_shielded (sqrt : Q -> Q) (atan2 : Q -> Q -> Q)
    (cos sin : Q -> Q) (PI : Q) (dt : Q) (p : Registry.Player.t)
    (b : Registry.Bounds) (es : list Registry.Enemy.t) :
  0 < Registry.Player.iframeTimer p ->
  forall (ps : list Registry.Projectile.t) (rng : Num.Rng),
  snd (fst (fst (Registry.Game.updateEnemies sqrt atan2 cos sin PI es dt p b
                                            ps rng))) = p.
Proof.
  intros H. induction es as [| e rest IH]; intros ps rng; simpl;
    [reflexivity |].
  pose proof (Enemy_update_shielded sqrt atan2 cos sin PI e dt p b ps rng H)
    as E.
  destruct (Registry.Enemy.update sqrt atan2 cos sin PI e dt p b ps rng)
    as [[[e' p'] ps'] rng'].
  simpl in E. subst p'.
  specialize (IH ps' rng').
  destruct (Registry.Game.updateEnemies sqrt atan2 cos sin PI rest dt p b
              ps' rng') as [[[rest' p''] ps''] rng''].
  simpl in *. exact IH.
Qed.

(** C8, as stated, fails outside the registry implementation: with the
    player dead, the [Assassin] of the single-file implementation and the
    enemy of the modular one still move toward the player. *)
Lemma C8_counterexample :
  (Monolith.p_health Scenario.C8_monolith_player = 0%Z
   /\ Monolith.e_x
        (fst (fst (Monolith.Enemy_update Num.sqrt6 Scenario.flat2
                     Scenario.flat Scenario.flat 0
                     (Monolith.new_Assassin 100 400) 1
                     Scenario.C8_monolith_player 0 Scenario.rng0)))
      == 300)
  /\
  (Modular.Entity.active
     (Modular.Player.ent (Modular.Game.player Scenario.C8_modular_game))
   = false
   /\ map (fun e => Qred (Modular.Entity.x (Modular.Enemy.ent e)))
          (Modular.Game.enemies
             (Modular.Game.updateEnemies Num.sqrt6 Scenario.C8_modular_game
                                         1000))
      = [250]).
Proof. repeat split; vm_compute; reflexivity. Qed.

(** C8, amended.  In the registry implementation, for each of its enemy
    classes ([Assassin], [Shooter], [Tank]): when the player is not alive,
    [update] returns the enemy as it was (position, velocity, timers and
    state), leaves the player as it was, and adds no projectile. *)
Theorem C8_registry_enemies_freeze
    (sqrt : Q -> Q) (atan2 : Q -> Q -> Q) (cos sin : Q -> Q) (PI : Q)
    (e : Registry.Enemy.t) (dt : Q) (player : Registry.Player.t)
    (bounds : Registry.Bounds) (projectiles : list Registry.Projectile.t)
    (rng : Num.Rng)
    (Hdead : Registry.Player.isAlive player = false) :
  Registry.Enemy.update sqrt atan2 cos sin PI e dt player bounds
                        projectiles rng
  = (e, player, projectiles, rng).
Proof.
  unfold Registry.Enemy.update.
  destruct (Registry.Enemy.kind e) as [| s | k].
  - unfold Registry.Enemy.update_Assassin. rewrite Hdead. reflexivity.
  - unfold Registry.Enemy.update_Shooter. rewrite Hdead. reflexivity.
  - unfold Registry.Enemy.update_Tank. rewrite Hdead. reflexivity.
Qed.

Lemma C8_registry_enemies_freeze_witness :
  let b := Registry.mkBounds Registry.ARENA_WIDTH Registry.ARENA_HEIGHT in
  Registry.Player.isAlive Scenario.C8_registry_player = false
  /\ Forall
       (fun e =>
          Registry.Enemy.update Num.sqrt6 Scenario.flat2 Scenario.flat
            Scenario.flat 3 e 0.5 Scenario.C8_registry_player b []
            Scenario.rng0
          = (e, Scenario.C8_registry_player, [], Scenario.rng0))
       [Registry.Enemy.new_Assassin 100 400;
        Registry.Enemy.new_Shooter 100 400;
        Registry.Enemy.new_Tank 100 400].
Proof.
  intros b.
  assert (Hdead : Registry.Player.isAlive Scenario.C8_registry_player
                  = false) by reflexivity.
  split; [exact Hdead |].
  pose proof (fun e => C8_registry_enemies_freeze Num.sqrt6 Scenario.flat2
                Scenario.flat Scenario.flat 3 e 0.5
                Scenario.C8_registry_player b [] Scenario.rng0 Hdead) as F.
  apply Forall_cons; [exact (F _) |].
  apply Forall_cons; [exact (F _) |].
  apply Forall_cons; [exact (F _) | apply Forall_nil].
Defined.

(** ** Collision passes at the failing inputs *)

(** C1.  The registry collision pass at one projectile of the player that
    overlaps two enemies: the loop over the enemies does not stop at the
    first hit, both enemies take the projectile's damage and both are
    counted as kills. *)
Theorem C1_projectile_damages_two_enemies :
  let g := Scenario.C1_registry_game in
  let g' := Registry.Game.handleCollisions Num.sqrt6 g in
  length (Registry.Game.projectiles g) = 1%nat
  /\ map (fun e => Registry.Entity.hp (Registry.Enemy.ent e))
         (Registry.Game.enemies g) = [1%Z; 1%Z]
  /\ map (fun e => Registry.Entity.hp (Registry.Enemy.ent e))
         (Registry.Game.enemies g') = [0%Z; 0%Z]
  /\ map Registry.Projectile.isAlive (Registry.Game.projectiles g')
     = [false]
  /\ Registry.Game.killCount g' = 2%Z.
Proof. repeat split; vm_compute; reflexivity. Qed.

(** C4.  The collision passes of the registry and of the modular
    implementation at two projectiles of the player that overlap one enemy
    of health 1: the enemy, dead after the first hit and not yet culled, is
    hit again and counted as a kill a second time. *)
Theorem C4_dead_enemy_counted_twice :
  (let g := Scenario.C4_registry_game in
   let g' := Registry.Game.handleCollisions Num.sqrt6 g in
   Registry.Game.killCount g = 0%Z
   /\ length (Registry.Game.enemies g) = 1%nat
   /\ map (fun e => Registry.Entity.hp (Registry.Enemy.ent e))
          (Registry.Game.enemies g') = [(-1)%Z]
   /\ Registry.Game.killCount g' = 2%Z)
  /\
  (let g := Scenario.C4_modular_game in
   let g' := Modular.Game.handleCollisions Num.sqrt6 g in
   let kills h := Modular.PlayingState.killCount
                    (Modular.GameStateMachine.playing
                       (Modular.Game.stateMachine h)) in
   kills g = 0%Z
   /\ length (Modular.Game.enemies g) = 1%nat
   /\ map (fun e => Modular.Entity.health (Modular.Enemy.ent e))
          (Modular.Game.enemies g') = [(-1)%Z]
   /\ kills g' = 2%Z).
Proof. repeat split; vm_compute; reflexivity. Qed.

(** A tick on records in GAME_OVER that no run of the drivers leads to,
    built by writing the fields.  The modular [Game.update] keeps
    simulating: the player follows the move vector, the enemy and the
    bullet move.  The registry [update] still runs the collision pass: the
    enemy under the player's projectile loses health on every tick, the
    projectile is never culled, and the kills are counted.  So what a tick
    in GAME_OVER leaves alone depends on how the drivers get there. *)
Lemma game_over_tick_off_the_runs :
  (let g := Scenario.C2_modular_game in
   Modular.GameStateMachine.currentState (Modular.Game.stateMachine g)
   = Modular.GAME_OVER
   /\ exists g' rng',
        Modular.Game.update Num.sqrt6 1 g 100 (Some (1, 0)) 5 Scenario.rng0
        = Some (g', rng')
        /\ map (fun b => Qred (Modular.Entity.x (Modular.Bullet.ent b)))
               (Modular.Game.bullets g) = [600]
        /\ map (fun b => Qred (Modular.Entity.x (Modular.Bullet.ent b)))
               (Modular.Game.bullets g') = [660]
        /\ map (fun e => Qred (Modular.Entity.x (Modular.Enemy.ent e)))
               (Modular.Game.enemies g) = [100]
        /\ map (fun e => Qred (Modular.Entity.x (Modular.Enemy.ent e)))
               (Modular.Game.enemies g') = [115]
        /\ Qred (Modular.Entity.x (Modular.Player.ent
                                     (Modular.Game.player g'))) = 630)
  /\
  (let g := Scenario.C2_registry_game in
   let step h :=
     fst (Registry.Game.update Num.sqrt6 Scenario.flat2 Scenario.flat
            Scenario.flat 3 h Scenario.C2_registry_tick Scenario.rng0) in
   let hps h := map (fun e => Registry.Entity.hp (Registry.Enemy.ent e))
                    (Registry.Game.enemies h) in
   Registry.GameStateMachine.currentState (Registry.Game.stateMachine g)
   = Registry.GAME_OVER
   /\ hps g = [3%Z]
   /\ hps (step g) = [2%Z]
   /\ hps (step (step (step (step g)))) = [(-1)%Z]
   /\ Registry.Game.killCount (step (step (step (step g)))) = 2%Z
   /\ length (Registry.Game.projectiles (step (step (step (step g)))))
      = 1%nat).
Proof.
  split.
  - split; [reflexivity |].
    destruct (Modular.Game.update Num.sqrt6 1 Scenario.C2_modular_game 100
                (Some (1, 0)) 5 Scenario.rng0) as [[g' rng'] |] eqn:E;
      [| vm_compute in E; discriminate E].
    exists g', rng'. split; [reflexivity |].
    assert (G : Some (g', rng')
                = Modular.Game.update Num.sqrt6 1 Scenario.C2_modular_game
                    100 (Some (1, 0)) 5 Scenario.rng0)
      by (symmetry; exact E).
    vm_compute in G. injection G as G1 G2. subst g'.
    repeat split; vm_compute; reflexivity.
  - repeat split; vm_compute; reflexivity.
Qed.

(** ** What the blocks of [updatePlaying] leave alone *)

(** Splits on every case analysis of the goal, then compares. *)
Ltac by_cases :=
  repeat match goal with
         | |- context [match ?x with _ => _ end] => destruct x
         end;
  try reflexivity.

Lemma updatePlayer_frame (g : Registry.Game.t) (tk : Registry.Game.Tick) :
  let g' := Registry.Game.updatePlayer g tk in
  Registry.Game.stateMachine g' = Registry.Game.stateMachine g
  /\ Registry.Game.ui g' = Registry.Game.ui g
  /\ Registry.Entity.hp (Registry.Player.ent (Registry.Game.player g'))
     = Registry.Entity.hp (Registry.Player.ent (Registry.Game.player g))
  /\ Registry.Player.isAlive (Registry.Game.player g')
     = Registry.Player.isAlive (Registry.Game.player g)
  /\ Registry.Player.iframeTimer (Registry.Game.player g')
     = if Num.gtb (Registry.Player.iframeTimer (Registry.Game.player g)) 0
       then Registry.Player.iframeTimer (Registry.Game.player g)
            - Registry.Game.deltaTime tk
       else Registry.Player.iframeTimer (Registry.Game.player g).
Proof.
  unfold Registry.Game.updatePlayer. cbn [Registry.Game.stateMachine
    Registry.Game.ui Registry.Game.player Registry.Game.set_player].
  rewrite registry_update_hp, registry_update_alive,
          registry_update_iframeTimer.
  repeat split.
Qed.

Lemma handleFiring_frame (sqrt : Q -> Q) (g : Registry.Game.t)
    (tk : Registry.Game.Tick) :
  let g' := Registry.Game.handleFiring sqrt g tk in
  Registry.Game.stateMachine g' = Registry.Game.stateMachine g
  /\ Registry.Game.ui g' = Registry.Game.ui g
  /\ Registry.Game.player g' = Registry.Game.player g.
Proof.
  unfold Registry.Game.handleFiring, Registry.Game.player_fire.
  destruct (Registry.fire _); [| repeat split].
  destruct (Registry.Player.weapon _) as [k |]; [| repeat split].
  destruct (Registry.Weapon.fire _ _ _ _ _ _ _ _) as [[ok w] ps].
  destruct k; repeat split.
Qed.

Lemma handleWeaponSwitch_frame (g : Registry.Game.t)
    (tk : Registry.Game.Tick) :
  let g' := Registry.Game.handleWeaponSwitch g tk in
  Registry.Game.stateMachine g' = Registry.Game.stateMachine g
  /\ Registry.Entity.hp (Registry.Player.ent (Registry.Game.player g'))
     = Registry.Entity.hp (Registry.Player.ent (Registry.Game.player g))
  /\ Registry.Player.isAlive (Registry.Game.player g')
     = Registry.Player.isAlive (Registry.Game.player g)
  /\ Registry.Player.iframeTimer (Registry.Game.player g')
     = Registry.Player.iframeTimer (Registry.Game.player g).
Proof.
  unfold Registry.Game.handleWeaponSwitch, Registry.Game.toggleWeapon.
  destruct (Registry.switchWeapon _); repeat split.
Qed.

Lemma handleCreatorModeToggle_frame (g : Registry.Game.t)
    (tk : Registry.Game.Tick) :
  let g' := Registry.Game.handleCreatorModeToggle g tk in
  Registry.Game.stateMachine g' = Registry.Game.stateMachine g
  /\ Registry.Game.ui g' = Registry.Game.ui g
  /\ Registry.Game.player g' = Registry.Game.player g.
Proof.
  unfold Registry.Game.handleCreatorModeToggle,
         Registry.Game.toggleCreatorMode,
         Registry.Game.applyCreatorModeModifications,
         Registry.Game.revertCreatorModeModifications.
  cbn [Registry.Game.creatorMode Registry.Game.set_creatorMode
       Registry.Game.originalPistolFireRate].
  by_cases; repeat split.
Qed.

Lemma spawnEnemy_frame (sqrt : Q -> Q) (g : Registry.Game.t)
    (rng : Num.Rng) :
  let g' := fst (Registry.Game.spawnEnemy sqrt g rng) in
  Registry.Game.stateMachine g' = Registry.Game.stateMachine g
  /\ Registry.Game.ui g' = Registry.Game.ui g
  /\ Registry.Game.player g' = Registry.Game.player g.
Proof.
  unfold Registry.Game.spawnEnemy.
  destruct (Num.next rng) as [r1 rng1].
  destruct (Num.next rng1) as [r2 rng2].
  destruct (Num.next rng2) as [r3 rng3].
  destruct (if _ : bool then _ else _) as [pt rng4].
  destruct (Registry.Game.enemyClass _) as [c |]; [| repeat split].
  destruct pt as [[x y] |]; repeat split.
Qed.

Lemma spawnEnemies_frame (sqrt : Q -> Q) (g : Registry.Game.t)
    (tk : Registry.Game.Tick) (rng : Num.Rng) :
  let g' := fst (Registry.Game.spawnEnemies sqrt g tk rng) in
  Registry.Game.stateMachine g' = Registry.Game.stateMachine g
  /\ Registry.Game.ui g' = Registry.Game.ui g
  /\ Registry.Game.player g' = Registry.Game.player g.
Proof.
  unfold Registry.Game.spawnEnemies.
  destruct (Num.geb _ _); [| repeat split].
  pose proof (spawnEnemy_frame sqrt
                (Registry.Game.set_enemySpawnTimer g
                   (Registry.Game.enemySpawnTimer g
                    + Registry.Game.deltaTime tk)) rng) as H.
  destruct (Registry.Game.spawnEnemy sqrt _ rng) as [g1 rng1].
  simpl in *. exact H.
Qed.

Lemma updateAllEnemies_frame (sqrt : Q -> Q) (atan2 : Q -> Q -> Q)
    (cos sin : Q -> Q) (PI : Q) (g : Registry.Game.t)
    (tk : Registry.Game.Tick) (rng : Num.Rng) :
  let g' := fst (Registry.Game.updateAllEnemies sqrt atan2 cos sin PI g tk
                                                rng) in
  Registry.Game.stateMachine g' = Registry.Game.stateMachine g
  /\ Registry.Game.ui g' = Registry.Game.ui g
  /\ (0 < Registry.Player.iframeTimer (Registry.Game.player g) ->
      Registry.Game.player g' = Registry.Game.player g).
Proof.
  unfold Registry.Game.updateAllEnemies.
  pose proof (fun H => updateEnemies_shielded sqrt atan2 cos sin PI
                (Registry.Game.deltaTime tk) (Registry.Game.player g)
                (Registry.mkBounds Registry.ARENA_WIDTH
                                   Registry.ARENA_HEIGHT)
                (Registry.Game.enemies g) H
                (Registry.Game.projectiles g) rng) as S.
  destruct (Registry.Game.updateEnemies _ _ _ _ _ _ _ _ _ _ _)
    as [[[es p] ps] rng'].
  simpl in *. repeat split. exact S.
Qed.

Lemma updateProjectiles_frame (g : Registry.Game.t)
    (tk : Registry.Game.Tick) :
  let g' := Registry.Game.updateProjectiles g tk in
  Registry.Game.stateMachine g' = Registry.Game.stateMachine g
  /\ Registry.Game.ui g' = Registry.Game.ui g
  /\ Registry.Game.player g' = Registry.Game.player g.
Proof. repeat split. Qed.

Lemma removeDead_frame (g : Registry.Game.t) :
  let g' := Registry.Game.removeDead g in
  Registry.Game.stateMachine g' = Registry.Game.stateMachine g
  /\ Registry.Game.ui g' = Registry.Game.ui g
  /\ Registry.Game.player g' = Registry.Game.player g.
Proof. repeat split. Qed.

(** ** One tick of the registry driver *)

Lemma checkGameOver_player (g : Registry.Game.t) :
  Registry.Game.player (Registry.Game.checkGameOver g)
  = Registry.Game.player g.
Proof.
  unfold Registry.Game.checkGameOver.
  destruct (negb _); reflexivity.
Qed.

Lemma checkGameOverCondition_player (g : Registry.Game.t) :
  Registry.Game.player (Registry.Game.checkGameOverCondition g)
  = Registry.Game.player g.
Proof.
  unfold Registry.Game.checkGameOverCondition.
  destruct (negb _ && _); reflexivity.
Qed.

(** [updatePlaying] is its simulation blocks followed by the check; the
    blocks leave the state machine alone, and a player inside its
    invulnerability window only ages. *)
Lemma updatePlaying_shape (sqrt : Q -> Q) (atan2 : Q -> Q -> Q)
    (cos sin : Q -> Q) (PI : Q) (g : Registry.Game.t)
    (tk : Registry.Game.Tick) (rng : Num.Rng) :
  exists g0 : Registry.Game.t,
    fst (Registry.Game.updatePlaying sqrt atan2 cos sin PI g tk rng)
    = Registry.Game.checkGameOver g0
    /\ Registry.Game.stateMachine g0 = Registry.Game.stateMachine g
    /\ (0 <= Registry.Game.deltaTime tk ->
        Registry.Game.deltaTime tk
        < Registry.Player.iframeTimer (Registry.Game.player g) ->
        Registry.Entity.hp (Registry.Player.ent (Registry.Game.player g0))
        = Registry.Entity.hp (Registry.Player.ent (Registry.Game.player g))
        /\ Registry.Player.iframeTimer (Registry.Game.player g0)
           = Registry.Player.iframeTimer (Registry.Game.player g)
             - Registry.Game.deltaTime tk).
Proof.
  unfold Registry.Game.updatePlaying. cbv zeta.
  destruct (updatePlayer_frame g tk) as [A1 [_ [A3 [_ A5]]]].
  remember (Registry.Game.updatePlayer g tk) as g1 eqn:E1.
  destruct (handleFiring_frame sqrt g1 tk) as [B1 [_ B3]].
  remember (Registry.Game.handleFiring sqrt g1 tk) as g2 eqn:E2.
  destruct (handleWeaponSwitch_frame g2 tk) as [C1 [C2 [_ C4]]].
  remember (Registry.Game.handleWeaponSwitch g2 tk) as g3 eqn:E3.
  destruct (handleCreatorModeToggle_frame g3 tk) as [D1 [_ D3]].
  remember (Registry.Game.handleCreatorModeToggle g3 tk) as g4 eqn:E4.
  destruct (spawnEnemies_frame sqrt g4 tk rng) as [F1 [_ F3]].
  destruct (Registry.Game.spawnEnemies sqrt g4 tk rng) as [g5 rng5].
  destruct (updateAllEnemies_frame sqrt atan2 cos sin PI g5 tk rng5)
    as [G1 [_ G3]].
  destruct (Registry.Game.updateAllEnemies sqrt atan2 cos sin PI g5 tk rng5)
    as [g6 rng6].
  cbn [fst snd] in *.
  destruct (updateProjectiles_frame g6 tk) as [H1 [_ H3]].
  remember (Registry.Game.updateProjectiles g6 tk) as g7 eqn:E7.
  destruct (handleCollisions_frame sqrt g7) as [I1 _].
  pose proof (handleCollisions_shielded sqrt g7) as I3.
  remember (Registry.Game.handleCollisions sqrt g7) as g8 eqn:E8.
  destruct (removeDead_frame g8) as [J1 [_ J3]].
  exists (Registry.Game.removeDead g8).
  split; [reflexivity |].
  split; [congruence |].
  intros Hdt Hlt.
  assert (P : 0 < Registry.Player.iframeTimer (Registry.Game.player g))
    by lra.
  apply gtb_true in P. rewrite P in A5.
  assert (Q5 : Registry.Player.iframeTimer (Registry.Game.player g5)
               = Registry.Player.iframeTimer (Registry.Game.player g)
                 - Registry.Game.deltaTime tk) by congruence.
  assert (R5 : Registry.Entity.hp
                 (Registry.Player.ent (Registry.Game.player g5))
               = Registry.Entity.hp
                   (Registry.Player.ent (Registry.Game.player g)))
    by congruence.
  assert (S5 : 0 < Registry.Player.iframeTimer (Registry.Game.player g5))
    by (rewrite Q5; lra).
  specialize (G3 S5).
  assert (S7 : 0 < Registry.Player.iframeTimer (Registry.Game.player g7))
    by (rewrite H3, G3; exact S5).
  specialize (I3 S7).
  rewrite J3, I3, H3, G3. split; assumption.
Qed.

Lemma setState_leaves_playing (sm : Registry.GameStateMachine.t) :
  Registry.GameStateMachine.currentState sm = Registry.PLAYING ->
  Registry.GameStateMachine.setState sm Registry.GAME_OVER
  = Registry.GameStateMachine.mk Registry.GAME_OVER (Some Registry.PLAYING)
      (Registry.GameStateMachine.emitted sm
       ++ [(Registry.PLAYING, Registry.GAME_OVER)]).
Proof.
  intros H. unfold Registry.GameStateMachine.setState. rewrite H.
  reflexivity.
Qed.

(** A tick that starts in PLAYING ends with the machine untouched if the
    player is alive at its end, and moved to GAME_OVER by one transition
    if not. *)
Lemma checkGameOver_cases (g0 : Registry.Game.t) :
  Registry.GameStateMachine.currentState (Registry.Game.stateMachine g0)
  = Registry.PLAYING ->
  Registry.Game.stateMachine (Registry.Game.checkGameOver g0)
  = if Registry.Player.isAlive (Registry.Game.player g0)
    then Registry.Game.stateMachine g0
    else Registry.GameStateMachine.setState (Registry.Game.stateMachine g0)
                                            Registry.GAME_OVER.
Proof.
  intros HP. unfold Registry.Game.checkGameOver.
  destruct (Registry.Player.isAlive (Registry.Game.player g0));
    reflexivity.
Qed.

Lemma checkGameOverCondition_cases (g : Registry.Game.t) :
  Registry.Game.stateMachine (Registry.Game.checkGameOverCondition g)
  = if negb (Registry.Player.isAlive (Registry.Game.player g))
       && Registry.GameState_eqb
            (Registry.GameStateMachine.currentState
               (Registry.Game.stateMachine g)) Registry.PLAYING
    then Registry.GameStateMachine.setState (Registry.Game.stateMachine g)
                                            Registry.GAME_OVER
    else Registry.Game.stateMachine g.
Proof.
  unfold Registry.Game.checkGameOverCondition,
         Registry.GameStateMachine.getState.
  destruct (negb _ && _); reflexivity.
Qed.

Lemma update_in_playing (sqrt : Q -> Q) (atan2 : Q -> Q -> Q)
    (cos sin : Q -> Q) (PI : Q) (g : Registry.Game.t)
    (tk : Registry.Game.Tick) (rng : Num.Rng) :
  Registry.GameStateMachine.currentState (Registry.Game.stateMachine g)
  = Registry.PLAYING ->
  fst (Registry.Game.update sqrt atan2 cos sin PI g tk rng)
  = Registry.Game.checkGameOverCondition
      (Registry.Game.handleCollisions sqrt
         (fst (Registry.Game.updatePlaying sqrt atan2 cos sin PI g tk rng))).
Proof.
  intros HP. unfold Registry.Game.update,
                    Registry.GameStateMachine.getState.
  rewrite HP.
  destruct (Registry.Game.updatePlaying sqrt atan2 cos sin PI g tk rng).
  reflexivity.
Qed.

Lemma update_from_playing (sqrt : Q -> Q) (atan2 : Q -> Q -> Q)
    (cos sin : Q -> Q) (PI : Q) (g : Registry.Game.t)
    (tk : Registry.Game.Tick) (rng : Num.Rng) :
  Registry.GameStateMachine.currentState (Registry.Game.stateMachine g)
  = Registry.PLAYING ->
  let g' := fst (Registry.Game.update sqrt atan2 cos sin PI g tk rng) in
  Registry.Game.stateMachine g'
  = if Registry.Player.isAlive (Registry.Game.player g')
    then Registry.Game.stateMachine g
    else Registry.GameStateMachine.setState (Registry.Game.stateMachine g)
                                            Registry.GAME_OVER.
Proof.
  intros HP. cbv zeta.
  rewrite (update_in_playing sqrt atan2 cos sin PI g tk rng HP).
  destruct (updatePlaying_shape sqrt atan2 cos sin PI g tk rng)
    as [g0 [E [SM _]]].
  remember (fst (Registry.Game.updatePlaying sqrt atan2 cos sin PI g tk
                                             rng)) as g1 eqn:E1.
  assert (HP0 : Registry.GameStateMachine.currentState
                  (Registry.Game.stateMachine g0) = Registry.PLAYING)
    by (rewrite SM; exact HP).
  pose proof (checkGameOver_cases g0 HP0) as K.
  pose proof (checkGameOver_player g0) as KP.
  rewrite <- E in K, KP. clear E.
  destruct (handleCollisions_frame sqrt g1) as [F _].
  pose proof (handleCollisions_no_revival sqrt g1) as NR.
  remember (Registry.Game.handleCollisions sqrt g1) as g2 eqn:E2.
  rewrite checkGameOverCondition_player, checkGameOverCondition_cases.
  rewrite F, K.
  destruct (Registry.Player.isAlive (Registry.Game.player g0)) eqn:A0.
  - rewrite HP0. cbn [Registry.GameState_eqb]. rewrite andb_true_r.
    rewrite SM.
    destruct (Registry.Player.isAlive (Registry.Game.player g2));
      reflexivity.
  - rewrite KP in NR. rewrite (NR A0).
    rewrite (setState_leaves_playing _ HP0).
    cbn [negb andb Registry.GameStateMachine.currentState
         Registry.GameState_eqb].
    rewrite SM. symmetry. apply setState_leaves_playing. exact HP.
Qed.

(** A tick that starts in GAME_OVER is the collision pass alone. *)
Lemma update_from_game_over (sqrt : Q -> Q) (atan2 : Q -> Q -> Q)
    (cos sin : Q -> Q) (PI : Q) (g : Registry.Game.t)
    (tk : Registry.Game.Tick) (rng : Num.Rng) :
  Registry.GameStateMachine.currentState (Registry.Game.stateMachine g)
  = Registry.GAME_OVER ->
  Registry.Game.update sqrt atan2 cos sin PI g tk rng
  = (Registry.Game.handleCollisions sqrt g, rng).
Proof.
  intros HG. unfold Registry.Game.update.
  unfold Registry.GameStateMachine.getState at 1. rewrite HG.
  unfold Registry.Game.updateGameOver,
         Registry.Game.checkGameOverCondition.
  destruct (handleCollisions_frame sqrt g) as [F _].
  unfold Registry.GameStateMachine.getState. rewrite F, HG.
  cbn [Registry.GameState_eqb]. rewrite andb_false_r. reflexivity.
Qed.

Lemma run_from_game_over (sqrt : Q -> Q) (atan2 : Q -> Q -> Q)
    (cos sin : Q -> Q) (PI : Q) (tks : list Registry.Game.Tick) :
  forall (g : Registry.Game.t) (rng : Num.Rng),
  Registry.GameStateMachine.currentState (Registry.Game.stateMachine g)
  = Registry.GAME_OVER ->
  let g' := fst (Registry.Game.run sqrt atan2 cos sin PI g tks rng) in
  Registry.Game.stateMachine g' = Registry.Game.stateMachine g
  /\ Registry.Game.ui g' = Registry.Game.ui g
  /\ (Registry.Player.isAlive (Registry.Game.player g) = false ->
      Registry.Player.isAlive (Registry.Game.player g') = false).
Proof.
  induction tks as [| tk rest IH]; intros g rng HG; simpl.
  - repeat split; auto.
  - rewrite (update_from_game_over sqrt atan2 cos sin PI g tk rng HG).
    destruct (handleCollisions_frame sqrt g) as [F U].
    destruct (IH (Registry.Game.handleCollisions sqrt g) rng
                 ltac:(rewrite F; exact HG)) as [H1 [H2 H3]].
    split; [congruence | split; [congruence |]].
    intros D. apply H3. apply handleCollisions_no_revival. exact D.
Qed.

(** ** The transition to GAME_OVER *)

Lemma registry_GameState_eqb_refl (s : Registry.GameState) :
  Registry.GameState_eqb s s = true.
Proof. destruct s; reflexivity. Qed.

Lemma modular_GameState_eqb_refl (s : Modular.GameState) :
  Modular.GameState_eqb s s = true.
Proof. destruct s; reflexivity. Qed.

Lemma run_from_playing (sqrt : Q -> Q) (atan2 : Q -> Q -> Q)
    (cos sin : Q -> Q) (PI : Q) (tks : list Registry.Game.Tick) :
  forall (g : Registry.Game.t) (rng : Num.Rng),
  Registry.GameStateMachine.currentState (Registry.Game.stateMachine g)
  = Registry.PLAYING ->
  Registry.Player.isAlive (Registry.Game.player g) = true ->
  let g' := fst (Registry.Game.run sqrt atan2 cos sin PI g tks rng) in
  Registry.Game.stateMachine g'
  = if Registry.Player.isAlive (Registry.Game.player g')
    then Registry.Game.stateMachine g
    else Registry.GameStateMachine.setState (Registry.Game.stateMachine g)
                                            Registry.GAME_OVER.
Proof.
  induction tks as [| tk rest IH]; intros g rng HP HA; cbv zeta.
  - simpl. rewrite HA. reflexivity.
  - simpl.
    pose proof (update_from_playing sqrt atan2 cos sin PI g tk rng HP) as U.
    cbv zeta in U.
    destruct (Registry.Game.update sqrt atan2 cos sin PI g tk rng)
      as [g1 rng1].
    cbn [fst] in U.
    destruct (Registry.Player.isAlive (Registry.Game.player g1)) eqn:A1.
    + specialize (IH g1 rng1 ltac:(rewrite U; exact HP) A1).
      cbv zeta in IH. rewrite IH, U. reflexivity.
    + assert (HG : Registry.GameStateMachine.currentState
                     (Registry.Game.stateMachine g1) = Registry.GAME_OVER)
        by (rewrite U, (setState_leaves_playing _ HP); reflexivity).
      destruct (run_from_game_over sqrt atan2 cos sin PI rest g1 rng1 HG)
        as [R1 [_ R3]].
      rewrite (R3 A1), R1. exact U.
Qed.

(** ** Tank contact *)

Lemma update_not_playing (sqrt : Q -> Q) (atan2 : Q -> Q -> Q)
    (cos sin : Q -> Q) (PI : Q) (g : Registry.Game.t)
    (tk : Registry.Game.Tick) (rng : Num.Rng) :
  Registry.GameStateMachine.currentState (Registry.Game.stateMachine g)
  <> Registry.PLAYING ->
  fst (Registry.Game.update sqrt atan2 cos sin PI g tk rng)
  = Registry.Game.checkGameOverCondition
      (Registry.Game.handleCollisions sqrt g).
Proof.
  intros HN. unfold Registry.Game.update,
                    Registry.GameStateMachine.getState,
                    Registry.Game.updateGameOver.
  destruct (Registry.GameStateMachine.currentState
              (Registry.Game.stateMachine g));
    try reflexivity.
  contradiction.
Qed.

(** Inside the invulnerability window a tick costs the player no health,
    and takes at most the frame time off the window. *)
Lemma update_shielded (sqrt : Q -> Q) (atan2 : Q -> Q -> Q)
    (cos sin : Q -> Q) (PI : Q) (g : Registry.Game.t)
    (tk : Registry.Game.Tick) (rng : Num.Rng) :
  0 <= Registry.Game.deltaTime tk ->
  Registry.Game.deltaTime tk
  < Registry.Player.iframeTimer (Registry.Game.player g) ->
  let g' := fst (Registry.Game.update sqrt atan2 cos sin PI g tk rng) in
  Registry.Entity.hp (Registry.Player.ent (Registry.Game.player g'))
  = Registry.Entity.hp (Registry.Player.ent (Registry.Game.player g))
  /\ Registry.Player.iframeTimer (Registry.Game.player g)
     - Registry.Game.deltaTime tk
     <= Registry.Player.iframeTimer (Registry.Game.player g').
Proof.
  intros Hdt Hlt. cbv zeta.
  destruct (Registry.GameStateMachine.currentState
              (Registry.Game.stateMachine g)) eqn:ST.
  1, 2, 4, 5, 6:
    rewrite (update_not_playing sqrt atan2 cos sin PI g tk rng)
      by (rewrite ST; discriminate);
    rewrite checkGameOverCondition_player;
    rewrite (handleCollisions_shielded sqrt g) by lra;
    split; [reflexivity | lra].
  rewrite (update_in_playing sqrt atan2 cos sin PI g tk rng ST).
  rewrite checkGameOverCondition_player.
  destruct (updatePlaying_shape sqrt atan2 cos sin PI g tk rng)
    as [g0 [E [_ V]]].
  destruct (V Hdt Hlt) as [V1 V2].
  rewrite E.
  rewrite handleCollisions_shielded;
    rewrite checkGameOver_player; [| rewrite V2; lra].
  split; [exact V1 | rewrite V2; lra].
Qed.

Lemma elapsed_nonneg (tks : list Registry.Game.Tick) :
  Calls.forward tks -> 0 <= Calls.elapsed tks.
Proof.
  induction tks as [| tk rest IH]; simpl; intros H.
  - lra.
  - destruct H as [H1 H2]. specialize (IH H2). lra.
Qed.

Lemma run_shielded (sqrt : Q -> Q) (atan2 : Q -> Q -> Q)
    (cos sin : Q -> Q) (PI : Q) (tks : list Registry.Game.Tick) :
  forall (g : Registry.Game.t) (rng : Num.Rng),
  Calls.forward tks ->
  Calls.elapsed tks < Registry.Player.iframeTimer (Registry.Game.player g) ->
  Registry.Entity.hp
    (Registry.Player.ent
       (Registry.Game.player
          (fst (Registry.Game.run sqrt atan2 cos sin PI g tks rng))))
  = Registry.Entity.hp (Registry.Player.ent (Registry.Game.player g)).
Proof.
  induction tks as [| tk rest IH]; intros g rng Hf Hlt; simpl;
    [reflexivity |].
  simpl in Hf, Hlt. destruct Hf as [Hdt Hf].
  pose proof (elapsed_nonneg rest Hf) as Hnn.
  destruct (update_shielded sqrt atan2 cos sin PI g tk rng Hdt
              ltac:(lra)) as [U1 U2].
  destruct (Registry.Game.update sqrt atan2 cos sin PI g tk rng)
    as [g1 rng1].
  cbn [fst] in *.
  rewrite (IH g1 rng1 Hf) by lra. exact U1.
Qed.

Lemma dealContactDamage_spec (sqrt : Q -> Q) (e : Registry.Enemy.t)
    (k : Registry.Enemy.TankState) (p : Registry.Player.t) :
  Registry.Player.creatorMode p = false ->
  Registry.Player.iframeTimer p <= 0 ->
  let r := Registry.Enemy.dealContactDamage sqrt e k p in
  let ex := Registry.Entity.x (Registry.Enemy.ent e) in
  let ey := Registry.Entity.y (Registry.Enemy.ent e) in
  let px := Registry.Entity.x (Registry.Player.ent p) in
  let py := Registry.Entity.y (Registry.Player.ent p) in
  let d := Registry.Utils.distance sqrt ex ey px py in
  let n := Registry.Utils.normalize sqrt (px - ex) (py - ey) in
  Registry.Enemy.ent (fst r) = Registry.Enemy.ent e
  /\ Registry.Enemy.kind (fst r)
     = Registry.Enemy.Tank
         (Registry.Enemy.mkTank Registry.TANK_CONTACT_COOLDOWN
            (Registry.Enemy.flashTimer k) (Registry.Enemy.isFlashing k)
            (Registry.Enemy.lastContactTime k))
  /\ Registry.Entity.hp (Registry.Player.ent (snd r))
     = (Registry.Entity.hp (Registry.Player.ent p) - 1)%Z
  /\ Registry.Player.iframeTimer (snd r) = Registry.PLAYER_IFRAME_DURATION
  /\ (0 < d ->
      Registry.Entity.x (Registry.Player.ent (snd r))
      = px + fst n * Registry.TANK_KNOCKBACK
      /\ Registry.Entity.y (Registry.Player.ent (snd r))
         = py + snd n * Registry.TANK_KNOCKBACK)
  /\ (d <= 0 ->
      Registry.Entity.x (Registry.Player.ent (snd r)) = px
      /\ Registry.Entity.y (Registry.Player.ent (snd r)) = py).
Proof.
  intros HC HI. cbv zeta.
  unfold Registry.Enemy.dealContactDamage, Registry.Player.takeDamage.
  apply gtb_false in HI. rewrite HI, HC.
  cbn [snd fst Registry.Enemy.ent Registry.Enemy.set_kind
       Registry.Player.ent Registry.Player.set_timers
       Registry.Player.set_ent].
  assert (PX : Registry.Entity.x
                 (Registry.Entity.takeDamage (Registry.Player.ent p) 1)
               = Registry.Entity.x (Registry.Player.ent p))
    by (unfold Registry.Entity.takeDamage; simpl;
        destruct (_ <=? 0)%Z; reflexivity).
  assert (PY : Registry.Entity.y
                 (Registry.Entity.takeDamage (Registry.Player.ent p) 1)
               = Registry.Entity.y (Registry.Player.ent p))
    by (unfold Registry.Entity.takeDamage; simpl;
        destruct (_ <=? 0)%Z; reflexivity).
  assert (PH : Registry.Entity.hp
                 (Registry.Entity.takeDamage (Registry.Player.ent p) 1)
               = (Registry.Entity.hp (Registry.Player.ent p) - 1)%Z)
    by (unfold Registry.Entity.takeDamage; simpl;
        destruct (_ <=? 0)%Z; reflexivity).
  rewrite PX, PY.
  remember (Registry.Utils.distance sqrt
              (Registry.Entity.x (Registry.Enemy.ent e))
              (Registry.Entity.y (Registry.Enemy.ent e))
              (Registry.Entity.x (Registry.Player.ent p))
              (Registry.Entity.y (Registry.Player.ent p))) as d eqn:Ed.
  destruct (Num.gtb d 0) eqn:G;
    [apply gtb_true in G | apply gtb_false in G];
    cbn [snd fst Registry.Enemy.ent Registry.Enemy.kind
         Registry.Enemy.set_kind Registry.Player.ent
         Registry.Player.iframeTimer Registry.Player.set_timers
         Registry.Player.set_ent Registry.Entity.x Registry.Entity.y
         Registry.Entity.hp Registry.Entity.set_pos];
    rewrite ?PH, ?PX, ?PY;
    repeat split; try reflexivity; intros; lra.
Qed.

(** [Tank.update] on a living player: the Tank steers and is clamped, then
    makes its contact test. *)
Lemma update_Tank_shape (sqrt : Q -> Q) (e : Registry.Enemy.t)
    (k : Registry.Enemy.TankState) (dt : Q) (p : Registry.Player.t)
    (b : Registry.Bounds) :
  Registry.Player.isAlive p = true ->
  exists (em : Registry.Enemy.t) (k' : Registry.Enemy.TankState),
    Registry.Enemy.update_Tank sqrt e k dt p b
    = (if Num.leb (Registry.Enemy.contactCooldown k - dt) 0
          && Registry.Player.canTakeDamage p
       then
         if Num.ltb
              (Registry.Utils.distance sqrt
                 (Registry.Entity.x (Registry.Enemy.ent em))
                 (Registry.Entity.y (Registry.Enemy.ent em))
                 (Registry.Entity.x (Registry.Player.ent p))
                 (Registry.Entity.y (Registry.Player.ent p)))
              (Registry.Entity.radius (Registry.Enemy.ent em)
               + Registry.Entity.radius (Registry.Player.ent p))
         then Registry.Enemy.dealContactDamage sqrt em k' p
         else (em, p)
       else (em, p)).
Proof.
  intros HA. unfold Registry.Enemy.update_Tank. rewrite HA.
  cbn [negb]. cbv zeta.
  eexists. eexists. reflexivity.
Qed.

Lemma update_Tank_contact (sqrt : Q -> Q) (e : Registry.Enemy.t)
    (k : Registry.Enemy.TankState) (dt : Q) (p : Registry.Player.t)
    (b : Registry.Bounds) :
  Registry.Player.isAlive p = true ->
  Registry.Player.creatorMode p = false ->
  Registry.Player.iframeTimer p <= 0 ->
  Registry.Enemy.contactCooldown k - dt <= 0 ->
  let r := Registry.Enemy.update_Tank sqrt e k dt p b in
  let ex := Registry.Entity.x (Registry.Enemy.ent (fst r)) in
  let ey := Registry.Entity.y (Registry.Enemy.ent (fst r)) in
  let px := Registry.Entity.x (Registry.Player.ent p) in
  let py := Registry.Entity.y (Registry.Player.ent p) in
  let d := Registry.Utils.distance sqrt ex ey px py in
  let n := Registry.Utils.normalize sqrt (px - ex) (py - ey) in
  d < Registry.Entity.radius (Registry.Enemy.ent (fst r))
      + Registry.Entity.radius (Registry.Player.ent p) ->
  Registry.Entity.hp (Registry.Player.ent (snd r))
  = (Registry.Entity.hp (Registry.Player.ent p) - 1)%Z
  /\ Registry.Player.iframeTimer (snd r) = Registry.PLAYER_IFRAME_DURATION
  /\ (0 < d ->
      Registry.Entity.x (Registry.Player.ent (snd r))
      = px + fst n * Registry.TANK_KNOCKBACK
      /\ Registry.Entity.y (Registry.Player.ent (snd r))
         = py + snd n * Registry.TANK_KNOCKBACK)
  /\ (d <= 0 ->
      Registry.Entity.x (Registry.Player.ent (snd r)) = px
      /\ Registry.Entity.y (Registry.Player.ent (snd r)) = py).
Proof.
  intros HA HC HI HK.
  destruct (update_Tank_shape sqrt e k dt p b HA) as [em [k' E]].
  rewrite E. clear E.
  apply leb_true in HK. rewrite HK.
  unfold Registry.Player.canTakeDamage.
  pose proof HI as HI'. apply leb_true in HI'. rewrite HI'.
  cbn [andb].
  destruct (Num.ltb _ _) eqn:L.
  - destruct (dealContactDamage_spec sqrt em k' p HC HI)
      as [S1 [_ [S3 [S4 [S5 S6]]]]].
    cbv zeta. rewrite S1. intros _.
    split; [exact S3 | split; [exact S4 | split; [exact S5 | exact S6]]].
  - apply ltb_false in L. cbv zeta. cbn [fst snd]. intros H. lra.
Qed.

(** The push has the length of the knockback when the square root is exact
    at the distance. *)
Lemma knockback_length (dx dy d : Q) :
  0 < d -> d * d == dx * dx + dy * dy ->
  (dx / d * Registry.TANK_KNOCKBACK) * (dx / d * Registry.TANK_KNOCKBACK)
  + (dy / d * Registry.TANK_KNOCKBACK) * (dy / d * Registry.TANK_KNOCKBACK)
  == Registry.TANK_KNOCKBACK * Registry.TANK_KNOCKBACK.
Proof.
  intros Hd Hsq.
  assert (Hn : ~ d == 0) by lra.
  setoid_replace
    ((dx / d * Registry.TANK_KNOCKBACK) * (dx / d * Registry.TANK_KNOCKBACK)
     + (dy / d * Registry.TANK_KNOCKBACK) * (dy / d * Registry.TANK_KNOCKBACK))
    with ((dx * dx + dy * dy) / (d * d)
          * (Registry.TANK_KNOCKBACK * Registry.TANK_KNOCKBACK))
    by (field; exact Hn).
  rewrite <- Hsq. field. exact Hn.
Qed.

(** C9, as stated, fails when the Tank's center is on the player's: the
    contact deals its 1 damage, and the player is not displaced. *)
Lemma C9_counterexample :
  let r := Registry.Enemy.update_Tank Num.sqrt6 Scenario.C9_tank_on_top
             Scenario.C9_tank_state (1 / 60) Scenario.C9_player
             Scenario.arena in
  Registry.Entity.hp (Registry.Player.ent Scenario.C9_player) = 3%Z
  /\ Registry.Player.canTakeDamage Scenario.C9_player = true
  /\ Registry.CollisionSystem.checkCircleCollision Num.sqrt6
       (Registry.Player.ent Scenario.C9_player)
       (Registry.Enemy.ent Scenario.C9_tank_on_top) = true
  /\ Registry.Entity.hp (Registry.Player.ent (snd r)) = 2%Z
  /\ Registry.Entity.x (Registry.Player.ent (snd r))
     = Registry.Entity.x (Registry.Player.ent Scenario.C9_player)
  /\ Registry.Entity.y (Registry.Player.ent (snd r))
     = Registry.Entity.y (Registry.Player.ent Scenario.C9_player).
Proof. repeat split; vm_compute; reflexivity. Qed.

(** C9, amended.  When a Tank whose contact cooldown has run out makes its
    contact test in [update] against a living player that can take damage
    (not in creator mode) and the distance of the centers is below the sum
    of the radii, the player loses exactly 1 health and its invulnerability
    window opens; if the centers are distinct the player is moved by the
    knockback times the normalized vector from the Tank to the player (a
    vector of the knockback's length where the square root is exact), and
    if they coincide the player is not moved.  From the moment of the hit,
    no sequence of ticks of the driver shorter than the Tank's contact
    cooldown changes the player's health. *)
Theorem C9_tank_contact :
  (forall (sqrt : Q -> Q) (e : Registry.Enemy.t)
          (k : Registry.Enemy.TankState) (dt : Q) (p : Registry.Player.t)
          (b : Registry.Bounds),
     Registry.Player.isAlive p = true ->
     Registry.Player.creatorMode p = false ->
     Registry.Player.iframeTimer p <= 0 ->
     Registry.Enemy.contactCooldown k - dt <= 0 ->
     let r := Registry.Enemy.update_Tank sqrt e k dt p b in
     let ex := Registry.Entity.x (Registry.Enemy.ent (fst r)) in
     let ey := Registry.Entity.y (Registry.Enemy.ent (fst r)) in
     let px := Registry.Entity.x (Registry.Player.ent p) in
     let py := Registry.Entity.y (Registry.Player.ent p) in
     let d := Registry.Utils.distance sqrt ex ey px py in
     let n := Registry.Utils.normalize sqrt (px - ex) (py - ey) in
     d < Registry.Entity.radius (Registry.Enemy.ent (fst r))
         + Registry.Entity.radius (Registry.Player.ent p) ->
     Registry.Entity.hp (Registry.Player.ent (snd r))
     = (Registry.Entity.hp (Registry.Player.ent p) - 1)%Z
     /\ Registry.Player.iframeTimer (snd r)
        = Registry.PLAYER_IFRAME_DURATION
     /\ (0 < d ->
         Registry.Entity.x (Registry.Player.ent (snd r))
         = px + fst n * Registry.TANK_KNOCKBACK
         /\ Registry.Entity.y (Registry.Player.ent (snd r))
            = py + snd n * Registry.TANK_KNOCKBACK
         /\ (d * d == (px - ex) * (px - ex) + (py - ey) * (py - ey) ->
             (fst n * Registry.TANK_KNOCKBACK)
             * (fst n * Registry.TANK_KNOCKBACK)
             + (snd n * Registry.TANK_KNOCKBACK)
               * (snd n * Registry.TANK_KNOCKBACK)
             == Registry.TANK_KNOCKBACK * Registry.TANK_KNOCKBACK))
     /\ (d <= 0 ->
         Registry.Entity.x (Registry.Player.ent (snd r)) = px
         /\ Registry.Entity.y (Registry.Player.ent (snd r)) = py))
  /\
  (forall (sqrt : Q -> Q) (atan2 : Q -> Q -> Q) (cos sin : Q -> Q) (PI : Q)
          (tks : list Registry.Game.Tick) (g : Registry.Game.t)
          (rng : Num.Rng),
     Registry.Player.iframeTimer (Registry.Game.player g)
     = Registry.PLAYER_IFRAME_DURATION ->
     Calls.forward tks ->
     Calls.elapsed tks < Registry.TANK_CONTACT_COOLDOWN ->
     Registry.Entity.hp
       (Registry.Player.ent
          (Registry.Game.player
             (fst (Registry.Game.run sqrt atan2 cos sin PI g tks rng))))
     = Registry.Entity.hp (Registry.Player.ent (Registry.Game.player g))).
Proof.
  split.
  - intros sqrt e k dt p b HA HC HI HK.
    pose proof (update_Tank_contact sqrt e k dt p b HA HC HI HK) as T.
    cbv zeta in *. intros Hd.
    destruct (T Hd) as [T1 [T2 [T3 T4]]].
    split; [exact T1 | split; [exact T2 | split; [| exact T4]]].
    intros Hpos. destruct (T3 Hpos) as [T5 T6].
    split; [exact T5 | split; [exact T6 |]].
    intros Hsq.
    unfold Registry.Utils.normalize.
    unfold Registry.Utils.distance in Hpos, Hsq.
    remember (sqrt _) as len eqn:El in Hpos.
    rewrite <- El in Hsq. rewrite <- El.
    assert (Hz : Num.eqb len 0 = false).
    { unfold Num.eqb. apply not_true_is_false. intros Z.
      apply Qeq_bool_iff in Z. lra. }
    rewrite Hz. cbn [fst snd].
    apply knockback_length; assumption.
  - intros sqrt atan2 cos sin PI tks g rng HI Hf Hlt.
    apply run_shielded; [exact Hf |].
    rewrite HI. unfold Registry.PLAYER_IFRAME_DURATION.
    unfold Registry.TANK_CONTACT_COOLDOWN in Hlt. lra.
Qed.

Lemma C9_tank_contact_witness :
  (let r := Registry.Enemy.update_Tank Num.sqrt6 Scenario.C9_tank_beside
              Scenario.C9_tank_state (1 / 60) Scenario.C9_player
              Scenario.arena in
   Registry.Entity.hp (Registry.Player.ent Scenario.C9_player) = 3%Z
   /\ Registry.Entity.hp (Registry.Player.ent (snd r)) = 2%Z
   /\ Registry.Entity.x (Registry.Player.ent (snd r)) == 608
   /\ Registry.Entity.y (Registry.Player.ent (snd r)) == 400)
  /\
  (let g1 := fst (Registry.Game.update Num.sqrt6 Scenario.flat2 Scenario.flat
                    Scenario.flat 3 Scenario.C9_game Scenario.idle_tick
                    Scenario.rng0) in
   let g4 := fst (Registry.Game.run Num.sqrt6 Scenario.flat2 Scenario.flat
                    Scenario.flat 3 g1 Scenario.C7_ticks Scenario.rng0) in
   Registry.Entity.hp (Registry.Player.ent (Registry.Game.player g1)) = 2%Z
   /\ Registry.Entity.hp (Registry.Player.ent (Registry.Game.player g4))
      = 2%Z).
Proof.
  destruct C9_tank_contact as [H1 H2].
  split.
  - intros r.
    assert (HA : Registry.Player.isAlive Scenario.C9_player = true)
      by reflexivity.
    assert (HC : Registry.Player.creatorMode Scenario.C9_player = false)
      by reflexivity.
    assert (HI : Registry.Player.iframeTimer Scenario.C9_player <= 0)
      by (vm_compute; discriminate).
    assert (HK : Registry.Enemy.contactCooldown Scenario.C9_tank_state
                 - 1 / 60 <= 0)
      by (vm_compute; discriminate).
    pose proof (H1 Num.sqrt6 Scenario.C9_tank_beside Scenario.C9_tank_state
                   (1 / 60) Scenario.C9_player Scenario.arena HA HC HI HK)
      as T.
    cbv zeta in T. fold r in T.
    assert (Hd : Registry.Utils.distance Num.sqrt6
                   (Registry.Entity.x (Registry.Enemy.ent (fst r)))
                   (Registry.Entity.y (Registry.Enemy.ent (fst r)))
                   (Registry.Entity.x (Registry.Player.ent Scenario.C9_player))
                   (Registry.Entity.y (Registry.Player.ent Scenario.C9_player))
                 < Registry.Entity.radius (Registry.Enemy.ent (fst r))
                   + Registry.Entity.radius
                       (Registry.Player.ent Scenario.C9_player))
      by (vm_compute; reflexivity).
    destruct (T Hd) as [T1 _].
    split; [reflexivity | split; [exact T1 |]].
    split; vm_compute; reflexivity.
  - intros g1 g4.
    assert (HI : Registry.Player.iframeTimer (Registry.Game.player g1)
                 = Registry.PLAYER_IFRAME_DURATION)
      by (vm_compute; reflexivity).
    assert (Hf : Calls.forward Scenario.C7_ticks)
      by (vm_compute; repeat split; discriminate).
    assert (Hlt : Calls.elapsed Scenario.C7_ticks
                  < Registry.TANK_CONTACT_COOLDOWN)
      by (vm_compute; reflexivity).
    pose proof (H2 Num.sqrt6 Scenario.flat2 Scenario.flat Scenario.flat 3
                   Scenario.C7_ticks g1 Scenario.rng0 HI Hf Hlt) as R.
    fold g4 in R.
    assert (G1 : Registry.Entity.hp
                   (Registry.Player.ent (Registry.Game.player g1)) = 2%Z)
      by (vm_compute; reflexivity).
    split; [exact G1 | rewrite R; exact G1].
Defined.

(** * Further properties of the code *)

(** ** Clamping and the arena *)

Lemma max_lower (a b : Q) : a <= Num.max a b /\ b <= Num.max a b.
Proof.
  unfold Num.max. destruct (Qle_bool a b) eqn:E.
  - apply Qle_bool_iff in E. lra.
  - apply leb_false in E. lra.
Qed.

Lemma min_upper (a b : Q) : Num.min a b <= a /\ Num.min a b <= b.
Proof.
  unfold Num.min. destruct (Qle_bool a b) eqn:E.
  - apply Qle_bool_iff in E. lra.
  - apply leb_false in E. lra.
Qed.

Lemma max_cases (a b : Q) : Num.max a b = a \/ Num.max a b = b.
Proof. unfold Num.max. destruct (Qle_bool a b); auto. Qed.

Lemma min_cases (a b : Q) : Num.min a b = a \/ Num.min a b = b.
Proof. unfold Num.min. destruct (Qle_bool a b); auto. Qed.

Lemma registry_clamp_interval (value lo hi : Q) :
  lo <= hi ->
  lo <= Registry.Utils.clamp value lo hi
  /\ Registry.Utils.clamp value lo hi <= hi
  /\ (lo <= value -> value <= hi ->
      Registry.Utils.clamp value lo hi == value).
Proof.
  intros Hint.
  unfold Registry.Utils.clamp, Num.min, Num.max.
  destruct (Qle_bool value lo) eqn:E1;
    [apply Qle_bool_iff in E1 | apply leb_false in E1];
    match goal with
    | |- context [Qle_bool ?a ?b] =>
        destruct (Qle_bool a b) eqn:E2;
        [apply Qle_bool_iff in E2 | apply leb_false in E2]
    end;
    (split; [| split; [| intros H1 H2]]); lra.
Qed.

(** X1.  [Utils.clamp] with an interval that is not empty returns a value
    of the interval, and returns a value of the interval as it is. *)
Theorem X1_clamp_in_interval (value lo hi : Q) (Hint : lo <= hi) :
  lo <= Registry.Utils.clamp value lo hi
  /\ Registry.Utils.clamp value lo hi <= hi
  /\ (lo <= value -> value <= hi ->
      Registry.Utils.clamp value lo hi == value).
Proof. exact (registry_clamp_interval value lo hi Hint). Qed.

Lemma X1_clamp_in_interval_witness :
  16 <= Registry.Utils.clamp 1300 16 1184
  /\ Registry.Utils.clamp 1300 16 1184 <= 1184
  /\ Registry.Utils.clamp 600 16 1184 == 600.
Proof.
  assert (H : 16 <= 1184) by lra.
  destruct (X1_clamp_in_interval 1300 16 1184 H) as [A [B _]].
  destruct (X1_clamp_in_interval 600 16 1184 H) as [_ [_ C]].
  split; [exact A | split; [exact B | apply C; lra]].
Defined.

Lemma registry_clamp_to_within (e : Registry.Enemy.t) (b : Registry.Bounds) :
  Inv.registry_fits (Registry.Enemy.ent e) b ->
  Inv.registry_within (Registry.Enemy.ent (Registry.Enemy.clamp_to e b)) b.
Proof.
  intros [F1 F2]. unfold Inv.registry_within, Registry.Enemy.clamp_to.
  cbn [Registry.Enemy.ent Registry.Enemy.set_ent Registry.Entity.x
       Registry.Entity.y Registry.Entity.radius Registry.Entity.set_pos].
  destruct (registry_clamp_interval
              (Registry.Entity.x (Registry.Enemy.ent e))
              _ _ F1) as [A [B _]].
  destruct (registry_clamp_interval
              (Registry.Entity.y (Registry.Enemy.ent e))
              _ _ F2) as [C [D _]].
  repeat split; assumption.
Qed.

(** X2.  [Player.update] leaves the player's circle inside the bounds,
    wherever the player was and whatever the input and the frame time,
    provided the bounds are large enough for the circle. *)
Theorem X2_registry_player_stays_in_arena
    (p : Registry.Player.t) (deltaTime : Q) (inputManager : Registry.Input)
    (bounds : Registry.Bounds)
    (Hfits : Inv.registry_fits (Registry.Player.ent p) bounds) :
  Inv.registry_within
    (Registry.Player.ent
       (Registry.Player.update p deltaTime inputManager bounds)) bounds.
Proof.
  destruct Hfits as [F1 F2].
  assert (E : exists vx vy,
             Registry.Player.ent
               (Registry.Player.update p deltaTime inputManager bounds)
             = Registry.Entity.set_pos
                 (Registry.Entity.set_vel (Registry.Player.ent p) vx vy)
                 (Registry.Utils.clamp
                    (Registry.Entity.x (Registry.Player.ent p)
                     + vx * deltaTime)
                    (Registry.Entity.radius (Registry.Player.ent p))
                    (Registry.width bounds
                     - Registry.Entity.radius (Registry.Player.ent p)))
                 (Registry.Utils.clamp
                    (Registry.Entity.y (Registry.Player.ent p)
                     + vy * deltaTime)
                    (Registry.Entity.radius (Registry.Player.ent p))
                    (Registry.height bounds
                     - Registry.Entity.radius (Registry.Player.ent p)))).
  { eexists. eexists. unfold Registry.Player.update.
    split_ifs; reflexivity. }
  destruct E as [vx [vy E]]. rewrite E.
  unfold Inv.registry_within.
  cbn [Registry.Entity.x Registry.Entity.y Registry.Entity.radius
       Registry.Entity.set_pos Registry.Entity.set_vel].
  destruct (registry_clamp_interval
              (Registry.Entity.x (Registry.Player.ent p) + vx * deltaTime)
              _ _ F1) as [A [B _]].
  destruct (registry_clamp_interval
              (Registry.Entity.y (Registry.Player.ent p) + vy * deltaTime)
              _ _ F2) as [C [D _]].
  repeat split; assumption.
Qed.

Lemma X2_registry_player_stays_in_arena_witness :
  Inv.registry_within
    (Registry.Player.ent
       (Registry.Player.update (Registry.Player.new 1190 5) 10
          (Registry.mkInput (1, 1) false false false 0 0) Scenario.arena))
    Scenario.arena.
Proof.
  apply X2_registry_player_stays_in_arena.
  split; vm_compute; discriminate.
Defined.

Lemma dealContactDamage_ent (sqrt : Q -> Q) (e : Registry.Enemy.t)
    (k : Registry.Enemy.TankState) (p : Registry.Player.t) :
  Registry.Enemy.ent (fst (Registry.Enemy.dealContactDamage sqrt e k p))
  = Registry.Enemy.ent e.
Proof.
  unfold Registry.Enemy.dealContactDamage.
  destruct (Num.gtb _ _); reflexivity.
Qed.

Lemma update_Shooter_clamped (sqrt : Q -> Q) (atan2 : Q -> Q -> Q)
    (cos sin : Q -> Q) (PI : Q)
    (e : Registry.Enemy.t) (s : Registry.Enemy.ShooterState) (dt : Q)
    (player : Registry.Player.t) (bounds : Registry.Bounds)
    (projectiles : list Registry.Projectile.t) (rng : Num.Rng) :
  Registry.Player.isAlive player = true ->
  exists e0,
    fst (fst (Registry.Enemy.update_Shooter sqrt atan2 cos sin PI e s dt
                player bounds projectiles rng))
    = Registry.Enemy.clamp_to e0 bounds
    /\ Registry.Entity.radius (Registry.Enemy.ent e0)
       = Registry.Entity.radius (Registry.Enemy.ent e).
Proof.
  intros Halive. unfold Registry.Enemy.update_Shooter.
  rewrite Halive. cbn [negb].
  destruct (Num.eqb (Registry.Enemy.centerX s) 0
            && Num.eqb (Registry.Enemy.centerY s) 0);
    destruct (Registry.Enemy.isMoving s && Num.ltb _ _);
    try destruct (Num.gtb _ 5);
    destruct (Num.geb _ _);
    try destruct (Num.next rng);
    cbv zeta; cbn [fst snd];
    (eexists; split; [reflexivity | reflexivity]).
Qed.

Lemma update_Tank_clamped (sqrt : Q -> Q)
    (e : Registry.Enemy.t) (k : Registry.Enemy.TankState) (dt : Q)
    (player : Registry.Player.t) (bounds : Registry.Bounds) :
  Registry.Player.isAlive player = true ->
  exists e0,
    Registry.Enemy.ent
      (fst (Registry.Enemy.update_Tank sqrt e k dt player bounds))
    = Registry.Enemy.ent (Registry.Enemy.clamp_to e0 bounds)
    /\ Registry.Entity.radius (Registry.Enemy.ent e0)
       = Registry.Entity.radius (Registry.Enemy.ent e).
Proof.
  intros Halive. unfold Registry.Enemy.update_Tank.
  rewrite Halive. cbn [negb]. cbv zeta.
  destruct (Num.gtb _ 0);
    (destruct (Num.leb _ 0 && Registry.Player.canTakeDamage player);
     [destruct (Num.ltb _ _) |]);
    rewrite ?dealContactDamage_ent; cbn [fst];
    (eexists; split; [reflexivity | reflexivity]).
Qed.

Lemma registry_fits_radius (a b : Registry.Entity.t) (bounds : Registry.Bounds) :
  Registry.Entity.radius a = Registry.Entity.radius b ->
  Inv.registry_fits b bounds -> Inv.registry_fits a bounds.
Proof. unfold Inv.registry_fits. intros ->. auto. Qed.

(** X3.  While the player is alive, [update] of each enemy class leaves the
    enemy's circle inside the bounds, provided the bounds are large enough
    for the circle. *)
Theorem X3_registry_enemy_stays_in_arena
    (sqrt : Q -> Q) (atan2 : Q -> Q -> Q) (cos sin : Q -> Q) (PI : Q)
    (e : Registry.Enemy.t) (dt : Q) (player : Registry.Player.t)
    (bounds : Registry.Bounds) (projectiles : list Registry.Projectile.t)
    (rng : Num.Rng)
    (Halive : Registry.Player.isAlive player = true)
    (Hfits : Inv.registry_fits (Registry.Enemy.ent e) bounds) :
  Inv.registry_within
    (Registry.Enemy.ent
       (fst (fst (fst (Registry.Enemy.update sqrt atan2 cos sin PI e dt
                         player bounds projectiles rng)))))
    bounds.
Proof.
  unfold Registry.Enemy.update.
  destruct (Registry.Enemy.kind e) as [| s | k] eqn:K.
  - cbn [fst]. unfold Registry.Enemy.update_Assassin. rewrite Halive.
    cbn [negb]. cbv zeta.
    apply registry_clamp_to_within.
    destruct (Num.gtb _ _); exact Hfits.
  - destruct (update_Shooter_clamped sqrt atan2 cos sin PI e s dt player
                bounds projectiles rng Halive) as [e0 [E R]].
    destruct (Registry.Enemy.update_Shooter _ _ _ _ _ _ _ _ _ _ _ _)
      as [[e1 ps] rng1].
    cbn [fst] in E |- *. rewrite E.
    apply registry_clamp_to_within.
    exact (registry_fits_radius _ _ _ R Hfits).
  - destruct (update_Tank_clamped sqrt e k dt player bounds Halive)
      as [e0 [E R]].
    destruct (Registry.Enemy.update_Tank _ _ _ _ _ _) as [e1 p1].
    cbn [fst] in E |- *. rewrite E.
    apply registry_clamp_to_within.
    exact (registry_fits_radius _ _ _ R Hfits).
Qed.

Lemma X3_registry_enemy_stays_in_arena_witness :
  Inv.registry_within
    (Registry.Enemy.ent
       (fst (fst (fst (Registry.Enemy.update Num.sqrt6 Scenario.flat2
                         Scenario.flat Scenario.flat 3
                         (Registry.Enemy.new_Tank (-50) 300) 0.5
                         (Registry.Player.new 600 400) Scenario.arena []
                         Scenario.rng0)))))
    Scenario.arena.
Proof.
  apply X3_registry_enemy_stays_in_arena.
  - reflexivity.
  - split; vm_compute; discriminate.
Defined.

Lemma clampToBounds_in_box (x y minX minY maxX maxY : Q) :
  minX <= maxX -> minY <= maxY ->
  let c := Modular.clampToBounds x y minX minY maxX maxY in
  minX <= fst c /\ fst c <= maxX /\ minY <= snd c /\ snd c <= maxY.
Proof.
  intros HX HY. unfold Modular.clampToBounds, Num.max, Num.min.
  cbn [fst snd].
  destruct (Qle_bool maxX x) eqn:E1;
    [apply Qle_bool_iff in E1 | apply leb_false in E1];
    destruct (Qle_bool maxY y) eqn:E2;
    [apply Qle_bool_iff in E2 | apply leb_false in E2
    | apply Qle_bool_iff in E2 | apply leb_false in E2];
    repeat match goal with
           | |- context [Qle_bool ?a ?b] =>
               let E := fresh "E" in
               destruct (Qle_bool a b) eqn:E;
               [apply Qle_bool_iff in E | apply leb_false in E]
           end;
    repeat split; lra.
Qed.

(** X4.  [Player.update] of the modular game keeps the player's circle
    inside the arena: a player inside it before the call is inside it
    after, whatever the move vector and the frame time. *)
Theorem X4_modular_player_stays_in_arena
    (p : Modular.Player.t) (dt : Q) (moveVector : Q * Q)
    (Hfits : Inv.modular_fits (Modular.Player.ent p))
    (Hin : Inv.modular_within (Modular.Player.ent p)) :
  Inv.modular_within
    (Modular.Player.ent (Modular.Player.update p dt moveVector)).
Proof.
  destruct Hfits as [F1 F2].
  unfold Modular.Player.update.
  destruct (negb _ || negb _).
  - cbv zeta. unfold Inv.modular_within.
    cbn [Modular.Player.ent Modular.Entity.x Modular.Entity.y
         Modular.Entity.radius Modular.Entity.set_pos].
    match goal with
    | |- context [Modular.clampToBounds ?a ?b ?c ?d ?e ?f] =>
        pose proof (clampToBounds_in_box a b c d e f F1 F2) as B
    end.
    cbv zeta in B. exact B.
  - exact Hin.
Qed.

Lemma X4_modular_player_stays_in_arena_witness :
  Inv.modular_within
    (Modular.Player.ent
       (Modular.Player.update (Modular.Player.new 1175 25) 1000 (1, -1))).
Proof.
  apply X4_modular_player_stays_in_arena.
  - split; vm_compute; discriminate.
  - repeat split; vm_compute; discriminate.
Defined.

Lemma modular_enemy_update_within
    (sqrt : Q -> Q) (e : Modular.Enemy.t) (dt playerX playerY : Q)
    (Hfits : Inv.modular_fits (Modular.Enemy.ent e)) :
  Inv.modular_within
    (Modular.Enemy.ent (Modular.Enemy.update sqrt e dt playerX playerY)).
Proof.
  destruct Hfits as [F1 F2].
  unfold Modular.Enemy.update. cbv zeta. unfold Inv.modular_within.
  cbn [Modular.Enemy.ent Modular.Entity.x Modular.Entity.y
       Modular.Entity.radius Modular.Entity.set_pos].
  match goal with
  | |- context [Modular.clampToBounds ?a ?b ?c ?d ?e ?f] =>
      pose proof (clampToBounds_in_box a b c d e f F1 F2) as B
  end.
  cbv zeta in B. exact B.
Qed.

(** X5.  [Enemy.update] of the modular game puts the enemy's circle inside
    the arena, wherever the enemy was and wherever the player is. *)
Theorem X5_modular_enemy_stays_in_arena
    (sqrt : Q -> Q) (e : Modular.Enemy.t) (dt playerX playerY : Q)
    (Hfits : Inv.modular_fits (Modular.Enemy.ent e)) :
  Inv.modular_within
    (Modular.Enemy.ent (Modular.Enemy.update sqrt e dt playerX playerY)).
Proof. exact (modular_enemy_update_within sqrt e dt playerX playerY Hfits). Qed.

Lemma X5_modular_enemy_stays_in_arena_witness :
  Inv.modular_within
    (Modular.Enemy.ent
       (Modular.Enemy.update Num.sqrt6 (Modular.Enemy.new (-40) 900) 16
          600 400)).
Proof.
  apply X5_modular_enemy_stays_in_arena.
  split; vm_compute; discriminate.
Defined.

(** ** The timer of utils.js in doubles *)

Lemma timer_update64_duration (tm : Modular.Timer.t) (dt : Q) :
  Modular.Timer.duration (Modular.Timer.update64 tm dt)
  = Modular.Timer.duration tm.
Proof.
  unfold Modular.Timer.update64.
  destruct (Modular.Timer.isComplete tm); cbn [negb]; cbv zeta;
    [reflexivity |].
  destruct (Num.geb _ _); reflexivity.
Qed.

Lemma timer_run64_complete (tm : Modular.Timer.t) (dts : list Q) :
  Modular.Timer.isComplete tm = true -> Calls.timer_run64 tm dts = tm.
Proof.
  intros H. induction dts as [| dt dts IH]; [reflexivity |].
  unfold Calls.timer_run64 in *. cbn [fold_left].
  unfold Modular.Timer.update64 at 2. rewrite H. cbn [negb]. exact IH.
Qed.

Lemma total_nonneg_bounded (P : Q -> Prop) (dts : list Q) :
  Forall (fun dt => 0 <= dt /\ P dt) dts -> 0 <= Calls.total dts.
Proof.
  induction 1 as [| dt dts [H _] _ IH]; cbn [Calls.total]; lra.
Qed.

Lemma inject_Z_S (n : nat) :
  inject_Z (Z.of_nat (S n)) == 1 + inject_Z (Z.of_nat n).
Proof. rewrite Nat2Z.inj_succ, <- Z.add_1_l, inject_Z_plus. reflexivity. Qed.

(** X6.  A timer that is not complete measures the time of its [update]
    calls up to the rounding of the additions, and stops at its duration.
    With the sums in doubles, below 2 ^ k, each addition is off by
    2 ^ (k - 54) at most; after [n] calls with frame times that are not
    negative the timer is not complete, and [elapsed] is within
    n * 2 ^ (k - 54) of the time measured before plus the frame times, if
    that time stays more than this allowance below the duration; it is
    complete, with [elapsed] the duration, if that time is at least the
    allowance above the duration. *)
Theorem X6_timer_measures_time (k : Z) (tm : Modular.Timer.t)
    (dts : list Q)
    (Hk : (-1021 <= k)%Z)
    (Hrun : Modular.Timer.isComplete tm = false)
    (Hpos : 0 <= Modular.Timer.elapsed tm)
    (Hbelow : Modular.Timer.elapsed tm < Modular.Timer.duration tm)
    (Hforward : Forall (fun dt => 0 <= dt
                        /\ Modular.Timer.duration tm + dt < Num.pow2 k)
                       dts) :
  let tm' := Calls.timer_run64 tm dts in
  let reached := Modular.Timer.elapsed tm + Calls.total dts in
  let allowance :=
    inject_Z (Z.of_nat (length dts)) * Num.pow2 (k - 54) in
  Modular.Timer.duration tm' = Modular.Timer.duration tm
  /\ (reached + allowance < Modular.Timer.duration tm ->
      Modular.Timer.isComplete tm' = false
      /\ Qabs (Modular.Timer.elapsed tm' - reached) <= allowance)
  /\ (Modular.Timer.duration tm + allowance <= reached ->
      Modular.Timer.isComplete tm' = true
      /\ Modular.Timer.elapsed tm' = Modular.Timer.duration tm).
Proof.
  revert tm Hrun Hpos Hbelow Hforward.
  induction dts as [| dt dts IH]; intros tm Hrun Hpos Hbelow Hforward.
  - cbv zeta. unfold Calls.timer_run64.
    cbn [fold_left Calls.total length Z.of_nat].
    change (inject_Z 0) with 0.
    split; [reflexivity |]. split.
    + intros _. split; [exact Hrun |].
      apply Qabs_Qle_condition. split; lra.
    + intros H. lra.
  - inversion Hforward as [| a l [Hdt Hb] Hrest]; subst.
    pose proof (total_nonneg_bounded _ dts Hrest) as Hsum.
    pose proof (pow2_pos (k - 54)) as He.
    pose proof (allowance_nonneg (Z.of_nat (length dts)) (k - 54)
                  (Nat2Z.is_nonneg _)) as Ha.
    destruct (round64_bounds k (Modular.Timer.elapsed tm + dt))
      as [B1 B2]; [exact Hk | lra | lra |].
    pose proof (round64_nonneg (Modular.Timer.elapsed tm + dt)
                  ltac:(lra)) as B0.
    cbv zeta. unfold Calls.timer_run64.
    cbn [fold_left Calls.total length].
    fold (Calls.timer_run64 (Modular.Timer.update64 tm dt) dts).
    rewrite inject_Z_S.
    unfold Modular.Timer.update64 at 1 2 3 4 5. rewrite Hrun. cbn [negb].
    cbv zeta.
    destruct (Num.geb (Num.round64 (Modular.Timer.elapsed tm + dt))
                      (Modular.Timer.duration tm)) eqn:E.
    + rewrite timer_run64_complete by reflexivity.
      cbn [Modular.Timer.duration Modular.Timer.isComplete
           Modular.Timer.elapsed].
      apply geb_true in E.
      split; [reflexivity |]. split.
      * intros H. lra.
      * intros _. split; reflexivity.
    + apply geb_false in E.
      specialize (IH (Modular.Timer.mk (Modular.Timer.duration tm)
                        (Num.round64 (Modular.Timer.elapsed tm + dt))
                        false)
                     eq_refl B0 E Hrest).
      cbv zeta in IH.
      cbn [Modular.Timer.duration Modular.Timer.isComplete
           Modular.Timer.elapsed] in IH.
      destruct IH as [I1 [I2 I3]].
      split; [exact I1 |]. split.
      * intros H. destruct I2 as [J1 J2]; [lra |].
        split; [exact J1 |].
        apply Qabs_Qle_condition in J2. apply Qabs_Qle_condition.
        split; lra.
      * intros H. apply I3. lra.
Qed.

Lemma X6_timer_measures_time_witness :
  let tm' := Calls.timer_run64 (Modular.Timer.createTimer 800)
               [300; 300; 300] in
  Modular.Timer.isComplete tm' = true
  /\ Modular.Timer.elapsed tm' = 800.
Proof.
  assert (F : Forall (fun dt => 0 <= dt
                      /\ Modular.Timer.duration
                           (Modular.Timer.createTimer 800) + dt
                         < Num.pow2 11) [300; 300; 300])
    by (repeat constructor; vm_compute; (reflexivity || discriminate)).
  assert (B : Modular.Timer.elapsed (Modular.Timer.createTimer 800)
              < Modular.Timer.duration (Modular.Timer.createTimer 800))
    by reflexivity.
  assert (P : 0 <= Modular.Timer.elapsed (Modular.Timer.createTimer 800))
    by (vm_compute; discriminate).
  refine (proj2 (proj2 (X6_timer_measures_time 11
                          (Modular.Timer.createTimer 800)
                          [300; 300; 300] _ eq_refl P B F)) _).
  - lia.
  - vm_compute. discriminate.
Defined.

(** Ten calls [update(0.1)] leave a one-second timer running: the sum of
    the ten doubles of 0.1 reaches 1, the timer's [elapsed] stays one
    step of the doubles below it. *)
Lemma timer_run64_short_of_duration :
  let dt := Num.round64 0.1 in
  let tm' := Calls.timer_run64 (Modular.Timer.createTimer 1)
               [dt; dt; dt; dt; dt; dt; dt; dt; dt; dt] in
  1 <= 10 * dt
  /\ Modular.Timer.isComplete tm' = false
  /\ Modular.Timer.elapsed tm' == 1 - Num.pow2 (-53).
Proof. vm_compute. repeat split; discriminate. Qed.

(** ** Random positions *)

Lemma floor_unit_range (r : Q) (n : Z) :
  0 <= r -> r < 1 -> (0 < n)%Z ->
  (0 <= Num.floor (r * inject_Z n) < n)%Z.
Proof.
  intros H0 H1 Hn. unfold Num.floor.
  assert (Hq : 0 < inject_Z n).
  { change 0 with (inject_Z 0). rewrite <- Zlt_Qlt. exact Hn. }
  split.
  - change 0%Z with (Qfloor 0). apply Qfloor_resp_le.
    apply Qmult_le_0_compat; lra.
  - rewrite Zlt_Qlt.
    apply Qle_lt_trans with (r * inject_Z n); [apply Qfloor_le |].
    setoid_replace (inject_Z n) with (1 * inject_Z n) at 2 by ring.
    apply Qmult_lt_compat_r; assumption.
Qed.

Lemma modular_randomInt_range (min max : Z) (r : Q) :
  0 <= r -> r < 1 -> (min <= max)%Z ->
  (min <= Modular.randomInt min max r <= max)%Z.
Proof.
  intros Hr0 Hr1 Hint. unfold Modular.randomInt.
  pose proof (floor_unit_range r (max - min + 1) Hr0 Hr1 ltac:(lia)).
  lia.
Qed.

(** X7.  With a result of [Math.random()] from 0 up to but excluding 1,
    [randomInt(min, max)] is an integer from [min] to [max], both
    included. *)
Theorem X7_randomInt_range (min max : Z) (r : Q)
    (Hr0 : 0 <= r) (Hr1 : r < 1) (Hint : (min <= max)%Z) :
  (min <= Modular.randomInt min max r <= max)%Z.
Proof. exact (modular_randomInt_range min max r Hr0 Hr1 Hint). Qed.

Lemma X7_randomInt_range_witness :
  (0 <= Modular.randomInt 0 3 (99 # 100) <= 3)%Z.
Proof.
  apply X7_randomInt_range; [lra | lra | lia].
Defined.

Lemma randomFloat_range (min max r : Q) :
  0 <= r -> r < 1 -> min <= max ->
  min <= Modular.randomFloat min max r
  /\ Modular.randomFloat min max r <= max.
Proof.
  intros H0 H1 H. unfold Modular.randomFloat.
  assert (A : 0 <= r * (max - min)) by (apply Qmult_le_0_compat; lra).
  assert (B : 0 <= (1 - r) * (max - min))
    by (apply Qmult_le_0_compat; lra).
  split; [lra |].
  setoid_replace (r * (max - min) + min)
    with (max - (1 - r) * (max - min)) by ring.
  lra.
Qed.

Lemma edge_position_on_edge (arenaWidth arenaHeight margin : Q)
    (rng : Num.Rng) :
  Inv.unit_draws rng ->
  margin <= arenaWidth - margin ->
  margin <= arenaHeight - margin ->
  let '(position, rng') :=
    Modular.getRandomEdgePosition arenaWidth arenaHeight margin rng in
  Inv.on_inset_edge arenaWidth arenaHeight margin position
  /\ Num.pos rng' = S (S (Num.pos rng))
  /\ Num.draws rng' = Num.draws rng.
Proof.
  intros Hdraws Hw Hh.
  unfold Modular.getRandomEdgePosition, Num.next.
  destruct (Hdraws (Num.pos rng)) as [A0 A1].
  destruct (Hdraws (S (Num.pos rng))) as [B0 B1].
  pose proof (modular_randomInt_range 0 3 _ A0 A1 ltac:(lia)) as R.
  cbn [Num.draws Num.pos].
  pose proof (randomFloat_range margin (arenaWidth - margin) _ B0 B1 Hw)
    as [FX0 FX1].
  pose proof (randomFloat_range margin (arenaHeight - margin) _ B0 B1 Hh)
    as [FY0 FY1].
  destruct (Modular.randomInt 0 3 (Num.draws rng (Num.pos rng)))
    as [| [[| |] | [| |] |] | ]; try lia;
    (split; [| split; reflexivity]);
    unfold Inv.on_inset_edge; repeat split; try lra;
    try (left; reflexivity);
    try (right; left; reflexivity);
    try (right; right; left; reflexivity);
    try (right; right; right; reflexivity).
Qed.

(** X8.  With results of [Math.random()] from 0 up to but excluding 1,
    [getRandomEdgePosition] returns a point of the rectangle inset by
    [margin] that lies on one of its four sides (never the centre of its
    default branch), and it calls [Math.random()] twice. *)
Theorem X8_edge_position_on_edge (arenaWidth arenaHeight margin : Q)
    (rng : Num.Rng)
    (Hdraws : Inv.unit_draws rng)
    (Hw : margin <= arenaWidth - margin)
    (Hh : margin <= arenaHeight - margin) :
  let '(position, rng') :=
    Modular.getRandomEdgePosition arenaWidth arenaHeight margin rng in
  Inv.on_inset_edge arenaWidth arenaHeight margin position
  /\ Num.pos rng' = S (S (Num.pos rng))
  /\ Num.draws rng' = Num.draws rng.
Proof.
  exact (edge_position_on_edge arenaWidth arenaHeight margin rng
           Hdraws Hw Hh).
Qed.

Lemma unit_draws_rng0 : Inv.unit_draws Scenario.rng0.
Proof. intros n. cbn. lra. Qed.

Lemma X8_edge_position_on_edge_witness :
  let '(position, rng') :=
    Modular.getRandomEdgePosition 1200 800 50 Scenario.rng0 in
  Inv.on_inset_edge 1200 800 50 position
  /\ Num.pos rng' = 2%nat
  /\ Num.draws rng' = Num.draws Scenario.rng0.
Proof.
  apply (X8_edge_position_on_edge 1200 800 50 Scenario.rng0
           unit_draws_rng0); lra.
Defined.

Lemma unit_draws_ext (a b : Num.Rng) :
  Num.draws b = Num.draws a -> Inv.unit_draws a -> Inv.unit_draws b.
Proof. unfold Inv.unit_draws. intros ->. auto. Qed.

Lemma spawn_loop_on_edge (sqrt : Q -> Q) (more : nat)
    (playerX playerY : Q) (rng : Num.Rng) :
  Inv.unit_draws rng ->
  let '(position, rng') :=
    Modular.Enemy.spawn_loop sqrt more playerX playerY rng in
  Inv.on_inset_edge Modular.CONFIG.arenaWidth Modular.CONFIG.arenaHeight
                    50 position
  /\ Num.draws rng' = Num.draws rng
  /\ (Num.pos rng + 2 <= Num.pos rng' <= Num.pos rng + 2 * S more)%nat.
Proof.
  revert rng. induction more as [| more IH]; intros rng Hdraws;
    cbn [Modular.Enemy.spawn_loop];
    pose proof (edge_position_on_edge Modular.CONFIG.arenaWidth
                  Modular.CONFIG.arenaHeight 50 rng Hdraws
                  ltac:(vm_compute; discriminate)
                  ltac:(vm_compute; discriminate)) as E;
    destruct (Modular.getRandomEdgePosition _ _ _ rng) as [position rng1];
    destruct E as [E1 [E2 E3]].
  - split; [exact E1 | split; [exact E3 | lia]].
  - destruct (Num.ltb _ _).
    + specialize (IH rng1 (unit_draws_ext _ _ E3 Hdraws)).
      destruct (Modular.Enemy.spawn_loop sqrt more playerX playerY rng1)
        as [position2 rng2].
      destruct IH as [I1 [I2 I3]].
      split; [exact I1 | split; [congruence | lia]].
    + split; [exact E1 | split; [exact E3 | lia]].
Qed.

(** X9.  With results of [Math.random()] from 0 up to but excluding 1,
    [Enemy.spawn] creates an active enemy of full health whose centre is on
    a side of the rectangle 50 inside the arena, so its circle is inside
    the arena; it calls [Math.random()] at least twice and at most twenty
    times. *)
Theorem X9_spawned_enemy_on_edge (sqrt : Q -> Q) (playerX playerY : Q)
    (rng : Num.Rng) (Hdraws : Inv.unit_draws rng) :
  let '(e, rng') := Modular.Enemy.spawn sqrt playerX playerY rng in
  Inv.on_inset_edge Modular.CONFIG.arenaWidth Modular.CONFIG.arenaHeight 50
    (Modular.Entity.x (Modular.Enemy.ent e),
     Modular.Entity.y (Modular.Enemy.ent e))
  /\ Inv.modular_within (Modular.Enemy.ent e)
  /\ Modular.Enemy.isActive e = true
  /\ Modular.Entity.health (Modular.Enemy.ent e)
     = Modular.CONFIG.enemy_health
  /\ (Num.pos rng + 2 <= Num.pos rng' <= Num.pos rng + 20)%nat.
Proof.
  unfold Modular.Enemy.spawn.
  pose proof (spawn_loop_on_edge sqrt 9 playerX playerY rng Hdraws) as L.
  destruct (Modular.Enemy.spawn_loop sqrt 9 playerX playerY rng)
    as [[px py] rng'].
  destruct L as [L1 [L2 L3]].
  cbn [fst snd Modular.Enemy.new Modular.Enemy.ent Modular.Entity.x
       Modular.Entity.y Modular.Enemy.isActive Modular.Entity.isActive
       Modular.Entity.active Modular.Entity.health].
  split; [exact L1 |].
  split; [| split; [reflexivity | split; [reflexivity | lia]]].
  unfold Inv.on_inset_edge in L1.
  destruct L1 as [A [B [C [D _]]]].
  unfold Inv.modular_within.
  cbn [Modular.Entity.x Modular.Entity.y Modular.Entity.radius].
  unfold Modular.CONFIG.enemy_radius, Modular.CONFIG.arenaWidth,
    Modular.CONFIG.arenaHeight in *.
  repeat split; lra.
Qed.

Lemma X9_spawned_enemy_on_edge_witness :
  let '(e, rng') := Modular.Enemy.spawn Num.sqrt6 600 400 Scenario.rng0 in
  Inv.on_inset_edge Modular.CONFIG.arenaWidth Modular.CONFIG.arenaHeight 50
    (Modular.Entity.x (Modular.Enemy.ent e),
     Modular.Entity.y (Modular.Enemy.ent e))
  /\ Inv.modular_within (Modular.Enemy.ent e)
  /\ Modular.Enemy.isActive e = true
  /\ Modular.Entity.health (Modular.Enemy.ent e)
     = Modular.CONFIG.enemy_health
  /\ (Num.pos Scenario.rng0 + 2 <= Num.pos rng'
      <= Num.pos Scenario.rng0 + 20)%nat.
Proof.
  exact (X9_spawned_enemy_on_edge Num.sqrt6 600 400 Scenario.rng0
           unit_draws_rng0).
Defined.

(** ** The collision pass of the modular game *)

Lemma modular_bullet_hits_at_most_one (sqrt : Q -> Q)
    (bullet : Modular.Bullet.t)
    (es : list Modular.Enemy.t) (kills : nat) :
  Modular.Game.bulletVsEnemies sqrt bullet es kills = (bullet, es, kills)
  /\ Forall (fun e => Modular.Bullet.checkCollision sqrt bullet
                        (Modular.Enemy.ent e) = false) es
  \/ exists before enemy after,
       es = before ++ enemy :: after
       /\ Forall (fun e => Modular.Bullet.checkCollision sqrt bullet
                             (Modular.Enemy.ent e) = false) before
       /\ Modular.Bullet.checkCollision sqrt bullet
            (Modular.Enemy.ent enemy) = true
       /\ Modular.Game.bulletVsEnemies sqrt bullet es kills
          = (Modular.Bullet.set_active bullet false,
             before ++ Modular.Enemy.takeDamage enemy 1 :: after,
             if Modular.Enemy.isActive (Modular.Enemy.takeDamage enemy 1)
             then kills else S kills).
Proof.
  induction es as [| e es IH].
  - left. split; [reflexivity | constructor].
  - cbn [Modular.Game.bulletVsEnemies].
    destruct (Modular.Bullet.checkCollision sqrt bullet
                (Modular.Enemy.ent e)) eqn:C.
    + right. exists [], e, es. cbv zeta.
      split; [reflexivity |]. split; [constructor |].
      split; [exact C |].
      destruct (Modular.Enemy.isActive _); reflexivity.
    + destruct IH as [[E F] | [before [enemy [after [E [F [H R]]]]]]].
      * left. rewrite E. split; [reflexivity |].
        constructor; assumption.
      * right. exists (e :: before), enemy, after.
        rewrite R. subst es.
        split; [reflexivity |].
        split; [constructor; assumption |].
        split; [exact H | reflexivity].
Qed.

(** X10.  In the collision pass of the modular game a bullet hits at most
    one enemy: either it overlaps none and nothing changes, or the first
    enemy it overlaps, in the order of the loop, takes 1 damage, the bullet
    is deactivated, every other enemy is left as it was, and one kill is
    counted exactly if that enemy is no longer active. *)
Theorem X10_modular_bullet_hits_at_most_one (sqrt : Q -> Q)
    (bullet : Modular.Bullet.t) (es : list Modular.Enemy.t) (kills : nat) :
  Modular.Game.bulletVsEnemies sqrt bullet es kills = (bullet, es, kills)
  /\ Forall (fun e => Modular.Bullet.checkCollision sqrt bullet
                        (Modular.Enemy.ent e) = false) es
  \/ exists before enemy after,
       es = before ++ enemy :: after
       /\ Forall (fun e => Modular.Bullet.checkCollision sqrt bullet
                             (Modular.Enemy.ent e) = false) before
       /\ Modular.Bullet.checkCollision sqrt bullet
            (Modular.Enemy.ent enemy) = true
       /\ Modular.Game.bulletVsEnemies sqrt bullet es kills
          = (Modular.Bullet.set_active bullet false,
             before ++ Modular.Enemy.takeDamage enemy 1 :: after,
             if Modular.Enemy.isActive (Modular.Enemy.takeDamage enemy 1)
             then kills else S kills).
Proof. exact (modular_bullet_hits_at_most_one sqrt bullet es kills). Qed.

Lemma enemiesVsPlayer_invulnerable (sqrt : Q -> Q)
    (es : list Modular.Enemy.t) (p : Modular.Player.t) :
  Modular.Player.invulnerable p = true ->
  Modular.Game.enemiesVsPlayer sqrt es p = (es, p).
Proof.
  intros H. induction es as [| e es IH]; [reflexivity |].
  cbn [Modular.Game.enemiesVsPlayer].
  unfold Modular.Player.takeDamage. rewrite H.
  destruct (Modular.Enemy.canDamagePlayer _ _ _); rewrite IH; reflexivity.
Qed.

Lemma enemiesVsPlayer_cases (sqrt : Q -> Q)
    (es : list Modular.Enemy.t) (p : Modular.Player.t) :
  Modular.Game.enemiesVsPlayer sqrt es p = (es, p)
  \/ exists before enemy after,
       es = before ++ enemy :: after
       /\ Modular.Player.invulnerable p = false
       /\ Forall (fun e => Modular.Enemy.canDamagePlayer sqrt e
                             (Modular.Player.ent p) = false) before
       /\ Modular.Enemy.canDamagePlayer sqrt enemy (Modular.Player.ent p)
          = true
       /\ Modular.Game.enemiesVsPlayer sqrt es p
          = (before ++ Modular.Enemy.set_active enemy false :: after,
             snd (Modular.Player.takeDamage p (Modular.Enemy.damage enemy))).
Proof.
  destruct (Modular.Player.invulnerable p) eqn:I.
  { left. apply enemiesVsPlayer_invulnerable. exact I. }
  induction es as [| e es IH].
  - left. reflexivity.
  - cbn [Modular.Game.enemiesVsPlayer].
    destruct (Modular.Enemy.canDamagePlayer sqrt e (Modular.Player.ent p))
      eqn:C.
    + right. exists [], e, es.
      split; [reflexivity |]. split; [reflexivity |].
      split; [constructor |]. split; [exact C |].
      unfold Modular.Player.takeDamage. rewrite I. cbn [snd].
      rewrite enemiesVsPlayer_invulnerable by reflexivity.
      reflexivity.
    + destruct IH as [E | [before [enemy [after [E [_ [F [H R]]]]]]]].
      * left. rewrite E. reflexivity.
      * right. exists (e :: before), enemy, after.
        rewrite R. subst es.
        split; [reflexivity |]. split; [reflexivity |].
        split; [constructor; assumption |].
        split; [exact H | reflexivity].
Qed.

(** X11.  In the collision pass of the modular game at most one enemy
    damages the player: either no enemy and the player change, or the
    player was not invulnerable, the first enemy that touches the player,
    in the order of the loop, deals its damage once and is deactivated,
    and every other enemy is left as it was, touching or not. *)
Theorem X11_modular_one_contact_per_pass (sqrt : Q -> Q)
    (es : list Modular.Enemy.t) (p : Modular.Player.t) :
  Modular.Game.enemiesVsPlayer sqrt es p = (es, p)
  \/ exists before enemy after,
       es = before ++ enemy :: after
       /\ Modular.Player.invulnerable p = false
       /\ Forall (fun e => Modular.Enemy.canDamagePlayer sqrt e
                             (Modular.Player.ent p) = false) before
       /\ Modular.Enemy.canDamagePlayer sqrt enemy (Modular.Player.ent p)
          = true
       /\ Modular.Game.enemiesVsPlayer sqrt es p
          = (before ++ Modular.Enemy.set_active enemy false :: after,
             snd (Modular.Player.takeDamage p (Modular.Enemy.damage enemy))).
Proof. exact (enemiesVsPlayer_cases sqrt es p). Qed.

(** ** The tick of the modular game *)

Lemma iter_addKill_frame (n : nat) (g : Modular.Game.t) :
  let g' := Nat.iter n Modular.Game.addKill g in
  Modular.Game.player g' = Modular.Game.player g
  /\ Modular.Game.enemies g' = Modular.Game.enemies g
  /\ Modular.Game.bullets g' = Modular.Game.bullets g
  /\ Modular.Game.isPaused g' = Modular.Game.isPaused g
  /\ Modular.GameStateMachine.currentState (Modular.Game.stateMachine g')
     = Modular.GameStateMachine.currentState (Modular.Game.stateMachine g).
Proof.
  induction n as [| n IH]; cbn [Nat.iter nat_rect]; [repeat split |].
  cbv zeta in IH. destruct IH as [A [B [C [D E]]]].
  unfold Nat.iter in *. cbn [nat_rect].
  repeat split; cbn; assumption.
Qed.

Lemma modular_handleCollisions_frame (sqrt : Q -> Q) (g : Modular.Game.t) :
  let g' := Modular.Game.handleCollisions sqrt g in
  Modular.Game.isPaused g' = Modular.Game.isPaused g
  /\ Modular.GameStateMachine.currentState (Modular.Game.stateMachine g')
     = Modular.GameStateMachine.currentState (Modular.Game.stateMachine g).
Proof.
  unfold Modular.Game.handleCollisions.
  destruct (Modular.Game.bulletsVsEnemies _ _ _ _) as [[bs es] kills].
  cbv zeta.
  pose proof (iter_addKill_frame kills
                (Modular.Game.set_enemies
                   (Modular.Game.set_bullets g (rev bs)) (rev es))) as F.
  cbv zeta in F. destruct F as [_ [_ [_ [D E]]]].
  destruct (Modular.Game.enemiesVsPlayer _ _ _) as [es' p].
  cbn [Modular.Game.isPaused Modular.Game.stateMachine
       Modular.Game.set_player Modular.Game.set_enemies] in *.
  split; assumption.
Qed.

Lemma modular_update_diverges (sqrt : Q -> Q) (fuel : nat) :
  forall (g : Modular.Game.t) (dt : Q) (moveVector : option (Q * Q))
         (now : Q) (rng : Num.Rng),
    Modular.Game.isPaused g = false ->
    Modular.GameStateMachine.currentState (Modular.Game.stateMachine g)
    = Modular.PLAYING ->
    Modular.Game.update sqrt fuel g dt moveVector now rng = None.
Proof.
  induction fuel as [| fuel IH]; intros g dt mv now rng HP HS;
    [reflexivity |].
  cbn [Modular.Game.update]. rewrite HP. cbv zeta.
  set (g1 := match mv with
             | Some mv0 => _
             | None => _
             end).
  assert (P1 : Modular.Game.isPaused g1 = false
               /\ Modular.GameStateMachine.currentState
                    (Modular.Game.stateMachine g1) = Modular.PLAYING).
  { subst g1. destruct mv; split; cbn; assumption. }
  destruct P1 as [P1 S1].
  set (g2 := Modular.Game.handleCollisions sqrt
               (Modular.Game.updateBullets
                  (Modular.Game.updateEnemies sqrt g1 dt) dt)).
  pose proof (modular_handleCollisions_frame sqrt
                (Modular.Game.updateBullets
                   (Modular.Game.updateEnemies sqrt g1 dt) dt)) as F.
  cbv zeta in F. fold g2 in F. destruct F as [F1 F2].
  cbn [Modular.Game.updateBullets Modular.Game.updateEnemies
       Modular.Game.set_bullets Modular.Game.set_enemies
       Modular.Game.isPaused Modular.Game.stateMachine] in F1, F2.
  rewrite P1 in F1. rewrite S1 in F2.
  cbn [Modular.Game.cleanupEntities Modular.Game.set_bullets
       Modular.Game.set_enemies Modular.Game.stateMachine
       Modular.Game.bullets Modular.Game.enemies].
  rewrite F2.
  match goal with
  | |- context [if ?c then _ else _] => destruct c
  end.
  - unfold Modular.Game.spawnEnemy.
    destruct (Modular.Enemy.spawn _ _ _ _) as [enemy rng'].
    rewrite IH; [reflexivity | cbn; exact F1 | cbn; exact F2].
  - rewrite IH; [reflexivity | cbn; exact F1 | cbn; exact F2].
Qed.

(** X12.  [Game.update] of the modular game never returns while the game
    is PLAYING and not paused: [PlayingState.update] calls [game.update]
    again, which hands over to [PlayingState.update] again, whatever depth
    of calls is allowed.  Paused, or in another state, one call returns. *)
Theorem X12_modular_playing_update_never_returns (sqrt : Q -> Q)
    (fuel : nat) (g : Modular.Game.t) (dt : Q)
    (moveVector : option (Q * Q)) (now : Q) (rng : Num.Rng) :
  (Modular.Game.isPaused g = false ->
   Modular.GameStateMachine.currentState (Modular.Game.stateMachine g)
   = Modular.PLAYING ->
   Modular.Game.update sqrt fuel g dt moveVector now rng = None)
  /\ (Modular.Game.isPaused g = true
      \/ Modular.GameStateMachine.currentState (Modular.Game.stateMachine g)
         <> Modular.PLAYING ->
      Modular.Game.update sqrt (S fuel) g dt moveVector now rng <> None).
Proof.
  split; [apply modular_update_diverges |].
  intros H. cbn [Modular.Game.update].
  destruct (Modular.Game.isPaused g) eqn:HP; [discriminate |].
  destruct H as [H | H]; [discriminate |].
  cbv zeta.
  set (g1 := match moveVector with
             | Some mv0 => _
             | None => _
             end).
  assert (S1 : Modular.GameStateMachine.currentState
                 (Modular.Game.stateMachine g1)
               = Modular.GameStateMachine.currentState
                   (Modular.Game.stateMachine g)).
  { subst g1. destruct moveVector; reflexivity. }
  pose proof (modular_handleCollisions_frame sqrt
                (Modular.Game.updateBullets
                   (Modular.Game.updateEnemies sqrt g1 dt) dt)) as F.
  cbv zeta in F. destruct F as [_ F2].
  cbn [Modular.Game.updateBullets Modular.Game.updateEnemies
       Modular.Game.set_bullets Modular.Game.set_enemies
       Modular.Game.isPaused Modular.Game.stateMachine] in F2.
  cbn [Modular.Game.cleanupEntities Modular.Game.set_bullets
       Modular.Game.set_enemies Modular.Game.stateMachine
       Modular.Game.bullets Modular.Game.enemies].
  cbn [Modular.Game.updateBullets Modular.Game.updateEnemies
       Modular.Game.set_bullets Modular.Game.set_enemies].
  rewrite F2, S1.
  destruct (Modular.GameStateMachine.currentState
              (Modular.Game.stateMachine g));
    try discriminate.
  contradiction H. reflexivity.
Qed.

Lemma X12_modular_playing_update_never_returns_witness :
  Modular.Game.update Num.sqrt6 5 (Modular.Game.new 0) 16 (Some (1, 0)) 16
    Scenario.rng0 = None
  /\ Modular.Game.update Num.sqrt6 1
       (Modular.Game.mk (Modular.Player.new 600 400) [] []
          (Modular.GameStateMachine.new 0) true 0)
       16 (Some (1, 0)) 16 Scenario.rng0 <> None.
Proof.
  destruct (X12_modular_playing_update_never_returns Num.sqrt6 5
              (Modular.Game.new 0) 16 (Some (1, 0)) 16 Scenario.rng0)
    as [A _].
  destruct (X12_modular_playing_update_never_returns Num.sqrt6 0
              (Modular.Game.mk (Modular.Player.new 600 400) [] []
                 (Modular.GameStateMachine.new 0) true 0)
              16 (Some (1, 0)) 16 Scenario.rng0)
    as [_ B].
  split; [apply A; reflexivity | apply B; left; reflexivity].
Defined.

Lemma enemy_places_app (a b : list Modular.Enemy.t) :
  Inv.enemy_places (a ++ b) = Inv.enemy_places a ++ Inv.enemy_places b.
Proof. apply map_app. Qed.

Lemma enemy_places_rev (a : list Modular.Enemy.t) :
  Inv.enemy_places (rev a) = rev (Inv.enemy_places a).
Proof. apply map_rev. Qed.

Lemma bulletVsEnemies_places (sqrt : Q -> Q) (bullet : Modular.Bullet.t)
    (es : list Modular.Enemy.t) (kills : nat) :
  Inv.enemy_places
    (snd (fst (Modular.Game.bulletVsEnemies sqrt bullet es kills)))
  = Inv.enemy_places es.
Proof.
  destruct (modular_bullet_hits_at_most_one sqrt bullet es kills)
    as [[E _] | [before [enemy [after [E [_ [_ R]]]]]]].
  - rewrite E. reflexivity.
  - rewrite R. subst es. cbn [fst snd].
    rewrite !enemy_places_app. reflexivity.
Qed.

Lemma bulletsVsEnemies_places (sqrt : Q -> Q) (bs : list Modular.Bullet.t) :
  forall (es : list Modular.Enemy.t) (kills : nat),
    Inv.enemy_places
      (snd (fst (Modular.Game.bulletsVsEnemies sqrt bs es kills)))
    = Inv.enemy_places es.
Proof.
  induction bs as [| b bs IH]; intros es kills; [reflexivity |].
  cbn [Modular.Game.bulletsVsEnemies].
  pose proof (bulletVsEnemies_places sqrt b es kills) as P.
  destruct (Modular.Game.bulletVsEnemies sqrt b es kills)
    as [[b' es1] k1].
  specialize (IH es1 k1).
  destruct (Modular.Game.bulletsVsEnemies sqrt bs es1 k1)
    as [[bs' es2] k2].
  cbn [fst snd] in *. congruence.
Qed.

Lemma enemiesVsPlayer_places (sqrt : Q -> Q) (es : list Modular.Enemy.t)
    (p : Modular.Player.t) :
  Inv.enemy_places (fst (Modular.Game.enemiesVsPlayer sqrt es p))
  = Inv.enemy_places es
  /\ Inv.modular_place
       (Modular.Player.ent (snd (Modular.Game.enemiesVsPlayer sqrt es p)))
     = Inv.modular_place (Modular.Player.ent p).
Proof.
  destruct (enemiesVsPlayer_cases sqrt es p)
    as [E | [before [enemy [after [E [I [_ [_ R]]]]]]]].
  - rewrite E. split; reflexivity.
  - rewrite R. subst es. cbn [fst snd].
    rewrite !enemy_places_app. split; [reflexivity |].
    unfold Modular.Player.takeDamage. rewrite I. reflexivity.
Qed.

Lemma modular_handleCollisions_places (sqrt : Q -> Q) (g : Modular.Game.t) :
  let g' := Modular.Game.handleCollisions sqrt g in
  Inv.enemy_places (Modular.Game.enemies g')
  = Inv.enemy_places (Modular.Game.enemies g)
  /\ Inv.modular_place (Modular.Player.ent (Modular.Game.player g'))
     = Inv.modular_place (Modular.Player.ent (Modular.Game.player g)).
Proof.
  unfold Modular.Game.handleCollisions.
  pose proof (bulletsVsEnemies_places sqrt (rev (Modular.Game.bullets g))
                (rev (Modular.Game.enemies g)) 0) as B.
  destruct (Modular.Game.bulletsVsEnemies _ _ _ _) as [[bs es] kills].
  cbn [fst snd] in B. cbv zeta.
  pose proof (iter_addKill_frame kills
                (Modular.Game.set_enemies
                   (Modular.Game.set_bullets g (rev bs)) (rev es))) as F.
  cbv zeta in F. destruct F as [F1 [F2 _]].
  rewrite F1, F2.
  cbn [Modular.Game.set_enemies Modular.Game.set_bullets
       Modular.Game.enemies Modular.Game.player].
  pose proof (enemiesVsPlayer_places sqrt (rev (rev es))
                (Modular.Game.player g)) as [E1 E2].
  destruct (Modular.Game.enemiesVsPlayer _ _ _) as [es' p].
  cbn [fst snd] in E1, E2.
  cbn [Modular.Game.set_enemies Modular.Game.set_player
       Modular.Game.enemies Modular.Game.player].
  split; [| exact E2].
  rewrite enemy_places_rev, E1, rev_involutive, B, enemy_places_rev.
  apply rev_involutive.
Qed.

(** X13.  The collision pass of the modular game moves nothing and removes
    nothing: the enemies are as many as before, in the same order, each
    with the centre and the radius it had, and so is the player. *)
Theorem X13_modular_collisions_move_nothing (sqrt : Q -> Q)
    (g : Modular.Game.t) :
  let g' := Modular.Game.handleCollisions sqrt g in
  Inv.enemy_places (Modular.Game.enemies g')
  = Inv.enemy_places (Modular.Game.enemies g)
  /\ Inv.modular_place (Modular.Player.ent (Modular.Game.player g'))
     = Inv.modular_place (Modular.Player.ent (Modular.Game.player g)).
Proof. exact (modular_handleCollisions_places sqrt g). Qed.

Lemma modular_within_place (a b : Modular.Entity.t) :
  Inv.modular_place a = Inv.modular_place b ->
  Inv.modular_within b -> Inv.modular_within a.
Proof.
  unfold Inv.modular_place, Inv.modular_within.
  intros E. injection E as -> -> ->. auto.
Qed.

Lemma Forall_places (es1 es2 : list Modular.Enemy.t) :
  Inv.enemy_places es1 = Inv.enemy_places es2 ->
  Forall (fun e => Inv.modular_within (Modular.Enemy.ent e)) es2 ->
  Forall (fun e => Inv.modular_within (Modular.Enemy.ent e)) es1.
Proof.
  revert es2. induction es1 as [| a es1 IH]; intros [| b es2] E F;
    try discriminate; [constructor |].
  cbn in E. injection E as E1 E2. inversion F; subst.
  constructor.
  - apply (modular_within_place _ (Modular.Enemy.ent b)); [| assumption].
    unfold Inv.modular_place. congruence.
  - apply (IH es2); assumption.
Qed.

Lemma Forall_filter_keep (A : Type) (P : A -> Prop) (f : A -> bool)
    (l : list A) :
  Forall P l -> Forall P (filter f l).
Proof.
  induction 1 as [| a l H _ IH]; cbn [filter]; [constructor |].
  destruct (f a); [constructor |]; assumption.
Qed.

Lemma Forall_filter_true (A : Type) (f : A -> bool) (l : list A) :
  Forall (fun a => f a = true) (filter f l).
Proof.
  induction l as [| a l IH]; cbn [filter]; [constructor |].
  destruct (f a) eqn:E; [constructor |]; assumption.
Qed.

(** X14.  A tick of the modular game that returns (the game is not paused
    and its state is not PLAYING) leaves only active enemies and bullets,
    and every enemy's circle inside the arena, given enemies whose circles
    fit in the arena. *)
Theorem X14_modular_tick_invariant (sqrt : Q -> Q) (fuel : nat)
    (g : Modular.Game.t) (dt : Q) (moveVector : option (Q * Q)) (now : Q)
    (rng : Num.Rng)
    (Hrun : Modular.Game.isPaused g = false)
    (Hstate : Modular.GameStateMachine.currentState
                (Modular.Game.stateMachine g) <> Modular.PLAYING)
    (Hfit : Forall (fun e => Inv.modular_fits (Modular.Enemy.ent e))
                   (Modular.Game.enemies g)) :
  exists g',
    Modular.Game.update sqrt (S fuel) g dt moveVector now rng
    = Some (g', rng)
    /\ Forall (fun e => Modular.Enemy.isActive e = true)
              (Modular.Game.enemies g')
    /\ Forall (fun b => Modular.Bullet.isActive b = true)
              (Modular.Game.bullets g')
    /\ Forall (fun e => Inv.modular_within (Modular.Enemy.ent e))
              (Modular.Game.enemies g').
Proof.
  cbn [Modular.Game.update]. rewrite Hrun. cbv zeta.
  set (g1 := match moveVector with
             | Some mv0 => _
             | None => _
             end).
  assert (S1 : Modular.GameStateMachine.currentState
                 (Modular.Game.stateMachine g1)
               = Modular.GameStateMachine.currentState
                   (Modular.Game.stateMachine g)
               /\ Modular.Game.enemies g1 = Modular.Game.enemies g).
  { subst g1. destruct moveVector; split; reflexivity. }
  destruct S1 as [S1 N1].
  set (g2 := Modular.Game.updateBullets
               (Modular.Game.updateEnemies sqrt g1 dt) dt).
  pose proof (modular_handleCollisions_frame sqrt g2) as F.
  pose proof (modular_handleCollisions_places sqrt g2) as [PL _].
  cbv zeta in F. destruct F as [_ F2].
  set (g3 := Modular.Game.handleCollisions sqrt g2) in *.
  assert (W : Forall (fun e => Inv.modular_within (Modular.Enemy.ent e))
                     (Modular.Game.enemies g2)).
  { subst g2.
    cbn [Modular.Game.updateBullets Modular.Game.updateEnemies
         Modular.Game.set_bullets Modular.Game.set_enemies
         Modular.Game.enemies].
    apply Forall_filter_keep. rewrite N1. apply Forall_map.
    revert Hfit. apply Forall_impl. intros e He.
    apply modular_enemy_update_within. exact He. }
  assert (S3 : Modular.GameStateMachine.currentState
                 (Modular.Game.stateMachine
                    (Modular.Game.cleanupEntities g3))
               = Modular.GameStateMachine.currentState
                   (Modular.Game.stateMachine g)).
  { cbn [Modular.Game.cleanupEntities Modular.Game.set_bullets
         Modular.Game.set_enemies Modular.Game.stateMachine].
    rewrite F2. subst g2. cbn. exact S1. }
  exists (Modular.Game.cleanupEntities g3).
  split.
  - rewrite S3.
    destruct (Modular.GameStateMachine.currentState
                (Modular.Game.stateMachine g));
      try reflexivity.
    contradiction Hstate. reflexivity.
  - cbn [Modular.Game.cleanupEntities Modular.Game.set_bullets
         Modular.Game.set_enemies Modular.Game.enemies
         Modular.Game.bullets].
    split; [apply Forall_filter_true |].
    split; [apply Forall_filter_true |].
    apply Forall_filter_keep.
    exact (Forall_places _ _ PL W).
Qed.

Lemma X14_modular_tick_invariant_witness :
  exists g',
    Modular.Game.update Num.sqrt6 1 Scenario.over_modular_game 16 None 26
      Scenario.rng0
    = Some (g', Scenario.rng0)
    /\ Forall (fun e => Modular.Enemy.isActive e = true)
              (Modular.Game.enemies g')
    /\ Forall (fun b => Modular.Bullet.isActive b = true)
              (Modular.Game.bullets g')
    /\ Forall (fun e => Inv.modular_within (Modular.Enemy.ent e))
              (Modular.Game.enemies g').
Proof.
  apply X14_modular_tick_invariant.
  - reflexivity.
  - cbn. discriminate.
  - repeat constructor; vm_compute; discriminate.
Defined.

(** ** Reset and restart of the modular game *)

Lemma timer_reset_idempotent (tm : Modular.Timer.t) :
  Modular.Timer.reset (Modular.Timer.reset tm) = Modular.Timer.reset tm.
Proof. reflexivity. Qed.

Lemma player_reset_idempotent (a : Modular.Ammo) (p : Modular.Player.t) :
  Modular.Player.reset_with a (Modular.Player.reset_with a p)
  = Modular.Player.reset_with a p.
Proof.
  unfold Modular.Player.reset_with.
  cbn [Modular.Player.ent Modular.Player.weapons_machineGun
       Modular.Player.speed Modular.Player.invulnerabilityTimer
       Modular.Player.flashTimer Modular.Entity.radius
       Modular.Entity.maxHealth Modular.fireRate Modular.bulletSpeed
       Modular.ammo Modular.damage].
  rewrite !timer_reset_idempotent.
  destruct (Modular.ammo (Modular.Player.weapons_machineGun p));
    [reflexivity |].
  destruct a; reflexivity.
Qed.

(** X15.  [Game.reset] is idempotent; it leaves no enemy and no bullet, an
    unpaused game at time 0 and the player at the start position with full
    health, not invulnerable, and it does not touch the state machine, so
    neither the state nor the kill count. *)
Theorem X15_modular_reset_idempotent (g : Modular.Game.t) :
  let g' := Modular.Game.reset g in
  Modular.Game.reset g' = g'
  /\ Modular.Game.enemies g' = []
  /\ Modular.Game.bullets g' = []
  /\ Modular.Game.isPaused g' = false
  /\ Modular.Game.gameTime g' = 0
  /\ Modular.Game.stateMachine g' = Modular.Game.stateMachine g
  /\ Modular.Entity.health (Modular.Player.ent (Modular.Game.player g'))
     = Modular.Entity.maxHealth (Modular.Player.ent (Modular.Game.player g))
  /\ Modular.Entity.x (Modular.Player.ent (Modular.Game.player g'))
     = Modular.CONFIG.player_startX
  /\ Modular.Entity.y (Modular.Player.ent (Modular.Game.player g'))
     = Modular.CONFIG.player_startY
  /\ Modular.Player.invulnerable (Modular.Game.player g') = false.
Proof.
  cbv zeta. unfold Modular.Game.reset, Modular.Player.reset.
  cbn [Modular.Game.player Modular.Game.enemies Modular.Game.bullets
       Modular.Game.isPaused Modular.Game.gameTime
       Modular.Game.stateMachine].
  rewrite player_reset_idempotent.
  repeat split.
Qed.

(** X16.  [GameOverState.restart] from GAME_OVER returns to PLAYING with
    the kill count and the spawn timer at 0, the entities cleared and the
    player reset; called while the state is PLAYING it resets the entities
    and the player but keeps the state machine, and so the kill count. *)
Theorem X16_modular_restart (g : Modular.Game.t) (now : Q) :
  let g' := Modular.Game.restart g now in
  let sm' := Modular.Game.stateMachine g' in
  Modular.Game.player g' = Modular.Player.reset (Modular.Game.player g)
  /\ Modular.Game.enemies g' = []
  /\ Modular.Game.bullets g' = []
  /\ (Modular.GameStateMachine.currentState (Modular.Game.stateMachine g)
      = Modular.GAME_OVER ->
      Modular.GameStateMachine.currentState sm' = Modular.PLAYING
      /\ Modular.GameStateMachine.previousState sm'
         = Some Modular.GAME_OVER
      /\ Modular.GameStateMachine.stateStartTime sm' = now
      /\ Modular.GameStateMachine.playing sm'
         = Modular.PlayingState.mk 0 0)
  /\ (Modular.GameStateMachine.currentState (Modular.Game.stateMachine g)
      = Modular.PLAYING ->
      sm' = Modular.Game.stateMachine g).
Proof.
  cbv zeta. unfold Modular.Game.restart.
  cbn [Modular.Game.reset Modular.Game.set_stateMachine
       Modular.Game.player Modular.Game.enemies Modular.Game.bullets
       Modular.Game.stateMachine].
  split; [reflexivity |]. split; [reflexivity |]. split; [reflexivity |].
  unfold Modular.GameStateMachine.setState.
  split; intros H; rewrite H; cbn; rewrite ?H; repeat split.
Qed.

Lemma X16_modular_restart_witness :
  let g' := Modular.Game.restart Scenario.over_modular_game 50 in
  let sm' := Modular.Game.stateMachine g' in
  Modular.GameStateMachine.currentState sm' = Modular.PLAYING
  /\ Modular.GameStateMachine.previousState sm' = Some Modular.GAME_OVER
  /\ Modular.GameStateMachine.stateStartTime sm' = 50
  /\ Modular.GameStateMachine.playing sm' = Modular.PlayingState.mk 0 0.
Proof.
  destruct (X16_modular_restart Scenario.over_modular_game 50)
    as [_ [_ [_ [A _]]]].
  apply A. reflexivity.
Defined.

(** ** The collision pass of the registry game *)

Lemma registry_enemy_takeDamage_place (e : Registry.Enemy.t) (d : Z) :
  Inv.registry_place (Registry.Enemy.ent (Registry.Enemy.takeDamage e d))
  = Inv.registry_place (Registry.Enemy.ent e).
Proof.
  unfold Registry.Enemy.takeDamage, Registry.Entity.takeDamage.
  destruct (Registry.Enemy.kind e); cbv zeta;
    cbn [Registry.Enemy.ent Registry.Enemy.set_ent Registry.Enemy.set_kind];
    destruct (_ <=? 0)%Z; reflexivity.
Qed.

Lemma registry_player_takeDamage_place (p : Registry.Player.t) (d : Z) :
  Inv.registry_place
    (Registry.Player.ent (snd (Registry.Player.takeDamage p d)))
  = Inv.registry_place (Registry.Player.ent p).
Proof.
  unfold Registry.Player.takeDamage, Registry.Entity.takeDamage.
  destruct (Num.gtb _ _); [reflexivity |].
  destruct (Registry.Player.creatorMode p); [reflexivity |].
  cbv zeta. cbn [snd Registry.Player.ent Registry.Player.set_ent
                 Registry.Player.set_timers].
  destruct (_ <=? 0)%Z; reflexivity.
Qed.

Lemma collidePlayerEnemies_place (sqrt : Q -> Q)
    (es : list Registry.Enemy.t) :
  forall p : Registry.Player.t,
    Inv.registry_place
      (Registry.Player.ent (Registry.Game.collidePlayerEnemies sqrt p es))
    = Inv.registry_place (Registry.Player.ent p).
Proof.
  induction es as [| e es IH]; intros p; [reflexivity |].
  cbn [Registry.Game.collidePlayerEnemies]. rewrite IH.
  destruct (Registry.CollisionSystem.checkCircleCollision _ _ _);
    [| reflexivity].
  destruct (Registry.Player.canTakeDamage p); [| reflexivity].
  apply registry_player_takeDamage_place.
Qed.

Lemma collideProjectileEnemies_places (sqrt : Q -> Q)
    (es : list Registry.Enemy.t) :
  forall (pr : Registry.Projectile.t) (kills : Z),
    let r := Registry.Game.collideProjectileEnemies sqrt pr es kills in
    Inv.registry_enemy_places (snd (fst r)) = Inv.registry_enemy_places es
    /\ Inv.registry_place (Registry.Projectile.ent (fst (fst r)))
       = Inv.registry_place (Registry.Projectile.ent pr)
    /\ Registry.Projectile.owner (fst (fst r)) = Registry.Projectile.owner pr
    /\ (kills <= snd r)%Z.
Proof.
  induction es as [| e es IH]; intros pr kills.
  - cbn. repeat split. lia.
  - cbv zeta. cbn [Registry.Game.collideProjectileEnemies].
    destruct (Registry.CollisionSystem.checkCircleCollision _ _ _).
    + cbv zeta.
      match goal with
      | |- context [Registry.Game.collideProjectileEnemies sqrt ?a es ?k] =>
          specialize (IH a k);
          destruct (Registry.Game.collideProjectileEnemies sqrt a es k)
            as [[pr' es'] k']
      end.
      cbv zeta in IH. cbn [fst snd] in IH |- *.
      destruct IH as [A [B [C D]]].
      unfold Inv.registry_enemy_places in *. cbn [map].
      rewrite A, registry_enemy_takeDamage_place.
      split; [reflexivity |]. split; [rewrite B; reflexivity |].
      split; [rewrite C; reflexivity |].
      destruct (negb _); lia.
    + specialize (IH pr kills).
      destruct (Registry.Game.collideProjectileEnemies sqrt pr es kills)
        as [[pr' es'] k'].
      cbv zeta in IH. cbn [fst snd] in IH |- *.
      destruct IH as [A [B [C D]]].
      unfold Inv.registry_enemy_places in *. cbn [map].
      rewrite A. repeat split; assumption.
Qed.

Lemma collideProjectilesEnemies_places (sqrt : Q -> Q)
    (ps : list Registry.Projectile.t) :
  forall (es : list Registry.Enemy.t) (kills : Z),
    let r := Registry.Game.collideProjectilesEnemies sqrt ps es kills in
    Inv.registry_enemy_places (snd (fst r)) = Inv.registry_enemy_places es
    /\ Inv.registry_projectile_places (fst (fst r))
       = Inv.registry_projectile_places ps
    /\ map Registry.Projectile.owner (fst (fst r))
       = map Registry.Projectile.owner ps
    /\ (kills <= snd r)%Z.
Proof.
  induction ps as [| pr ps IH]; intros es kills.
  - cbn. repeat split. lia.
  - cbv zeta. cbn [Registry.Game.collideProjectilesEnemies].
    destruct (Registry.Projectile.is_player _).
    + pose proof (collideProjectileEnemies_places sqrt es pr kills) as P.
      destruct (Registry.Game.collideProjectileEnemies sqrt pr es kills)
        as [[pr1 es1] k1].
      specialize (IH es1 k1).
      destruct (Registry.Game.collideProjectilesEnemies sqrt ps es1 k1)
        as [[ps2 es2] k2].
      cbv zeta in P, IH. cbn [fst snd] in P, IH |- *.
      destruct P as [P1 [P2 [P3 P4]]]. destruct IH as [A [B [C D]]].
      unfold Inv.registry_projectile_places in *. cbn [map].
      rewrite A, B, C, P1, P2, P3. repeat split. lia.
    + specialize (IH es kills).
      destruct (Registry.Game.collideProjectilesEnemies sqrt ps es kills)
        as [[ps2 es2] k2].
      cbv zeta in IH. cbn [fst snd] in IH |- *.
      destruct IH as [A [B [C D]]].
      unfold Inv.registry_projectile_places in *. cbn [map].
      rewrite A, B, C. repeat split. lia.
Qed.

Lemma collideProjectilesPlayer_places (sqrt : Q -> Q)
    (ps : list Registry.Projectile.t) :
  forall p : Registry.Player.t,
    let r := Registry.Game.collideProjectilesPlayer sqrt ps p in
    Inv.registry_projectile_places (fst r)
    = Inv.registry_projectile_places ps
    /\ Inv.registry_place (Registry.Player.ent (snd r))
       = Inv.registry_place (Registry.Player.ent p).
Proof.
  induction ps as [| pr ps IH]; intros p; [split; reflexivity |].
  cbv zeta. cbn [Registry.Game.collideProjectilesPlayer].
  match goal with
  | |- context [let '(_, _) := ?X in _] =>
      assert (E : Inv.registry_place (Registry.Projectile.ent (fst X))
                  = Inv.registry_place (Registry.Projectile.ent pr)
                  /\ Inv.registry_place (Registry.Player.ent (snd X))
                     = Inv.registry_place (Registry.Player.ent p));
      [| destruct X as [pr1 p1]]
  end.
  { destruct (negb _ && negb _); [| split; reflexivity].
    destruct (Registry.CollisionSystem.checkCircleCollision _ _ _);
      [| split; reflexivity].
    destruct (Registry.Player.canTakeDamage p); [| split; reflexivity].
    cbn [fst snd]. split; [reflexivity |].
    apply registry_player_takeDamage_place. }
  specialize (IH p1).
  destruct (Registry.Game.collideProjectilesPlayer sqrt ps p1) as [ps2 p2].
  cbv zeta in IH. cbn [fst snd] in E, IH |- *.
  destruct E as [E1 E2]. destruct IH as [A B].
  unfold Inv.registry_projectile_places in *. cbn [map].
  rewrite A, B, E1, E2. split; reflexivity.
Qed.

Lemma registry_handleCollisions_places (sqrt : Q -> Q)
    (g : Registry.Game.t) :
  let g' := Registry.Game.handleCollisions sqrt g in
  Inv.registry_enemy_places (Registry.Game.enemies g')
  = Inv.registry_enemy_places (Registry.Game.enemies g)
  /\ Inv.registry_projectile_places (Registry.Game.projectiles g')
     = Inv.registry_projectile_places (Registry.Game.projectiles g)
  /\ Inv.registry_place (Registry.Player.ent (Registry.Game.player g'))
     = Inv.registry_place (Registry.Player.ent (Registry.Game.player g))
  /\ (Registry.Game.killCount g <= Registry.Game.killCount g')%Z
  /\ Registry.Game.enemySpawnTimer g' = Registry.Game.enemySpawnTimer g
  /\ Registry.Game.weapons_pistol g' = Registry.Game.weapons_pistol g
  /\ Registry.Game.weapons_machine_gun g'
     = Registry.Game.weapons_machine_gun g.
Proof.
  unfold Registry.Game.handleCollisions. cbv zeta.
  cbn [Registry.Game.set_player Registry.Game.projectiles
       Registry.Game.enemies Registry.Game.killCount].
  pose proof (collideProjectilesEnemies_places sqrt
                (Registry.Game.projectiles g) (Registry.Game.enemies g)
                (Registry.Game.killCount g)) as P.
  destruct (Registry.Game.collideProjectilesEnemies _ _ _ _)
    as [[ps es] kills].
  cbv zeta in P. cbn [fst snd] in P. destruct P as [P1 [P2 [_ P4]]].
  cbn [Registry.Game.set_killCount Registry.Game.set_enemies
       Registry.Game.set_projectiles Registry.Game.projectiles
       Registry.Game.player].
  pose proof (collideProjectilesPlayer_places sqrt ps
                (Registry.Game.collidePlayerEnemies sqrt
                   (Registry.Game.player g) (Registry.Game.enemies g)))
    as Q.
  destruct (Registry.Game.collideProjectilesPlayer _ _ _) as [ps' p'].
  cbv zeta in Q. cbn [fst snd] in Q. destruct Q as [Q1 Q2].
  cbn [Registry.Game.set_player Registry.Game.set_projectiles
       Registry.Game.enemies Registry.Game.projectiles
       Registry.Game.player Registry.Game.killCount
       Registry.Game.enemySpawnTimer Registry.Game.weapons_pistol
       Registry.Game.weapons_machine_gun].
  cbn [Registry.Game.set_killCount Registry.Game.set_enemies
       Registry.Game.set_projectiles Registry.Game.set_player
       Registry.Game.enemies Registry.Game.projectiles
       Registry.Game.player Registry.Game.killCount
       Registry.Game.enemySpawnTimer Registry.Game.weapons_pistol
       Registry.Game.weapons_machine_gun].
  rewrite Q1, Q2, P1, P2, collidePlayerEnemies_place.
  repeat split. exact P4.
Qed.

(** X17.  [handleCollisions] of the registry driver moves nothing and
    removes nothing: enemies, projectiles and the player keep their number,
    order, centres and radii (dead ones are culled elsewhere); the kill
    count does not decrease; the spawn timer and both weapons are
    untouched. *)
Theorem X17_registry_collisions_move_nothing (sqrt : Q -> Q)
    (g : Registry.Game.t) :
  let g' := Registry.Game.handleCollisions sqrt g in
  Inv.registry_enemy_places (Registry.Game.enemies g')
  = Inv.registry_enemy_places (Registry.Game.enemies g)
  /\ Inv.registry_projectile_places (Registry.Game.projectiles g')
     = Inv.registry_projectile_places (Registry.Game.projectiles g)
  /\ Inv.registry_place (Registry.Player.ent (Registry.Game.player g'))
     = Inv.registry_place (Registry.Player.ent (Registry.Game.player g))
  /\ (Registry.Game.killCount g <= Registry.Game.killCount g')%Z
  /\ Registry.Game.enemySpawnTimer g' = Registry.Game.enemySpawnTimer g
  /\ Registry.Game.weapons_pistol g' = Registry.Game.weapons_pistol g
  /\ Registry.Game.weapons_machine_gun g'
     = Registry.Game.weapons_machine_gun g.
Proof. exact (registry_handleCollisions_places sqrt g). Qed.

(** X18.  A tick of the registry driver in GAME_OVER is exactly one
    collision pass: it does not call [Math.random()], nothing moves and
    nothing is spawned or culled, the spawn timer and the weapons stay, and
    the state machine and the HUD requests are as before. *)
Theorem registry_game_over_tick_is_collision_pass
    (sqrt : Q -> Q) (atan2 : Q -> Q -> Q) (cos sin : Q -> Q) (PI : Q)
    (g : Registry.Game.t) (tk : Registry.Game.Tick) (rng : Num.Rng)
    (Hover : Registry.GameStateMachine.currentState
               (Registry.Game.stateMachine g) = Registry.GAME_OVER) :
  let '(g', rng') := Registry.Game.update sqrt atan2 cos sin PI g tk rng in
  g' = Registry.Game.handleCollisions sqrt g
  /\ rng' = rng
  /\ Inv.registry_enemy_places (Registry.Game.enemies g')
     = Inv.registry_enemy_places (Registry.Game.enemies g)
  /\ Inv.registry_projectile_places (Registry.Game.projectiles g')
     = Inv.registry_projectile_places (Registry.Game.projectiles g)
  /\ Inv.registry_place (Registry.Player.ent (Registry.Game.player g'))
     = Inv.registry_place (Registry.Player.ent (Registry.Game.player g))
  /\ Registry.Game.enemySpawnTimer g' = Registry.Game.enemySpawnTimer g
  /\ Registry.Game.stateMachine g' = Registry.Game.stateMachine g
  /\ Registry.Game.ui g' = Registry.Game.ui g.
Proof.
  rewrite (update_from_game_over sqrt atan2 cos sin PI g tk rng Hover).
  destruct (registry_handleCollisions_places sqrt g)
    as [A [B [C [_ [D _]]]]].
  destruct (handleCollisions_frame sqrt g) as [E F].
  repeat split; assumption.
Qed.

Lemma registry_game_over_tick_is_collision_pass_witness :
  let g := fst (Registry.Game.update Num.sqrt6 Scenario.flat2 Scenario.flat
                  Scenario.flat 3 Scenario.C2_registry_game
                  Scenario.C2_registry_tick Scenario.rng0) in
  Registry.Game.stateMachine g
  = Registry.Game.stateMachine Scenario.C2_registry_game
  /\ Inv.registry_enemy_places (Registry.Game.enemies g)
     = Inv.registry_enemy_places
         (Registry.Game.enemies Scenario.C2_registry_game).
Proof.
  assert (H : Registry.GameStateMachine.currentState
                (Registry.Game.stateMachine Scenario.C2_registry_game)
              = Registry.GAME_OVER) by reflexivity.
  pose proof (registry_game_over_tick_is_collision_pass Num.sqrt6
                Scenario.flat2 Scenario.flat Scenario.flat 3
                Scenario.C2_registry_game Scenario.C2_registry_tick
                Scenario.rng0 H) as W.
  destruct (Registry.Game.update Num.sqrt6 Scenario.flat2 Scenario.flat
              Scenario.flat 3 Scenario.C2_registry_game
              Scenario.C2_registry_tick Scenario.rng0) as [g' rng'].
  cbn [fst].
  destruct W as [_ [_ [A [_ [_ [_ [B _]]]]]]].
  split; [exact B | exact A].
Defined.

(** ** Owners of projectiles *)

Lemma collideProjectilesEnemies_foreign (sqrt : Q -> Q)
    (ps : list Registry.Projectile.t) :
  forall (es : list Registry.Enemy.t) (kills : Z),
    Forall (fun p => Registry.Projectile.owner p
                     <> Registry.Projectile.OwnerPlayer) ps ->
    Registry.Game.collideProjectilesEnemies sqrt ps es kills
    = (ps, es, kills).
Proof.
  induction ps as [| pr ps IH]; intros es kills F; [reflexivity |].
  inversion F as [| a l H1 H2]; subst.
  cbn [Registry.Game.collideProjectilesEnemies].
  destruct (Registry.Projectile.owner pr) eqn:O; try congruence;
    cbn [Registry.Projectile.is_player]; rewrite (IH es kills H2);
    reflexivity.
Qed.

Lemma collideProjectilesPlayer_own (sqrt : Q -> Q)
    (ps : list Registry.Projectile.t) :
  forall p : Registry.Player.t,
    Forall (fun pr => Registry.Projectile.owner pr
                      <> Registry.Projectile.OwnerShooter) ps ->
    Registry.Game.collideProjectilesPlayer sqrt ps p = (ps, p).
Proof.
  induction ps as [| pr ps IH]; intros p F; [reflexivity |].
  inversion F as [| a l H1 H2]; subst.
  cbn [Registry.Game.collideProjectilesPlayer].
  destruct (Registry.Projectile.owner pr) eqn:O; try congruence;
    cbn [Registry.Projectile.is_player Registry.Projectile.is_null negb
         andb];
    rewrite (IH p H2); reflexivity.
Qed.

Lemma fire_result (sqrt : Q -> Q) (w : Registry.Weapon.t)
    (now fromX fromY targetX targetY : Q)
    (projectiles : list Registry.Projectile.t) :
  let r := Registry.Weapon.fire sqrt w now fromX fromY targetX targetY
             projectiles in
  (fst (fst r) = false /\ snd (fst r) = w /\ snd r = projectiles)
  \/ (exists projectile,
        fst (fst r) = true
        /\ snd r = projectiles ++ [projectile]
        /\ Registry.Projectile.owner projectile
           = Registry.Projectile.OwnerPlayer
        /\ Registry.Projectile.isAlive projectile = true
        /\ Registry.Projectile.damage projectile = 1%Z
        /\ Registry.Entity.x (Registry.Projectile.ent projectile) = fromX
        /\ Registry.Entity.y (Registry.Projectile.ent projectile) = fromY
        /\ Registry.Weapon.canFire w now = true
        /\ snd (fst r)
           = Registry.Weapon.mk (Registry.Weapon.class w)
               (Registry.Weapon.fireRate w) (Registry.Weapon.ammo w)
               (if (Registry.Weapon.ammo w >? 0)%Z
                then (Registry.Weapon.currentAmmo w - 1)%Z
                else Registry.Weapon.currentAmmo w)
               now).
Proof.
  cbv zeta. unfold Registry.Weapon.fire.
  destruct (Registry.Weapon.canFire w now) eqn:C; cbn [negb];
    [| left; repeat split].
  unfold Registry.Weapon.createProjectile. cbv zeta.
  destruct (Num.eqb _ 0); [left; repeat split |].
  right. destruct (Registry.Weapon.class w); eexists; repeat split.
Qed.

(** X19.  [Weapon.fire] is all or nothing: a call that returns false
    leaves the weapon and the projectile list as they were; a call that
    returns true was allowed by [canFire], appended exactly one live
    projectile of the player, of damage 1, at the firing position, set
    [lastFireTime] to the clock, and took one round exactly if the weapon
    counts ammunition. *)
Theorem X19_registry_fire_all_or_nothing (sqrt : Q -> Q)
    (w : Registry.Weapon.t) (now fromX fromY targetX targetY : Q)
    (projectiles : list Registry.Projectile.t) :
  let r := Registry.Weapon.fire sqrt w now fromX fromY targetX targetY
             projectiles in
  (fst (fst r) = false /\ snd (fst r) = w /\ snd r = projectiles)
  \/ (exists projectile,
        fst (fst r) = true
        /\ snd r = projectiles ++ [projectile]
        /\ Registry.Projectile.owner projectile
           = Registry.Projectile.OwnerPlayer
        /\ Registry.Projectile.isAlive projectile = true
        /\ Registry.Projectile.damage projectile = 1%Z
        /\ Registry.Entity.x (Registry.Projectile.ent projectile) = fromX
        /\ Registry.Entity.y (Registry.Projectile.ent projectile) = fromY
        /\ Registry.Weapon.canFire w now = true
        /\ snd (fst r)
           = Registry.Weapon.mk (Registry.Weapon.class w)
               (Registry.Weapon.fireRate w) (Registry.Weapon.ammo w)
               (if (Registry.Weapon.ammo w >? 0)%Z
                then (Registry.Weapon.currentAmmo w - 1)%Z
                else Registry.Weapon.currentAmmo w)
               now).
Proof.
  exact (fire_result sqrt w now fromX fromY targetX targetY projectiles).
Qed.

(** X20.  No friendly fire in [handleCollisions]: if no projectile is the
    player's, the enemies and the kill count are as before; if no
    projectile is a Shooter's, the projectiles are as before and the player
    is changed by the contact with enemies only. *)
Theorem X20_registry_no_friendly_fire (sqrt : Q -> Q)
    (g : Registry.Game.t) :
  let g' := Registry.Game.handleCollisions sqrt g in
  (Forall (fun p => Registry.Projectile.owner p
                    <> Registry.Projectile.OwnerPlayer)
          (Registry.Game.projectiles g) ->
   Registry.Game.enemies g' = Registry.Game.enemies g
   /\ Registry.Game.killCount g' = Registry.Game.killCount g)
  /\ (Forall (fun p => Registry.Projectile.owner p
                       <> Registry.Projectile.OwnerShooter)
             (Registry.Game.projectiles g) ->
      Registry.Game.player g'
      = Registry.Game.collidePlayerEnemies sqrt (Registry.Game.player g)
          (Registry.Game.enemies g)
      /\ Inv.registry_projectile_places (Registry.Game.projectiles g')
         = Inv.registry_projectile_places (Registry.Game.projectiles g)
      /\ map Registry.Projectile.owner (Registry.Game.projectiles g')
         = map Registry.Projectile.owner (Registry.Game.projectiles g)).
Proof.
  cbv zeta. unfold Registry.Game.handleCollisions. cbv zeta.
  cbn [Registry.Game.set_player Registry.Game.projectiles
       Registry.Game.enemies Registry.Game.killCount].
  split; intros F.
  - rewrite (collideProjectilesEnemies_foreign sqrt _ _ _ F).
    cbn [Registry.Game.set_killCount Registry.Game.set_enemies
         Registry.Game.set_projectiles Registry.Game.projectiles
         Registry.Game.player].
    destruct (Registry.Game.collideProjectilesPlayer _ _ _) as [ps' p'].
    split; reflexivity.
  - pose proof (collideProjectilesEnemies_places sqrt
                  (Registry.Game.projectiles g) (Registry.Game.enemies g)
                  (Registry.Game.killCount g)) as P.
    destruct (Registry.Game.collideProjectilesEnemies _ _ _ _)
      as [[ps es] kills].
    cbv zeta in P. cbn [fst snd] in P. destruct P as [_ [P2 [P3 _]]].
    cbn [Registry.Game.set_killCount Registry.Game.set_enemies
         Registry.Game.set_projectiles Registry.Game.projectiles
         Registry.Game.player].
    assert (F' : Forall (fun p => Registry.Projectile.owner p
                                  <> Registry.Projectile.OwnerShooter) ps).
    { apply Forall_forall. intros pr Hin.
      apply (in_map Registry.Projectile.owner) in Hin.
      rewrite P3 in Hin. apply in_map_iff in Hin.
      destruct Hin as [pr0 [E Hin0]].
      rewrite Forall_forall in F. rewrite <- E. exact (F pr0 Hin0). }
    rewrite (collideProjectilesPlayer_own sqrt ps _ F').
    cbn [Registry.Game.set_player Registry.Game.set_projectiles
         Registry.Game.projectiles Registry.Game.player].
    repeat split; assumption.
Qed.

Lemma X20_registry_no_friendly_fire_witness :
  Registry.Game.enemies
    (Registry.Game.handleCollisions Num.sqrt6 Scenario.C9_game)
  = Registry.Game.enemies Scenario.C9_game
  /\ Registry.Game.player
       (Registry.Game.handleCollisions Num.sqrt6 Scenario.C1_registry_game)
     = Registry.Game.collidePlayerEnemies Num.sqrt6
         (Registry.Game.player Scenario.C1_registry_game)
         (Registry.Game.enemies Scenario.C1_registry_game).
Proof.
  destruct (X20_registry_no_friendly_fire Num.sqrt6 Scenario.C9_game)
    as [A _].
  destruct (X20_registry_no_friendly_fire Num.sqrt6
              Scenario.C1_registry_game) as [_ B].
  split.
  - apply A. constructor.
  - apply B. repeat constructor. discriminate.
Defined.

(** ** Sequences of shots of a registry weapon *)

(** X21.  Over any sequence of [Weapon.fire] calls on one weapon, with
    arbitrary clock readings: successive successful shots are at least
    [fireRate] apart, the first at least [fireRate] after the weapon's
    [lastFireTime]; each success appends one projectile of the player and
    nothing else is appended; a weapon that counts ammunition loses one
    round per success and a weapon with unlimited ammunition none; the
    rounds left never become negative. *)
Theorem X21_registry_fire_sequence (sqrt : Q -> Q)
    (shots : list Calls.RShot) (w : Registry.Weapon.t)
    (projectiles : list Registry.Projectile.t) :
  let r := Calls.fire_all sqrt w shots projectiles in
  let times := Calls.fired (fst (fst r)) in
  let w' := snd (fst r) in
  Calls.spaced (Registry.Weapon.fireRate w)
               (Registry.Weapon.lastFireTime w) times
  /\ (exists added,
        snd r = projectiles ++ added
        /\ length added = length times
        /\ Forall (fun p => Registry.Projectile.owner p
                            = Registry.Projectile.OwnerPlayer) added)
  /\ Registry.Weapon.fireRate w' = Registry.Weapon.fireRate w
  /\ Registry.Weapon.ammo w' = Registry.Weapon.ammo w
  /\ Registry.Weapon.class w' = Registry.Weapon.class w
  /\ Registry.Weapon.currentAmmo w'
     = (if (Registry.Weapon.ammo w >? 0)%Z
        then Registry.Weapon.currentAmmo w - Z.of_nat (length times)
        else Registry.Weapon.currentAmmo w)%Z
  /\ ((0 <= Registry.Weapon.currentAmmo w)%Z ->
      (0 <= Registry.Weapon.currentAmmo w')%Z).
Proof.
  revert w projectiles.
  induction shots as [| s shots IH]; intros w ps.
  - cbv zeta. cbn [Calls.fire_all Calls.fired fst snd length Calls.spaced].
    split; [exact I |].
    split; [exists []; rewrite app_nil_r; repeat split; constructor |].
    repeat split; try lia.
    destruct (_ >? 0)%Z; cbn; lia.
  - cbv zeta. cbn [Calls.fire_all].
    pose proof (fire_result sqrt w (Calls.rshot_now s) (Calls.rshot_fromX s)
                  (Calls.rshot_fromY s) (Calls.rshot_targetX s)
                  (Calls.rshot_targetY s) ps) as R.
    cbv zeta in R.
    destruct (Registry.Weapon.fire sqrt w _ _ _ _ _ ps) as [[ok w1] ps1].
    cbn [fst snd] in R.
    specialize (IH w1 ps1). cbv zeta in IH.
    destruct (Calls.fire_all sqrt w1 shots ps1) as [[rs w2] ps2].
    cbn [fst snd] in IH |- *.
    destruct IH as [I1 [[added [A1 [A2 A3]]] [I4 [I5 [I6 [I7 I8]]]]]].
    destruct R as [[R1 [R2 R3]] | [pr [R1 [R2 [O [_ [_ [_ [_ [R3 R4]]]]]]]]]];
      subst ok.
    + subst w1 ps1. cbn [Calls.fired].
      split; [exact I1 |].
      split; [exists added; repeat split; assumption |].
      repeat split; assumption.
    + subst ps1. cbn [Calls.fired Calls.spaced length].
      rewrite R4 in I1, I4, I5, I6, I7, I8.
      cbn [Registry.Weapon.fireRate Registry.Weapon.lastFireTime
           Registry.Weapon.ammo Registry.Weapon.class
           Registry.Weapon.currentAmmo] in I1, I4, I5, I6, I7, I8.
      assert (G : Registry.Weapon.fireRate w
                  <= Calls.rshot_now s - Registry.Weapon.lastFireTime w
                  /\ ((Registry.Weapon.ammo w >? 0)%Z = true ->
                      (0 < Registry.Weapon.currentAmmo w)%Z)).
      { unfold Registry.Weapon.canFire in R3.
        destruct (Registry.Weapon.class w); cbv zeta in R3;
          apply andb_prop in R3; destruct R3 as [T A];
          apply geb_true in T; (split; [exact T |]); intros P.
        - apply orb_prop in A. destruct A as [A | A]; lia.
        - lia. }
      destruct G as [G1 G2].
      split; [split; assumption |].
      split.
      { exists (pr :: added). rewrite A1, <- app_assoc.
        split; [reflexivity |].
        split; [cbn [length]; lia |].
        constructor; assumption. }
      split; [exact I4 |]. split; [exact I5 |]. split; [exact I6 |].
      destruct (Registry.Weapon.ammo w >? 0)%Z eqn:P.
      * specialize (G2 eq_refl). split; [lia |]. intros _.
        apply I8. lia.
      * split; [exact I7 | exact I8].
Qed.

(** ** Health and liveness in the registry game *)

Lemma entity_takeDamage_sound (e : Registry.Entity.t) (d : Z) :
  Inv.registry_sound (Registry.Entity.takeDamage e d).
Proof.
  unfold Inv.registry_sound, Registry.Entity.takeDamage. cbv zeta.
  destruct (_ <=? 0)%Z eqn:E; [reflexivity |].
  cbn [Registry.Entity.hp Registry.Entity.set_hp] in *. lia.
Qed.

Lemma enemy_takeDamage_sound (e : Registry.Enemy.t) (d : Z) :
  Inv.registry_sound (Registry.Enemy.ent (Registry.Enemy.takeDamage e d)).
Proof.
  unfold Registry.Enemy.takeDamage.
  destruct (Registry.Enemy.kind e); apply entity_takeDamage_sound.
Qed.

Lemma player_takeDamage_sound (p : Registry.Player.t) (d : Z) :
  Inv.registry_sound (Registry.Player.ent p) ->
  Inv.registry_sound
    (Registry.Player.ent (snd (Registry.Player.takeDamage p d))).
Proof.
  intros H. unfold Registry.Player.takeDamage.
  destruct (Num.gtb _ _); [exact H |].
  destruct (Registry.Player.creatorMode p); [exact H |].
  apply entity_takeDamage_sound.
Qed.

Lemma sound_vitals (a b : Registry.Entity.t) :
  Registry.Entity.hp a = Registry.Entity.hp b ->
  Registry.Entity.alive a = Registry.Entity.alive b ->
  Inv.registry_sound b -> Inv.registry_sound a.
Proof. unfold Inv.registry_sound. intros -> ->. auto. Qed.

Lemma collidePlayerEnemies_sound (sqrt : Q -> Q)
    (es : list Registry.Enemy.t) :
  forall p : Registry.Player.t,
    Inv.registry_sound (Registry.Player.ent p) ->
    Inv.registry_sound
      (Registry.Player.ent (Registry.Game.collidePlayerEnemies sqrt p es)).
Proof.
  induction es as [| e es IH]; intros p H; [exact H |].
  cbn [Registry.Game.collidePlayerEnemies]. apply IH.
  destruct (Registry.CollisionSystem.checkCircleCollision _ _ _);
    [| exact H].
  destruct (Registry.Player.canTakeDamage p); [| exact H].
  apply player_takeDamage_sound. exact H.
Qed.

Lemma collideProjectileEnemies_sound (sqrt : Q -> Q)
    (es : list Registry.Enemy.t) :
  forall (pr : Registry.Projectile.t) (kills : Z),
    Forall (fun e => Inv.registry_sound (Registry.Enemy.ent e)) es ->
    Forall (fun e => Inv.registry_sound (Registry.Enemy.ent e))
           (snd (fst (Registry.Game.collideProjectileEnemies sqrt pr es
                        kills))).
Proof.
  induction es as [| e es IH]; intros pr kills F; [constructor |].
  inversion F as [| a l H1 H2]; subst.
  cbn [Registry.Game.collideProjectileEnemies].
  destruct (Registry.CollisionSystem.checkCircleCollision _ _ _); cbv zeta;
    match goal with
    | |- context [Registry.Game.collideProjectileEnemies sqrt ?a es ?k] =>
        specialize (IH a k H2);
        destruct (Registry.Game.collideProjectileEnemies sqrt a es k)
          as [[pr' es'] k']
    end;
    cbn [fst snd] in IH |- *; constructor;
    try assumption; apply enemy_takeDamage_sound.
Qed.

Lemma collideProjectilesEnemies_sound (sqrt : Q -> Q)
    (ps : list Registry.Projectile.t) :
  forall (es : list Registry.Enemy.t) (kills : Z),
    Forall (fun e => Inv.registry_sound (Registry.Enemy.ent e)) es ->
    Forall (fun e => Inv.registry_sound (Registry.Enemy.ent e))
           (snd (fst (Registry.Game.collideProjectilesEnemies sqrt ps es
                        kills))).
Proof.
  induction ps as [| pr ps IH]; intros es kills F; [exact F |].
  cbn [Registry.Game.collideProjectilesEnemies].
  destruct (Registry.Projectile.is_player _).
  - pose proof (collideProjectileEnemies_sound sqrt es pr kills F) as P.
    destruct (Registry.Game.collideProjectileEnemies sqrt pr es kills)
      as [[pr1 es1] k1].
    cbn [fst snd] in P. specialize (IH es1 k1 P).
    destruct (Registry.Game.collideProjectilesEnemies sqrt ps es1 k1)
      as [[ps2 es2] k2].
    exact IH.
  - specialize (IH es kills F).
    destruct (Registry.Game.collideProjectilesEnemies sqrt ps es kills)
      as [[ps2 es2] k2].
    exact IH.
Qed.

Lemma collideProjectilesPlayer_sound (sqrt : Q -> Q)
    (ps : list Registry.Projectile.t) :
  forall p : Registry.Player.t,
    Inv.registry_sound (Registry.Player.ent p) ->
    Inv.registry_sound
      (Registry.Player.ent
         (snd (Registry.Game.collideProjectilesPlayer sqrt ps p))).
Proof.
  induction ps as [| pr ps IH]; intros p H; [exact H |].
  cbn [Registry.Game.collideProjectilesPlayer].
  match goal with
  | |- context [let '(_, _) := ?X in _] =>
      assert (E : Inv.registry_sound (Registry.Player.ent (snd X)));
      [| destruct X as [pr1 p1]]
  end.
  { destruct (negb _ && negb _); [| exact H].
    destruct (Registry.CollisionSystem.checkCircleCollision _ _ _);
      [| exact H].
    destruct (Registry.Player.canTakeDamage p); [| exact H].
    apply player_takeDamage_sound. exact H. }
  cbn [snd] in E. specialize (IH p1 E).
  destruct (Registry.Game.collideProjectilesPlayer sqrt ps p1) as [ps2 p2].
  exact IH.
Qed.

Lemma handleCollisions_sound (sqrt : Q -> Q) (g : Registry.Game.t) :
  Inv.registry_sound_game g ->
  Inv.registry_sound_game (Registry.Game.handleCollisions sqrt g).
Proof.
  intros [HP HE]. unfold Inv.registry_sound_game.
  rewrite handleCollisions_player.
  split.
  - apply collideProjectilesPlayer_sound, collidePlayerEnemies_sound.
    exact HP.
  - unfold Registry.Game.handleCollisions. cbv zeta.
    cbn [Registry.Game.set_player Registry.Game.projectiles
         Registry.Game.enemies Registry.Game.killCount].
    pose proof (collideProjectilesEnemies_sound sqrt
                  (Registry.Game.projectiles g) (Registry.Game.enemies g)
                  (Registry.Game.killCount g) HE) as P.
    destruct (Registry.Game.collideProjectilesEnemies _ _ _ _)
      as [[ps es] kills].
    cbn [fst snd] in P.
    cbn [Registry.Game.set_killCount Registry.Game.set_enemies
         Registry.Game.set_projectiles Registry.Game.projectiles
         Registry.Game.player].
    destruct (Registry.Game.collideProjectilesPlayer _ _ _) as [ps' p'].
    exact P.
Qed.

Lemma dealContactDamage_player_sound (sqrt : Q -> Q)
    (e : Registry.Enemy.t) (k : Registry.Enemy.TankState)
    (p : Registry.Player.t) :
  Inv.registry_sound (Registry.Player.ent p) ->
  Inv.registry_sound
    (Registry.Player.ent (snd (Registry.Enemy.dealContactDamage sqrt e k p))).
Proof.
  intros H. pose proof (player_takeDamage_sound p 1 H) as T.
  unfold Registry.Enemy.dealContactDamage. cbv zeta.
  destruct (Num.gtb _ 0); exact T.
Qed.

Lemma update_Tank_vitals (sqrt : Q -> Q)
    (e : Registry.Enemy.t) (k : Registry.Enemy.TankState) (dt : Q)
    (player : Registry.Player.t) (bounds : Registry.Bounds) :
  let r := Registry.Enemy.update_Tank sqrt e k dt player bounds in
  Registry.Entity.hp (Registry.Enemy.ent (fst r))
  = Registry.Entity.hp (Registry.Enemy.ent e)
  /\ Registry.Entity.alive (Registry.Enemy.ent (fst r))
     = Registry.Entity.alive (Registry.Enemy.ent e)
  /\ (Inv.registry_sound (Registry.Player.ent player) ->
      Inv.registry_sound (Registry.Player.ent (snd r))).
Proof.
  cbv zeta. unfold Registry.Enemy.update_Tank.
  destruct (negb _); [repeat split; auto |]. cbv zeta.
  destruct (Num.gtb _ 0);
    (destruct (Num.leb _ 0 && Registry.Player.canTakeDamage player);
     [destruct (Num.ltb _ _) |]);
    rewrite ?dealContactDamage_ent;
    (split; [reflexivity | split; [reflexivity |]]); auto;
    apply dealContactDamage_player_sound.
Qed.

Lemma update_Shooter_vitals (sqrt : Q -> Q) (atan2 : Q -> Q -> Q)
    (cos sin : Q -> Q) (PI : Q)
    (e : Registry.Enemy.t) (s : Registry.Enemy.ShooterState) (dt : Q)
    (player : Registry.Player.t) (bounds : Registry.Bounds)
    (projectiles : list Registry.Projectile.t) (rng : Num.Rng) :
  let r := Registry.Enemy.update_Shooter sqrt atan2 cos sin PI e s dt
             player bounds projectiles rng in
  Registry.Entity.hp (Registry.Enemy.ent (fst (fst r)))
  = Registry.Entity.hp (Registry.Enemy.ent e)
  /\ Registry.Entity.alive (Registry.Enemy.ent (fst (fst r)))
     = Registry.Entity.alive (Registry.Enemy.ent e).
Proof.
  cbv zeta. unfold Registry.Enemy.update_Shooter.
  destruct (negb _); [split; reflexivity |].
  destruct (Num.eqb (Registry.Enemy.centerX s) 0
            && Num.eqb (Registry.Enemy.centerY s) 0);
    destruct (Registry.Enemy.isMoving s && Num.ltb _ _);
    try destruct (Num.gtb _ 5);
    destruct (Num.geb _ _);
    try destruct (Num.next rng);
    cbv zeta; cbn [fst snd]; split; reflexivity.
Qed.

Lemma enemy_update_vitals (sqrt : Q -> Q) (atan2 : Q -> Q -> Q)
    (cos sin : Q -> Q) (PI : Q)
    (e : Registry.Enemy.t) (dt : Q) (player : Registry.Player.t)
    (bounds : Registry.Bounds) (projectiles : list Registry.Projectile.t)
    (rng : Num.Rng) :
  let r := Registry.Enemy.update sqrt atan2 cos sin PI e dt player bounds
             projectiles rng in
  Registry.Entity.hp (Registry.Enemy.ent (fst (fst (fst r))))
  = Registry.Entity.hp (Registry.Enemy.ent e)
  /\ Registry.Entity.alive (Registry.Enemy.ent (fst (fst (fst r))))
     = Registry.Entity.alive (Registry.Enemy.ent e)
  /\ (Inv.registry_sound (Registry.Player.ent player) ->
      Inv.registry_sound (Registry.Player.ent (snd (fst (fst r))))).
Proof.
  cbv zeta. unfold Registry.Enemy.update.
  destruct (Registry.Enemy.kind e) as [| s | k].
  - cbn [fst snd]. unfold Registry.Enemy.update_Assassin.
    destruct (negb _); [repeat split; auto |]. cbv zeta.
    destruct (Num.gtb _ _); repeat split; auto.
  - pose proof (update_Shooter_vitals sqrt atan2 cos sin PI e s dt player
                  bounds projectiles rng) as V.
    destruct (Registry.Enemy.update_Shooter _ _ _ _ _ _ _ _ _ _ _ _)
      as [[e1 ps1] rng1].
    cbv zeta in V. cbn [fst snd] in V |- *.
    destruct V as [V1 V2]. repeat split; auto.
  - pose proof (update_Tank_vitals sqrt e k dt player bounds) as V.
    destruct (Registry.Enemy.update_Tank _ _ _ _ _ _) as [e1 p1].
    cbv zeta in V. cbn [fst snd] in V |- *. exact V.
Qed.

Lemma updateEnemies_sound (sqrt : Q -> Q) (atan2 : Q -> Q -> Q)
    (cos sin : Q -> Q) (PI : Q) (dt : Q) (bounds : Registry.Bounds)
    (es : list Registry.Enemy.t) :
  forall (player : Registry.Player.t)
         (projectiles : list Registry.Projectile.t) (rng : Num.Rng),
    Inv.registry_sound (Registry.Player.ent player) ->
    Forall (fun e => Inv.registry_sound (Registry.Enemy.ent e)) es ->
    let r := Registry.Game.updateEnemies sqrt atan2 cos sin PI es dt player
               bounds projectiles rng in
    Inv.registry_sound (Registry.Player.ent (snd (fst (fst r))))
    /\ Forall (fun e => Inv.registry_sound (Registry.Enemy.ent e))
              (fst (fst (fst r))).
Proof.
  induction es as [| e es IH]; intros player ps rng HP HE.
  - split; [exact HP | constructor].
  - inversion HE as [| a l H1 H2]; subst.
    cbv zeta. cbn [Registry.Game.updateEnemies].
    pose proof (enemy_update_vitals sqrt atan2 cos sin PI e dt player bounds
                  ps rng) as V.
    destruct (Registry.Enemy.update _ _ _ _ _ _ _ _ _ _ _)
      as [[[e1 p1] ps1] rng1].
    cbv zeta in V. cbn [fst snd] in V. destruct V as [V1 [V2 V3]].
    specialize (IH p1 ps1 rng1 (V3 HP) H2). cbv zeta in IH.
    destruct (Registry.Game.updateEnemies _ _ _ _ _ _ _ _ _ _ _)
      as [[[es2 p2] ps2] rng2].
    cbn [fst snd] in IH |- *. destruct IH as [I1 I2].
    split; [exact I1 |]. constructor; [| exact I2].
    exact (sound_vitals _ _ V1 V2 H1).
Qed.

Lemma updatePlayer_sound (g : Registry.Game.t) (tk : Registry.Game.Tick) :
  Inv.registry_sound_game g ->
  Inv.registry_sound_game (Registry.Game.updatePlayer g tk).
Proof.
  intros [HP HE].
  pose proof (updatePlayer_frame g tk) as F. cbv zeta in F.
  destruct F as [_ [_ [F1 [F2 _]]]].
  split; [| exact HE].
  exact (sound_vitals _ _ F1 F2 HP).
Qed.

Lemma handleFiring_enemies (sqrt : Q -> Q) (g : Registry.Game.t)
    (tk : Registry.Game.Tick) :
  Registry.Game.enemies (Registry.Game.handleFiring sqrt g tk)
  = Registry.Game.enemies g.
Proof.
  unfold Registry.Game.handleFiring, Registry.Game.player_fire.
  destruct (Registry.fire _); [| reflexivity].
  destruct (Registry.Player.weapon _) as [k |]; [| reflexivity].
  destruct (Registry.Weapon.fire _ _ _ _ _ _ _ _) as [[ok w] ps].
  destruct k; reflexivity.
Qed.

Lemma handleFiring_sound (sqrt : Q -> Q) (g : Registry.Game.t)
    (tk : Registry.Game.Tick) :
  Inv.registry_sound_game g ->
  Inv.registry_sound_game (Registry.Game.handleFiring sqrt g tk).
Proof.
  intros [HP HE]. unfold Inv.registry_sound_game.
  pose proof (handleFiring_frame sqrt g tk) as F. cbv zeta in F.
  destruct F as [_ [_ F]].
  rewrite F, handleFiring_enemies. split; assumption.
Qed.

Lemma handleWeaponSwitch_sound (g : Registry.Game.t)
    (tk : Registry.Game.Tick) :
  Inv.registry_sound_game g ->
  Inv.registry_sound_game (Registry.Game.handleWeaponSwitch g tk).
Proof.
  intros [HP HE]. unfold Registry.Game.handleWeaponSwitch.
  destruct (Registry.switchWeapon _); split; assumption.
Qed.

Lemma handleCreatorModeToggle_sound (g : Registry.Game.t)
    (tk : Registry.Game.Tick) :
  Inv.registry_sound_game g ->
  Inv.registry_sound_game (Registry.Game.handleCreatorModeToggle g tk).
Proof.
  intros [HP HE].
  unfold Registry.Game.handleCreatorModeToggle,
         Registry.Game.toggleCreatorMode,
         Registry.Game.applyCreatorModeModifications,
         Registry.Game.revertCreatorModeModifications.
  cbv zeta.
  cbn [Registry.Game.creatorMode Registry.Game.set_creatorMode
       Registry.Game.originalPistolFireRate].
  by_cases; split; assumption.
Qed.

Lemma enemyClass_sound (i : Z) (c : Q -> Q -> Registry.Enemy.t) (x y : Q) :
  Registry.Game.enemyClass i = Some c ->
  Inv.registry_sound (Registry.Enemy.ent (c x y)).
Proof.
  unfold Registry.Game.enemyClass, Inv.registry_sound.
  destruct i as [| [[| |] | [| |] |] |]; intros E; try discriminate;
    injection E as <-; cbn; intros H; try lia;
    unfold Registry.TANK_HP in H; lia.
Qed.

Lemma spawnEnemy_sound (sqrt : Q -> Q) (g : Registry.Game.t)
    (rng : Num.Rng) :
  Inv.registry_sound_game g ->
  Inv.registry_sound_game (fst (Registry.Game.spawnEnemy sqrt g rng)).
Proof.
  intros [HP HE]. unfold Registry.Game.spawnEnemy, Num.next. cbv zeta.
  match goal with
  | |- context [let '(_, _) := ?X in _] => destruct X as [pt rng']
  end.
  destruct (Registry.Game.enemyClass _) as [c |] eqn:C;
    [| split; assumption].
  destruct pt as [[x y] |]; [| split; assumption].
  split; [exact HP |].
  cbn [fst Registry.Game.enemies Registry.Game.set_enemies].
  apply Forall_app. split; [exact HE |].
  constructor; [| constructor].
  exact (enemyClass_sound _ c x y C).
Qed.

Lemma spawnEnemies_sound (sqrt : Q -> Q) (g : Registry.Game.t)
    (tk : Registry.Game.Tick) (rng : Num.Rng) :
  Inv.registry_sound_game g ->
  Inv.registry_sound_game (fst (Registry.Game.spawnEnemies sqrt g tk rng)).
Proof.
  intros H. unfold Registry.Game.spawnEnemies. cbv zeta.
  destruct (Num.geb _ _); [| exact H].
  match goal with
  | |- context [Registry.Game.spawnEnemy sqrt ?a ?b] =>
      pose proof (spawnEnemy_sound sqrt a b H) as S;
      destruct (Registry.Game.spawnEnemy sqrt a b) as [g1 rng1]
  end.
  exact S.
Qed.

Lemma updateAllEnemies_sound (sqrt : Q -> Q) (atan2 : Q -> Q -> Q)
    (cos sin : Q -> Q) (PI : Q) (g : Registry.Game.t)
    (tk : Registry.Game.Tick) (rng : Num.Rng) :
  Inv.registry_sound_game g ->
  Inv.registry_sound_game
    (fst (Registry.Game.updateAllEnemies sqrt atan2 cos sin PI g tk rng)).
Proof.
  intros [HP HE]. unfold Registry.Game.updateAllEnemies. cbv zeta.
  pose proof (updateEnemies_sound sqrt atan2 cos sin PI
                (Registry.Game.deltaTime tk)
                (Registry.mkBounds Registry.ARENA_WIDTH
                                   Registry.ARENA_HEIGHT)
                (Registry.Game.enemies g) (Registry.Game.player g)
                (Registry.Game.projectiles g) rng HP HE) as S.
  cbv zeta in S.
  destruct (Registry.Game.updateEnemies _ _ _ _ _ _ _ _ _ _ _)
    as [[[es p] ps] rng'].
  exact S.
Qed.

Lemma removeDead_sound (g : Registry.Game.t) :
  Inv.registry_sound_game g ->
  Inv.registry_sound_game (Registry.Game.removeDead g).
Proof.
  intros [HP HE]. split; [exact HP |].
  cbn [Registry.Game.removeDead Registry.Game.enemies
       Registry.Game.set_enemies Registry.Game.set_projectiles].
  apply Forall_filter_keep. exact HE.
Qed.

Lemma checkGameOver_sound (g : Registry.Game.t) :
  Inv.registry_sound_game g ->
  Inv.registry_sound_game (Registry.Game.checkGameOver g).
Proof.
  intros H. unfold Registry.Game.checkGameOver.
  destruct (negb _); exact H.
Qed.

Lemma checkGameOverCondition_sound (g : Registry.Game.t) :
  Inv.registry_sound_game g ->
  Inv.registry_sound_game (Registry.Game.checkGameOverCondition g).
Proof.
  intros H. unfold Registry.Game.checkGameOverCondition.
  destruct (negb _ && _); exact H.
Qed.

Lemma updatePlaying_sound (sqrt : Q -> Q) (atan2 : Q -> Q -> Q)
    (cos sin : Q -> Q) (PI : Q) (g : Registry.Game.t)
    (tk : Registry.Game.Tick) (rng : Num.Rng) :
  Inv.registry_sound_game g ->
  Inv.registry_sound_game
    (fst (Registry.Game.updatePlaying sqrt atan2 cos sin PI g tk rng)).
Proof.
  intros H. unfold Registry.Game.updatePlaying.
  pose proof (handleCreatorModeToggle_sound _ tk
                (handleWeaponSwitch_sound _ tk
                   (handleFiring_sound sqrt _ tk
                      (updatePlayer_sound g tk H)))) as H4.
  pose proof (spawnEnemies_sound sqrt _ tk rng H4) as H5.
  destruct (Registry.Game.spawnEnemies sqrt _ tk rng) as [g5 rng5].
  cbn [fst] in H5.
  pose proof (updateAllEnemies_sound sqrt atan2 cos sin PI g5 tk rng5 H5)
    as H6.
  destruct (Registry.Game.updateAllEnemies _ _ _ _ _ g5 tk rng5)
    as [g6 rng6].
  cbn [fst] in H6 |- *.
  apply checkGameOver_sound, removeDead_sound, handleCollisions_sound.
  exact H6.
Qed.

Lemma update_sound (sqrt : Q -> Q) (atan2 : Q -> Q -> Q)
    (cos sin : Q -> Q) (PI : Q) (g : Registry.Game.t)
    (tk : Registry.Game.Tick) (rng : Num.Rng) :
  Inv.registry_sound_game g ->
  Inv.registry_sound_game
    (fst (Registry.Game.update sqrt atan2 cos sin PI g tk rng)).
Proof.
  intros H. unfold Registry.Game.update.
  match goal with
  | |- context [let '(_, _) := ?X in _] =>
      assert (S : Inv.registry_sound_game (fst X)); [| destruct X as [g1 r1]]
  end.
  { destruct (Registry.GameStateMachine.getState _); try exact H.
    apply updatePlaying_sound. exact H. }
  cbn [fst] in S |- *.
  apply checkGameOverCondition_sound, handleCollisions_sound. exact S.
Qed.

Lemma run_sound (sqrt : Q -> Q) (atan2 : Q -> Q -> Q)
    (cos sin : Q -> Q) (PI : Q) (tks : list Registry.Game.Tick) :
  forall (g : Registry.Game.t) (rng : Num.Rng),
    Inv.registry_sound_game g ->
    Inv.registry_sound_game
      (fst (Registry.Game.run sqrt atan2 cos sin PI g tks rng)).
Proof.
  induction tks as [| tk tks IH]; intros g rng H; [exact H |].
  cbn [Registry.Game.run].
  pose proof (update_sound sqrt atan2 cos sin PI g tk rng H) as S.
  destruct (Registry.Game.update sqrt atan2 cos sin PI g tk rng)
    as [g1 rng1].
  apply IH. exact S.
Qed.

Lemma init_sound : Inv.registry_sound_game Registry.Game.init.
Proof.
  split; [| constructor].
  unfold Inv.registry_sound. cbn. unfold Registry.PLAYER_MAX_HP. lia.
Qed.

(** X22.  Health and liveness agree in every state the registry driver
    reaches: after [init()] and any number of ticks, whatever the inputs,
    frame times and random numbers, the player and every enemy in the list
    with no health left ([hp <= 0]) is not alive; the same holds after a
    restart. *)
Theorem X22_registry_no_health_not_alive
    (sqrt : Q -> Q) (atan2 : Q -> Q -> Q) (cos sin : Q -> Q) (PI : Q)
    (tks tks' : list Registry.Game.Tick) (rng rng' : Num.Rng) :
  let g := fst (Registry.Game.run sqrt atan2 cos sin PI Registry.Game.init
                  tks rng) in
  let g' := fst (Registry.Game.run sqrt atan2 cos sin PI
                   (Registry.Game.restart g) tks' rng') in
  Inv.registry_sound_game g /\ Inv.registry_sound_game g'.
Proof.
  cbv zeta.
  pose proof (run_sound sqrt atan2 cos sin PI tks Registry.Game.init rng
                init_sound) as S.
  split; [exact S |].
  apply run_sound.
  split; [| constructor].
  unfold Inv.registry_sound. cbn. unfold Registry.PLAYER_MAX_HP. lia.
Qed.

(** ** Creator mode and the weapon table *)

Lemma toggleCreatorMode_on (g : Registry.Game.t) (r : Q) :
  Registry.Game.creatorMode g = false ->
  Registry.Weapon.fireRate (Registry.Game.weapons_pistol g) = r ->
  Num.eqb r 0 = false ->
  Registry.Game.originalPistolFireRate g = None
  \/ Registry.Game.originalPistolFireRate g = Some r ->
  let g' := Registry.Game.toggleCreatorMode g in
  Registry.Game.creatorMode g' = true
  /\ Registry.Game.originalPistolFireRate g' = Some r
  /\ Registry.Weapon.fireRate (Registry.Game.weapons_pistol g') = r / 5
  /\ Registry.Game.weapons_machine_gun g'
     = Registry.Game.weapons_machine_gun g.
Proof.
  intros C R Z O. cbv zeta.
  unfold Registry.Game.toggleCreatorMode,
         Registry.Game.applyCreatorModeModifications.
  cbv zeta.
  cbn [Registry.Game.creatorMode Registry.Game.set_creatorMode
       Registry.Game.originalPistolFireRate Registry.Game.weapons_pistol].
  rewrite C. cbn [negb].
  destruct O as [O | O]; rewrite O; unfold Registry.Game.truthy;
    rewrite ?Z; cbn [negb]; rewrite ?R; repeat split.
Qed.

Lemma toggleCreatorMode_off (g : Registry.Game.t) (r : Q) :
  Registry.Game.creatorMode g = true ->
  Num.eqb r 0 = false ->
  Registry.Game.originalPistolFireRate g = Some r ->
  let g' := Registry.Game.toggleCreatorMode g in
  Registry.Game.creatorMode g' = false
  /\ Registry.Game.originalPistolFireRate g' = Some r
  /\ Registry.Weapon.fireRate (Registry.Game.weapons_pistol g') = r
  /\ Registry.Game.weapons_machine_gun g'
     = Registry.Game.weapons_machine_gun g.
Proof.
  intros C Z O. cbv zeta.
  unfold Registry.Game.toggleCreatorMode,
         Registry.Game.revertCreatorModeModifications.
  cbv zeta.
  cbn [Registry.Game.creatorMode Registry.Game.set_creatorMode
       Registry.Game.originalPistolFireRate Registry.Game.weapons_pistol].
  rewrite C. cbn [negb]. rewrite O. unfold Registry.Game.truthy.
  rewrite Z. cbn [negb]. repeat split.
Qed.

Lemma toggleCreatorMode_iter (g : Registry.Game.t) (r : Q) (n : nat) :
  Registry.Game.creatorMode g = false ->
  Registry.Weapon.fireRate (Registry.Game.weapons_pistol g) = r ->
  Num.eqb r 0 = false ->
  Registry.Game.originalPistolFireRate g = None
  \/ Registry.Game.originalPistolFireRate g = Some r ->
  let g' := Nat.iter n Registry.Game.toggleCreatorMode g in
  Registry.Game.creatorMode g' = Nat.odd n
  /\ Registry.Weapon.fireRate (Registry.Game.weapons_pistol g')
     = (if Nat.odd n then r / 5 else r)
  /\ Registry.Game.weapons_machine_gun g'
     = Registry.Game.weapons_machine_gun g
  /\ Registry.Game.originalPistolFireRate g'
     = match n with
       | O => Registry.Game.originalPistolFireRate g
       | S _ => Some r
       end.
Proof.
  intros C R Z O. cbv zeta.
  induction n as [| n IH].
  - cbn. rewrite C, R. repeat split.
  - destruct IH as [I1 [I2 [I3 I4]]].
    change (Nat.iter (S n) Registry.Game.toggleCreatorMode g)
      with (Registry.Game.toggleCreatorMode
              (Nat.iter n Registry.Game.toggleCreatorMode g)).
    rewrite Nat.odd_succ, <- Nat.negb_odd.
    destruct (Nat.odd n) eqn:P; cbn [negb].
    + assert (O' : Registry.Game.originalPistolFireRate
                     (Nat.iter n Registry.Game.toggleCreatorMode g)
                   = Some r).
      { destruct n; [discriminate P | exact I4]. }
      destruct (toggleCreatorMode_off _ r I1 Z O') as [A [B [D E]]].
      repeat split; try assumption. congruence.
    + assert (O' : Registry.Game.originalPistolFireRate
                     (Nat.iter n Registry.Game.toggleCreatorMode g) = None
                   \/ Registry.Game.originalPistolFireRate
                        (Nat.iter n Registry.Game.toggleCreatorMode g)
                      = Some r).
      { rewrite I4. destruct n; [exact O | right; reflexivity]. }
      destruct (toggleCreatorMode_on _ r I1 I2 Z O') as [A [B [D E]]].
      repeat split; try assumption. congruence.
Qed.

(** X23.  Toggling creator mode never compounds the pistol's speed-up:
    starting with creator mode off, a pistol fire rate [r] other than 0,
    and no stored original rate (or [r] stored), after [n] toggles creator
    mode is on exactly if [n] is odd, the pistol's fire rate is [r / 5]
    then and [r] otherwise, the stored original is [r] from the first
    toggle on, and the machine gun is untouched. *)
Theorem X23_creator_mode_round_trip (g : Registry.Game.t) (n : nat)
    (Hoff : Registry.Game.creatorMode g = false)
    (Hrate : Num.eqb (Registry.Weapon.fireRate
                        (Registry.Game.weapons_pistol g)) 0 = false)
    (Hstored : Registry.Game.originalPistolFireRate g = None
               \/ Registry.Game.originalPistolFireRate g
                  = Some (Registry.Weapon.fireRate
                            (Registry.Game.weapons_pistol g))) :
  let r := Registry.Weapon.fireRate (Registry.Game.weapons_pistol g) in
  let g' := Nat.iter n Registry.Game.toggleCreatorMode g in
  Registry.Game.creatorMode g' = Nat.odd n
  /\ Registry.Weapon.fireRate (Registry.Game.weapons_pistol g')
     = (if Nat.odd n then r / 5 else r)
  /\ Registry.Game.weapons_machine_gun g'
     = Registry.Game.weapons_machine_gun g
  /\ Registry.Game.originalPistolFireRate g'
     = match n with
       | O => Registry.Game.originalPistolFireRate g
       | S _ => Some r
       end.
Proof.
  exact (toggleCreatorMode_iter g _ n Hoff eq_refl Hrate Hstored).
Qed.

Lemma X23_creator_mode_round_trip_witness :
  let g' := Nat.iter 4 Registry.Game.toggleCreatorMode Registry.Game.init in
  Registry.Game.creatorMode g' = false
  /\ Registry.Weapon.fireRate (Registry.Game.weapons_pistol g')
     = Registry.PISTOL_FIRE_RATE
  /\ Registry.Game.weapons_machine_gun g' = Registry.Weapon.new_MachineGun
  /\ Registry.Game.originalPistolFireRate g'
     = Some Registry.PISTOL_FIRE_RATE.
Proof.
  apply (X23_creator_mode_round_trip Registry.Game.init 4).
  - reflexivity.
  - reflexivity.
  - left. reflexivity.
Defined.

(** X24.  [restart()] while creator mode is on builds a new pistol with
    the default fire rate and leaves creator mode on: the speed-up is lost
    until creator mode is toggled off and on again.  It also clears the
    enemies, the projectiles, the kill count and the spawn timer, arms the
    player with the pistol, refills the machine gun and ends in PLAYING. *)
Theorem X24_restart_drops_creator_speedup (g : Registry.Game.t) :
  let g' := Registry.Game.restart g in
  Registry.Game.creatorMode g' = Registry.Game.creatorMode g
  /\ Registry.Game.originalPistolFireRate g'
     = Registry.Game.originalPistolFireRate g
  /\ Registry.Game.weapons_pistol g' = Registry.Weapon.new_Pistol
  /\ Registry.Weapon.fireRate (Registry.Game.weapons_pistol g')
     = Registry.PISTOL_FIRE_RATE
  /\ Registry.Game.weapons_machine_gun g' = Registry.Weapon.new_MachineGun
  /\ Registry.Game.killCount g' = 0%Z
  /\ Registry.Game.enemies g' = []
  /\ Registry.Game.projectiles g' = []
  /\ Registry.Game.enemySpawnTimer g' = 0
  /\ Registry.Game.currentWeaponKey g' = Registry.pistol
  /\ Registry.Player.weapon (Registry.Game.player g') = Some Registry.pistol
  /\ Registry.GameStateMachine.currentState (Registry.Game.stateMachine g')
     = Registry.PLAYING.
Proof.
  cbv zeta. unfold Registry.Game.restart. cbv zeta.
  cbn [Registry.Game.push_ui Registry.Game.set_stateMachine
       Registry.Game.initGameObjects Registry.Game.creatorMode
       Registry.Game.originalPistolFireRate Registry.Game.weapons_pistol
       Registry.Game.weapons_machine_gun Registry.Game.killCount
       Registry.Game.enemies Registry.Game.projectiles
       Registry.Game.enemySpawnTimer Registry.Game.currentWeaponKey
       Registry.Game.player Registry.Game.stateMachine].
  repeat split.
  unfold Registry.GameStateMachine.setState.
  destruct (Registry.GameStateMachine.currentState
              (Registry.Game.stateMachine g)) eqn:E;
    cbn [Registry.GameState_eqb Registry.GameStateMachine.currentState];
    try reflexivity.
  exact E.
Qed.

(** ** The weapon in the player's hand *)

Lemma player_update_weapon (p : Registry.Player.t) (dt : Q)
    (i : Registry.Input) (b : Registry.Bounds) :
  Registry.Player.weapon (Registry.Player.update p dt i b)
  = Registry.Player.weapon p.
Proof.
  unfold Registry.Player.update. cbv zeta.
  repeat match goal with
         | |- context [if ?c then _ else _] => destruct c
         end; reflexivity.
Qed.

Lemma player_takeDamage_weapon (p : Registry.Player.t) (d : Z) :
  Registry.Player.weapon (snd (Registry.Player.takeDamage p d))
  = Registry.Player.weapon p.
Proof.
  unfold Registry.Player.takeDamage.
  destruct (Num.gtb _ _); [reflexivity |].
  destruct (Registry.Player.creatorMode p); reflexivity.
Qed.

Lemma collidePlayerEnemies_weapon (sqrt : Q -> Q)
    (es : list Registry.Enemy.t) :
  forall p : Registry.Player.t,
    Registry.Player.weapon (Registry.Game.collidePlayerEnemies sqrt p es)
    = Registry.Player.weapon p.
Proof.
  induction es as [| e es IH]; intros p; [reflexivity |].
  cbn [Registry.Game.collidePlayerEnemies]. rewrite IH.
  destruct (Registry.CollisionSystem.checkCircleCollision _ _ _);
    [| reflexivity].
  destruct (Registry.Player.canTakeDamage p); [| reflexivity].
  apply player_takeDamage_weapon.
Qed.

Lemma collideProjectilesPlayer_weapon (sqrt : Q -> Q)
    (ps : list Registry.Projectile.t) :
  forall p : Registry.Player.t,
    Registry.Player.weapon
      (snd (Registry.Game.collideProjectilesPlayer sqrt ps p))
    = Registry.Player.weapon p.
Proof.
  induction ps as [| pr ps IH]; intros p; [reflexivity |].
  cbn [Registry.Game.collideProjectilesPlayer].
  match goal with
  | |- context [let '(_, _) := ?X in _] =>
      assert (E : Registry.Player.weapon (snd X)
                  = Registry.Player.weapon p);
      [| destruct X as [pr1 p1]]
  end.
  { destruct (negb _ && negb _); [| reflexivity].
    destruct (Registry.CollisionSystem.checkCircleCollision _ _ _);
      [| reflexivity].
    destruct (Registry.Player.canTakeDamage p); [| reflexivity].
    apply player_takeDamage_weapon. }
  cbn [snd] in E. specialize (IH p1).
  destruct (Registry.Game.collideProjectilesPlayer sqrt ps p1) as [ps2 p2].
  cbn [snd] in IH |- *. congruence.
Qed.

Lemma handleCollisions_key (sqrt : Q -> Q) (g : Registry.Game.t) :
  Registry.Game.currentWeaponKey (Registry.Game.handleCollisions sqrt g)
  = Registry.Game.currentWeaponKey g.
Proof.
  unfold Registry.Game.handleCollisions. cbv zeta.
  destruct (Registry.Game.collideProjectilesEnemies _ _ _ _)
    as [[ps es] kills].
  destruct (Registry.Game.collideProjectilesPlayer _ _ _) as [ps' p'].
  reflexivity.
Qed.

Lemma handleCollisions_armed (sqrt : Q -> Q) (g : Registry.Game.t) :
  Inv.registry_armed g ->
  Inv.registry_armed (Registry.Game.handleCollisions sqrt g).
Proof.
  unfold Inv.registry_armed. intros H.
  rewrite handleCollisions_key, handleCollisions_player,
    collideProjectilesPlayer_weapon, collidePlayerEnemies_weapon.
  exact H.
Qed.

Lemma enemy_update_weapon (sqrt : Q -> Q) (atan2 : Q -> Q -> Q)
    (cos sin : Q -> Q) (PI : Q)
    (e : Registry.Enemy.t) (dt : Q) (player : Registry.Player.t)
    (bounds : Registry.Bounds) (projectiles : list Registry.Projectile.t)
    (rng : Num.Rng) :
  Registry.Player.weapon
    (snd (fst (fst (Registry.Enemy.update sqrt atan2 cos sin PI e dt player
                      bounds projectiles rng))))
  = Registry.Player.weapon player.
Proof.
  unfold Registry.Enemy.update.
  destruct (Registry.Enemy.kind e) as [| s | k]; [reflexivity | |].
  - destruct (Registry.Enemy.update_Shooter _ _ _ _ _ _ _ _ _ _ _ _)
      as [[e1 ps1] rng1].
    reflexivity.
  - assert (T : Registry.Player.weapon
                  (snd (Registry.Enemy.update_Tank sqrt e k dt player
                          bounds))
                = Registry.Player.weapon player).
    { unfold Registry.Enemy.update_Tank.
      destruct (negb _); [reflexivity |]. cbv zeta.
      assert (D : forall e0 k0,
                 Registry.Player.weapon
                   (snd (Registry.Enemy.dealContactDamage sqrt e0 k0 player))
                 = Registry.Player.weapon player).
      { intros e0 k0. unfold Registry.Enemy.dealContactDamage. cbv zeta.
        destruct (Num.gtb _ 0); cbn [snd Registry.Player.weapon
                                     Registry.Player.set_ent];
          apply player_takeDamage_weapon. }
      destruct (Num.gtb _ 0);
        (destruct (Num.leb _ 0 && Registry.Player.canTakeDamage player);
         [destruct (Num.ltb _ _) |]);
        try reflexivity; apply D. }
    destruct (Registry.Enemy.update_Tank _ _ _ _ _ _) as [e1 p1].
    exact T.
Qed.

Lemma updateEnemies_weapon (sqrt : Q -> Q) (atan2 : Q -> Q -> Q)
    (cos sin : Q -> Q) (PI : Q) (dt : Q) (bounds : Registry.Bounds)
    (es : list Registry.Enemy.t) :
  forall (player : Registry.Player.t)
         (projectiles : list Registry.Projectile.t) (rng : Num.Rng),
    Registry.Player.weapon
      (snd (fst (fst (Registry.Game.updateEnemies sqrt atan2 cos sin PI es
                        dt player bounds projectiles rng))))
    = Registry.Player.weapon player.
Proof.
  induction es as [| e es IH]; intros player ps rng; [reflexivity |].
  cbn [Registry.Game.updateEnemies].
  pose proof (enemy_update_weapon sqrt atan2 cos sin PI e dt player bounds
                ps rng) as V.
  destruct (Registry.Enemy.update _ _ _ _ _ _ _ _ _ _ _)
    as [[[e1 p1] ps1] rng1].
  cbn [fst snd] in V.
  specialize (IH p1 ps1 rng1).
  destruct (Registry.Game.updateEnemies _ _ _ _ _ _ _ _ _ _ _)
    as [[[es2 p2] ps2] rng2].
  cbn [fst snd] in IH |- *. congruence.
Qed.

Lemma handleFiring_key (sqrt : Q -> Q) (g : Registry.Game.t)
    (tk : Registry.Game.Tick) :
  Registry.Game.currentWeaponKey (Registry.Game.handleFiring sqrt g tk)
  = Registry.Game.currentWeaponKey g.
Proof.
  unfold Registry.Game.handleFiring, Registry.Game.player_fire.
  destruct (Registry.fire _); [| reflexivity].
  destruct (Registry.Player.weapon _) as [k |]; [| reflexivity].
  destruct (Registry.Weapon.fire _ _ _ _ _ _ _ _) as [[ok w] ps].
  destruct k; reflexivity.
Qed.

Lemma spawnEnemy_key (sqrt : Q -> Q) (g : Registry.Game.t)
    (rng : Num.Rng) :
  Registry.Game.currentWeaponKey (fst (Registry.Game.spawnEnemy sqrt g rng))
  = Registry.Game.currentWeaponKey g.
Proof.
  unfold Registry.Game.spawnEnemy, Num.next. cbv zeta.
  match goal with
  | |- context [let '(_, _) := ?X in _] => destruct X as [pt rng']
  end.
  destruct (Registry.Game.enemyClass _); [| reflexivity].
  destruct pt as [[x y] |]; reflexivity.
Qed.

Lemma spawnEnemies_key (sqrt : Q -> Q) (g : Registry.Game.t)
    (tk : Registry.Game.Tick) (rng : Num.Rng) :
  Registry.Game.currentWeaponKey
    (fst (Registry.Game.spawnEnemies sqrt g tk rng))
  = Registry.Game.currentWeaponKey g.
Proof.
  unfold Registry.Game.spawnEnemies. cbv zeta.
  destruct (Num.geb _ _); [| reflexivity].
  match goal with
  | |- context [Registry.Game.spawnEnemy sqrt ?a ?b] =>
      pose proof (spawnEnemy_key sqrt a b) as S;
      destruct (Registry.Game.spawnEnemy sqrt a b) as [g1 rng1]
  end.
  exact S.
Qed.

Lemma updatePlaying_armed (sqrt : Q -> Q) (atan2 : Q -> Q -> Q)
    (cos sin : Q -> Q) (PI : Q) (g : Registry.Game.t)
    (tk : Registry.Game.Tick) (rng : Num.Rng) :
  Inv.registry_armed g ->
  Inv.registry_armed
    (fst (Registry.Game.updatePlaying sqrt atan2 cos sin PI g tk rng)).
Proof.
  intros H. unfold Registry.Game.updatePlaying.
  assert (H1 : Inv.registry_armed (Registry.Game.updatePlayer g tk)).
  { unfold Inv.registry_armed, Registry.Game.updatePlayer in *. cbv zeta.
    cbn [Registry.Game.player Registry.Game.set_player
         Registry.Game.currentWeaponKey].
    rewrite player_update_weapon. exact H. }
  set (g1 := Registry.Game.updatePlayer g tk) in *.
  assert (H2 : Inv.registry_armed (Registry.Game.handleFiring sqrt g1 tk)).
  { unfold Inv.registry_armed in *.
    pose proof (handleFiring_frame sqrt g1 tk) as F. cbv zeta in F.
    destruct F as [_ [_ F]]. rewrite F, handleFiring_key. exact H1. }
  set (g2 := Registry.Game.handleFiring sqrt g1 tk) in *.
  assert (H3 : Inv.registry_armed (Registry.Game.handleWeaponSwitch g2 tk)).
  { unfold Registry.Game.handleWeaponSwitch.
    destruct (Registry.switchWeapon _); [reflexivity | exact H2]. }
  set (g3 := Registry.Game.handleWeaponSwitch g2 tk) in *.
  assert (H4 : Inv.registry_armed
                 (Registry.Game.handleCreatorModeToggle g3 tk)).
  { unfold Inv.registry_armed in *.
    unfold Registry.Game.handleCreatorModeToggle,
           Registry.Game.toggleCreatorMode,
           Registry.Game.applyCreatorModeModifications,
           Registry.Game.revertCreatorModeModifications.
    cbv zeta.
    cbn [Registry.Game.creatorMode Registry.Game.set_creatorMode
         Registry.Game.originalPistolFireRate].
    by_cases; exact H3. }
  set (g4 := Registry.Game.handleCreatorModeToggle g3 tk) in *.
  assert (H5 : Inv.registry_armed
                 (fst (Registry.Game.spawnEnemies sqrt g4 tk rng))).
  { unfold Inv.registry_armed in *.
    pose proof (spawnEnemies_frame sqrt g4 tk rng) as F. cbv zeta in F.
    destruct F as [_ [_ F]]. rewrite F, spawnEnemies_key. exact H4. }
  destruct (Registry.Game.spawnEnemies sqrt g4 tk rng) as [g5 rng5].
  cbn [fst] in H5.
  assert (H6 : Inv.registry_armed
                 (fst (Registry.Game.updateAllEnemies sqrt atan2 cos sin PI
                         g5 tk rng5))).
  { unfold Inv.registry_armed, Registry.Game.updateAllEnemies in *.
    cbv zeta.
    pose proof (updateEnemies_weapon sqrt atan2 cos sin PI
                  (Registry.Game.deltaTime tk)
                  (Registry.mkBounds Registry.ARENA_WIDTH
                                     Registry.ARENA_HEIGHT)
                  (Registry.Game.enemies g5) (Registry.Game.player g5)
                  (Registry.Game.projectiles g5) rng5) as W.
    destruct (Registry.Game.updateEnemies _ _ _ _ _ _ _ _ _ _ _)
      as [[[es p] ps] rng'].
    cbn [fst snd] in W |- *.
    cbn [Registry.Game.player Registry.Game.set_player
         Registry.Game.currentWeaponKey Registry.Game.set_projectiles
         Registry.Game.set_enemies].
    congruence. }
  destruct (Registry.Game.updateAllEnemies _ _ _ _ _ g5 tk rng5)
    as [g6 rng6].
  cbn [fst] in H6 |- *.
  pose proof (handleCollisions_armed sqrt
                (Registry.Game.updateProjectiles g6 tk) H6) as H8.
  unfold Registry.Game.checkGameOver.
  destruct (negb _); exact H8.
Qed.

Lemma update_armed (sqrt : Q -> Q) (atan2 : Q -> Q -> Q)
    (cos sin : Q -> Q) (PI : Q) (g : Registry.Game.t)
    (tk : Registry.Game.Tick) (rng : Num.Rng) :
  Inv.registry_armed g ->
  Inv.registry_armed
    (fst (Registry.Game.update sqrt atan2 cos sin PI g tk rng)).
Proof.
  intros H. unfold Registry.Game.update.
  match goal with
  | |- context [let '(_, _) := ?X in _] =>
      assert (S : Inv.registry_armed (fst X)); [| destruct X as [g1 r1]]
  end.
  { destruct (Registry.GameStateMachine.getState _); try exact H.
    apply updatePlaying_armed. exact H. }
  cbn [fst] in S |- *.
  pose proof (handleCollisions_armed sqrt g1 S) as A.
  unfold Registry.Game.checkGameOverCondition.
  destruct (negb _ && _); exact A.
Qed.

Lemma run_armed (sqrt : Q -> Q) (atan2 : Q -> Q -> Q)
    (cos sin : Q -> Q) (PI : Q) (tks : list Registry.Game.Tick) :
  forall (g : Registry.Game.t) (rng : Num.Rng),
    Inv.registry_armed g ->
    Inv.registry_armed
      (fst (Registry.Game.run sqrt atan2 cos sin PI g tks rng)).
Proof.
  induction tks as [| tk tks IH]; intros g rng H; [exact H |].
  cbn [Registry.Game.run].
  pose proof (update_armed sqrt atan2 cos sin PI g tk rng H) as S.
  destruct (Registry.Game.update sqrt atan2 cos sin PI g tk rng)
    as [g1 rng1].
  apply IH. exact S.
Qed.

(** X25.  The player always holds the weapon the driver shows as current:
    after [init()] and any number of ticks, and again after a restart and
    further ticks, [player.weapon] is the table entry that
    [currentWeaponKey] names.  [toggleWeapon] moves to the other of the
    two keys and back, and leaves both weapons (fire rate, rounds, last
    shot) as they were: switching does not reload. *)
Theorem X25_registry_player_armed
    (sqrt : Q -> Q) (atan2 : Q -> Q -> Q) (cos sin : Q -> Q) (PI : Q)
    (tks tks' : list Registry.Game.Tick) (rng rng' : Num.Rng) :
  let g := fst (Registry.Game.run sqrt atan2 cos sin PI Registry.Game.init
                  tks rng) in
  let g' := fst (Registry.Game.run sqrt atan2 cos sin PI
                   (Registry.Game.restart g) tks' rng') in
  Inv.registry_armed g
  /\ Inv.registry_armed g'
  /\ Registry.Game.currentWeaponKey (Registry.Game.toggleWeapon g)
     <> Registry.Game.currentWeaponKey g
  /\ Registry.Game.currentWeaponKey
       (Registry.Game.toggleWeapon (Registry.Game.toggleWeapon g))
     = Registry.Game.currentWeaponKey g
  /\ Inv.registry_armed (Registry.Game.toggleWeapon g)
  /\ Registry.Game.weapons_pistol (Registry.Game.toggleWeapon g)
     = Registry.Game.weapons_pistol g
  /\ Registry.Game.weapons_machine_gun (Registry.Game.toggleWeapon g)
     = Registry.Game.weapons_machine_gun g.
Proof.
  cbv zeta.
  split; [apply run_armed; reflexivity |].
  split; [apply run_armed; reflexivity |].
  unfold Registry.Game.toggleWeapon. cbv zeta.
  cbn [Registry.Game.currentWeaponKey Registry.Game.push_ui
       Registry.Game.set_player Registry.Game.set_currentWeaponKey
       Registry.Game.weapons_pistol Registry.Game.weapons_machine_gun].
  split; [destruct (Registry.Game.currentWeaponKey _); discriminate |].
  split; [destruct (Registry.Game.currentWeaponKey _); reflexivity |].
  repeat split.
Qed.

(** ** Spawning in the registry game *)

Lemma registry_randomInt_range (min max : Z) (r : Q) :
  0 <= r -> r < 1 -> (min <= max)%Z ->
  (min <= Registry.Utils.randomInt min max r <= max)%Z.
Proof.
  intros Hr0 Hr1 Hint. unfold Registry.Utils.randomInt.
  pose proof (floor_unit_range r (max - min + 1) Hr0 Hr1 ltac:(lia)).
  lia.
Qed.

Lemma registry_randomRange_range (min max r : Q) :
  0 <= r -> r < 1 -> min <= max ->
  min <= Registry.Utils.randomRange min max r
  /\ Registry.Utils.randomRange min max r <= max.
Proof. exact (randomFloat_range min max r). Qed.

Lemma edgePoint_off_screen (edge : Z) (r : Q) :
  0 <= r -> r < 1 -> (0 <= edge <= 3)%Z ->
  exists pt, Registry.Game.edgePoint edge r = Some pt
             /\ Inv.registry_off_screen pt.
Proof.
  intros H0 H1 HE. unfold Registry.Game.edgePoint. cbv zeta.
  pose proof (registry_randomRange_range 50 (Registry.ARENA_WIDTH - 50) r
                H0 H1 ltac:(vm_compute; discriminate)) as [X0 X1].
  pose proof (registry_randomRange_range 50 (Registry.ARENA_HEIGHT - 50) r
                H0 H1 ltac:(vm_compute; discriminate)) as [Y0 Y1].
  destruct edge as [| [[| |] | [| |] |] |]; try lia;
    eexists; (split; [reflexivity |]); unfold Inv.registry_off_screen;
    [ left | right; right; right | right; right; left | right; left ];
    (split; [reflexivity | split; assumption]).
Qed.

Lemma enemyClass_new (i : Z) :
  (0 <= i <= 2)%Z ->
  exists c, Registry.Game.enemyClass i = Some c
            /\ forall x y,
                 Registry.Entity.x (Registry.Enemy.ent (c x y)) = x
                 /\ Registry.Entity.y (Registry.Enemy.ent (c x y)) = y
                 /\ Registry.Enemy.isAlive (c x y) = true
                 /\ (0 < Registry.Entity.hp (Registry.Enemy.ent (c x y)))%Z
                 /\ Registry.Entity.hp (Registry.Enemy.ent (c x y))
                    = Registry.Entity.maxHp (Registry.Enemy.ent (c x y)).
Proof.
  intros H. unfold Registry.Game.enemyClass.
  destruct i as [| [[| |] | [| |] |] |]; try lia;
    eexists; (split; [reflexivity |]); intros x y; cbn;
    repeat split; reflexivity.
Qed.

(** X26.  With results of [Math.random()] from 0 up to but excluding 1,
    [spawnEnemy] of the registry driver appends exactly one enemy, alive
    and at full health, whose centre is 50 outside one side of the arena
    (off screen; its first [update] brings it inside); the player, the
    projectiles and the kill count are untouched, and [Math.random()] is
    called three times, or four if the first point was too close to the
    player. *)
Theorem X26_registry_spawn_off_screen (sqrt : Q -> Q) (g : Registry.Game.t)
    (rng : Num.Rng) (Hdraws : Inv.unit_draws rng) :
  let r := Registry.Game.spawnEnemy sqrt g rng in
  (exists e,
     Registry.Game.enemies (fst r) = Registry.Game.enemies g ++ [e]
     /\ Inv.registry_off_screen
          (Registry.Entity.x (Registry.Enemy.ent e),
           Registry.Entity.y (Registry.Enemy.ent e))
     /\ Registry.Enemy.isAlive e = true
     /\ (0 < Registry.Entity.hp (Registry.Enemy.ent e))%Z
     /\ Registry.Entity.hp (Registry.Enemy.ent e)
        = Registry.Entity.maxHp (Registry.Enemy.ent e))
  /\ Registry.Game.player (fst r) = Registry.Game.player g
  /\ Registry.Game.projectiles (fst r) = Registry.Game.projectiles g
  /\ Registry.Game.killCount (fst r) = Registry.Game.killCount g
  /\ Num.draws (snd r) = Num.draws rng
  /\ (Num.pos rng + 3 <= Num.pos (snd r) <= Num.pos rng + 4)%nat.
Proof.
  cbv zeta.
  unfold Registry.Game.spawnEnemy, Num.next. cbv zeta.
  cbn [Num.draws Num.pos].
  destruct (Hdraws (Num.pos rng)) as [A0 A1].
  destruct (Hdraws (S (Num.pos rng))) as [B0 B1].
  destruct (Hdraws (S (S (Num.pos rng)))) as [C0 C1].
  destruct (Hdraws (S (S (S (Num.pos rng))))) as [D0 D1].
  pose proof (registry_randomInt_range 0 2 _ A0 A1 ltac:(lia)) as RT.
  pose proof (registry_randomInt_range 0 3 _ B0 B1 ltac:(lia)) as RE.
  destruct (enemyClass_new _ RT) as [c [EC NC]].
  rewrite EC.
  set (edge := Registry.Utils.randomInt 0 3
                 (Num.draws rng (S (Num.pos rng)))) in *.
  destruct (edgePoint_off_screen edge _ C0 C1 RE) as [[x y] [EP OS]].
  rewrite EP.
  assert (RA : (0 <= (edge + 2) mod 4 <= 3)%Z)
    by (pose proof (Z.mod_pos_bound (edge + 2) 4 ltac:(lia)); lia).
  destruct (edgePoint_off_screen _ _ D0 D1 RA) as [[x' y'] [EP' OS']].
  destruct (Num.ltb _ _).
  - rewrite EP'. cbn [fst snd Registry.Game.enemies
                      Registry.Game.set_enemies Registry.Game.player
                      Registry.Game.projectiles Registry.Game.killCount
                      Num.draws Num.pos].
    destruct (NC x' y') as [N1 [N2 [N3 [N4 N5]]]].
    split; [exists (c x' y'); rewrite N1, N2; repeat split; assumption |].
    repeat split; lia.
  - cbn [fst snd Registry.Game.enemies
         Registry.Game.set_enemies Registry.Game.player
         Registry.Game.projectiles Registry.Game.killCount
         Num.draws Num.pos].
    destruct (NC x y) as [N1 [N2 [N3 [N4 N5]]]].
    split; [exists (c x y); rewrite N1, N2; repeat split; assumption |].
    repeat split; lia.
Qed.

Lemma X26_registry_spawn_off_screen_witness :
  let r := Registry.Game.spawnEnemy Num.sqrt6 Registry.Game.init
             Scenario.rng0 in
  (exists e,
     Registry.Game.enemies (fst r)
     = Registry.Game.enemies Registry.Game.init ++ [e]
     /\ Inv.registry_off_screen
          (Registry.Entity.x (Registry.Enemy.ent e),
           Registry.Entity.y (Registry.Enemy.ent e))
     /\ Registry.Enemy.isAlive e = true
     /\ (0 < Registry.Entity.hp (Registry.Enemy.ent e))%Z
     /\ Registry.Entity.hp (Registry.Enemy.ent e)
        = Registry.Entity.maxHp (Registry.Enemy.ent e))
  /\ Registry.Game.player (fst r) = Registry.Game.player Registry.Game.init
  /\ Registry.Game.projectiles (fst r)
     = Registry.Game.projectiles Registry.Game.init
  /\ Registry.Game.killCount (fst r)
     = Registry.Game.killCount Registry.Game.init
  /\ Num.draws (snd r) = Num.draws Scenario.rng0
  /\ (Num.pos Scenario.rng0 + 3 <= Num.pos (snd r)
      <= Num.pos Scenario.rng0 + 4)%nat.
Proof.
  exact (X26_registry_spawn_off_screen Num.sqrt6 Registry.Game.init
           Scenario.rng0 unit_draws_rng0).
Defined.

(** ** The life of a projectile in doubles *)

Lemma projectile_update64_fields (p : Registry.Projectile.t) (dt : Q)
    (b : Registry.Bounds) :
  let p' := Registry.Projectile.update64 p dt b in
  Registry.Projectile.lifetime p' = Registry.Projectile.lifetime p
  /\ Registry.Projectile.age p'
     = Num.round64 (Registry.Projectile.age p + dt)
  /\ (Registry.Projectile.isAlive p = false ->
      Registry.Projectile.isAlive p' = false)
  /\ (Registry.Projectile.isAlive p' = true ->
      Registry.Projectile.age p' < Registry.Projectile.lifetime p').
Proof.
  cbv zeta. unfold Registry.Projectile.update64. cbv zeta.
  cbn [Registry.Projectile.lifetime].
  match goal with
  | |- context [if ?c then _ else _] => destruct c eqn:E
  end.
  - repeat split; try discriminate.
  - apply orb_false_elim in E. destruct E as [E _].
    apply orb_false_elim in E. destruct E as [E _].
    apply orb_false_elim in E. destruct E as [E _].
    apply orb_false_elim in E. destruct E as [E1 _].
    apply geb_false in E1.
    cbn [Registry.Projectile.age Registry.Projectile.lifetime
         Registry.Projectile.ent Registry.Projectile.isAlive] in *.
    repeat split; try assumption; intros H; assumption.
Qed.

Lemma projectile_run64_dead (b : Registry.Bounds) (dts : list Q) :
  forall p : Registry.Projectile.t,
    Registry.Projectile.isAlive p = false ->
    Registry.Projectile.isAlive (Calls.projectile_run64 p dts b) = false.
Proof.
  induction dts as [| dt dts IH]; intros p H; [exact H |].
  unfold Calls.projectile_run64. cbn [fold_left].
  apply IH.
  pose proof (projectile_update64_fields p dt b) as U. cbv zeta in U.
  destruct U as [_ [_ [U3 _]]]. exact (U3 H).
Qed.

Lemma projectile_run64_expires (k : Z) (b : Registry.Bounds)
    (dts : list Q) :
  (-1021 <= k)%Z ->
  forall p : Registry.Projectile.t,
    (Registry.Projectile.isAlive p = true ->
     0 <= Registry.Projectile.age p
     /\ Registry.Projectile.age p < Registry.Projectile.lifetime p) ->
    Forall (fun d => 0 <= d
            /\ Registry.Projectile.lifetime p + d < Num.pow2 k) dts ->
    Registry.Projectile.lifetime p
    + inject_Z (Z.of_nat (length dts)) * Num.pow2 (k - 54)
    <= Registry.Projectile.age p + Calls.total dts ->
    Registry.Projectile.isAlive (Calls.projectile_run64 p dts b) = false.
Proof.
  intros Hk. induction dts as [| dt dts IH]; intros p J F H.
  - cbn [Calls.total length Z.of_nat] in H.
    change (inject_Z 0) with 0 in H.
    unfold Calls.projectile_run64. cbn [fold_left].
    destruct (Registry.Projectile.isAlive p); [| reflexivity].
    destruct (J eq_refl). lra.
  - inversion F as [| a l [H1 Hb] H2]; subst.
    unfold Calls.projectile_run64. cbn [fold_left].
    fold (Calls.projectile_run64 (Registry.Projectile.update64 p dt b)
            dts b).
    pose proof (projectile_update64_fields p dt b) as U. cbv zeta in U.
    destruct U as [U1 [U2 [U3 U4]]].
    destruct (Registry.Projectile.isAlive p) eqn:A;
      [| apply projectile_run64_dead; apply U3; reflexivity].
    destruct (J eq_refl) as [J0 J1].
    destruct (round64_bounds k (Registry.Projectile.age p + dt))
      as [B1 B2]; [exact Hk | lra | lra |].
    pose proof (round64_nonneg (Registry.Projectile.age p + dt)
                  ltac:(lra)) as B0.
    cbn [Calls.total length] in H. rewrite inject_Z_S in H.
    apply IH.
    + intros L. split; [rewrite U2; exact B0 | exact (U4 L)].
    + rewrite U1. exact H2.
    + rewrite U1, U2. lra.
Qed.

(** X27.  No projectile outlives its lifetime by more than the rounding of
    its age: with the age in doubles, below 2 ^ k, after [n] [update]
    calls, one or more, whose frame times are not negative and, added to
    the projectile's age, reach its lifetime and n * 2 ^ (k - 54) more,
    the projectile is not alive, wherever it is; and an update never
    revives a projectile. *)
Theorem X27_projectile_expires (k : Z) (b : Registry.Bounds)
    (p : Registry.Projectile.t) (dt : Q) (dts : list Q)
    (Hk : (-1021 <= k)%Z)
    (Hage : 0 <= Registry.Projectile.age p
            /\ Registry.Projectile.age p < Registry.Projectile.lifetime p)
    (Hforward : Forall (fun d => 0 <= d
                        /\ Registry.Projectile.lifetime p + d < Num.pow2 k)
                       (dt :: dts))
    (Hreach : Registry.Projectile.lifetime p
              + inject_Z (Z.of_nat (length (dt :: dts))) * Num.pow2 (k - 54)
              <= Registry.Projectile.age p + Calls.total (dt :: dts)) :
  Registry.Projectile.isAlive (Calls.projectile_run64 p (dt :: dts) b)
  = false
  /\ forall (q : Registry.Projectile.t) (ds : list Q),
       Registry.Projectile.isAlive q = false ->
       Registry.Projectile.isAlive (Calls.projectile_run64 q ds b) = false.
Proof.
  split; [| intros q ds; apply projectile_run64_dead].
  apply (projectile_run64_expires k b (dt :: dts) Hk p);
    [intros _; exact Hage | exact Hforward | exact Hreach].
Qed.

Lemma X27_projectile_expires_witness :
  Registry.Projectile.isAlive
    (Calls.projectile_run64
       (Registry.Projectile.new 600 400 0 0 3 1 Registry.Projectile.OwnerPlayer)
       [1; 1; 1; 1] Scenario.arena) = false.
Proof.
  assert (F : Forall (fun d => 0 <= d
                      /\ Registry.Projectile.lifetime
                           (Registry.Projectile.new 600 400 0 0 3 1
                              Registry.Projectile.OwnerPlayer) + d
                         < Num.pow2 3) [1; 1; 1; 1])
    by (repeat constructor; vm_compute; (reflexivity || discriminate)).
  refine (proj1 (X27_projectile_expires 3 Scenario.arena
                   (Registry.Projectile.new 600 400 0 0 3 1
                      Registry.Projectile.OwnerPlayer) 1 [1; 1; 1]
                   _ _ F _)).
  - lia.
  - split; vm_compute; [discriminate | reflexivity].
  - vm_compute. discriminate.
Defined.

(** A projectile at rest, updated 120 times with the double of 0.025, is
    still alive: the 120 doubles add up to its lifetime of 3 s and more,
    its [age] stays below. *)
Lemma projectile_run64_outlives_lifetime :
  let dt := Num.round64 0.025 in
  let p := Calls.projectile_run64
             (Registry.Projectile.new 600 400 0 0 3 1
                Registry.Projectile.OwnerPlayer)
             (repeat dt 120) Scenario.arena in
  3 <= 120 * dt
  /\ Registry.Projectile.isAlive p = true
  /\ Registry.Projectile.age p < 3.
Proof. vm_compute. repeat split; discriminate. Qed.

(** ** The event bus of core.js *)

Section EventBusProperties.

Variables E C : Type.
Variable E_eqb : E -> E -> bool.
Variable C_eqb : C -> C -> bool.
Hypothesis E_eqb_eq : forall a b : E, E_eqb a b = true <-> a = b.
Hypothesis C_eqb_eq : forall a b : C, C_eqb a b = true <-> a = b.

Lemma E_eqb_refl (a : E) : E_eqb a a = true.
Proof. apply E_eqb_eq. reflexivity. Qed.

Lemma E_eqb_neq (a b : E) : E_eqb a b = false <-> a <> b.
Proof.
  split.
  - intros H Heq. apply E_eqb_eq in Heq. congruence.
  - intros H. destruct (E_eqb a b) eqn:X; [| reflexivity].
    apply E_eqb_eq in X. contradiction.
Qed.

Lemma eventbus_get_set (bus : Registry.EventBus.t E C) (ev ev' : E)
    (cs : list C) :
  Registry.EventBus.get E C E_eqb
    (Registry.EventBus.set E C E_eqb bus ev cs) ev'
  = if E_eqb ev ev' then Some cs
    else Registry.EventBus.get E C E_eqb bus ev'.
Proof.
  induction bus as [| [e v] rest IH].
  - cbn. destruct (E_eqb ev ev'); reflexivity.
  - cbn [Registry.EventBus.set Registry.EventBus.get].
    destruct (E_eqb e ev) eqn:A.
    + apply E_eqb_eq in A. subst e.
      cbn [Registry.EventBus.get].
      destruct (E_eqb ev ev'); reflexivity.
    + cbn [Registry.EventBus.get]. rewrite IH.
      destruct (E_eqb e ev') eqn:B; [| reflexivity].
      apply E_eqb_eq in B. subst ev'.
      apply E_eqb_neq in A.
      assert (X : E_eqb ev e = false) by (apply E_eqb_neq; congruence).
      rewrite X. reflexivity.
Qed.

Lemma eventbus_emit_get (bus : Registry.EventBus.t E C) (ev : E) :
  Registry.EventBus.emit E C E_eqb bus ev
  = match Registry.EventBus.get E C E_eqb bus ev with
    | Some cs => cs
    | None => []
    end.
Proof.
  unfold Registry.EventBus.emit, Registry.EventBus.has.
  destruct (Registry.EventBus.get E C E_eqb bus ev); reflexivity.
Qed.

Lemma eventbus_emit_on (bus : Registry.EventBus.t E C) (ev ev' : E)
    (cb : C) :
  Registry.EventBus.emit E C E_eqb
    (Registry.EventBus.on E C E_eqb bus ev cb) ev'
  = if E_eqb ev ev'
    then Registry.EventBus.emit E C E_eqb bus ev' ++ [cb]
    else Registry.EventBus.emit E C E_eqb bus ev'.
Proof.
  rewrite !eventbus_emit_get.
  unfold Registry.EventBus.on, Registry.EventBus.has.
  destruct (Registry.EventBus.get E C E_eqb bus ev) as [cs |] eqn:G;
    cbn [negb]; cbv zeta.
  - rewrite G, eventbus_get_set.
    destruct (E_eqb ev ev') eqn:A; [| reflexivity].
    apply E_eqb_eq in A. subst ev'. rewrite G. reflexivity.
  - rewrite eventbus_get_set, E_eqb_refl, !eventbus_get_set.
    destruct (E_eqb ev ev') eqn:A; [| reflexivity].
    apply E_eqb_eq in A. subst ev'. rewrite G. reflexivity.
Qed.

Lemma eventbus_emit_off (bus : Registry.EventBus.t E C) (ev ev' : E)
    (cb : C) :
  Registry.EventBus.emit E C E_eqb
    (Registry.EventBus.off E C E_eqb C_eqb bus ev cb) ev'
  = if E_eqb ev ev'
    then Registry.EventBus.remove_first C C_eqb cb
           (Registry.EventBus.emit E C E_eqb bus ev')
    else Registry.EventBus.emit E C E_eqb bus ev'.
Proof.
  rewrite !eventbus_emit_get.
  unfold Registry.EventBus.off, Registry.EventBus.has.
  destruct (Registry.EventBus.get E C E_eqb bus ev) as [cs |] eqn:G; cbn [negb].
  - rewrite eventbus_get_set.
    destruct (E_eqb ev ev') eqn:A; [| reflexivity].
    apply E_eqb_eq in A. subst ev'. rewrite G. reflexivity.
  - destruct (E_eqb ev ev') eqn:A; [| reflexivity].
    apply E_eqb_eq in A. subst ev'. rewrite G. reflexivity.
Qed.

Lemma remove_first_last (cb : C) (cs : list C) :
  ~ In cb cs -> Registry.EventBus.remove_first C C_eqb cb (cs ++ [cb]) = cs.
Proof.
  induction cs as [| c cs IH]; intros H.
  - cbn. assert (X : C_eqb cb cb = true) by (apply C_eqb_eq; reflexivity).
    rewrite X. reflexivity.
  - cbn [app Registry.EventBus.remove_first].
    destruct (C_eqb c cb) eqn:A.
    + apply C_eqb_eq in A. subst c. contradiction H. left. reflexivity.
    + rewrite IH; [reflexivity |].
      intros X. apply H. right. exact X.
Qed.

Lemma eventbus_laws (bus : Registry.EventBus.t E C) (ev ev' : E) (cb : C) :
  Registry.EventBus.emit E C E_eqb
    (Registry.EventBus.on E C E_eqb bus ev cb) ev'
  = (if E_eqb ev ev'
     then Registry.EventBus.emit E C E_eqb bus ev' ++ [cb]
     else Registry.EventBus.emit E C E_eqb bus ev')
  /\ Registry.EventBus.emit E C E_eqb
       (Registry.EventBus.off E C E_eqb C_eqb bus ev cb) ev'
     = (if E_eqb ev ev'
        then Registry.EventBus.remove_first C C_eqb cb
               (Registry.EventBus.emit E C E_eqb bus ev')
        else Registry.EventBus.emit E C E_eqb bus ev')
  /\ (~ In cb (Registry.EventBus.emit E C E_eqb bus ev) ->
      Registry.EventBus.emit E C E_eqb
        (Registry.EventBus.off E C E_eqb C_eqb
           (Registry.EventBus.on E C E_eqb bus ev cb) ev cb) ev'
      = Registry.EventBus.emit E C E_eqb bus ev')
  /\ Registry.EventBus.emit E C E_eqb (Registry.EventBus.clear E C bus) ev'
     = []
  /\ Registry.EventBus.emit E C E_eqb (Registry.EventBus.new E C) ev' = [].
Proof.
  split; [apply eventbus_emit_on |].
  split; [apply eventbus_emit_off |].
  split; [| split; reflexivity].
  intros H. rewrite eventbus_emit_off, eventbus_emit_on.
  destruct (E_eqb ev ev') eqn:A; [| reflexivity].
  apply E_eqb_eq in A. subst ev'.
  apply remove_first_last. exact H.
Qed.

End EventBusProperties.

(** X28.  The event bus keeps its listeners in registration order:
    [on] adds the callback at the end of the list of its event and leaves
    the other events alone (a callback registered twice is called twice),
    [off] removes the first occurrence only, registering a callback that
    was absent and removing it again restores what [emit] calls for every
    event, and nothing is called for an event without listeners or after
    [clear]. *)
Theorem X28_eventbus_round_trip (E C : Type)
    (E_eqb : E -> E -> bool) (C_eqb : C -> C -> bool)
    (E_eqb_eq : forall a b : E, E_eqb a b = true <-> a = b)
    (C_eqb_eq : forall a b : C, C_eqb a b = true <-> a = b)
    (bus : Registry.EventBus.t E C) (ev ev' : E) (cb : C) :
  Registry.EventBus.emit E C E_eqb
    (Registry.EventBus.on E C E_eqb bus ev cb) ev'
  = (if E_eqb ev ev'
     then Registry.EventBus.emit E C E_eqb bus ev' ++ [cb]
     else Registry.EventBus.emit E C E_eqb bus ev')
  /\ Registry.EventBus.emit E C E_eqb
       (Registry.EventBus.off E C E_eqb C_eqb bus ev cb) ev'
     = (if E_eqb ev ev'
        then Registry.EventBus.remove_first C C_eqb cb
               (Registry.EventBus.emit E C E_eqb bus ev')
        else Registry.EventBus.emit E C E_eqb bus ev')
  /\ (~ In cb (Registry.EventBus.emit E C E_eqb bus ev) ->
      Registry.EventBus.emit E C E_eqb
        (Registry.EventBus.off E C E_eqb C_eqb
           (Registry.EventBus.on E C E_eqb bus ev cb) ev cb) ev'
      = Registry.EventBus.emit E C E_eqb bus ev')
  /\ Registry.EventBus.emit E C E_eqb (Registry.EventBus.clear E C bus) ev'
     = []
  /\ Registry.EventBus.emit E C E_eqb (Registry.EventBus.new E C) ev' = [].
Proof.
  exact (eventbus_laws E C E_eqb C_eqb E_eqb_eq C_eqb_eq bus ev ev' cb).
Qed.

Lemma X28_eventbus_round_trip_witness :
  Registry.EventBus.emit nat nat Nat.eqb
    (Registry.EventBus.off nat nat Nat.eqb Nat.eqb
       (Registry.EventBus.on nat nat Nat.eqb
          (Registry.EventBus.on nat nat Nat.eqb
             (Registry.EventBus.new nat nat) 1%nat 7%nat)
          1%nat 8%nat)
       1%nat 8%nat)
    1%nat
  = [7%nat].
Proof.
  destruct (X28_eventbus_round_trip nat nat Nat.eqb Nat.eqb Nat.eqb_eq
              Nat.eqb_eq
              (Registry.EventBus.on nat nat Nat.eqb
                 (Registry.EventBus.new nat nat) 1%nat 7%nat)
              1%nat 1%nat 8%nat) as [_ [_ [R _]]].
  rewrite R; [reflexivity |].
  cbn. intros [H | H]; [discriminate H | exact H].
Defined.

(** ** The weapon-switch key *)

Lemma input_run_spaced (steps : list Calls.InputStep) :
  forall (p : Registry.KeyboardMouseProvider.t)
         (im : Registry.InputManager.t) (c : Q),
    (Registry.InputManager.switchWeapon im = true ->
     Registry.InputManager.weaponSwitchCooldown
     <= c - Registry.InputManager.lastWeaponSwitchTime im) ->
    Calls.clocked c steps ->
    Calls.spaced Registry.InputManager.weaponSwitchCooldown
                 (Registry.InputManager.lastWeaponSwitchTime im)
                 (fst (Calls.input_run p im steps)).
Proof.
  induction steps as [| s steps IH]; intros p im c J K; [exact I |].
  destruct s as [code now | code | now]; cbn [Calls.input_run Calls.clocked]
    in K |- *.
  - destruct K as [K1 K2].
    unfold Registry.KeyboardMouseProvider.handleKeyDown.
    destruct (Registry.KeyboardMouseProvider.keyMap code) as [a |];
      [destruct a |];
      try (match goal with
           | |- context [Calls.input_run ?q im steps] =>
               apply (IH q im now);
               [intros F; specialize (J F); lra | exact K2]
           end).
    + destruct (negb (Registry.InputManager.switchWeapon im)
                && Registry.InputManager.canSwitchWeapon im now) eqn:G.
      * apply andb_prop in G. destruct G as [_ G].
        unfold Registry.InputManager.canSwitchWeapon in G.
        apply geb_true in G.
        match goal with
        | |- context [Calls.input_run ?q ?m steps] =>
            apply (IH q m now); [| exact K2]
        end.
        intros _. exact G.
      * apply (IH p im now); [intros F; specialize (J F); lra | exact K2].
    + destruct (negb (Registry.InputManager.creatorMode im)
                && Registry.InputManager.canToggleCreatorMode im now).
      * match goal with
        | |- context [Calls.input_run ?q ?m steps] =>
            apply (IH q m now); [| exact K2]
        end.
        cbn [Registry.InputManager.switchWeapon
             Registry.InputManager.lastWeaponSwitchTime].
        intros F; specialize (J F); lra.
      * apply (IH p im now); [intros F; specialize (J F); lra | exact K2].
  - apply (IH _ im c); assumption.
  - destruct K as [K1 K2].
    unfold Registry.InputManager.getWeaponSwitch.
    destruct (Registry.InputManager.switchWeapon im) eqn:F.
    + specialize (J eq_refl).
      specialize (IH p (Registry.InputManager.clearWeaponSwitch im now) now).
      destruct (Calls.input_run p
                  (Registry.InputManager.clearWeaponSwitch im now) steps)
        as [ts r].
      cbn [fst Calls.spaced]. split; [lra |].
      apply IH; [intros X; discriminate X | exact K2].
    + apply (IH p im now); [intros X; congruence | exact K2].
Qed.

(** X29.  The weapon-switch key is debounced: with a clock that does not
    run backwards and no switch pending at the start, over any sequence of
    key presses, key releases and weapon-switch blocks of the driver, two
    calls of [toggleWeapon()] are at least the cooldown (0.2 s) apart, and
    the first is at least the cooldown after [lastWeaponSwitchTime];
    holding the key (repeated keydown events) does not switch again. *)
Theorem X29_weapon_switch_debounced (steps : list Calls.InputStep)
    (p : Registry.KeyboardMouseProvider.t) (im : Registry.InputManager.t)
    (c : Q)
    (Hidle : Registry.InputManager.switchWeapon im = false)
    (Hclock : Calls.clocked c steps) :
  Calls.spaced Registry.InputManager.weaponSwitchCooldown
               (Registry.InputManager.lastWeaponSwitchTime im)
               (fst (Calls.input_run p im steps)).
Proof.
  apply (input_run_spaced steps p im c); [| exact Hclock].
  rewrite Hidle. discriminate.
Qed.

Lemma X29_weapon_switch_debounced_witness :
  fst (Calls.input_run Registry.KeyboardMouseProvider.new
         Registry.InputManager.new
         [Calls.IKeyDown Registry.KeyboardMouseProvider.KeyR 1;
          Calls.ISwitchBlock 1.01;
          Calls.IKeyDown Registry.KeyboardMouseProvider.KeyR 1.05;
          Calls.ISwitchBlock 1.06;
          Calls.IKeyDown Registry.KeyboardMouseProvider.KeyR 1.3;
          Calls.ISwitchBlock 1.31])
  = [1.01; 1.31]
  /\ Calls.spaced Registry.InputManager.weaponSwitchCooldown 0
       [1.01; 1.31].
Proof.
  split; [reflexivity |].
  refine (X29_weapon_switch_debounced
            [Calls.IKeyDown Registry.KeyboardMouseProvider.KeyR 1;
             Calls.ISwitchBlock 1.01;
             Calls.IKeyDown Registry.KeyboardMouseProvider.KeyR 1.05;
             Calls.ISwitchBlock 1.06;
             Calls.IKeyDown Registry.KeyboardMouseProvider.KeyR 1.3;
             Calls.ISwitchBlock 1.31]
            Registry.KeyboardMouseProvider.new Registry.InputManager.new 0
            eq_refl _).
  cbn [Calls.clocked]. repeat split; lra.
Defined.

(** ** The Shooter's bullets *)

(** X30.  [Shooter.update] fires at most one bullet per call: none while
    the player is dead (the Shooter does nothing at all then) or while its
    fire timer, with the frame time added, is below the fire rate; exactly
    one when the timer reaches it, which resets the timer to 0 and calls
    [Math.random()] once.  The bullet starts at the Shooter's centre, is
    alive with age 0, damage 1 and the Shooter bullet lifetime, and is a
    Shooter's: not the player's, so [handleCollisions] never turns it on
    an enemy. *)
Theorem X30_shooter_fires_one_bullet (sqrt : Q -> Q) (atan2 : Q -> Q -> Q)
    (cos sin : Q -> Q) (PI : Q)
    (e : Registry.Enemy.t) (s : Registry.Enemy.ShooterState) (dt : Q)
    (player : Registry.Player.t) (bounds : Registry.Bounds)
    (projectiles : list Registry.Projectile.t) (rng : Num.Rng) :
  let r := Registry.Enemy.update_Shooter sqrt atan2 cos sin PI e s dt
             player bounds projectiles rng in
  (Registry.Player.isAlive player = false ->
   r = (e, projectiles, rng))
  /\ (Registry.Player.isAlive player = true ->
      Registry.Enemy.fireTimer s + dt < Registry.SHOOTER_FIRE_RATE ->
      snd (fst r) = projectiles /\ snd r = rng
      /\ exists s', Registry.Enemy.kind (fst (fst r)) = Registry.Enemy.Shooter s'
                    /\ Registry.Enemy.fireTimer s'
                       = Registry.Enemy.fireTimer s + dt)
  /\ (Registry.Player.isAlive player = true ->
      Registry.SHOOTER_FIRE_RATE <= Registry.Enemy.fireTimer s + dt ->
      (exists bullet,
         snd (fst r) = projectiles ++ [bullet]
         /\ Registry.Projectile.owner bullet
            = Registry.Projectile.OwnerShooter
         /\ Registry.Projectile.lifetime bullet
            = Registry.SHOOTER_BULLET_LIFETIME
         /\ Registry.Projectile.age bullet = 0
         /\ Registry.Projectile.damage bullet = 1%Z
         /\ Registry.Projectile.isAlive bullet = true
         /\ Registry.Entity.x (Registry.Projectile.ent bullet)
            = Registry.Entity.x (Registry.Enemy.ent e)
         /\ Registry.Entity.y (Registry.Projectile.ent bullet)
            = Registry.Entity.y (Registry.Enemy.ent e))
      /\ snd r = snd (Num.next rng)
      /\ exists s', Registry.Enemy.kind (fst (fst r)) = Registry.Enemy.Shooter s'
                    /\ Registry.Enemy.fireTimer s' = 0).
Proof.
  cbv zeta. unfold Registry.Enemy.update_Shooter.
  destruct (Registry.Player.isAlive player); cbn [negb].
  - split; [discriminate |].
    split; intros _ T.
    + apply geb_false in T.
      destruct (Num.eqb (Registry.Enemy.centerX s) 0
                && Num.eqb (Registry.Enemy.centerY s) 0);
        destruct (Registry.Enemy.isMoving s && Num.ltb _ _);
        try destruct (Num.gtb _ 5);
        rewrite T; cbv zeta; cbn [fst snd];
        (split; [reflexivity | split; [reflexivity |]]);
        eexists; split; reflexivity.
    + apply Qle_bool_iff in T. fold (Num.geb (Registry.Enemy.fireTimer s + dt)
                                       Registry.SHOOTER_FIRE_RATE) in T.
      destruct (Num.eqb (Registry.Enemy.centerX s) 0
                && Num.eqb (Registry.Enemy.centerY s) 0);
        destruct (Registry.Enemy.isMoving s && Num.ltb _ _);
        try destruct (Num.gtb _ 5);
        rewrite T; unfold Num.next; cbv zeta; cbn [fst snd];
        (split; [eexists; repeat split |
                 split; [reflexivity | eexists; split; reflexivity]]).
  - split; [reflexivity |]. split; discriminate.
Qed.

(** ** The state test of the single-file game *)

Lemma monolith_update_gated (sqrt : Q -> Q) (atan2 : Q -> Q -> Q)
    (cos sin : Q -> Q) (PI : Q) (gs : Monolith.GameStateRec) (dt : Q)
    (inputManager : Monolith.Input) (currentTime : Q) (rng : Num.Rng) :
  Monolith.currentState gs <> Monolith.PLAYING ->
  Monolith.update sqrt atan2 cos sin PI gs dt inputManager currentTime rng
  = (gs, rng).
Proof.
  intros H. unfold Monolith.update.
  destruct (Monolith.currentState gs); try reflexivity.
  contradiction H. reflexivity.
Qed.

(** * The drivers over whole runs *)

(** ** The collision pass has nothing to do twice *)

































(** ** The nested calls of the modular [update] *)

Lemma update_entities_frame (sqrt : Q -> Q) (g : Modular.Game.t) (dt : Q)
    (mv : option (Q * Q)) :
  let g' := Modular.Game.update_entities sqrt g dt mv in
  Modular.Game.isPaused g' = Modular.Game.isPaused g
  /\ Modular.GameStateMachine.currentState (Modular.Game.stateMachine g')
     = Modular.GameStateMachine.currentState (Modular.Game.stateMachine g).
Proof.
  cbv zeta. unfold Modular.Game.update_entities. cbv zeta.
  set (g1 := match mv with
             | Some mv0 => _
             | None => _
             end).
  assert (P1 : Modular.Game.isPaused g1 = Modular.Game.isPaused g
               /\ Modular.Game.stateMachine g1
                  = Modular.Game.stateMachine g).
  { subst g1. destruct mv; split; reflexivity. }
  destruct P1 as [P1 S1].
  pose proof (modular_handleCollisions_frame sqrt
                (Modular.Game.updateBullets
                   (Modular.Game.updateEnemies sqrt g1 dt) dt)) as F.
  cbv zeta in F. destruct F as [F1 F2].
  cbn [Modular.Game.updateBullets Modular.Game.updateEnemies
       Modular.Game.set_bullets Modular.Game.set_enemies
       Modular.Game.isPaused Modular.Game.stateMachine] in F1, F2.
  cbn [Modular.Game.cleanupEntities Modular.Game.set_bullets
       Modular.Game.set_enemies Modular.Game.stateMachine
       Modular.Game.isPaused Modular.Game.bullets Modular.Game.enemies].
  cbn [Modular.Game.updateBullets Modular.Game.updateEnemies
       Modular.Game.set_bullets Modular.Game.set_enemies].
  rewrite F1, F2, P1, S1. split; reflexivity.
Qed.

Lemma update_spawnTimer_frame (sqrt : Q -> Q) (g : Modular.Game.t) (dt : Q)
    (rng : Num.Rng) :
  let g' := fst (Modular.Game.update_spawnTimer sqrt g dt rng) in
  Modular.Game.isPaused g' = Modular.Game.isPaused g
  /\ Modular.GameStateMachine.currentState (Modular.Game.stateMachine g')
     = Modular.GameStateMachine.currentState (Modular.Game.stateMachine g)
  /\ Modular.Game.player g' = Modular.Game.player g.
Proof.
  cbv zeta. unfold Modular.Game.update_spawnTimer. cbv zeta.
  destruct (Num.geb _ _); [| repeat split].
  unfold Modular.Game.spawnEnemy.
  destruct (Modular.Enemy.spawn _ _ _ _) as [enemy rng'].
  repeat split.
Qed.

(** Every nested call starts in PLAYING and not paused. *)
Lemma nested_playing (sqrt : Q -> Q) (dt : Q) (mv : option (Q * Q))
    (n : nat) :
  forall (g : Modular.Game.t) (rng : Num.Rng),
  Modular.Game.isPaused g = false ->
  Modular.GameStateMachine.currentState (Modular.Game.stateMachine g)
  = Modular.PLAYING ->
  let g' := fst (Modular.Game.nested sqrt n g dt mv rng) in
  Modular.Game.isPaused g' = false
  /\ Modular.GameStateMachine.currentState (Modular.Game.stateMachine g')
     = Modular.PLAYING.
Proof.
  induction n as [| n IH]; intros g rng HP HS; cbv zeta;
    cbn [Modular.Game.nested]; [split; assumption |].
  specialize (IH g rng HP HS). cbv zeta in IH.
  destruct (Modular.Game.nested sqrt n g dt mv rng) as [g1 rng1].
  cbn [fst] in IH. destruct IH as [I1 I2].
  destruct (update_entities_frame sqrt g1 dt mv) as [E1 E2].
  destruct (update_spawnTimer_frame sqrt
              (Modular.Game.update_entities sqrt g1 dt mv) dt rng1)
    as [S1 [S2 _]].
  rewrite S1, S2, E1, E2. split; assumption.
Qed.

(** The call of [update] on a game in PLAYING that is not paused is the
    nested call on the game that the two stretches of code leave, followed
    by the health check. *)
Lemma update_calls_nested (sqrt : Q -> Q) (fuel : nat) (g : Modular.Game.t)
    (dt : Q) (mv : option (Q * Q)) (now : Q) (rng : Num.Rng) :
  Modular.Game.isPaused g = false ->
  Modular.GameStateMachine.currentState (Modular.Game.stateMachine g)
  = Modular.PLAYING ->
  Modular.Game.update sqrt (S fuel) g dt mv now rng
  = match Modular.Game.update sqrt fuel
            (fst (Modular.Game.nested sqrt 1 g dt mv rng)) dt mv now
            (snd (Modular.Game.nested sqrt 1 g dt mv rng)) with
    | None => None
    | Some (g, rng) =>
        if (Modular.Entity.health
              (Modular.Player.ent (Modular.Game.player g)) <=? 0)%Z
        then
          let kills :=
            Modular.PlayingState.killCount
              (Modular.GameStateMachine.playing
                 (Modular.Game.stateMachine g)) in
          Some (Modular.Game.set_stateMachine g
                  (Modular.GameStateMachine.setState
                     (Modular.Game.stateMachine g) Modular.GAME_OVER
                     (Modular.mkData (Some kills) (Some (kills * 100)%Z)
                                     None)
                     now),
                rng)
        else Some (g, rng)
    end.
Proof.
  intros HP HS.
  destruct (update_entities_frame sqrt g dt mv) as [_ E2].
  cbn [Modular.Game.update Modular.Game.nested]. rewrite HP.
  fold (Modular.Game.update_entities sqrt g dt mv).
  rewrite E2, HS.
  fold (Modular.Game.update_spawnTimer sqrt
          (Modular.Game.update_entities sqrt g dt mv) dt rng).
  destruct (Modular.Game.update_spawnTimer sqrt
              (Modular.Game.update_entities sqrt g dt mv) dt rng)
    as [g1 rng1].
  reflexivity.
Qed.

Lemma modular_setState_game_over (sm : Modular.GameStateMachine.t)
    (data : Modular.StateData) (now : Q) :
  Modular.GameStateMachine.currentState sm = Modular.PLAYING ->
  Modular.GameStateMachine.setState sm Modular.GAME_OVER data now
  = let s := Modular.GameOverState.enter
               (Modular.GameStateMachine.gameOver sm) data in
    Modular.GameStateMachine.mk Modular.GAME_OVER (Some Modular.PLAYING)
      now data (Modular.GameStateMachine.playing sm) s
      (Modular.GameStateMachine.console sm
       ++ [Modular.ExitedPlaying;
           Modular.GameOverLine (Modular.GameOverState.finalScore s)
                                (Modular.GameOverState.killCount s);
           Modular.StateChanged (Some Modular.PLAYING) Modular.GAME_OVER]).
Proof.
  intros HP. unfold Modular.GameStateMachine.setState. rewrite HP.
  cbn. unfold Modular.GameStateMachine.say. cbn. rewrite HP.
  rewrite <- !app_assoc. reflexivity.
Qed.

(** C7.  The transition to GAME_OVER in the two drivers.  Asking either
    state machine for the state it is in changes nothing, and a request
    for GAME_OVER made to the modular machine in PLAYING performs the
    transition once: the handlers' lines and 'State changed' are logged
    once each, and further requests for GAME_OVER change nothing.  In the
    registry driver, over any ticks from PLAYING with a living player, the
    machine stays as it was while the player is alive at the end, and
    otherwise is in GAME_OVER with exactly one more 'stateChanged' event,
    PLAYING to GAME_OVER; a tick that starts in PLAYING ends in GAME_OVER
    exactly when the player is dead at its end; and ticks in GAME_OVER
    leave the machine and the HUD requests as they are.  In the modular
    driver the request is never made: [update] on the new game does not
    return, whatever depth of calls is allowed, since every call nested in
    it starts in PLAYING and not paused and calls again before the health
    check; meanwhile the player dies (with frames of 500 ms and the
    enemies spawned above the player, the call nested 17 deep starts with
    a player of health 0, in PLAYING). *)
Theorem C7_game_over_transition :
  (forall sm : Registry.GameStateMachine.t,
     Registry.GameStateMachine.setState
       sm (Registry.GameStateMachine.currentState sm) = sm)
  /\
  (forall (sm : Modular.GameStateMachine.t) (data : Modular.StateData)
          (now : Q),
     Modular.GameStateMachine.setState
       sm (Modular.GameStateMachine.currentState sm) data now = sm)
  /\
  (forall (sm : Modular.GameStateMachine.t) (data : Modular.StateData)
          (now : Q),
     Modular.GameStateMachine.currentState sm = Modular.PLAYING ->
     let sm' := Modular.GameStateMachine.setState sm Modular.GAME_OVER
                  data now in
     let s := Modular.GameOverState.enter
                (Modular.GameStateMachine.gameOver sm) data in
     sm' = Modular.GameStateMachine.mk Modular.GAME_OVER
             (Some Modular.PLAYING) now data
             (Modular.GameStateMachine.playing sm) s
             (Modular.GameStateMachine.console sm
              ++ [Modular.ExitedPlaying;
                  Modular.GameOverLine
                    (Modular.GameOverState.finalScore s)
                    (Modular.GameOverState.killCount s);
                  Modular.StateChanged (Some Modular.PLAYING)
                                       Modular.GAME_OVER])
     /\ forall (data' : Modular.StateData) (now' : Q),
          Modular.GameStateMachine.setState sm' Modular.GAME_OVER
            data' now' = sm')
  /\
  (forall (sqrt : Q -> Q) (atan2 : Q -> Q -> Q) (cos sin : Q -> Q) (PI : Q)
          (tks : list Registry.Game.Tick) (g : Registry.Game.t)
          (rng : Num.Rng),
     Registry.GameStateMachine.currentState (Registry.Game.stateMachine g)
     = Registry.PLAYING ->
     Registry.Player.isAlive (Registry.Game.player g) = true ->
     let g' := fst (Registry.Game.run sqrt atan2 cos sin PI g tks rng) in
     let sm := Registry.Game.stateMachine g in
     let sm' := Registry.Game.stateMachine g' in
     if Registry.Player.isAlive (Registry.Game.player g')
     then sm' = sm
     else Registry.GameStateMachine.currentState sm' = Registry.GAME_OVER
          /\ Registry.GameStateMachine.emitted sm'
             = Registry.GameStateMachine.emitted sm
               ++ [(Registry.PLAYING, Registry.GAME_OVER)])
  /\
  (forall (sqrt : Q -> Q) (atan2 : Q -> Q -> Q) (cos sin : Q -> Q) (PI : Q)
          (g : Registry.Game.t) (tk : Registry.Game.Tick) (rng : Num.Rng),
     Registry.GameStateMachine.currentState (Registry.Game.stateMachine g)
     = Registry.PLAYING ->
     let g' := fst (Registry.Game.update sqrt atan2 cos sin PI g tk rng) in
     Registry.GameStateMachine.currentState (Registry.Game.stateMachine g')
     = if Registry.Player.isAlive (Registry.Game.player g')
       then Registry.PLAYING else Registry.GAME_OVER)
  /\
  (forall (sqrt : Q -> Q) (atan2 : Q -> Q -> Q) (cos sin : Q -> Q) (PI : Q)
          (tks : list Registry.Game.Tick) (g : Registry.Game.t)
          (rng : Num.Rng),
     Registry.GameStateMachine.currentState (Registry.Game.stateMachine g)
     = Registry.GAME_OVER ->
     let g' := fst (Registry.Game.run sqrt atan2 cos sin PI g tks rng) in
     Registry.Game.stateMachine g' = Registry.Game.stateMachine g
     /\ Registry.Game.ui g' = Registry.Game.ui g)
  /\
  (forall (sqrt : Q -> Q) (fuel : nat) (now0 dt : Q)
          (moveVector : option (Q * Q)) (now : Q) (rng : Num.Rng),
     Modular.Game.update sqrt fuel (Modular.Game.new now0) dt moveVector
                         now rng = None)
  /\
  (forall (sqrt : Q -> Q) (n : nat) (now0 dt : Q)
          (moveVector : option (Q * Q)) (rng : Num.Rng),
     let g := fst (Modular.Game.nested sqrt n (Modular.Game.new now0) dt
                     moveVector rng) in
     Modular.Game.isPaused g = false
     /\ Modular.GameStateMachine.currentState (Modular.Game.stateMachine g)
        = Modular.PLAYING)
  /\
  (let g := fst (Modular.Game.nested Num.sqrt6 17 (Modular.Game.new 0) 500
                   (Some (0, 0)) Scenario.C7_rng) in
   Modular.Entity.health (Modular.Player.ent (Modular.Game.player g)) = 0%Z
   /\ Modular.GameStateMachine.currentState (Modular.Game.stateMachine g)
      = Modular.PLAYING
   /\ Modular.GameStateMachine.console (Modular.Game.stateMachine g) = []).
Proof.
  split; [| split; [| split; [| split; [| split; [| split;
    [| split; [| split]]]]]]].
  - intros sm. unfold Registry.GameStateMachine.setState.
    rewrite registry_GameState_eqb_refl. reflexivity.
  - intros sm data now. unfold Modular.GameStateMachine.setState.
    rewrite modular_GameState_eqb_refl. reflexivity.
  - intros sm data now HP. cbv zeta.
    rewrite (modular_setState_game_over sm data now HP). cbv zeta.
    split; reflexivity.
  - intros sqrt atan2 cos sin PI tks g rng HP HA. cbv zeta.
    pose proof (run_from_playing sqrt atan2 cos sin PI tks g rng HP HA) as R.
    cbv zeta in R.
    destruct (Registry.Player.isAlive
                (Registry.Game.player
                   (fst (Registry.Game.run sqrt atan2 cos sin PI g tks
                                           rng)))).
    + exact R.
    + rewrite R, (setState_leaves_playing _ HP). split; reflexivity.
  - intros sqrt atan2 cos sin PI g tk rng HP. cbv zeta.
    pose proof (update_from_playing sqrt atan2 cos sin PI g tk rng HP) as U.
    cbv zeta in U. rewrite U.
    destruct (Registry.Player.isAlive _); [exact HP |].
    rewrite (setState_leaves_playing _ HP). reflexivity.
  - intros sqrt atan2 cos sin PI tks g rng HG.
    destruct (run_from_game_over sqrt atan2 cos sin PI tks g rng HG)
      as [R1 [R2 _]].
    split; assumption.
  - intros sqrt fuel now0 dt mv now rng.
    apply modular_update_diverges; reflexivity.
  - intros sqrt n now0 dt mv rng.
    apply nested_playing; reflexivity.
  - vm_compute. repeat split; reflexivity.
Qed.

Lemma C7_game_over_transition_witness :
  (let g := Scenario.C7_game in
   let g1 := fst (Registry.Game.run Num.sqrt6 Scenario.flat2 Scenario.flat
                    Scenario.flat 3 g [Scenario.idle_tick] Scenario.rng0) in
   let g3 := fst (Registry.Game.run Num.sqrt6 Scenario.flat2 Scenario.flat
                    Scenario.flat 3 g Scenario.C7_ticks Scenario.rng0) in
   Registry.GameStateMachine.currentState (Registry.Game.stateMachine g)
   = Registry.PLAYING
   /\ Registry.Player.isAlive (Registry.Game.player g) = true
   /\ Registry.Player.isAlive (Registry.Game.player g3) = false
   /\ Registry.GameStateMachine.currentState (Registry.Game.stateMachine g3)
      = Registry.GAME_OVER
   /\ Registry.GameStateMachine.emitted (Registry.Game.stateMachine g3)
      = [(Registry.BOOT, Registry.PLAYING);
         (Registry.PLAYING, Registry.GAME_OVER)]
   /\ Registry.Game.stateMachine g3 = Registry.Game.stateMachine g1)
  /\
  (let sm := Modular.GameStateMachine.new 0 in
   let sm1 := Modular.GameStateMachine.setState sm Modular.GAME_OVER
                (Modular.mkData (Some 4%Z) (Some 400%Z) None) 10 in
   Modular.GameStateMachine.console sm1
   = [Modular.ExitedPlaying; Modular.GameOverLine 400 4;
      Modular.StateChanged (Some Modular.PLAYING) Modular.GAME_OVER]
   /\ Modular.GameStateMachine.setState sm1 Modular.GAME_OVER
        (Modular.mkData (Some 5%Z) (Some 500%Z) None) 20 = sm1).
Proof.
  destruct C7_game_over_transition
    as [_ [_ [H2 [H3 [_ [H5 _]]]]]].
  split.
  - intros g g1 g3.
    assert (HP : Registry.GameStateMachine.currentState
                   (Registry.Game.stateMachine g) = Registry.PLAYING)
      by reflexivity.
    assert (HA : Registry.Player.isAlive (Registry.Game.player g) = true)
      by reflexivity.
    assert (HD : Registry.Player.isAlive (Registry.Game.player g3) = false)
      by (vm_compute; reflexivity).
    pose proof (H3 Num.sqrt6 Scenario.flat2 Scenario.flat Scenario.flat 3
                   Scenario.C7_ticks g Scenario.rng0 HP HA) as K.
    cbv zeta in K. fold g3 in K. rewrite HD in K. destruct K as [K1 K2].
    assert (HG : Registry.GameStateMachine.currentState
                   (Registry.Game.stateMachine g1) = Registry.GAME_OVER)
      by (vm_compute; reflexivity).
    pose proof (H5 Num.sqrt6 Scenario.flat2 Scenario.flat Scenario.flat 3
                   [Scenario.idle_tick; Scenario.idle_tick] g1 Scenario.rng0
                   HG) as [L _].
    split; [exact HP | split; [exact HA | split; [exact HD |]]].
    split; [exact K1 | split; [exact K2 |]].
    vm_compute. reflexivity.
  - intros sm sm1.
    destruct (H2 sm (Modular.mkData (Some 4%Z) (Some 400%Z) None) 10
                 eq_refl) as [E F].
    split; [vm_compute; reflexivity |].
    exact (F (Modular.mkData (Some 5%Z) (Some 500%Z) None) 20).
Defined.
